(* ===== verification/_CoqProject ===== *)
-Q . S2P
Prelude.v
Isa.v
Executor.v
ExecutorSpec.v
Generator.v
GeneratorFacts.v
Payloads.v
Hammer.v
RefreshGap.v
Dfi.v
DfiFacts.v
System.v
AddressConverter.v
Config.v
RowMappings.v
RowGenerators.v
HalfDouble.v
HalfDoubleFacts.v
PayloadGenerators.v
Playbook.v
Bist.v
BistFacts.v
PayloadVerifier.v
DramTiming.v
Ddr3.v
Ddr4.v
PyString.v
Spd.v
SpdFacts.v
Device.v
ReadLevel.v
ReadLevelFacts.v
HostMem.v
HostBist.v
BistBoard.v
BistBoardFacts.v
BistHost.v
MemBist.v
ExecHost.v
RowHammerHost.v
RowHammerRest.v
HwRowHammer.v
HwAttack.v
BistAttack.v
ErrorSummary.v
ErrorSummaryFacts.v
HwRun.v
Logs.v
LogsFacts.v
Plots.v
HostScripts.v
ExecutePayload.v
PyCsv.v
PyJson.v
GeneratedFiles.v
VisFiles.v
AttackLog.v
SpdRead.v
PlaybookMain.v
SmallScripts.v
Sessions.v
Targets.v
FifoDut.v
Console.v
Soc.v
SocFacts.v
Build.v
Registers.v
SimRunner.v
SimRunnerFacts.v
Reports.v
