(* ===== verification/Prelude.v ===== *)
(** * Rowhammer tester: verification development

    The rowhammer tester is an FPGA platform for row hammer experiments on DRAM:
    Python code that generates gateware (migen) for the FPGA, and Python scripts
    on a host that program it over a bus.  This library models both halves and
    proves that they do what they are meant to do.  Paths below are relative to
    [src/rowhammer_tester/].

    ** The program and the files that model it

    - The instruction set of payloads, [gateware/payload_executor.py]
      ([OpCode], [Decoder], [Encoder]): [Isa].  A payload is a list of 32-bit
      words; a NOOP of time slice 0 is STOP; LOOP jumps back.
    - The executor of payloads ([PayloadExecutor]): [Executor] is the FSM, one
      clock cycle per step; [ExecutorSpec] is an instruction-level semantics of
      programs (straight code and non-nested loops) and the refinement theorem
      between the two.
    - The payload generator, [scripts/playbook/lib/__init__.py] and
      [get_expected_execution_cycles] of [scripts/utils.py]: [Generator], with its
      facts in [GeneratorFacts] and a closed form of its result in [Payloads].
      [Hammer] puts generator and executor together: how often each row is
      activated, how many refreshes, how many cycles.  [RefreshGap] bounds the
      time between refreshes.
    - The DRAM side of [gateware/payload_executor.py] ([DFIExecutor],
      [RefreshCounter], [DFISwitch], [Scratchpad]): [Dfi] and [DfiFacts].
      [System] composes executor, switch and DFI as [targets/common.py] connects
      them, with reachability, and lifts the hammer count to the DRAM bus.
    - Addresses ([DRAMAddressConverter] of [scripts/utils.py],
      [get_range_from_rows]): [AddressConverter].
    - The playbook, [scripts/playbook/]: configuration access ([Config]), row
      mappings ([RowMappings]), row generators ([RowGenerators]), the half-double
      analysis ([HalfDouble], [HalfDoubleFacts]), the other payload generators
      ([PayloadGenerators]), error decoding and the main loop over the interface
      of a payload generator and of a board ([Playbook]), and the main program
      from the lines of its configuration file on ([PlaybookMain]).  [PyJson] has
      [json.loads] and [json.dump].
    - The self test, [gateware/bist.py] and [gateware/rowhammer.py]: [Bist], with
      its properties in [BistFacts].  [BistBoard] connects writer, reader, pattern
      memories, DRAM and the error FIFO to a board with registers, and
      [BistBoardFacts] has its invariants and its progress.  [scripts/mem_bist.py],
      the test of the self test, runs on that board ([MemBist]).
    - The payload verifier, [payload/verify_payload.py], [ddr3lib.py] and
      [ddr4lib.py]: [PayloadVerifier] is parametric in the class [DramLib];
      [DramTiming] has the tables of next ticks that both standards use and the
      invariant by which a table enforces distances; [Ddr3] and [Ddr4] are the
      two instances.
    - The host: [Device] is the interface to a board (registers and waiting), the
      monad [host] of programs for it and total-correctness triples.  Memory access
      ([HostMem]) and the registers of the self test ([HostBist]) of
      [scripts/utils.py]; its complete programs [hw_memset] and [hw_memtest] on the
      board of [BistBoard] ([BistHost]) and [execute_payload] on the board of
      [System] ([ExecHost]); the attack scripts [scripts/rowhammer.py]
      ([RowHammerHost], [RowHammerRest], and the loop of [main] with [display_errors]
      in [ErrorSummary], [ErrorSummaryFacts]) and [scripts/hw_rowhammer.py]
      ([HwRowHammer]; in [HwAttack] its attack as a whole, on a board with both FSMs
      of the reader, and in [BistAttack] on the board of the self test; in [HwRun] the
      method [run], from the filled memory to the reported flips); read leveling, [scripts/read_level.py] ([ReadLevel],
      [ReadLevelFacts]); the memory test [scripts/mem.py], [sdram_init] and
      [read_ident] ([HostScripts]); [scripts/execute_payload.py]
      ([ExecutePayload]); the terminal [scripts/bios_console.py], two threads between
      a pseudo terminal and the UART ([Console]); [benchmark.py], [leds.py],
      [dump_regs.py] and the inspection functions of [scripts/utils.py]
      ([SmallScripts]); the main programs of the memory test and of the small tools,
      from opening the connection to closing it, with [analyzer.py] and [version.py] ([Sessions]).
    - Logs: the data of [scripts/logs2vis.py] ([Logs], [LogsFacts]) and the files
      that it writes for a viewer ([VisFiles], with a specification of what the files say
      that is found from the configuration: the viewer is no part of the repository);
      [logs2plot.py] and [logs2dq.py] ([Plots]); from the summary that an attack saves to
      these files ([AttackLog]); the simulation log of [scripts/sim_runner.py] ([SimRunner],
      with a matcher for its regular expression, and [SimRunnerFacts]); the tables and
      statistics printed and the logs written at the end of an experiment ([Reports]).
    - SPD data of memory modules, [scripts/spd_eeprom.py] and
      [scripts/decode_ddr5_dimms.py]: [Spd] and [SpdFacts]; [SpdRead] is the dialogue
      with the BIOS that reads them.  [PyString] has the operations on strings that
      the scripts use.
    - Construction of the system, [targets/]: the memories and testers of
      [targets/common.py] and the clocks of [zcu104.py] ([Soc], [SocFacts]); clock
      domains, PHY settings and ports of the boards ([Targets]); the whole
      construction with its peripherals, the main programs of the
      targets and reloading the BIOS ([Build]); the registers that the peripherals
      declare and the accesses of the host programs ([Registers]); the FIFO test module of
      [ddr5_test_board.py] with its two clocks ([FifoDut]).  The files that a build
      writes and the scripts read are in [GeneratedFiles], their CSV format in
      [PyCsv].

    ** Conventions

    Gateware: a register file is a record, a module a function from the inputs and
    registers of a cycle to its outputs and the registers of the next cycle; a
    [w]-bit signal is a [Z] with [trunc w] at assignments.  Behaviour of migen
    that is not in the source (one-hot decoder, [log2_int]) is the class [Migen].
    Scripts: fallible code returns [result], whose errors are the Python
    exceptions; loops that are not structural take fuel.  Code of LiteX and
    LiteDRAM appears as inputs (DMA, FIFOs) or as classes with their documented
    behaviour as laws ([Dfii], [Wishbone], [Fifo], [Timing_], [ReaderTiming], [Ram]), as
    do the console library ([Spawn]) and the logic analyzer ([LiteScope]); the
    witnesses instantiate them.  The operations of a bus are apart from its laws
    ([WishboneOps], [RamOps]), so that the memory test can be studied on memories with
    faults ([FaultyRam]); of the FIFO primitive of the FPGA only the ports are assumed
    ([FIFO18E1]).  Programs that talk to a board are computations of
    [host], which end with a value or an exception, or are still running when the fuel of a
    loop is used up.

    ** What the theorems show

    - Generated payloads: the executor activates each row exactly as often as
      asked, also on the DRAM bus; the refreshes counted are those issued; the
      distance of refreshes is at most tREFI + 1; the outcome of the generator on
      every branch; the announced time leaves out the jumps.
    - Gateware: the executor refines the semantics and ends; it owns the DFI while
      it executes, if the last word of the payload memory does not wait; the switch acts
      at the refresh asked for; the scratchpad stores what is read, if reads have an idle
      cycle in between; the writer writes the pattern and ends; the reader asks for
      the same words, reports exactly the mismatches and loses none; together they
      report exactly the words that changed.
    - Host and gateware together: [execute_payload] returns and by then the bus has
      carried the activations asked for; [hw_memset] and [hw_memtest] return for any
      timing of the DMA and report exactly the words that changed, and the test of the
      self test passes for all random choices; the BIST attack gives the DMA exactly
      the rows asked for, in turn, and ends (if it takes longer than a bus access: the
      examples of [HwAttack] show what the second start does to shorter ones); a whole
      experiment of [hw_rowhammer.py] ends and reports the rows with flips, their number
      and per column the positions in the last changed word, with the
      refresh switched on again; the SPD
      file has the bytes of the module, however the console's output is cut; the
      console delivers all characters in order; a retention test
      runs from its configuration file to its end; the memory test script exits with 0 if
      and only if the faults of the memory leave all words of its tests alone; read
      leveling leaves every module at the middle of a longest window of settings that
      pass its test.
    - Construction: the testers' memories have the requested sizes and do not
      overlap; data are inverted in the rows that the documentation names; the
      clock search ends in the allowed range; ports are distinct; a system that is
      constructed has the registers and memories that the programs for the testers
      access; the scripts find and read back the files of the target; a reloaded BIOS is
      in place before the CPU runs; the FIFO test module offers consecutive words and
      never reads an empty FIFO.
    - Round trips: instructions, bus and DMA addresses, row mappings, bus memory,
      hexadecimal dumps, JSON with comments, commands of the simulation log.
    - Logs and tables: the outcome of [display_errors] for rows with and without errors;
      what [main] writes about attacks on pairs of rows is accepted by the visualisation,
      whose files have one grid per attack with all flips that the attack reported; a click into a heat map shows its cell; the
      floating-point rounding of timings is exact; the two statistics of the
      simulation log agree exactly when no row is activated twice in succession.
    - Experiments: the half-double analysis ends and keeps its budget; victims lie
      between the hammered rows; ranges contain the rows; errors are filed in the
      right place; statistics are exact.
    - Payload verifier: a payload is accepted if and only if it respects all timing,
      row, window and refresh rules (for DDR4 under a condition on the delays); the
      verifier ends on payloads without nested loops.
    - Where the code does not do what it is meant to, an [Example] shows a
      concrete case (for instance [runaway_at_last_word] in [System],
      [decode_errors_two_banks] in [Playbook], [reader_modulo_false_errors] in
      [BistFacts], [bank_group_limit_lost] in [Ddr4]).

    ** Bounds and fuel

    Runs of gateware are over arbitrary finite lists of inputs, so that no fuel is
    needed; the theorems say after how many cycles a module is ready again.
    [gcd_loop] gets enough fuel for its arguments by definition.  The fuel of the
    verifier and of the analysis is a number of iterations; the termination
    theorems show that some number is enough.  The polling loops of the host take
    a number of polls: [write_fuel] and [read_fuel] in [BistHost] and [run_bound] in
    [ExecHost] are bounds computed from the size of the range, the timing of the
    board and the length of the payload, and the theorems hold for any larger fuel;
    [max_patience] in [HwAttack] and [attack_fuel] in [BistAttack] are the same for
    the BIST attack.
    The fuel of the JSON reader is twice the length of the text; the clock search of
    the ZCU104 needs at most 30 steps from 1 Hz on.

    ** Not modelled

    Pin lists, PHY and Ethernet instances and help texts of [targets/] are LiteX build
    descriptions without logic of their own.  The layout of what is printed, drawing
    and most time measurements are left out, as are the command [show] of
    [spd_eeprom.py], which prints the fields of LiteDRAM's objects, and [prepare_memory] and [run] of
    [scripts/rowhammer.py] after the [NameError] that ends them.  JSON numbers are
    integers, and the statistics of [Reports] are exact rationals where the scripts round
    floats. *)

(** ** Prelude: shared notation, lemmas and automation *)

From Stdlib Require Export ZArith Lia.
From stdpp Require Export base tactics list numbers option sets.

#[global] Open Scope Z_scope.
Coercion Z.of_nat : nat >-> Z.
#[global] Arguments Z.of_nat : simpl never.

(** ** Python exceptions and fallible computations *)

(** The exceptions that the modelled Python code can raise. *)
Inductive exn :=
  | AssertionError
  | KeyError
  | TypeError
  | ValueError
  | AttributeError
  | NameError
  | IndexError
  | ZeroDivisionError
  | NotImplementedError
  | RuntimeError
  | ImportError
  | FileNotFoundError
  | CsvError
  | SystemExit (code : Z).

#[global] Instance exn_eq_dec : EqDecision exn.
Proof. solve_decision. Defined.

Inductive result (A : Type) :=
  | Ok (a : A)
  | Raise (e : exn).
Arguments Ok {_} _.
Arguments Raise {_} _.

#[global] Instance result_ret : MRet result := fun A a => Ok a.
#[global] Instance result_bind : MBind result := fun A B f m =>
  match m with Ok a => f a | Raise e => Raise e end.
#[global] Instance result_fmap : FMap result := fun A B f m =>
  match m with Ok a => Ok (f a) | Raise e => Raise e end.

(** [assert b] of Python. *)
Definition passert (b : bool) : result unit :=
  if b then Ok tt else Raise AssertionError.

(** Value of a keyword argument that the code reads with [kwargs[k]]. *)
Definition of_option {A} (e : exn) (o : option A) : result A :=
  match o with Some a => Ok a | None => Raise e end.

(** Sequencing a fallible operation along a list, as a Python [for] loop. *)
Fixpoint result_fold {A B} (f : B → A → result B) (acc : B) (l : list A) : result B :=
  match l with
  | [] => Ok acc
  | x :: l' => acc' ← f acc x; result_fold f acc' l'
  end.

Fixpoint result_map {A B} (f : A → result B) (l : list A) : result (list B) :=
  match l with
  | [] => Ok []
  | x :: l' => y ← f x; ys ← result_map f l'; Ok (y :: ys)
  end.

Definition is_ok {A} (r : result A) : bool :=
  match r with Ok _ => true | Raise _ => false end.

Create HintDb rowhammer.
Create Rewrite HintDb rowhammer.

Lemma bind_ok_inv {A B} (m : result A) (f : A → result B) b :
  (m ≫= f) = Ok b → ∃ a, m = Ok a ∧ f a = Ok b.
Proof. destruct m; simpl; [eauto | done]. Qed.

Lemma ok_bind {A B} (a : A) (f : A → result B) : (Ok a ≫= f) = f a.
Proof. done. Qed.

Lemma passert_ok_inv b u : passert b = Ok u → b = true.
Proof. destruct b; done. Qed.

Section results.
Context {A B : Type}.

Lemma result_fold_app (f : B → A → result B) acc l1 l2 :
  result_fold f acc (l1 ++ l2) = (result_fold f acc l1 ≫= fun acc' => result_fold f acc' l2).
Proof.
  revert acc; induction l1 as [|x l1 IH]; intros acc; simpl; [done|].
  destruct (f acc x); simpl; [apply IH | done].
Qed.

(** A loop whose body never raises is a fold. *)
Lemma result_fold_ok (f : B → A → result B) (g : B → A → B) acc l :
  (∀ acc x, x ∈ l → f acc x = Ok (g acc x)) → result_fold f acc l = Ok (foldl g acc l).
Proof.
  revert acc; induction l as [|x l IH]; intros acc Hf; simpl; [done|].
  rewrite Hf by set_solver. apply IH. set_solver.
Qed.

Lemma result_map_ok (f : A → result B) (g : A → B) l :
  Forall (fun x => f x = Ok (g x)) l → result_map f l = Ok (g <$> l).
Proof. induction 1 as [|x l Hx _ IH]; simpl; [done|]. by rewrite Hx, IH. Qed.

Lemma result_map_length (f : A → result B) l l' :
  result_map f l = Ok l' → length l' = length l.
Proof.
  revert l'; induction l as [|x l IH]; intros l'; simpl; [by intros [= <-]|].
  intros (y & _ & H)%bind_ok_inv. apply bind_ok_inv in H as (ys & Hys & [= <-]).
  simpl. by rewrite (IH _ Hys).
Qed.

Lemma result_map_lookup (f : A → result B) l l' i x :
  result_map f l = Ok l' → l !! i = Some x → ∃ y, l' !! i = Some y ∧ f x = Ok y.
Proof.
  revert l' i; induction l as [|z l IH]; intros l' i; simpl; [done|].
  intros (y & Hy & H)%bind_ok_inv. apply bind_ok_inv in H as (ys & Hys & [= <-]).
  destruct i as [|i]; simpl; [naive_solver | by apply IH].
Qed.

Lemma result_map_Forall (P : B → Prop) (f : A → result B) l l' :
  (∀ x y, f x = Ok y → P y) → result_map f l = Ok l' → Forall P l'.
Proof.
  intros Hf. revert l'; induction l as [|z l IH]; intros l'; simpl; [by intros [= <-]|].
  intros (y & Hy & H)%bind_ok_inv. apply bind_ok_inv in H as (ys & Hys & [= <-]). constructor; eauto.
Qed.

Lemma result_fold_inv (P : B → Prop) (f : B → A → result B) acc l acc' :
  (∀ acc x acc', P acc → f acc x = Ok acc' → P acc') → P acc → result_fold f acc l = Ok acc' → P acc'.
Proof.
  intros Hf. revert acc; induction l as [|x l IH]; intros acc Hacc; simpl; [by intros [= <-]|].
  intros (acc1 & H1 & H)%bind_ok_inv. eapply IH; [by eapply Hf|done].
Qed.
End results.

(** Invert every successful bind and passed assertion of the hypotheses. *)
Ltac inv_result :=
  repeat match goal with
    | H : Ok _ = Ok _ |- _ => injection H as H; try subst
    | H : Raise _ = Ok _ |- _ => discriminate H
    | H : Ok _ = Raise _ |- _ => discriminate H
    | H : (_ ≫= _) = Ok _ |- _ => apply bind_ok_inv in H as (? & ? & ?)
    | H : passert _ = Ok _ |- _ => apply passert_ok_inv in H
    end.

Lemma filter_agree {A} (P Q : A → Prop) `{!∀ x, Decision (P x), !∀ x, Decision (Q x)} (l : list A) :
  (∀ x, x ∈ l → P x ↔ Q x) → filter P l = filter Q l.
Proof.
  induction l as [|x l IH]; intros Hx; [done|]. rewrite !filter_cons, IH by (intros; apply Hx; by right).
  assert (P x ↔ Q x) by (apply Hx; by left). destruct (decide (P x)), (decide (Q x)); tauto.
Qed.

(** ** Counting *)

(** Number of elements of a list that satisfy a test. *)
Fixpoint countb {A} (f : A → bool) (l : list A) : nat :=
  match l with
  | [] => 0
  | x :: l' => (if f x then 1 else 0) + countb f l'
  end%nat.

Section countb.
Context {A : Type} (f : A → bool).

Lemma countb_app l1 l2 : countb f (l1 ++ l2) = (countb f l1 + countb f l2)%nat.
Proof. induction l1 as [|x l1 IH]; simpl; [done|]. rewrite IH. lia. Qed.

Lemma countb_all l : Forall (fun x => f x = true) l → countb f l = length l.
Proof. induction 1 as [|x l Hx _ IH]; simpl; [done|]. by rewrite Hx, IH. Qed.

Lemma countb_none l : Forall (fun x => f x = false) l → countb f l = 0%nat.
Proof. induction 1 as [|x l Hx _ IH]; simpl; [done|]. by rewrite Hx, IH. Qed.

Lemma countb_le l : (countb f l ≤ length l)%nat.
Proof. induction l as [|x l IH]; simpl; [done|]. destruct (f x); lia. Qed.

Lemma countb_replicate n x : f x = false → countb f (replicate n x) = 0%nat.
Proof. intros. apply countb_none, Forall_replicate. done. Qed.

Lemma countb_repeat n l : countb f (mjoin (replicate n l)) = (n * countb f l)%nat.
Proof. induction n as [|n IH]; simpl; [done|]. by rewrite countb_app, IH. Qed.
End countb.

Lemma countb_fmap {A B} (f : B → bool) (g : A → B) l :
  countb f (g <$> l) = countb (fun x => f (g x)) l.
Proof.
  induction l as [|x l IH]; [done|]. rewrite fmap_cons. cbn [countb]. by rewrite IH.
Qed.

Lemma countb_ext {A} (f g : A → bool) l :
  (∀ x, x ∈ l → f x = g x) → countb f l = countb g l.
Proof.
  induction l as [|x l IH]; intros H; [done|]. cbn [countb]. rewrite H by set_solver.
  rewrite IH by set_solver. done.
Qed.

Lemma countb_bind {A B} (f : B → bool) (g : A → list B) (h : A → bool) l :
  Forall (fun x => countb f (g x) = if h x then 1%nat else 0%nat) l →
  countb f (l ≫= g) = countb h l.
Proof.
  induction 1 as [|x l Hx _ IH]; [done|].
  change ((x :: l) ≫= g) with (g x ++ (l ≫= g)). by rewrite countb_app, Hx, IH.
Qed.

Lemma fmap_const {A B} (g : A → B) y l :
  Forall (fun x => g x = y) l → g <$> l = replicate (length l) y.
Proof.
  induction 1 as [|x l Hx _ IH]; [done|]. rewrite fmap_cons, Hx, IH. done.
Qed.

Lemma Forall_mjoin_replicate {A} (P : A → Prop) n l :
  Forall P l → Forall P (mjoin (replicate n l)).
Proof. intros. induction n; simpl; [constructor | by apply Forall_app]. Qed.

Lemma length_mjoin_replicate {A} n (l : list A) :
  length (mjoin (replicate n l)) = (n * length l)%nat.
Proof. induction n; simpl; [done|]. rewrite length_app. lia. Qed.

(** ** Ordered dictionaries *)

(** A Python dictionary, in the order in which its keys were added. *)
Section odict.
Context {K V : Type} `{EqDecision K}.

Fixpoint odict_get (k : K) (d : list (K * V)) : option V :=
  match d with
  | [] => None
  | (k', v) :: d' => if bool_decide (k = k') then Some v else odict_get k d'
  end.

Fixpoint odict_set (k : K) (v : V) (d : list (K * V)) : list (K * V) :=
  match d with
  | [] => [(k, v)]
  | (k', v') :: d' => if bool_decide (k = k') then (k, v) :: d' else (k', v') :: odict_set k v d'
  end.

Lemma odict_set_fresh k v d : k ∉ d.*1 → odict_set k v d = d ++ [(k, v)].
Proof.
  induction d as [|[k' v'] d IH]; cbn; [done|]. rewrite not_elem_of_cons. intros [Hk Hd].
  by rewrite bool_decide_false, IH.
Qed.

Lemma odict_set_keys k v d x : x ∈ (odict_set k v d).*1 ↔ x = k ∨ x ∈ d.*1.
Proof.
  induction d as [|[k' v'] d IH]; cbn; [set_solver|].
  case_bool_decide; subst; cbn; rewrite !elem_of_cons; [naive_solver|]. rewrite IH. naive_solver.
Qed.

Lemma odict_set_NoDup k v d : NoDup d.*1 → NoDup (odict_set k v d).*1.
Proof.
  induction d as [|[k' v'] d IH]; cbn; [intros _; apply NoDup_singleton|].
  rewrite NoDup_cons. intros [Hk' Hd]. case_bool_decide; subst; cbn; rewrite NoDup_cons; [done|].
  split; [|by apply IH]. rewrite odict_set_keys. naive_solver.
Qed.

Lemma odict_get_elem k v d : NoDup d.*1 → (k, v) ∈ d → odict_get k d = Some v.
Proof.
  induction d as [|[k' v'] d IH]; cbn; [intros _ H; by apply elem_of_nil in H|].
  rewrite NoDup_cons. intros [Hk' Hd] [[= -> ->]|Hin]%elem_of_cons; [by rewrite bool_decide_true|].
  rewrite bool_decide_false; [by apply IH|]. intros ->. apply Hk', list_elem_of_fmap. by exists (k', v).
Qed.

Lemma odict_get_none k d : k ∉ d.*1 → odict_get k d = None.
Proof.
  induction d as [|[k' v'] d IH]; cbn; [done|]. rewrite not_elem_of_cons. intros [Hk Hd].
  by rewrite bool_decide_false, IH.
Qed.
End odict.

(** ** Sums *)
Definition zsum (l : list Z) : Z := foldr Z.add 0 l.

Lemma zsum_app l1 l2 : zsum (l1 ++ l2) = zsum l1 + zsum l2.
Proof. induction l1 as [|x l1 IH]; cbn; [done|]. unfold zsum in *. lia. Qed.

Lemma zsum_snoc l x : zsum (l ++ [x]) = zsum l + x.
Proof. rewrite zsum_app. unfold zsum. cbn. lia. Qed.

(** ** Integer ranges *)

(** [range(n)] *)
Definition zrange (n : Z) : list Z := Z.of_nat <$> seq 0 (Z.to_nat n).

Lemma length_zrange n : 0 ≤ n → Z.of_nat (length (zrange n)) = n.
Proof. intros. unfold zrange. rewrite length_fmap, length_seq. lia. Qed.

Lemma elem_of_zrange n i : i ∈ zrange n ↔ 0 ≤ i < n.
Proof.
  unfold zrange. rewrite list_elem_of_fmap. split.
  - intros (k & -> & Hk%elem_of_seq). lia.
  - intros Hi. exists (Z.to_nat i). split; [lia|]. apply elem_of_seq. lia.
Qed.

Lemma zrange_add n m : 0 ≤ n → 0 ≤ m → zrange (n + m) = zrange n ++ (Z.add n <$> zrange m).
Proof.
  intros Hn Hm. unfold zrange. rewrite Z2Nat.inj_add, seq_app, fmap_app by done. f_equal.
  replace (seq (0 + Z.to_nat n) (Z.to_nat m)) with (Nat.add (Z.to_nat n) <$> seq 0 (Z.to_nat m))
    by (rewrite fmap_add_seq; f_equal; lia).
  rewrite <- !list_fmap_compose. apply list_fmap_ext. intros i x _. simpl. lia.
Qed.

Lemma zrange_succ n : 0 ≤ n → zrange (n + 1) = zrange n ++ [n].
Proof. intros Hn. rewrite zrange_add by lia. f_equal. change (zrange 1) with [0]. cbn. f_equal. lia. Qed.

(** ** Bit fields *)

(** [slice x lo w]: the [w] bits of [x] from bit [lo], Migen's [x[lo:lo+w]]. *)
Definition slice (x lo w : Z) : Z := Z.land (Z.shiftr x lo) (Z.ones w).

(** The value a [w]-bit signal takes when [x] is assigned to it. *)
Definition trunc (w x : Z) : Z := x mod 2 ^ w.

Lemma pow2_pos w : 0 ≤ w → 0 < 2 ^ w.
Proof. intros; apply Z.pow_pos_nonneg; lia. Qed.
#[export] Hint Resolve pow2_pos : rowhammer.

Lemma slice_mod x lo w : 0 ≤ w → 0 ≤ lo → slice x lo w = (x / 2 ^ lo) mod 2 ^ w.
Proof. intros. unfold slice. by rewrite Z.land_ones, Z.shiftr_div_pow2. Qed.

Lemma slice_bound x lo w : 0 ≤ w → 0 ≤ slice x lo w < 2 ^ w.
Proof.
  intros. unfold slice. rewrite Z.land_ones by done.
  apply Z.mod_pos_bound, pow2_pos; done.
Qed.

Lemma land_mask x w : 0 ≤ w → Z.land x (2 ^ w - 1) = x mod 2 ^ w.
Proof. intros. rewrite <- Z.land_ones by done. by rewrite Z.ones_equiv. Qed.

Lemma land_mask_small x w : 0 ≤ w → 0 ≤ x < 2 ^ w → Z.land x (2 ^ w - 1) = x.
Proof. intros. rewrite land_mask by done. by apply Z.mod_small. Qed.

Lemma trunc_bound w x : 0 ≤ w → 0 ≤ trunc w x < 2 ^ w.
Proof. intros. apply Z.mod_pos_bound, pow2_pos; done. Qed.

Lemma trunc_small w x : 0 ≤ x < 2 ^ w → trunc w x = x.
Proof. intros. by apply Z.mod_small. Qed.
#[export] Hint Rewrite trunc_small using lia : rowhammer.

(** Disjoint fields: a low field below [w] bits and a shifted high part. *)
Lemma lor_shiftl_add lo hi w :
  0 ≤ w → 0 ≤ lo < 2 ^ w → Z.lor lo (Z.shiftl hi w) = lo + hi * 2 ^ w.
Proof.
  intros Hw Hlo. rewrite <- Z.shiftl_mul_pow2 by done.
  pose proof (Z.add_lor_land lo (Z.shiftl hi w)) as Hadd.
  enough (Z.land lo (Z.shiftl hi w) = 0) by lia. clear Hadd.
  apply Z.bits_inj'; intros n Hn. rewrite Z.land_spec, Z.bits_0.
  destruct (decide (n < w)).
  - by rewrite Z.shiftl_spec_low, andb_false_r.
  - rewrite <- (Z.mod_small lo (2 ^ w)) by done.
    by rewrite Z.mod_pow2_bits_high by lia.
Qed.

Lemma mix_bound lo hi a b : 0 ≤ lo < a → 0 ≤ hi < b → 0 ≤ lo + hi * a < a * b.
Proof. nia. Qed.

Lemma slice_low lo hi w :
  0 ≤ w → 0 ≤ lo < 2 ^ w → slice (lo + hi * 2 ^ w) 0 w = lo.
Proof.
  intros. rewrite slice_mod by lia. rewrite Z.pow_0_r, Z.div_1_r.
  rewrite Z.mod_add by (pose proof (pow2_pos w); lia). by apply Z.mod_small.
Qed.

Lemma slice_high lo hi w o k :
  0 ≤ w → 0 ≤ o → 0 ≤ k → 0 ≤ lo < 2 ^ w →
  slice (lo + hi * 2 ^ w) (w + o) k = slice hi o k.
Proof.
  intros. rewrite !slice_mod by lia.
  rewrite Z.pow_add_r, <- Z.div_div by (auto using Z.pow_nonzero with lia || apply pow2_pos; lia).
  rewrite Z.div_add by (pose proof (pow2_pos w); lia).
  by rewrite (Z.div_small lo) by done.
Qed.

Lemma slice_high_0 lo hi w k :
  0 ≤ w → 0 ≤ k → 0 ≤ lo < 2 ^ w → slice (lo + hi * 2 ^ w) w k = slice hi 0 k.
Proof. intros. rewrite <- (slice_high lo hi w 0 k) by lia. by rewrite Z.add_0_r. Qed.

Lemma slice_id x w : 0 ≤ x < 2 ^ w → 0 ≤ w → slice x 0 w = x.
Proof.
  intros. rewrite slice_mod by lia. rewrite Z.pow_0_r, Z.div_1_r. by apply Z.mod_small.
Qed.

(** ** The hardware description library *)

(** What the code uses of the Migen library beyond its statements: the base-2
    logarithm of a power of two, which raises [ValueError] on other arguments,
    and the binary to one-hot [Decoder] of [migen.genlib.coding]. *)
Class Migen := {
  log2_int : Z → result Z;
  onehot : Z → Z;
  log2_int_pow2 : ∀ k, 0 ≤ k → log2_int (2 ^ k) = Ok k;
  log2_int_not_pow2 : ∀ n, (∀ k, 0 ≤ k → n ≠ 2 ^ k) → n ≠ 0 → log2_int n = Raise ValueError;
  onehot_spec : ∀ i, 0 ≤ i → onehot i = 2 ^ i;
}.

(** Width of [Signal(max=m)]: enough bits for every integer of [0, m). *)
Definition signal_max_bits (m : Z) : Z := if m <=? 2 then 1 else Z.log2 (m - 1) + 1.

Lemma signal_max_bits_pos m : 1 ≤ signal_max_bits m.
Proof.
  unfold signal_max_bits. case_match; [done|].
  pose proof (Z.log2_nonneg (m - 1)); lia.
Qed.

Lemma signal_max_bits_spec m x : 0 ≤ x < m → x < 2 ^ signal_max_bits m.
Proof.
  unfold signal_max_bits. intros Hx. destruct (Z.leb_spec m 2); [simpl; lia|].
  pose proof (Z.log2_spec (m - 1)). rewrite <- Z.add_1_r in *. lia.
Qed.

(** A concrete [Migen], so that the definitions can be evaluated. *)
Definition log2_int_ref (n : Z) : result Z :=
  if n =? 0 then Ok 0
  else if (0 <? n) && (2 ^ Z.log2 n =? n) then Ok (Z.log2 n) else Raise ValueError.

#[global, refine] Instance migen_ref : Migen :=
  {| log2_int := log2_int_ref; onehot := fun i => 2 ^ i |}.
Proof.
  - intros k Hk. pose proof (pow2_pos k Hk). unfold log2_int_ref.
    rewrite Z.log2_pow2 by done.
    rewrite (proj2 (Z.eqb_neq _ _)), Z.eqb_refl, (proj2 (Z.ltb_lt _ _)) by lia. done.
  - intros n Hn Hn0. unfold log2_int_ref.
    rewrite (proj2 (Z.eqb_neq _ _)) by done.
    destruct (Z.ltb_spec 0 n); simpl; [|done].
    rewrite (proj2 (Z.eqb_neq _ _)); [done|]. intros Heq.
    apply (Hn (Z.log2 n)); [apply Z.log2_nonneg | done].
  - done.
Defined.
