(* ===== verification/Isa.v ===== *)
(** * Instruction set of the payload executor

    Models the [OpCode], [Decoder] and [Encoder] classes of
    [src/rowhammer_tester/gateware/payload_executor.py]: the host side encodes
    instruction specifications into 32-bit words, the gateware decodes a word
    combinationally.  The theorems relate the two sides field by field,
    truncation to the field widths included. *)

From S2P Require Import Prelude.

(** ** Op codes *)

Inductive OpCode := NOOP | LOOP | ACT | PRE | REF | ZQC | READ.

#[global] Instance OpCode_eq_dec : EqDecision OpCode.
Proof. solve_decision. Defined.

Definition op_value (op : OpCode) : Z :=
  match op with
  | NOOP => 0 | LOOP => 7 | ACT => 4 | PRE => 5 | REF => 6 | ZQC => 1 | READ => 2
  end.

(** ** Decoder *)
Module Decoder.
Definition INSTRUCTION := 32.
Definition OP_CODE := 3.
Definition TIMESLICE := 5.
Definition ADDRESS := 24.
Definition TIMESLICE_NOOP := TIMESLICE + ADDRESS.
Definition LOOP_COUNT := 12.
Definition LOOP_JUMP := 17.

(** The signals that the decoder drives.  [dfi_rank] exists only when there
    are rank bits; without them it is read nowhere and is 0 here. *)
Record decoded := Decoded {
  op_code : Z;
  timeslice : Z;
  address : Z;
  cas : bool;
  ras : bool;
  we : bool;
  dfi_bank : Z;
  dfi_address : Z;
  dfi_rank : Z;
  loop_count : Z;
  loop_jump : Z;
  stop : bool;
}.

(** The assertions of [Decoder.__init__]. *)
Definition init (width rankbits bankbits rowbits colbits : Z) : result unit :=
  passert (width =? INSTRUCTION) ;;
  passert (OP_CODE + TIMESLICE_NOOP =? INSTRUCTION) ;;
  passert (OP_CODE + TIMESLICE + ADDRESS =? INSTRUCTION) ;;
  passert (OP_CODE + LOOP_COUNT + LOOP_JUMP =? INSTRUCTION) ;;
  passert (rankbits + bankbits + Z.max rowbits colbits <=? ADDRESS).

(** The combinational assignments, in their order. *)
Definition decode (rankbits bankbits rowbits colbits : Z) (instruction : Z) : decoded :=
  let tail := slice instruction OP_CODE (INSTRUCTION - OP_CODE) in
  let op_code := slice instruction 0 OP_CODE in
  let timeslice :=
    if op_code =? op_value NOOP then slice tail 0 TIMESLICE_NOOP
    else slice tail 0 TIMESLICE in
  let address := slice tail TIMESLICE ADDRESS in
  {| op_code := op_code;
     timeslice := timeslice;
     address := address;
     cas := Z.testbit op_code 1;
     ras := Z.testbit op_code 2;
     we := Z.testbit op_code 0;
     dfi_bank := slice address rankbits bankbits;
     dfi_address := trunc (Z.max rowbits colbits)
       (slice address (rankbits + bankbits) (ADDRESS - rankbits - bankbits));
     dfi_rank := slice address 0 rankbits;
     loop_count := slice tail 0 LOOP_COUNT;
     loop_jump := slice tail LOOP_COUNT LOOP_JUMP;
     stop := (op_code =? op_value NOOP) && (timeslice =? 0) |}.
End Decoder.

(** ** Encoder *)
Module Encoder.
Import Decoder.

(** Keyword arguments of an instruction; an absent one is [None]. *)
Record kwargs := Kwargs {
  kw_timeslice : option Z;
  kw_address : option Z;
  kw_count : option Z;
  kw_jump : option Z;
}.

Definition kw_noop t := Kwargs (Some t) None None None.
Definition kw_dfi t a := Kwargs (Some t) (Some a) None None.
Definition kw_loop c j := Kwargs None None (Some c) (Some j).

(** An instance of [Encoder.I]: the op code, the attributes set from the
    keyword arguments and the [(width, value)] parts. *)
Record spec := Spec {
  sp_op_code : OpCode;
  sp_kwargs : kwargs;
  sp_parts : list (Z * Z);
}.

Record encoder := MkEncoder { bankbits : Z; nranks : Z }.

(** [Encoder.I.__init__]. *)
Definition I (op_code : OpCode) (kw : kwargs) : result spec :=
  match op_code with
  | LOOP =>
      count ← of_option KeyError (kw_count kw);
      jump ← of_option KeyError (kw_jump kw);
      Ok (Spec op_code kw
        [(OP_CODE, op_value op_code); (LOOP_COUNT, count); (LOOP_JUMP, jump)])
  | NOOP =>
      timeslice ← of_option KeyError (kw_timeslice kw);
      Ok (Spec op_code kw [(OP_CODE, op_value op_code); (TIMESLICE_NOOP, timeslice)])
  | _ =>
      timeslice ← of_option KeyError (kw_timeslice kw);
      passert (negb (timeslice =? 0)) ;;
      passert (bool_decide (is_Some (kw_address kw)) || bool_decide (op_code = REF)) ;;
      Ok (Spec op_code kw
        [(OP_CODE, op_value op_code); (TIMESLICE, timeslice);
         (ADDRESS, default 0 (kw_address kw))])
  end.

(** One iteration of the loop of [encode_spec] on the pair [(instr, n)]. *)
Definition encode_part (acc : Z * Z) (part : Z * Z) : Z * Z :=
  let '(instr, n) := acc in
  let '(width, val) := part in
  let mask := 2 ^ width - 1 in
  (Z.lor instr (Z.shiftl (Z.land val mask) n), n + width).

Definition encode_spec (s : spec) : Z := (foldl encode_part (0, 0) (sp_parts s)).1.

Definition encode (op_code : OpCode) (kw : kwargs) : result Z :=
  s ← I op_code kw; Ok (encode_spec s).

Definition encode_payload (payload : list spec) : list Z := encode_spec <$> payload.

(** What [Encoder.__call__] is applied to: an op code, an [Encoder.I], an
    iterable of them, or anything else. *)
Inductive target :=
  | TOpCode (op_code : OpCode)
  | TSpec (s : spec)
  | TPayload (payload : list spec)
  | TOther.

Definition no_kwargs (kw : kwargs) : bool :=
  match kw with Kwargs None None None None => true | _ => false end.

Definition call (t : target) (kw : kwargs) : result (Z + list Z) :=
  match t with
  | TOpCode op_code => w ← encode op_code kw; Ok (inl w)
  | TSpec s => passert (no_kwargs kw) ;; Ok (inl (encode_spec s))
  | TPayload payload => passert (no_kwargs kw) ;; Ok (inr (encode_payload payload))
  | TOther => Raise TypeError
  end.

Section address.
Context {M : Migen}.

(** [Encoder.address]. *)
Definition address (e : encoder) (rank : option Z) (bank : Z) (row col : option Z)
    : result Z :=
  passert (negb (bool_decide (is_Some row) && bool_decide (is_Some col))) ;;
  let rowcol :=
    match row, col with
    | Some r, _ => r
    | None, Some c => c
    | None, None => 0
    end in
  let address := Z.land bank (2 ^ bankbits e - 1) in
  let address := Z.lor address (Z.shiftl rowcol (bankbits e)) in
  if 1 <? nranks e then
    rankbits ← log2_int (nranks e);
    let address := Z.shiftl address rankbits in
    r ← of_option TypeError rank;
    Ok (Z.lor address r)
  else Ok address.
End address.
End Encoder.

(** ** Fields of an encoded word *)

(** The word as a mixed-radix number: least significant part first. *)
Fixpoint pack (parts : list (Z * Z)) : Z :=
  match parts with
  | [] => 0
  | (width, val) :: ps => val mod 2 ^ width + pack ps * 2 ^ width
  end.

Definition parts_width (parts : list (Z * Z)) : Z := foldr (fun p => Z.add p.1) 0 parts.

Definition widths_nonneg (parts : list (Z * Z)) : Prop := Forall (fun p => 0 ≤ p.1) parts.

Lemma parts_width_nonneg ps : widths_nonneg ps → 0 ≤ parts_width ps.
Proof. induction 1; simpl; lia. Qed.

Lemma pack_bound ps : widths_nonneg ps → 0 ≤ pack ps < 2 ^ parts_width ps.
Proof.
  induction 1 as [|[w v] ps Hw Hps IH]; simpl in *; [lia|].
  rewrite Z.pow_add_r by eauto using parts_width_nonneg.
  pose proof (Z.mod_pos_bound v (2 ^ w) (pow2_pos w Hw)). nia.
Qed.

Lemma encode_foldl ps instr n :
  widths_nonneg ps → 0 ≤ n → 0 ≤ instr < 2 ^ n →
  (foldl Encoder.encode_part (instr, n) ps).1 = instr + pack ps * 2 ^ n.
Proof.
  intros Hps. revert instr n. induction Hps as [|[w v] ps Hw Hps IH]; intros instr n Hn Hi;
    simpl in *; [lia|].
  pose proof (Z.mod_pos_bound v (2 ^ w) (pow2_pos w Hw)).
  rewrite land_mask, lor_shiftl_add by done.
  rewrite IH; rewrite ?Z.pow_add_r by done; [lia..|]. nia.
Qed.

Lemma encode_spec_pack s :
  widths_nonneg (Encoder.sp_parts s) → Encoder.encode_spec s = pack (Encoder.sp_parts s).
Proof.
  intros. unfold Encoder.encode_spec. rewrite encode_foldl by (done || lia). lia.
Qed.

(** Reading part [k] back: the slice at its offset is the value truncated to
    the part's width. *)
Lemma slice_pack_0 w v ps : 0 ≤ w → slice (pack ((w, v) :: ps)) 0 w = v mod 2 ^ w.
Proof.
  intros. simpl. apply slice_low; [done|]. by apply Z.mod_pos_bound, pow2_pos.
Qed.

Lemma slice_pack_S w v ps o k :
  0 ≤ w → 0 ≤ o → 0 ≤ k → slice (pack ((w, v) :: ps)) (w + o) k = slice (pack ps) o k.
Proof.
  intros. simpl. apply slice_high; [done..|]. by apply Z.mod_pos_bound, pow2_pos.
Qed.

Lemma slice_pack_all ps w :
  widths_nonneg ps → parts_width ps = w → slice (pack ps) 0 w = pack ps.
Proof.
  intros Hps <-. apply slice_id; [by apply pack_bound | by apply parts_width_nonneg].
Qed.

Ltac solve_widths :=
  repeat (apply Forall_cons_2; [by vm_compute|]); apply Forall_nil_2.

(** What [Encoder.I] accepts. *)
Lemma I_ok_parts op kw s :
  Encoder.I op kw = Ok s →
  widths_nonneg (Encoder.sp_parts s) ∧ parts_width (Encoder.sp_parts s) = Decoder.INSTRUCTION
  ∧ Encoder.sp_op_code s = op ∧ Encoder.sp_kwargs s = kw
  ∧ head (Encoder.sp_parts s) = Some (Decoder.OP_CODE, op_value op).
Proof.
  destruct op; simpl; intros; inv_result;
    (split_and!; [solve_widths | reflexivity..]).
Qed.

Lemma encode_spec_ok op kw s :
  Encoder.I op kw = Ok s → Encoder.encode_spec s = pack (Encoder.sp_parts s).
Proof. intros (Hw & _)%I_ok_parts. by apply encode_spec_pack. Qed.

(** The specifications that the payload generators build. *)
Definition noop_spec (t : Z) : Encoder.spec :=
  Encoder.Spec NOOP (Encoder.kw_noop t)
    [(Decoder.OP_CODE, op_value NOOP); (Decoder.TIMESLICE_NOOP, t)].

Definition loop_spec (c j : Z) : Encoder.spec :=
  Encoder.Spec LOOP (Encoder.kw_loop c j)
    [(Decoder.OP_CODE, op_value LOOP); (Decoder.LOOP_COUNT, c); (Decoder.LOOP_JUMP, j)].

Definition dfi_spec (op : OpCode) (t : Z) (a : option Z) : Encoder.spec :=
  Encoder.Spec op (Encoder.Kwargs (Some t) a None None)
    [(Decoder.OP_CODE, op_value op); (Decoder.TIMESLICE, t); (Decoder.ADDRESS, default 0 a)].

Lemma I_dfi_ok op t a :
  op ≠ NOOP → op ≠ LOOP → t ≠ 0 → is_Some a ∨ op = REF →
  Encoder.I op (Encoder.Kwargs (Some t) a None None) = Ok (dfi_spec op t a).
Proof.
  intros Hn Hl Ht Ha.
  assert (negb (t =? 0) = true) as Ht' by (apply Z.eqb_neq in Ht; by rewrite Ht).
  assert (bool_decide (is_Some a) || bool_decide (op = REF) = true) as Ha'.
  { apply orb_true_iff. rewrite !bool_decide_eq_true. done. }
  destruct op; try done; unfold Encoder.I, mbind, result_bind;
    cbn [of_option Encoder.kw_timeslice Encoder.kw_address];
    by rewrite Ht', Ha'.
Qed.

(** ** Round trips *)
Section roundtrip.
Context (rankbits bankbits rowbits colbits : Z).
Abbreviation decode := (Decoder.decode rankbits bankbits rowbits colbits).

Lemma decode_pack_op op ps :
  slice (pack ((Decoder.OP_CODE, op_value op) :: ps)) 0 Decoder.OP_CODE = op_value op.
Proof. rewrite slice_pack_0 by done. by destruct op. Qed.

Lemma decode_pack_tail op ps :
  widths_nonneg ps → parts_width ps = Decoder.INSTRUCTION - Decoder.OP_CODE →
  slice (pack ((Decoder.OP_CODE, op_value op) :: ps)) Decoder.OP_CODE
    (Decoder.INSTRUCTION - Decoder.OP_CODE) = pack ps.
Proof.
  intros Hw Hl. rewrite <- (Z.add_0_r Decoder.OP_CODE) at 2.
  rewrite slice_pack_S by done. by apply slice_pack_all.
Qed.

(** Every encoded instruction fits the 32-bit payload memory word. *)
Lemma encode_bounds op kw w :
  Encoder.encode op kw = Ok w → 0 ≤ w < 2 ^ Decoder.INSTRUCTION.
Proof.
  unfold Encoder.encode. intros (s & Hs & [= <-])%bind_ok_inv.
  rewrite (encode_spec_ok _ _ _ Hs). destruct (I_ok_parts _ _ _ Hs) as (Hw & <- & _).
  by apply pack_bound.
Qed.

(** The decoder's view of a word, from the op code and the remaining 29 bits. *)
Definition decode_fields (op tail : Z) : Decoder.decoded :=
  let timeslice :=
    if op =? op_value NOOP then slice tail 0 Decoder.TIMESLICE_NOOP
    else slice tail 0 Decoder.TIMESLICE in
  let address := slice tail Decoder.TIMESLICE Decoder.ADDRESS in
  {| Decoder.op_code := op;
     Decoder.timeslice := timeslice;
     Decoder.address := address;
     Decoder.cas := Z.testbit op 1;
     Decoder.ras := Z.testbit op 2;
     Decoder.we := Z.testbit op 0;
     Decoder.dfi_bank := slice address rankbits bankbits;
     Decoder.dfi_address := trunc (Z.max rowbits colbits)
       (slice address (rankbits + bankbits) (Decoder.ADDRESS - rankbits - bankbits));
     Decoder.dfi_rank := slice address 0 rankbits;
     Decoder.loop_count := slice tail 0 Decoder.LOOP_COUNT;
     Decoder.loop_jump := slice tail Decoder.LOOP_COUNT Decoder.LOOP_JUMP;
     Decoder.stop := (op =? op_value NOOP) && (timeslice =? 0) |}.

Lemma decode_encode op kw s :
  Encoder.I op kw = Ok s →
  decode (Encoder.encode_spec s) =
    decode_fields (op_value op) (pack (tail (Encoder.sp_parts s))).
Proof.
  intros Hs. rewrite (encode_spec_ok _ _ _ Hs).
  destruct (I_ok_parts _ _ _ Hs) as (Hw & Hl & _ & _ & Hh).
  destruct (Encoder.sp_parts s) as [|p ps]; [done|]. injection Hh as ->.
  apply Forall_cons_1 in Hw as [_ Hw]. unfold Decoder.decode.
  rewrite decode_pack_op, decode_pack_tail by (done || (unfold parts_width in *; simpl in *; lia)).
  done.
Qed.

(** NOOP: the 29-bit time slice; a time slice of 0 is the STOP instruction. *)
Lemma decode_noop t :
  let d := decode (Encoder.encode_spec (noop_spec t)) in
  Decoder.op_code d = op_value NOOP ∧ Decoder.timeslice d = t mod 2 ^ 29
  ∧ Decoder.stop d = (t mod 2 ^ 29 =? 0).
Proof.
  rewrite (decode_encode NOOP (Encoder.kw_noop t)) by done.
  unfold decode_fields, noop_spec. cbn -[pack Z.pow]. by rewrite slice_pack_0 by done.
Qed.

(** LOOP: 12-bit count and 17-bit jump. *)
Lemma decode_loop c j :
  let d := decode (Encoder.encode_spec (loop_spec c j)) in
  Decoder.op_code d = op_value LOOP ∧ Decoder.loop_count d = c mod 2 ^ 12
  ∧ Decoder.loop_jump d = j mod 2 ^ 17 ∧ Decoder.stop d = false.
Proof.
  rewrite (decode_encode LOOP (Encoder.kw_loop c j)) by done.
  unfold decode_fields, loop_spec. cbn -[pack Z.pow].
  split_and!; [done | by apply slice_pack_0 | | done].
  rewrite <- (Z.add_0_r Decoder.LOOP_COUNT), slice_pack_S by done. by apply slice_pack_0.
Qed.

(** DFI commands: 5-bit time slice and 24-bit address, split into rank, bank
    and row or column; the three strobes are the bits of the op code. *)
Lemma decode_dfi op t kw_a :
  op ≠ NOOP → op ≠ LOOP →
  let d := decode (Encoder.encode_spec (dfi_spec op t kw_a)) in
  let a := default 0 kw_a in
  Decoder.op_code d = op_value op ∧ Decoder.timeslice d = t mod 2 ^ 5
  ∧ Decoder.address d = a mod 2 ^ 24 ∧ Decoder.stop d = false
  ∧ Decoder.dfi_rank d = slice (a mod 2 ^ 24) 0 rankbits
  ∧ Decoder.dfi_bank d = slice (a mod 2 ^ 24) rankbits bankbits
  ∧ Decoder.dfi_address d = trunc (Z.max rowbits colbits)
      (slice (a mod 2 ^ 24) (rankbits + bankbits) (24 - rankbits - bankbits)).
Proof.
  intros Hn Hl. cbv zeta. unfold Decoder.decode, dfi_spec, Encoder.encode_spec. simpl Encoder.sp_parts.
  rewrite encode_foldl by (solve_widths || done). rewrite Z.mul_1_r, Z.add_0_l.
  rewrite decode_pack_op, decode_pack_tail by (done || solve_widths).
  assert ((op_value op =? op_value NOOP) = false) as -> by (by destruct op).
  cbn [Decoder.op_code Decoder.timeslice Decoder.address Decoder.stop Decoder.dfi_rank
       Decoder.dfi_bank Decoder.dfi_address].
  rewrite slice_pack_0 by done.
  rewrite <- (Z.add_0_r Decoder.TIMESLICE), slice_pack_S, slice_pack_0 by done.
  done.
Qed.
End roundtrip.

(** ** Addresses *)
Section addresses.
Context {M : Migen}.

(** The rank argument as it is used: absent or ignored with a single rank. *)
Definition rank_ok (rankbits : Z) (rank : option Z) (r : Z) : Prop :=
  if rankbits =? 0 then r = 0 else rank = Some r ∧ 0 ≤ r < 2 ^ rankbits.

Definition rowcol (row col : option Z) : option Z :=
  match row, col with
  | Some _, Some _ => None
  | Some r, None => Some r
  | None, Some c => Some c
  | None, None => Some 0
  end.

Lemma rank_ok_bound k rank r : 0 ≤ k → rank_ok k rank r → 0 ≤ r < 2 ^ k.
Proof.
  unfold rank_ok. destruct (Z.eqb_spec k 0) as [->|]; [|by intros _ [_ ?]].
  intros _ ->. simpl. lia.
Qed.

Lemma address_ok bankbits k rank bank row col r rc :
  0 ≤ bankbits → 0 ≤ k → 0 ≤ bank < 2 ^ bankbits → 0 ≤ rc →
  rank_ok k rank r → rowcol row col = Some rc →
  Encoder.address (Encoder.MkEncoder bankbits (2 ^ k)) rank bank row col
    = Ok (r + (bank + rc * 2 ^ bankbits) * 2 ^ k).
Proof.
  intros Hb Hk Hbank Hrc Hr Hrow. pose proof (rank_ok_bound _ _ _ Hk Hr) as Hrb.
  unfold Encoder.address. cbn [Encoder.bankbits Encoder.nranks].
  assert (negb (bool_decide (is_Some row) && bool_decide (is_Some col)) = true) as ->
    by (destruct row, col; done).
  assert (match row, col with Some r, _ => r | None, Some c => c | None, None => 0 end = rc)
    as -> by (destruct row, col; simpl in Hrow; congruence).
  unfold mbind, result_bind. cbn [passert]. rewrite land_mask_small, lor_shiftl_add by done.
  unfold rank_ok in Hr. destruct (Z.eqb_spec k 0) as [->|Hk0].
  - subst r. change (1 <? 2 ^ 0) with false. f_equal. lia.
  - destruct Hr as [-> Hr].
    assert (1 < 2 ^ k) by (apply Z.pow_gt_1; lia).
    rewrite (proj2 (Z.ltb_lt _ _)), log2_int_pow2 by done. cbn [of_option].
    f_equal. by rewrite Z.lor_comm, lor_shiftl_add.
Qed.

(** Encoder and decoder agree on the address fields: an address built for
    a rank, a bank and a row (or column) that fit the geometry reaches the
    DFI bus as that rank, bank and row (or column). *)
Lemma address_decodes bankbits rowbits colbits k rank bank row col r rc op t :
  0 ≤ bankbits → 0 ≤ k → 0 ≤ Z.max rowbits colbits →
  k + bankbits + Z.max rowbits colbits ≤ Decoder.ADDRESS →
  0 ≤ bank < 2 ^ bankbits → 0 ≤ rc < 2 ^ Z.max rowbits colbits →
  rank_ok k rank r → rowcol row col = Some rc → op ≠ NOOP → op ≠ LOOP →
  ∃ a, Encoder.address (Encoder.MkEncoder bankbits (2 ^ k)) rank bank row col = Ok a ∧
  let d := Decoder.decode k bankbits rowbits colbits
             (Encoder.encode_spec (dfi_spec op t (Some a))) in
  Decoder.dfi_rank d = r ∧ Decoder.dfi_bank d = bank ∧ Decoder.dfi_address d = rc.
Proof.
  intros Hb Hk Hm Hfit Hbank Hrc Hr Hrow Hn Hl. change Decoder.ADDRESS with 24 in Hfit.
  exists (r + (bank + rc * 2 ^ bankbits) * 2 ^ k). split; [apply address_ok; (done || lia)|]. cbv zeta.
  pose proof (rank_ok_bound _ _ _ Hk Hr) as Hrb.
  destruct (decode_dfi k bankbits rowbits colbits op t
    (Some (r + (bank + rc * 2 ^ bankbits) * 2 ^ k))) as (_ & _ & _ & _ & -> & -> & ->);
    [done..|]. cbn [from_option id].
  rewrite (Z.mod_small _ (2 ^ 24)).
  - split_and!.
    + by apply slice_low.
    + rewrite slice_high_0 by done. by apply slice_low.
    + rewrite slice_high by lia.
      rewrite slice_high_0 by lia.
      assert (2 ^ Z.max rowbits colbits ≤ 2 ^ (24 - k - bankbits))
        by (apply Z.pow_le_mono_r; lia).
      rewrite slice_id by lia. by apply trunc_small.
  - assert (2 ^ (k + (bankbits + Z.max rowbits colbits)) ≤ 2 ^ 24) as Hle
      by (apply Z.pow_le_mono_r; lia).
    rewrite !Z.pow_add_r in Hle by lia.
    pose proof (mix_bound _ _ _ _ Hrb (mix_bound _ _ _ _ Hbank Hrc)). lia.
Qed.
End addresses.

(** ** Claims on the instruction set *)

(** C24: Encoded instructions are the instructions that the gateware decodes.  NOOP and
    LOOP come back with their time slice, count and jump reduced to 29, 12 and
    17 bits; a DFI command for a rank, bank and row or column that fit the
    geometry comes back with the op code, the time slice reduced to 5 bits, and
    that rank, bank and row or column; only a NOOP of time slice 0 is STOP. *)
Theorem instruction_roundtrip {M : Migen} bankbits rowbits colbits k rank bank row col r rc op ts c j :
  0 ≤ bankbits → 0 ≤ k → 0 ≤ Z.max rowbits colbits →
  k + bankbits + Z.max rowbits colbits ≤ Decoder.ADDRESS →
  0 ≤ bank < 2 ^ bankbits → 0 ≤ rc < 2 ^ Z.max rowbits colbits →
  rank_ok k rank r → rowcol row col = Some rc → op ≠ NOOP → op ≠ LOOP →
  let dec s := Decoder.decode k bankbits rowbits colbits (Encoder.encode_spec s) in
  (∃ a, Encoder.address (Encoder.MkEncoder bankbits (2 ^ k)) rank bank row col = Ok a
     ∧ let d := dec (dfi_spec op ts (Some a)) in
       Decoder.op_code d = op_value op ∧ Decoder.timeslice d = ts mod 2 ^ 5 ∧ Decoder.stop d = false
       ∧ Decoder.dfi_rank d = r ∧ Decoder.dfi_bank d = bank ∧ Decoder.dfi_address d = rc)
  ∧ (let d := dec (noop_spec ts) in
     Decoder.op_code d = op_value NOOP ∧ Decoder.timeslice d = ts mod 2 ^ 29
     ∧ Decoder.stop d = (ts mod 2 ^ 29 =? 0))
  ∧ (let d := dec (loop_spec c j) in
     Decoder.op_code d = op_value LOOP ∧ Decoder.loop_count d = c mod 2 ^ 12
     ∧ Decoder.loop_jump d = j mod 2 ^ 17 ∧ Decoder.stop d = false).
Proof.
  intros Hb Hk Hm Hfit Hbank Hrc Hr Hrow Hn Hl dec. split_and!; try apply decode_noop; try apply decode_loop.
  destruct (address_decodes bankbits rowbits colbits k rank bank row col r rc op ts) as (a & Ha & Hd); [done..|].
  exists a. split; [done|]. destruct (decode_dfi k bankbits rowbits colbits op ts (Some a)) as (H1 & H2 & _ & H3 & _); [done..|].
  destruct Hd as (? & ? & ?). cbv zeta in *. by split_and!.
Qed.

Lemma instruction_roundtrip_witness :
  ∃ a, Encoder.address (Encoder.MkEncoder 3 2) (Some 1) 5 (Some 1234) None = Ok a
    ∧ Decoder.dfi_address (Decoder.decode 1 3 13 10 (Encoder.encode_spec (dfi_spec ACT 7 (Some a)))) = 1234.
Proof.
  destruct (instruction_roundtrip 3 13 10 1 (Some 1) 5 (Some 1234) None 1 1234 ACT 7 0 0) as ((a & Ha & Hd) & _);
    try done; [vm_compute; intuition congruence..|].
  exists a. split; [exact Ha|apply Hd].
Defined.

(** Every encoded instruction fits the 32-bit payload memory word. *)
Theorem encoding_bounds op kw w : Encoder.encode op kw = Ok w → 0 ≤ w < 2 ^ Decoder.INSTRUCTION.
Proof. apply encode_bounds. Qed.

Lemma encoding_bounds_witness : 0 ≤ Encoder.encode_spec (noop_spec 5) < 2 ^ 32.
Proof. apply (encoding_bounds NOOP (Encoder.kw_noop 5)). reflexivity. Defined.
