(* ===== verification/Executor.v ===== *)
(** * Payload executor gateware

    Models the [PayloadExecutor] class of
    [src/rowhammer_tester/gateware/payload_executor.py], one clock cycle at a
    time: [pe_cycle] maps the registers and the inputs of a cycle to the
    signals driven in that cycle and to the registers of the next one.  In an
    FSM state a later assignment to the same register overrides an earlier one,
    as in the generated hardware; an undriven signal is 0.

    The instruction-level semantics of payloads, and the theorem that the
    machine implements it, are in [ExecutorSpec]. *)

From S2P Require Import Prelude Isa.
Import Decoder.

(** ** Configuration and registers *)

Record pe_cfg := PeCfg {
  depth : Z;        (* of the payload memory, in instructions *)
  nphases : Z;
  nranks : Z;
  rankbits : Z;
  bankbits : Z;
  rowbits : Z;
  colbits : Z;
  rdphase : Z;
}.

Section init.
Context {M : Migen}.

(** The checks of [PayloadExecutor.__init__] and of the [Scratchpad] and
    [Decoder] it instantiates; the result is the configuration. *)
Definition PayloadExecutor_init (mem_width mem_depth scratchpad_width dfi_databits nphases
    nranks bankbits rowbits colbits rdphase : Z) : result pe_cfg :=
  passert (scratchpad_width =? dfi_databits * nphases) ;;
  passert (mem_width =? INSTRUCTION) ;;
  rankbits ← log2_int nranks;
  Decoder.init mem_width rankbits bankbits rowbits colbits ;;
  Ok (PeCfg mem_depth nphases nranks rankbits bankbits rowbits colbits rdphase).
End init.

Inductive pe_fsm := READY | WAIT_DFI | RUN | IDLE.

#[global] Instance pe_fsm_eq_dec : EqDecision pe_fsm.
Proof. solve_decision. Defined.

Record pe_regs := PeRegs {
  fsm : pe_fsm;
  program_counter : Z;
  loop_counter : Z;
  idle_counter : Z;
  wants_dfi : bool;
  port_adr : Z;       (* address latched by the synchronous payload port *)
}.

Definition pe_reset : pe_regs := PeRegs READY 0 0 0 false 0.

(** Inputs of a cycle. *)
Record pe_in := PeIn { start : bool; dfi_ready : bool }.

(** Signals driven in a cycle; [instr] are the decoder's outputs. *)
Record pe_out := PeOut {
  ready : bool;
  executing : bool;
  scratchpad_reset : bool;
  exec : bool;
  phase : Z;
  instr : decoded;
}.

(** Setters for [NextValue] and [NextState]. *)
Definition next_fsm f s := PeRegs f (program_counter s) (loop_counter s) (idle_counter s) (wants_dfi s) (port_adr s).
Definition next_pc v s := PeRegs (fsm s) v (loop_counter s) (idle_counter s) (wants_dfi s) (port_adr s).
Definition next_loop v s := PeRegs (fsm s) (program_counter s) v (idle_counter s) (wants_dfi s) (port_adr s).
Definition next_idle v s := PeRegs (fsm s) (program_counter s) (loop_counter s) v (wants_dfi s) (port_adr s).
Definition next_wants v s := PeRegs (fsm s) (program_counter s) (loop_counter s) (idle_counter s) v (port_adr s).
Definition next_adr v s := PeRegs (fsm s) (program_counter s) (loop_counter s) (idle_counter s) (wants_dfi s) v.

Section cycle.
Context (cfg : pe_cfg).

(** [Signal(max=mem_payload.depth - 1)] and [Signal(max=len(dfi.phases) - 1)]. *)
Definition pc_bits : Z := signal_max_bits (depth cfg - 1).
Definition phase_bits : Z := signal_max_bits (nphases cfg - 1).

Definition pe_decode (w : Z) : decoded :=
  decode (rankbits cfg) (bankbits cfg) (rowbits cfg) (colbits cfg) w.

(** The FSM states.  Each gives the driven signals, [fetch_address], and the
    next registers but for the port's address latch. *)
Definition act_READY (i : pe_in) (d : decoded) (s : pe_regs) : pe_out * Z * pe_regs :=
  (PeOut true false false false 0 d, 0,
   if start i then next_fsm WAIT_DFI (next_wants true s) else s).

Definition act_WAIT_DFI (i : pe_in) (d : decoded) (s : pe_regs) : pe_out * Z * pe_regs :=
  (PeOut false false true false 0 d, 0,
   if dfi_ready i then next_fsm RUN (next_pc 0 s) else s).

Definition act_RUN (d : decoded) (s : pe_regs) : pe_out * Z * pe_regs :=
  let pc := program_counter s in
  (* terminate after the whole program or at STOP *)
  let s1 :=
    if (pc =? depth cfg - 1) || stop d then next_fsm READY (next_wants false s) else s in
  if op_code d =? op_value LOOP then
    if negb (loop_counter s =? loop_count d) then
      let fetch_address := trunc pc_bits (pc - loop_jump d) in
      (PeOut false true false false 0 d, fetch_address,
       next_loop (trunc LOOP_COUNT (loop_counter s + 1)) (next_pc fetch_address s1))
    else
      let fetch_address := trunc pc_bits (pc + 1) in
      (PeOut false true false false 0 d, fetch_address,
       next_loop 0 (next_pc fetch_address s1))
  else
    let phase := if cas d && negb (ras d) && negb (we d)
                 then trunc phase_bits (rdphase cfg) else 0 in
    if (timeslice d =? 0) || (timeslice d =? 1) then
      let fetch_address := trunc pc_bits (pc + 1) in
      (PeOut false true false true phase d, fetch_address, next_pc fetch_address s1)
    else
      (PeOut false true false true phase d, 0,
       next_fsm IDLE (next_idle (trunc TIMESLICE_NOOP (timeslice d - 2)) s1)).

Definition act_IDLE (d : decoded) (s : pe_regs) : pe_out * Z * pe_regs :=
  if idle_counter s =? 0 then
    let fetch_address := trunc pc_bits (program_counter s + 1) in
    (PeOut false true false false 0 d, fetch_address,
     next_fsm RUN (next_pc fetch_address s))
  else
    (PeOut false true false false 0 d, 0,
     next_idle (trunc TIMESLICE_NOOP (idle_counter s - 1)) s).

(** One clock cycle, with the payload memory [mem]: the instruction is the
    word at the address latched in the previous cycle. *)
Definition pe_cycle (mem : Z → Z) (i : pe_in) (s : pe_regs) : pe_out * pe_regs :=
  let d := pe_decode (mem (port_adr s)) in
  let '(o, fetch_address, s') :=
    match fsm s with
    | READY => act_READY i d s
    | WAIT_DFI => act_WAIT_DFI i d s
    | RUN => act_RUN d s
    | IDLE => act_IDLE d s
    end in
  (o, next_adr fetch_address s').

Fixpoint pe_run (mem : Z → Z) (ins : list pe_in) (s : pe_regs) : list pe_out * pe_regs :=
  match ins with
  | [] => ([], s)
  | i :: ins' =>
      let '(o, s1) := pe_cycle mem i s in
      let '(os, s2) := pe_run mem ins' s1 in
      (o :: os, s2)
  end.

(** The command handed to the DFI executor in a cycle. *)
Definition issued (o : pe_out) : option decoded := if exec o then Some (instr o) else None.
End cycle.

#[global] Arguments pe_decode : simpl never.
#[global] Arguments trunc : simpl never.
#[global] Arguments slice : simpl never.
