(* ===== verification/ExecutorSpec.v ===== *)
(** * What the payload executor promises

    An instruction-level semantics of payloads (a straight line of
    instructions and loops over straight-line bodies, closed by STOP) and the
    refinement theorem: the cycle-level machine of [Executor] issues exactly
    the commands of that semantics, each in the cycle the time slices say. *)

From S2P Require Import Prelude Isa Executor.
Import Decoder.

(** ** Instruction-level semantics *)

Definition is_loop (d : decoded) : bool := op_code d =? op_value LOOP.

(** Cycles an instruction occupies: its time slice, at least 1. *)
Definition instr_cycles (d : decoded) : Z := if is_loop d then 1 else Z.max 1 (timeslice d).

(** Per cycle, the command that an instruction issues. *)
Definition instr_trace (d : decoded) : list (option decoded) :=
  if is_loop d then [None]
  else Some d :: replicate (Z.to_nat (instr_cycles d - 1)) None.

Definition seq_trace (ds : list decoded) : list (option decoded) := ds ≫= instr_trace.

Inductive block :=
  | Straight (d : decoded)
  | Loop (body : list decoded) (l : decoded).

Definition block_code (b : block) : list decoded :=
  match b with Straight d => [d] | Loop body l => body ++ [l] end.

(** A loop body runs once more than the count of its LOOP instruction. *)
Definition block_trace (b : block) : list (option decoded) :=
  match b with
  | Straight d => instr_trace d
  | Loop body l => mjoin (replicate (S (Z.to_nat (loop_count l))) (seq_trace body ++ [None]))
  end.

(** Instructions that neither jump nor stop. *)
Definition simple (d : decoded) : Prop :=
  is_loop d = false ∧ stop d = false ∧ 0 ≤ timeslice d < 2 ^ TIMESLICE_NOOP.

Definition block_ok (b : block) : Prop :=
  match b with
  | Straight d => simple d
  | Loop body l =>
      Forall simple body ∧ is_loop l = true ∧ stop l = false
      ∧ loop_jump l = length body ∧ 0 ≤ loop_count l < 2 ^ LOOP_COUNT
  end.

Definition program_code (bs : list block) : list decoded := bs ≫= block_code.
Definition program_trace (bs : list block) : list (option decoded) := bs ≫= block_trace.

Lemma program_code_cons b bs : program_code (b :: bs) = block_code b ++ program_code bs.
Proof. done. Qed.
Lemma program_code_app bs1 bs2 : program_code (bs1 ++ bs2) = program_code bs1 ++ program_code bs2.
Proof. apply bind_app. Qed.
Lemma program_trace_cons b bs : program_trace (b :: bs) = block_trace b ++ program_trace bs.
Proof. done. Qed.
Lemma program_trace_app bs1 bs2 :
  program_trace (bs1 ++ bs2) = program_trace bs1 ++ program_trace bs2.
Proof. apply bind_app. Qed.
Lemma seq_trace_app ds1 ds2 : seq_trace (ds1 ++ ds2) = seq_trace ds1 ++ seq_trace ds2.
Proof. apply bind_app. Qed.

(** Counting the commands of a trace: an instruction outside loops issues one
    command, a loop issues those of its body in every run. *)
Section counting.
Context (f : option decoded → bool) (Hf : f None = false).

Lemma countb_instr_trace d :
  is_loop d = false → countb f (instr_trace d) = if f (Some d) then 1%nat else 0%nat.
Proof using Hf.
  intros Hl. unfold instr_trace. rewrite Hl. cbn [countb].
  rewrite countb_replicate by done. lia.
Qed.

Lemma countb_seq_trace ds :
  Forall simple ds → countb f (seq_trace ds) = countb (fun d => f (Some d)) ds.
Proof using Hf.
  intros Hs. apply countb_bind. eapply Forall_impl; [exact Hs|].
  intros d (Hl & _). by apply countb_instr_trace.
Qed.

Lemma countb_loop_trace body l :
  Forall simple body →
  countb f (block_trace (Loop body l)) =
    (S (Z.to_nat (loop_count l)) * countb (fun d => f (Some d)) body)%nat.
Proof using Hf.
  intros Hb. unfold block_trace. rewrite countb_repeat, countb_app, countb_seq_trace by done.
  simpl. rewrite Hf. lia.
Qed.
End counting.

(** Duration of a straight line: the sum of its time slices. *)
Lemma length_instr_trace d : is_loop d = false → Z.of_nat (length (instr_trace d)) = instr_cycles d.
Proof.
  intros Hl. unfold instr_trace, instr_cycles. rewrite Hl. simpl. rewrite length_replicate. lia.
Qed.

Definition sum_cycles (ds : list decoded) : Z := foldr (fun d acc => instr_cycles d + acc) 0 ds.

Lemma length_seq_trace ds : Forall simple ds → Z.of_nat (length (seq_trace ds)) = sum_cycles ds.
Proof.
  induction 1 as [|d ds (Hl & _) _ IH]; [done|]. cbn [sum_cycles foldr].
  unfold seq_trace in *. rewrite bind_cons, length_app, Nat2Z.inj_add, IH.
  by rewrite length_instr_trace.
Qed.

Lemma length_loop_trace body l :
  Forall simple body → 0 ≤ loop_count l →
  Z.of_nat (length (block_trace (Loop body l))) = (loop_count l + 1) * (sum_cycles body + 1).
Proof.
  intros Hb Hc. unfold block_trace. rewrite length_mjoin_replicate, length_app, Nat2Z.inj_mul.
  rewrite Nat2Z.inj_add, length_seq_trace by done. f_equal; simpl; lia.
Qed.

(** ** The cycle-level machine on a fixed program *)
Section refine.
Context (cfg : pe_cfg) (mem : Z → Z).

(** In state [s] the machine executes for [length tr] cycles, issuing [tr],
    and is then in state [s'], whatever the inputs of these cycles are. *)
Definition runs_to (s : pe_regs) (tr : list (option decoded)) (s' : pe_regs) : Prop :=
  ∀ ins, length ins = length tr →
    ∃ os, pe_run cfg mem ins s = (os, s') ∧ issued <$> os = tr
          ∧ Forall (fun o => executing o = true ∧ ready o = false) os.

Lemma pe_run_app ins1 ins2 s :
  pe_run cfg mem (ins1 ++ ins2) s =
    let '(os1, s1) := pe_run cfg mem ins1 s in
    let '(os2, s2) := pe_run cfg mem ins2 s1 in (os1 ++ os2, s2).
Proof.
  revert s; induction ins1 as [|i ins IH]; intros s; simpl.
  - by destruct (pe_run cfg mem ins2 s).
  - destruct (pe_cycle cfg mem i s) as [o s1]. rewrite IH.
    destruct (pe_run cfg mem ins s1) as [os s2]. by destruct (pe_run cfg mem ins2 s2).
Qed.

Lemma runs_to_nil s : runs_to s [] s.
Proof. intros [|]; [|done]. intros _. by exists []. Qed.

Lemma runs_to_app s1 tr1 s2 tr2 s3 :
  runs_to s1 tr1 s2 → runs_to s2 tr2 s3 → runs_to s1 (tr1 ++ tr2) s3.
Proof.
  intros H1 H2 ins Hlen. rewrite length_app in Hlen.
  rewrite <- (take_drop (length tr1) ins).
  destruct (H1 (take (length tr1) ins)) as (os1 & E1 & T1 & F1);
    [rewrite length_take; lia|].
  destruct (H2 (drop (length tr1) ins)) as (os2 & E2 & T2 & F2);
    [rewrite length_drop; lia|].
  exists (os1 ++ os2). rewrite pe_run_app, E1, E2, fmap_app, T1, T2.
  split_and!; [done..|]. by apply Forall_app.
Qed.

Lemma runs_to_cycle s c s' :
  (∀ i, ∃ o, pe_cycle cfg mem i s = (o, s') ∧ issued o = c
             ∧ executing o = true ∧ ready o = false) →
  runs_to s [c] s'.
Proof.
  intros H [|i [|]]; [done| |done]. intros _. destruct (H i) as (o & E & I & X).
  exists [o]. simpl. rewrite E. subst c. auto.
Qed.

(** The machine is about to execute the instruction at [pc]. *)
Definition at_pc (pc lc : Z) (s : pe_regs) : Prop :=
  fsm s = RUN ∧ program_counter s = pc ∧ port_adr s = pc ∧ loop_counter s = lc
  ∧ wants_dfi s = true.

(** From every state about to execute [pc] the trace [tr] is issued and leads
    to the instruction at [pc']. *)
Definition segment (pc lc : Z) (tr : list (option decoded)) (pc' lc' : Z) : Prop :=
  ∀ s, at_pc pc lc s → ∃ s', runs_to s tr s' ∧ at_pc pc' lc' s'.

Lemma segment_nil pc lc : segment pc lc [] pc lc.
Proof. intros s Hs. exists s. split; [apply runs_to_nil | done]. Qed.

Lemma segment_app pc1 lc1 tr1 pc2 lc2 tr2 pc3 lc3 :
  segment pc1 lc1 tr1 pc2 lc2 → segment pc2 lc2 tr2 pc3 lc3 →
  segment pc1 lc1 (tr1 ++ tr2) pc3 lc3.
Proof.
  intros H1 H2 s Hs. destruct (H1 s Hs) as (s1 & R1 & A1).
  destruct (H2 s1 A1) as (s2 & R2 & A2). exists s2. split; [|done].
  by eapply runs_to_app.
Qed.

Definition code_at (a : Z) (ds : list decoded) : Prop :=
  ∀ i d, ds !! i = Some d → pe_decode cfg (mem (a + Z.of_nat i)) = d.

Lemma code_at_cons a d ds :
  code_at a (d :: ds) ↔ pe_decode cfg (mem a) = d ∧ code_at (a + 1) ds.
Proof.
  split.
  - intros H. split.
    + specialize (H 0%nat d eq_refl). by rewrite Z.add_0_r in H.
    + intros i d' Hi. rewrite <- (H (S i) d' Hi). do 2 f_equal. lia.
  - intros [H1 H2] [|i] d'; simpl.
    + intros [= <-]. by rewrite Z.add_0_r.
    + intros Hi. rewrite <- (H2 i d' Hi). do 2 f_equal. lia.
Qed.

Lemma code_at_app a ds1 ds2 :
  code_at a (ds1 ++ ds2) ↔ code_at a ds1 ∧ code_at (a + length ds1) ds2.
Proof.
  revert a; induction ds1 as [|d ds IH]; intros a; simpl.
  - rewrite Z.add_0_r. split; [|by intros [_ ?]]. intros H. split; [|done]. by intros [].
  - rewrite !code_at_cons, IH.
    replace (a + 1 + length ds) with (a + S (length ds)) by lia. tauto.
Qed.

(** *** One instruction *)

(** The program counter does not wrap below the last address. *)
Context (Hdepth : depth cfg - 1 < 2 ^ pc_bits cfg).

Lemma pc_succ pc : 0 ≤ pc → pc < depth cfg - 1 → trunc (pc_bits cfg) (pc + 1) = pc + 1.
Proof. intros. apply trunc_small. lia. Qed.

Local Ltac open_cycle s :=
  apply runs_to_cycle; intros i; destruct s; simpl in *; subst; eexists;
  unfold pe_cycle, act_RUN, act_IDLE, next_fsm, next_pc, next_loop, next_idle, next_wants, next_adr;
  cbn [fsm program_counter loop_counter idle_counter wants_dfi port_adr].
Local Ltac close_cycle := split_and!; [reflexivity | done..].

Lemma run_idle k : ∀ s pc lc,
  fsm s = IDLE → program_counter s = pc → loop_counter s = lc → wants_dfi s = true →
  idle_counter s = Z.of_nat k → Z.of_nat k < 2 ^ TIMESLICE_NOOP →
  0 ≤ pc → pc < depth cfg - 1 →
  ∃ s', runs_to s (replicate (S k) None) s' ∧ at_pc (pc + 1) lc s'.
Proof.
  induction k as [|k IH]; intros s pc lc Hf Hpc Hlc Hw Hk Hlt H0 Hd.
  - exists (PeRegs RUN (pc + 1) lc 0 true (pc + 1)). split; [|done].
    open_cycle s.  rewrite pc_succ by done. close_cycle.
  - destruct (IH (PeRegs IDLE pc lc (Z.of_nat k) true 0) pc lc) as (s' & R & A); simpl; try done; [lia|].
    exists s'. split; [|done].
    refine (runs_to_app _ [None] _ _ _ _ R). open_cycle s. 
    rewrite (proj2 (Z.eqb_neq _ _)), trunc_small by lia.
    replace (S k - 1) with (Z.of_nat k) by lia. close_cycle.
Qed.

Lemma segment_simple pc lc d :
  pe_decode cfg (mem pc) = d → simple d → 0 ≤ pc → pc < depth cfg - 1 →
  segment pc lc (instr_trace d) (pc + 1) lc.
Proof.
  intros Hd (Hl & Hs & Ht) H0 Hlt s (Hf & Hpc & Hadr & Hlc & Hw).
  unfold instr_trace, instr_cycles. rewrite Hl. unfold is_loop in Hl; simpl op_value in Hl.
  destruct ((timeslice d =? 0) || (timeslice d =? 1)) eqn:Hts.
  - exists (PeRegs RUN (pc + 1) lc (idle_counter s) true (pc + 1)). split; [|done].
    replace (Z.to_nat (Z.max 1 (timeslice d) - 1)) with 0%nat by lia.
    open_cycle s. simpl op_value.
    rewrite (proj2 (Z.eqb_neq pc _)) by lia. rewrite Hs, Hl, Hts. cbn [orb].
    rewrite pc_succ by done. close_cycle.
  - destruct (run_idle (Z.to_nat (timeslice d - 2))
      (PeRegs IDLE pc lc (timeslice d - 2) true 0) pc lc) as (s' & R & A); simpl; try done; [lia..|].
    exists s'. split; [|done].
    replace (Z.to_nat (Z.max 1 (timeslice d) - 1)) with (S (Z.to_nat (timeslice d - 2))) by lia.
    refine (runs_to_app _ [Some d] _ _ _ _ R).
    open_cycle s. simpl op_value.
    rewrite (proj2 (Z.eqb_neq pc _)) by lia. rewrite Hs, Hl, Hts. cbn [orb].
    rewrite (trunc_small TIMESLICE_NOOP) by lia. close_cycle.
Qed.

Lemma segment_loop_back pc lc d :
  pe_decode cfg (mem pc) = d → is_loop d = true → stop d = false →
  0 ≤ lc → lc < loop_count d → loop_count d < 2 ^ LOOP_COUNT →
  0 ≤ pc - loop_jump d → 0 ≤ loop_jump d → pc < depth cfg - 1 →
  segment pc lc [None] (pc - loop_jump d) (lc + 1).
Proof.
  intros Hd Hl Hs ? Hc Hw H0 Hj Hlt s (Hf & Hpc & Hadr & Hlc & Hwd).
  exists (PeRegs RUN (pc - loop_jump d) (lc + 1) (idle_counter s) true (pc - loop_jump d)).
  split; [|done]. unfold is_loop in Hl; simpl op_value in Hl. open_cycle s. simpl op_value.
  rewrite Hl, Hs, (proj2 (Z.eqb_neq pc _)), (proj2 (Z.eqb_neq lc _)) by lia. cbn [orb negb].
  rewrite !trunc_small by lia. close_cycle.
Qed.

Lemma segment_loop_exit pc d :
  pe_decode cfg (mem pc) = d → is_loop d = true → stop d = false →
  0 ≤ pc → pc < depth cfg - 1 →
  segment pc (loop_count d) [None] (pc + 1) 0.
Proof.
  intros Hd Hl Hs H0 Hlt s (Hf & Hpc & Hadr & Hlc & Hwd).
  exists (PeRegs RUN (pc + 1) 0 (idle_counter s) true (pc + 1)).
  split; [|done]. unfold is_loop in Hl; simpl op_value in Hl. open_cycle s. simpl op_value.
  rewrite Hl, Hs, (proj2 (Z.eqb_neq pc _)), Z.eqb_refl by lia. cbn [orb negb].
  rewrite !pc_succ by lia. close_cycle.
Qed.

(** *** Straight lines, loops and programs *)

Lemma segment_seq ds : ∀ a lc,
  code_at a ds → Forall simple ds → 0 ≤ a → a + length ds ≤ depth cfg - 1 →
  segment a lc (seq_trace ds) (a + length ds) lc.
Proof.
  induction ds as [|d ds IH]; intros a lc Hc Hs H0 Hlen.
  - rewrite Z.add_0_r. apply segment_nil.
  - apply code_at_cons in Hc as [Hd Hc]. apply Forall_cons_1 in Hs as [Hs Hss].
    simpl length in *.
    replace (a + S (length ds)) with (a + 1 + length ds) by lia.
    eapply segment_app; [apply segment_simple|apply IH]; (done || lia).
Qed.

(** From the start of the body with loop counter [c - k], the loop is left
    after [k + 1] more executions of the body. *)
Lemma segment_loop body l a (k : nat) :
  code_at a (body ++ [l]) → block_ok (Loop body l) →
  0 ≤ a → a + length body < depth cfg - 1 → k ≤ loop_count l →
  segment a (loop_count l - k) (mjoin (replicate (S k) (seq_trace body ++ [None])))
    (a + length body + 1) 0.
Proof.
  intros Hcode (Hb & Hl & Hst & Hj & Hc) H0 Hlen Hk.
  apply code_at_app in Hcode as [Hcb Hcl]. apply code_at_cons in Hcl as [Hcl _].
  assert (∀ lc, segment a lc (seq_trace body) (a + length body) lc) as Hbody
    by (intros; apply segment_seq; (done || lia)).
  induction k as [|k IH]; simpl replicate; simpl mjoin.
  - rewrite app_nil_r, Z.sub_0_r. eapply segment_app; [apply Hbody|].
    apply segment_loop_exit; (done || lia).
  - eapply segment_app; [|apply IH; lia].
    eapply segment_app; [apply Hbody|].
    replace (loop_count l - k) with (loop_count l - S k + 1) by lia.
    replace a with (a + length body - loop_jump l) at 2 by lia.
    apply segment_loop_back; (done || lia).
Qed.

Lemma segment_block b a :
  code_at a (block_code b) → block_ok b → 0 ≤ a →
  a + length (block_code b) ≤ depth cfg - 1 →
  segment a 0 (block_trace b) (a + length (block_code b)) 0.
Proof.
  destruct b as [d|body l]; intros Hc Hok H0 Hlen; simpl in *.
  - apply code_at_cons in Hc as [Hd _]. apply segment_simple; (done || lia).
  - rewrite length_app in *. simpl in *.
    replace (a + (length body + 1)%nat) with (a + length body + 1) by lia.
    pose proof (proj2 (proj2 (proj2 (proj2 Hok)))) as Hcnt.
    pose proof (segment_loop body l a (Z.to_nat (loop_count l)) Hc Hok H0) as H.
    rewrite Z2Nat.id, Z.sub_diag in H by lia. apply H; lia.
Qed.

Lemma segment_program bs : ∀ a,
  code_at a (program_code bs) → Forall block_ok bs → 0 ≤ a →
  a + length (program_code bs) ≤ depth cfg - 1 →
  segment a 0 (program_trace bs) (a + length (program_code bs)) 0.
Proof.
  induction bs as [|b bs IH]; intros a Hc Hok H0 Hlen.
  - rewrite Z.add_0_r. apply segment_nil.
  - rewrite program_code_cons in *. rewrite program_trace_cons.
    apply code_at_app in Hc as [Hcb Hcs]. apply Forall_cons_1 in Hok as [Hb Hbs].
    rewrite length_app in *. rewrite Nat2Z.inj_add, Z.add_assoc.
    eapply segment_app; [apply segment_block | apply IH]; (done || lia).
Qed.

(** STOP ends the execution in one cycle and releases the DFI. *)
Lemma run_stop pc lc d s :
  pe_decode cfg (mem pc) = d → op_code d = op_value NOOP → timeslice d = 0 → stop d = true →
  0 ≤ pc → pc ≤ depth cfg - 1 → at_pc pc lc s →
  runs_to s [Some d] (PeRegs READY (trunc (pc_bits cfg) (pc + 1)) lc (idle_counter s) false
    (trunc (pc_bits cfg) (pc + 1))).
Proof.
  intros Hd Ho Ht Hs H0 Hlt (Hf & Hpc & Hadr & Hlc & Hw).
  open_cycle s. rewrite Ho, Ht, Hs, orb_true_r. cbn. close_cycle.
Qed.

(** *** From a start request to the end *)

(** The inputs of an execution: the start request, any number of cycles in
    which the DFI is not granted, the grant, and the cycles of execution. *)
Definition execution_inputs (wait body : list pe_in) (ins : list pe_in) : Prop :=
  ∃ dr st, ins = PeIn true dr :: wait ++ PeIn st true :: body
           ∧ Forall (fun i => dfi_ready i = false) wait.

Lemma run_wait wait s :
  fsm s = WAIT_DFI → port_adr s = 0 → Forall (fun i => dfi_ready i = false) wait →
  ∃ os, pe_run cfg mem wait s = (os, s)
    ∧ Forall (fun o => executing o = false ∧ issued o = None ∧ ready o = false
                       ∧ scratchpad_reset o = true) os.
Proof.
  intros Hf Ha. induction 1 as [|i wait Hi Hw (os & E & F)]; simpl.
  - by exists [].
  - unfold pe_cycle. rewrite Hf. unfold act_WAIT_DFI. rewrite Hi.
    replace (next_adr 0 s) with s by (destruct s; simpl in *; by subst).
    rewrite E. eexists. split; [done|]. by constructor.
Qed.

Lemma pe_run_cons i ins s :
  pe_run cfg mem (i :: ins) s =
    ((pe_cycle cfg mem i s).1 :: (pe_run cfg mem ins (pe_cycle cfg mem i s).2).1,
     (pe_run cfg mem ins (pe_cycle cfg mem i s).2).2).
Proof.
  cbn [pe_run]. destruct (pe_cycle cfg mem i s) as [o s1]. cbn [fst snd].
  by destruct (pe_run cfg mem ins s1).
Qed.

Lemma length_pe_run ins s : length (pe_run cfg mem ins s).1 = length ins.
Proof.
  revert s; induction ins as [|i ins IH]; intros s; [done|].
  rewrite pe_run_cons. simpl. by rewrite IH.
Qed.

Lemma run_start wait ins body s :
  fsm s = READY → execution_inputs wait body ins →
  ∃ os s1, pe_run cfg mem ins s = (os ++ (pe_run cfg mem body s1).1, (pe_run cfg mem body s1).2)
    ∧ length os = (2 + length wait)%nat
    ∧ Forall (fun o => executing o = false ∧ issued o = None) os
    ∧ at_pc 0 (loop_counter s) s1.
Proof.
  intros Hf (dr & st & -> & Hw). rewrite pe_run_cons, pe_run_app.
  assert (∃ o, pe_cycle cfg mem (PeIn true dr) s =
    (o, next_adr 0 (next_fsm WAIT_DFI (next_wants true s))) ∧ executing o = false ∧ issued o = None)
    as (o1 & -> & Ho1) by (unfold pe_cycle; rewrite Hf; by eexists).
  cbn [fst snd]. set (sw := next_adr _ _).
  destruct (run_wait wait sw eq_refl eq_refl Hw) as (os & E & F).
  pose proof (length_pe_run wait sw) as Hlen. rewrite E in *. cbn [fst] in Hlen.
  rewrite pe_run_cons.
  assert (∃ o, pe_cycle cfg mem (PeIn st true) sw =
    (o, next_adr 0 (next_fsm RUN (next_pc 0 sw))) ∧ executing o = false ∧ issued o = None)
    as (o2 & -> & Ho2) by (by eexists).
  exists (o1 :: os ++ [o2]), (next_adr 0 (next_fsm RUN (next_pc 0 sw))).
  cbn [fst snd app]. rewrite <- app_assoc. split_and!; [done | | | done].
  - simpl. rewrite length_app. simpl. lia.
  - constructor; [done|]. apply Forall_app. split; [|by apply Forall_singleton].
    eapply Forall_impl; [exact F|]. by intros o (? & ? & _).
Qed.

(** The memory holds the program followed by STOP. *)
Definition holds_program (bs : list block) (dstop : decoded) : Prop :=
  code_at 0 (program_code bs ++ [dstop]) ∧ Forall block_ok bs
  ∧ op_code dstop = op_value NOOP ∧ timeslice dstop = 0 ∧ stop dstop = true
  ∧ length (program_code bs) ≤ depth cfg - 1.

(** A run of a program from the READY state: after the start request and the
    grant it executes for exactly [length (program_trace bs) + 1] cycles,
    issues the program's trace and STOP, and is READY again, the DFI
    released and the loop counter back at 0. *)
Lemma execution_refines bs dstop wait body ins s :
  holds_program bs dstop → fsm s = READY → loop_counter s = 0 →
  execution_inputs wait body ins → length body = S (length (program_trace bs)) →
  ∃ os s', pe_run cfg mem ins s = (os, s')
    ∧ fsm s' = READY ∧ wants_dfi s' = false ∧ loop_counter s' = 0
    ∧ issued <$> os = replicate (2 + length wait) None ++ program_trace bs ++ [Some dstop]
    ∧ countb executing os = S (length (program_trace bs)).
Proof.
  intros (Hc & Hok & Ho & Ht & Hst & Hlen) Hf Hl0 Hins Hbody.
  destruct (run_start wait ins body s Hf Hins) as (osw & s1 & -> & Hlw & Fw & A1).
  apply code_at_app in Hc as [Hc Hcs]. apply code_at_cons in Hcs as [Hcs _].
  rewrite Hl0 in A1.
  destruct (segment_program bs 0 Hc Hok (Z.le_refl 0) Hlen s1 A1) as (s2 & R2 & A2).
  pose proof (run_stop _ _ _ _ Hcs Ho Ht Hst ltac:(lia) Hlen A2) as R3.
  destruct (runs_to_app _ _ _ _ _ R2 R3 body) as (os & E & T & F).
  { rewrite length_app. simpl. lia. }
  rewrite E. cbn [fst snd]. do 2 eexists. split; [reflexivity|]. split_and!; [done..| |].
  - rewrite fmap_app, T, <- Hlw. f_equal. apply fmap_const.
    eapply Forall_impl; [exact Fw|]. intros o Ho'; apply Ho'.
  - rewrite countb_app, (countb_none _ osw), (countb_all _ os).
    + pose proof (f_equal length T) as HT. rewrite length_fmap, length_app in HT.
      simpl in *. lia.
    + eapply Forall_impl; [exact F|]. intros o Ho'; apply Ho'.
    + eapply Forall_impl; [exact Fw|]. intros o Ho'; apply Ho'.
Qed.
End refine.

(** C7: The executor gateware implements the payload semantics.  With a program of plain
    instructions and non-nested loops, followed by STOP, in a payload memory
    whose last address the program counter can hold, and for any time until the
    DFI is granted: after a start request the
    machine issues nothing until the grant, then for one cycle per element
    exactly the program's trace (every instruction for its time slice, every
    loop body [count + 1] times with a cycle per jump) and STOP, and is READY
    again with the DFI released and the loop counter reset. *)
Theorem executor_refines cfg mem bs dstop wait body ins s :
  depth cfg - 1 < 2 ^ pc_bits cfg → holds_program cfg mem bs dstop → fsm s = READY → loop_counter s = 0 →
  execution_inputs wait body ins → length body = S (length (program_trace bs)) →
  ∃ os s', pe_run cfg mem ins s = (os, s')
    ∧ fsm s' = READY ∧ wants_dfi s' = false ∧ loop_counter s' = 0
    ∧ issued <$> os = replicate (2 + length wait) None ++ program_trace bs ++ [Some dstop]
    ∧ countb executing os = S (length (program_trace bs)).
Proof. intros. by eapply execution_refines. Qed.

(** A loop around a NOOP of two cycles, executed three times. *)
Definition spec_cfg : pe_cfg := PeCfg 8 4 1 0 3 13 10 0.
Definition spec_word (a : Z) : Z :=
  if a =? 0 then Encoder.encode_spec (noop_spec 2)
  else if a =? 1 then Encoder.encode_spec (loop_spec 2 1) else 0.
Definition spec_program : list block :=
  [Loop [pe_decode spec_cfg (spec_word 0)] (pe_decode spec_cfg (spec_word 1))].

Lemma executor_refines_witness :
  ∃ os s', pe_run spec_cfg spec_word
      (PeIn true false :: [PeIn false false] ++ PeIn false true :: replicate 10 (PeIn false true)) pe_reset = (os, s')
    ∧ fsm s' = READY ∧ countb executing os = 10%nat.
Proof.
  destruct (executor_refines spec_cfg spec_word spec_program (pe_decode spec_cfg 0) [PeIn false false]
    (replicate 10 (PeIn false true))
    (PeIn true false :: [PeIn false false] ++ PeIn false true :: replicate 10 (PeIn false true)) pe_reset)
    as (os & s' & H1 & H2 & _ & _ & _ & H3).
  - reflexivity.
  - split_and!.
    + intros i d Hi. destruct i as [|[|[|i]]]; cbn in Hi; [by injection Hi as <-..|done].
    + repeat constructor; vm_compute; congruence.
    + reflexivity.
    + reflexivity.
    + reflexivity.
    + vm_compute. congruence.
  - reflexivity.
  - reflexivity.
  - exists false, false. split; [reflexivity|]. by repeat constructor.
  - reflexivity.
  - exists os, s'. split_and!; [exact H1 | exact H2 | exact H3].
Defined.
