(* ===== verification/Generator.v ===== *)
(** * Payload generation

    Models [src/rowhammer_tester/scripts/playbook/lib/__init__.py] (the payload
    generator) and [get_expected_execution_cycles] of
    [src/rowhammer_tester/scripts/utils.py].  The Python list [payload] that the
    code appends to is threaded through the functions.  Messages printed for the
    user are left out; the computations behind them that can fail are kept. *)

From S2P Require Import Prelude Isa.

(** Timing parameters in clock cycles, [settings.timing]. *)
Record timings := Timings { tRAS : Z; tRP : Z; tREFI : Z; tRFC : Z }.

(** ** Python arithmetic and slices *)

(** [x // y] and [x % y]: floor division, which raises on 0. *)
Definition pdiv (x y : Z) : result Z := if y =? 0 then Raise ZeroDivisionError else Ok (x / y).
Definition pmod (x y : Z) : result Z := if y =? 0 then Raise ZeroDivisionError else Ok (x mod y).

(** [math.ceil(x / y)] for a positive power of two [y], which is exact. *)
Definition ceil_div (x y : Z) : Z := - (- x / y).

(** A bound of a slice: negative ones count from the end, all are clamped. *)
Definition slice_bound_of (n i : Z) : nat :=
  Z.to_nat (if i <? 0 then Z.max 0 (n + i) else Z.min n i).

(** [l[a:b]]. *)
Definition py_slice {A} (l : list A) (a b : Z) : list A :=
  let a' := slice_bound_of (length l) a in
  let b' := slice_bound_of (length l) b in
  take (b' - a') (drop a' l).

(** ** Expected execution time *)

(** Attribute access on an [Encoder.I]. *)
Definition attr_timeslice (s : Encoder.spec) : result Z :=
  of_option AttributeError (Encoder.kw_timeslice (Encoder.sp_kwargs s)).
Definition attr_count (s : Encoder.spec) : result Z :=
  of_option AttributeError (Encoder.kw_count (Encoder.sp_kwargs s)).
Definition attr_jump (s : Encoder.spec) : result Z :=
  of_option AttributeError (Encoder.kw_jump (Encoder.sp_kwargs s)).

Definition sum_timeslices (body : list Encoder.spec) : result Z :=
  result_fold (fun acc s => t ← attr_timeslice s; Ok (acc + t)) 0 body.

(** The loop of [get_expected_execution_cycles] from index [i] on, with the
    instructions [rest] still to visit. *)
Fixpoint expected_cycles_from (payload : list Encoder.spec) (i cycles : Z)
    (rest : list Encoder.spec) : result Z :=
  match rest with
  | [] => Ok cycles
  | instr :: rest' =>
      let cycles := cycles + 1 in
      match Encoder.sp_op_code instr with
      | LOOP =>
          jump ← attr_jump instr;
          let body := py_slice payload (i - jump) i in
          count ← attr_count instr;
          t ← sum_timeslices body;
          expected_cycles_from payload (i + 1) (cycles + count * t) rest'
      | op =>
          t ← attr_timeslice instr;
          if bool_decide (op = NOOP) && (t =? 0) then Ok cycles  (* STOP *)
          else expected_cycles_from payload (i + 1) (cycles + (t - 1)) rest'
      end
  end.

Definition get_expected_execution_cycles (payload : list Encoder.spec) : result Z :=
  expected_cycles_from payload 0 0 payload.

(** ** Loops *)
Section loops.
Context {M : Migen}.

(** State of the inner loops of [encode_one_loop]. *)
Record loop_state := LoopState {
  ls_payload : list Encoder.spec;
  ls_accum : Z;
  ls_refreshes : Z;
}.

(** The body of [for row in row_sequence]. *)
Definition encode_row (t : timings) (e : Encoder.encoder) (bank : Z) (rank : option Z)
    (refresh_op : OpCode) (st : loop_state) (row : Z) : result loop_state :=
  st ←
    (if tREFI t <? ls_accum st + tRAS t + tRP t then
       r ← Encoder.I refresh_op (Encoder.kw_noop (tRFC t));
       Ok (LoopState (ls_payload st ++ [r]) (tRFC t) (ls_refreshes st + 1))
     else Ok st);
  a ← Encoder.address e rank bank (Some row) None;
  act ← Encoder.I ACT (Encoder.kw_dfi (tRAS t) a);
  pa ← Encoder.address e rank 0 None (Some (Z.shiftl 1 10));
  pre ← Encoder.I PRE (Encoder.kw_dfi (tRP t) pa);
  Ok (LoopState (ls_payload st ++ [act; pre]) (ls_accum st + (tRAS t + tRP t)) (ls_refreshes st)).

(** Returns the number of refreshes issued and the extended payload. *)
Definition encode_one_loop (unrolled rolled : Z) (row_sequence : list Z) (t : timings)
    (e : Encoder.encoder) (bank : Z) (rank : option Z) (refresh_op : OpCode)
    (payload : list Encoder.spec) : result (Z * list Encoder.spec) :=
  r ← Encoder.I refresh_op (Encoder.kw_noop (tRFC t));
  st ← result_fold
    (fun st _ => result_fold (encode_row t e bank rank refresh_op) st row_sequence)
    (LoopState (payload ++ [r]) (tRFC t + 1) 1) (seq 0 (Z.to_nat unrolled));
  let jump_target := 2 * unrolled * length row_sequence + ls_refreshes st in
  passert (jump_target <? 2 ^ Decoder.LOOP_JUMP) ;;
  l ← Encoder.I LOOP (Encoder.kw_loop rolled jump_target);
  Ok (ls_refreshes st * (rolled + 1), ls_payload st ++ [l]).

Definition long_loop_count (rolled : Z) (outer_idx : nat) : Z :=
  let count_max := 2 ^ Decoder.LOOP_COUNT - 1 in
  match outer_idx with
  | O =>
      let loop_count := rolled mod (count_max + 1) in
      if loop_count =? 0 then count_max else loop_count - 1
  | S _ => count_max
  end.

Definition encode_long_loop (unrolled rolled : Z) (row_sequence : list Z) (t : timings)
    (e : Encoder.encoder) (bank : Z) (rank : option Z) (refresh_op : OpCode)
    (payload : list Encoder.spec) : result (Z * list Encoder.spec) :=
  let count_max := 2 ^ Decoder.LOOP_COUNT - 1 in
  let n_loops := ceil_div rolled (count_max + 1) in
  result_fold
    (fun '(refreshes, payload) outer_idx =>
       '(n, payload) ← encode_one_loop unrolled (long_loop_count rolled outer_idx)
          row_sequence t e bank rank refresh_op payload;
       Ok (refreshes + n, payload))
    (0, payload) (seq 0 (Z.to_nat n_loops)).

(** [while rem: gcd, rem = rem, gcd % rem]; [|rem|] decreases at each turn. *)
Fixpoint gcd_loop (fuel : nat) (gcd rem : Z) : Z :=
  match fuel with
  | O => gcd
  | S fuel' => if rem =? 0 then gcd else gcd_loop fuel' rem (gcd mod rem)
  end.

Definition least_common_multiple (x y : Z) : result Z :=
  pdiv (x * y) (gcd_loop (S (Z.abs_nat y)) x y).

(** [generate_payload_from_row_list].  [nranks] and [rank] are keyword
    arguments without a default: [None] when the caller does not pass them. *)
Definition generate_payload_from_row_list (read_count : Z) (row_sequence : list Z)
    (t : timings) (bankbits bank : Z) (nranks rank : option Z) (payload_mem_size : Z)
    (refresh verbose : bool) : result (list Z) :=
  nranks ← of_option TypeError nranks;
  rank ← of_option TypeError rank;
  let e := Encoder.MkEncoder bankbits nranks in
  acts_per_interval ← pdiv (tREFI t - tRFC t) (tRP t + tRAS t);
  let max_acts_in_loop := (2 ^ Decoder.LOOP_JUMP - 1) / 2 in
  lcm ← least_common_multiple acts_per_interval (length row_sequence);
  let repeatable_unit := Z.min lcm max_acts_in_loop in
  passert (length row_sequence <=? repeatable_unit) ;;
  repetitions ← pdiv repeatable_unit (length row_sequence);
  read_count_quotient ← pdiv read_count repetitions;
  read_count_remainder ← pmod read_count repetitions;
  let refresh_op := if refresh then REF else NOOP in
  first ← Encoder.I NOOP
    (Encoder.kw_noop (Z.max (Z.max 1 (tRFC t - 2)) (tREFI t - 2)));
  '(refreshes, payload) ← encode_long_loop repetitions read_count_quotient row_sequence t e
    bank (Some rank) refresh_op [first];
  '(refreshes', payload) ← encode_long_loop 1 read_count_remainder row_sequence t e
    bank (Some rank) refresh_op payload;
  r ← Encoder.I refresh_op (Encoder.kw_noop 1);
  stop ← Encoder.I NOOP (Encoder.kw_noop 0);
  let payload := payload ++ [r; stop] in
  (if verbose then _ ← get_expected_execution_cycles payload; Ok () else Ok ()) ;;
  (if payload_mem_size / 4 <? length payload then Raise (SystemExit 1) else Ok ()) ;;
  Ok (Encoder.encode_payload payload).

(** [generate_idle_payload]; [idle_clocks] is [int(idle_time * sys_clk_freq)].
    The size check is under [if verbose], as in the source. *)
Definition generate_idle_payload (idle_clocks : Z) (t : timings) (payload_mem_size : Z)
    (verbose : bool) : result (list Z) :=
  let max_noop_time := 2 ^ 29 - 1 in
  let noop_actions := idle_clocks / max_noop_time in
  let last_noop_time := idle_clocks mod max_noop_time in
  first ← Encoder.I NOOP
    (Encoder.kw_noop (Z.max (Z.max 1 (tRFC t - 2)) (tREFI t - 2)));
  ref1 ← Encoder.I REF (Encoder.kw_noop (tRFC t));
  loop1 ← Encoder.I LOOP (Encoder.kw_loop 8191 1);
  noops ← result_map (fun _ => Encoder.I NOOP (Encoder.kw_noop max_noop_time))
            (seq 0 (Z.to_nat noop_actions));
  last ← Encoder.I NOOP (Encoder.kw_noop last_noop_time);
  ref2 ← Encoder.I REF (Encoder.kw_noop (tRFC t));
  loop2 ← Encoder.I LOOP (Encoder.kw_loop 8191 1);
  stop ← Encoder.I NOOP (Encoder.kw_noop 0);
  let payload := [first; ref1; loop1] ++ noops ++ [last; ref2; loop2; stop] in
  (if verbose then
     _ ← get_expected_execution_cycles payload;
     if payload_mem_size / 4 <? length payload then Raise (SystemExit 1) else Ok ()
   else Ok ()) ;;
  Ok (Encoder.encode_payload payload).
End loops.
