(* ===== verification/GeneratorFacts.v ===== *)
(** * Properties of the payload generator

    The structure of generated payloads (lists of blocks in the sense of
    [ExecutorSpec]), the number of row activations and the refresh intervals of
    their execution on the payload executor, and the error cases. *)

From S2P Require Import Prelude Isa Executor ExecutorSpec Generator.
Import Decoder.

(** ** Arithmetic *)

Lemma gcd_loop_correct fuel x y :
  0 ≤ x → 0 ≤ y → y < Z.of_nat fuel → gcd_loop fuel x y = Z.gcd x y.
Proof.
  revert x y; induction fuel as [|fuel IH]; intros x y Hx Hy Hf; [lia|]. simpl.
  destruct (Z.eqb_spec y 0) as [->|Hy0]; [by rewrite Z.gcd_0_r, Z.abs_eq|].
  pose proof (Z.mod_pos_bound x y ltac:(lia)).
  rewrite IH by lia. rewrite Z.gcd_comm, Z.gcd_mod by done. apply Z.gcd_comm.
Qed.

Lemma least_common_multiple_correct x y :
  0 ≤ x → 0 ≤ y → 0 < x ∨ 0 < y → least_common_multiple x y = Ok (Z.lcm x y).
Proof.
  intros Hx Hy Hxy. unfold least_common_multiple, pdiv.
  rewrite gcd_loop_correct by lia.
  assert (Z.gcd x y ≠ 0) as Hg by (rewrite Z.gcd_eq_0; lia).
  rewrite (proj2 (Z.eqb_neq _ _)) by done. f_equal.
  unfold Z.lcm. rewrite Z.divide_div_mul_exact; [|done|apply Z.gcd_divide_r].
  rewrite Z.abs_eq; [done|]. apply Z.mul_nonneg_nonneg; [done|].
  pose proof (Z.gcd_nonneg x y). apply Z.div_pos; lia.
Qed.

Lemma ceil_div_spec x y :
  0 < y → (ceil_div x y - 1) * y < x ∧ x ≤ ceil_div x y * y.
Proof.
  intros Hy. unfold ceil_div. pose proof (Z.div_mod (- x) y ltac:(lia)).
  pose proof (Z.mod_pos_bound (- x) y Hy). nia.
Qed.

(** The counts of the loops of [encode_long_loop] add up to [rolled] runs. *)
Lemma long_loop_total rolled :
  0 ≤ rolled →
  foldr (fun i acc => long_loop_count rolled i + 1 + acc) 0
    (seq 0 (Z.to_nat (ceil_div rolled (2 ^ LOOP_COUNT)))) = rolled.
Proof.
  intros Hr. pose proof (ceil_div_spec rolled (2 ^ LOOP_COUNT) ltac:(done)) as Hc.
  change (2 ^ LOOP_COUNT) with 4096 in *.
  assert (∀ k m, foldr (fun i acc => long_loop_count rolled i + 1 + acc) 0 (seq (S m) k)
          = 4096 * k) as Htail.
  { induction k as [|k IH]; intros m; [done|]. simpl. rewrite IH.
    change (2 ^ LOOP_COUNT) with 4096. lia. }
  destruct (Z.to_nat (ceil_div rolled 4096)) as [|n] eqn:Hn; simpl; [lia|].
  rewrite Htail. change (2 ^ LOOP_COUNT - 1 + 1) with 4096.
  change (2 ^ LOOP_COUNT) with 4096.
  pose proof (Z.div_mod rolled 4096 ltac:(lia)). pose proof (Z.mod_pos_bound rolled 4096).
  destruct (Z.eqb_spec (rolled mod 4096) 0); nia.
Qed.

(** ** Parameters for which the instruction fields are wide enough *)
Record gen_params_ok (cfg : pe_cfg) (t : timings) (bank rank : Z) (refresh : bool) : Prop := {
  gp_rankbits : 0 ≤ rankbits cfg;
  gp_nranks : nranks cfg = 2 ^ rankbits cfg;
  gp_bankbits : 0 ≤ bankbits cfg;
  gp_fits : rankbits cfg + bankbits cfg + Z.max (rowbits cfg) (colbits cfg) ≤ ADDRESS;
  gp_a10 : 10 < Z.max (rowbits cfg) (colbits cfg);
  gp_bank : 0 ≤ bank < 2 ^ bankbits cfg;
  gp_rank : 0 ≤ rank < nranks cfg;
  gp_tras : 0 < tRAS t < 2 ^ TIMESLICE;
  gp_trp : 0 < tRP t < 2 ^ TIMESLICE;
  gp_trfc : 0 < tRFC t < 2 ^ (if refresh then TIMESLICE else TIMESLICE_NOOP);
  gp_order : tRFC t ≤ tREFI t;
  gp_trefi : tREFI t - 2 < 2 ^ TIMESLICE_NOOP;
}.

Section code.
Context {M : Migen} (cfg : pe_cfg) (t : timings) (bank rank : Z) (refresh : bool).
Context (Hok : gen_params_ok cfg t bank rank refresh).

Definition enc : Encoder.encoder := Encoder.MkEncoder (bankbits cfg) (nranks cfg).
Definition refresh_op : OpCode := if refresh then REF else NOOP.

Definition ref_spec (ts : Z) : Encoder.spec :=
  if refresh then dfi_spec REF ts None else noop_spec ts.
Definition addr_of (b rowcol : Z) : Z :=
  rank + (b + rowcol * 2 ^ bankbits cfg) * 2 ^ rankbits cfg.
Definition act_spec (row : Z) : Encoder.spec := dfi_spec ACT (tRAS t) (Some (addr_of bank row)).
Definition pre_spec : Encoder.spec := dfi_spec PRE (tRP t) (Some (addr_of 0 1024)).

(** What one row contributes, given the cycles since the last refresh. *)
Definition row_over (accum : Z) : bool := tREFI t <? accum + tRAS t + tRP t.
Definition row_code (accum row : Z) : list Encoder.spec :=
  (if row_over accum then [ref_spec (tRFC t)] else []) ++ [act_spec row; pre_spec].
Definition row_accum (accum : Z) : Z :=
  (if row_over accum then tRFC t else accum) + (tRAS t + tRP t).

Fixpoint rows_code (accum : Z) (rows : list Z) : list Encoder.spec :=
  match rows with
  | [] => []
  | row :: rows' => row_code accum row ++ rows_code (row_accum accum) rows'
  end.
Fixpoint rows_accum (accum : Z) (rows : list Z) : Z :=
  match rows with [] => accum | _ :: rows' => rows_accum (row_accum accum) rows' end.
Fixpoint rows_refreshes (accum : Z) (rows : list Z) : nat :=
  match rows with
  | [] => 0
  | _ :: rows' => (if row_over accum then 1 else 0) + rows_refreshes (row_accum accum) rows'
  end%nat.

(** The body of a generated loop, without its LOOP instruction. *)
Definition loop_body (unrolled : Z) (rows : list Z) : list Encoder.spec :=
  ref_spec (tRFC t) :: rows_code (tRFC t + 1) (mjoin (replicate (Z.to_nat unrolled) rows)).
Definition loop_code (unrolled rolled : Z) (rows : list Z) : list Encoder.spec :=
  loop_body unrolled rows ++ [loop_spec rolled (length (loop_body unrolled rows))].

Lemma rank_ok_gen : rank_ok (rankbits cfg) (Some rank) rank.
Proof using Hok.
  unfold rank_ok. destruct Hok. destruct (Z.eqb_spec (rankbits cfg) 0) as [E|]; [|split; [done|lia]].
  rewrite gp_nranks0, E in *. simpl in *. lia.
Qed.

Lemma I_refresh ts : ts ≠ 0 → Encoder.I refresh_op (Encoder.kw_noop ts) = Ok (ref_spec ts).
Proof. clear Hok. intros. unfold refresh_op, ref_spec. destruct refresh; [|done]. apply I_dfi_ok; auto. Qed.

Lemma address_gen b row col rc :
  0 ≤ b < 2 ^ bankbits cfg → 0 ≤ rc → rowcol row col = Some rc →
  Encoder.address enc (Some rank) b row col = Ok (addr_of b rc).
Proof using Hok.
  intros. unfold enc. rewrite (gp_nranks _ _ _ _ _ Hok).
  apply address_ok; eauto using rank_ok_gen; apply Hok.
Qed.

Lemma encode_row_ok p accum n row :
  0 ≤ row →
  encode_row t enc bank (Some rank) refresh_op (LoopState p accum n) row =
    Ok (LoopState (p ++ row_code accum row) (row_accum accum)
          (n + (if row_over accum then 1 else 0))).
Proof using Hok.
  intros Hrow. unfold encode_row. cbn [ls_accum ls_payload ls_refreshes].
  fold (row_over accum). unfold row_code, row_accum, mbind, result_bind.
  pose proof (I_dfi_ok ACT (tRAS t) (Some (addr_of bank row))) as Hact.
  pose proof (I_dfi_ok PRE (tRP t) (Some (addr_of 0 1024))) as Hpre.
  destruct Hok.
  destruct (row_over accum);
    rewrite ?I_refresh by lia; cbn [ls_accum ls_payload ls_refreshes];
    rewrite (address_gen bank (Some row) None row) by done;
    unfold Encoder.kw_dfi; rewrite Hact by (eauto || lia);
    rewrite (address_gen 0 None (Some (Z.shiftl 1 10)) 1024)
      by first [done | split; [done | by apply pow2_pos]];
    rewrite Hpre by (eauto || lia); do 2 f_equal; try lia.
  by rewrite <- app_assoc.
Qed.

Lemma encode_rows_ok rows : ∀ p accum (n : Z),
  Forall (fun r => 0 ≤ r) rows →
  result_fold (encode_row t enc bank (Some rank) refresh_op) (LoopState p accum n) rows =
    Ok (LoopState (p ++ rows_code accum rows) (rows_accum accum rows)
          (n + rows_refreshes accum rows)).
Proof using Hok.
  induction rows as [|row rows IH]; intros p accum n Hrows; simpl.
  - by rewrite app_nil_r, Z.add_0_r.
  - apply Forall_cons_1 in Hrows as [Hrow Hrows].
    rewrite encode_row_ok by done. simpl. rewrite IH by done.
    rewrite <- app_assoc. do 2 f_equal. destruct (row_over accum); lia.
Qed.

Lemma rows_code_app accum l1 l2 :
  rows_code accum (l1 ++ l2) = rows_code accum l1 ++ rows_code (rows_accum accum l1) l2.
Proof.
  revert accum; induction l1 as [|r l1 IH]; intros accum; [done|].
  cbn [app rows_code rows_accum]. by rewrite IH, app_assoc.
Qed.

Lemma encode_unrolled_ok rows (k : nat) p accum (n : Z) m :
  Forall (fun r => 0 ≤ r) rows →
  result_fold (fun st (_ : nat) =>
      result_fold (encode_row t enc bank (Some rank) refresh_op) st rows)
    (LoopState p accum n) (seq m k) =
  result_fold (encode_row t enc bank (Some rank) refresh_op) (LoopState p accum n)
    (mjoin (replicate k rows)).
Proof using Hok.
  intros Hrows. revert p accum n m. induction k as [|k IH]; intros; [done|].
  cbn [seq result_fold replicate mjoin list_join]. rewrite result_fold_app.
  rewrite encode_rows_ok by done. apply IH.
Qed.

Lemma length_rows_code rows accum :
  length (rows_code accum rows) = (2 * length rows + rows_refreshes accum rows)%nat.
Proof.
  revert accum; induction rows as [|r rows IH]; intros accum; simpl; [done|].
  rewrite length_app, IH. unfold row_code. destruct (row_over accum); simpl; lia.
Qed.

(** [encode_one_loop] appends one loop block, or fails its assertion when
    the loop is longer than the jump field allows. *)
Lemma encode_one_loop_eq unrolled rolled rows p :
  0 ≤ unrolled → Forall (fun r => 0 ≤ r) rows →
  let body := loop_body unrolled rows in
  let n := 1 + rows_refreshes (tRFC t + 1) (mjoin (replicate (Z.to_nat unrolled) rows)) in
  encode_one_loop unrolled rolled rows t enc bank (Some rank) refresh_op p =
    if length body <? 2 ^ LOOP_JUMP
    then Ok (n * (rolled + 1), p ++ loop_code unrolled rolled rows)
    else Raise AssertionError.
Proof using Hok.
  intros Hu Hrows. cbv zeta. unfold encode_one_loop, loop_code.
  rewrite I_refresh by (destruct Hok; lia).
  rewrite ok_bind, encode_unrolled_ok, encode_rows_ok, ok_bind
    by eauto using Forall_mjoin_replicate.
  cbn [ls_refreshes ls_payload].
  match goal with |- context [2 * unrolled * Z.of_nat (length rows) + ?n] =>
    replace (2 * unrolled * Z.of_nat (length rows) + n)
      with (Z.of_nat (length (loop_body unrolled rows)))
  end.
  2: { unfold loop_body. simpl. rewrite length_rows_code, length_mjoin_replicate. nia. }
  destruct (_ <? 2 ^ LOOP_JUMP); simpl; [|done].
  do 2 f_equal. by rewrite <- !app_assoc.
Qed.

(** The loops of [encode_long_loop]. *)
Definition n_loops (rolled : Z) : nat := Z.to_nat (ceil_div rolled (2 ^ LOOP_COUNT)).
Definition long_code (unrolled rolled : Z) (rows : list Z) : list Encoder.spec :=
  seq 0 (n_loops rolled) ≫= fun i => loop_code unrolled (long_loop_count rolled i) rows.

Definition loop_refreshes (unrolled : Z) (rows : list Z) : Z :=
  1 + rows_refreshes (tRFC t + 1) (mjoin (replicate (Z.to_nat unrolled) rows)).

Lemma encode_loops_eq unrolled rolled rows : ∀ k m (acc : Z) p,
  0 ≤ unrolled → Forall (fun r => 0 ≤ r) rows →
  length (loop_body unrolled rows) < 2 ^ LOOP_JUMP →
  result_fold
    (fun '(refreshes, payload) outer_idx =>
       '(n, payload) ← encode_one_loop unrolled (long_loop_count rolled outer_idx)
          rows t enc bank (Some rank) refresh_op payload;
       Ok (refreshes + n, payload)) (acc, p) (seq m k) =
  Ok (acc + loop_refreshes unrolled rows *
        foldr (fun i acc => long_loop_count rolled i + 1 + acc) 0 (seq m k),
      p ++ (seq m k ≫= fun i => loop_code unrolled (long_loop_count rolled i) rows)).
Proof using Hok.
  intros k m acc p Hu Hrows Hfit%Z.ltb_lt. revert m acc p.
  induction k as [|k IH]; intros m acc p; cbn [seq result_fold foldr].
  - by rewrite Z.mul_0_r, Z.add_0_r, app_nil_r.
  - rewrite encode_one_loop_eq, Hfit, ok_bind, ok_bind by done. rewrite IH.
    rewrite bind_cons.
    rewrite <- app_assoc. do 2 f_equal. unfold loop_refreshes. lia.
Qed.

Lemma encode_long_loop_eq unrolled rolled rows p :
  0 ≤ unrolled → 0 ≤ rolled → Forall (fun r => 0 ≤ r) rows →
  encode_long_loop unrolled rolled rows t enc bank (Some rank) refresh_op p =
    if (rolled =? 0) || (length (loop_body unrolled rows) <? 2 ^ LOOP_JUMP)
    then Ok (loop_refreshes unrolled rows * rolled, p ++ long_code unrolled rolled rows)
    else Raise AssertionError.
Proof using Hok.
  intros Hu Hr Hrows. unfold encode_long_loop, long_code.
  change (2 ^ LOOP_COUNT - 1 + 1) with (2 ^ LOOP_COUNT). fold (n_loops rolled).
  destruct (length (loop_body unrolled rows) <? 2 ^ LOOP_JUMP) eqn:Hfit.
  - rewrite orb_true_r, encode_loops_eq by (done || by apply Z.ltb_lt).
    unfold n_loops. by rewrite long_loop_total by done.
  - rewrite orb_false_r. destruct (Z.eqb_spec rolled 0) as [->|Hr0].
    + simpl. by rewrite Z.mul_0_r, app_nil_r.
    + pose proof (ceil_div_spec rolled (2 ^ LOOP_COUNT) ltac:(done)) as Hc.
      unfold n_loops. change (2 ^ LOOP_COUNT) with 4096 in *.
      destruct (Z.to_nat (ceil_div rolled 4096)) as [|n] eqn:Hn; [lia|].
      cbn [seq result_fold]. by rewrite encode_one_loop_eq, Hfit.
Qed.
End code.
