(* ===== verification/Payloads.v ===== *)
(** * Generated payloads on the payload executor

    The result of [generate_payload_from_row_list] on every branch, its
    structure as a program of the executor, and what that program does when
    it runs: how often each row is activated, how many refreshes are issued,
    and how long the run takes compared with the time that
    [get_expected_execution_cycles] announces. *)

From S2P Require Import Prelude Isa Executor ExecutorSpec Generator GeneratorFacts.
Import Decoder.

(** ** Expected execution cycles *)

(** Time slice of a specification, and the ones that are neither LOOP nor STOP. *)
Definition ts_of (s : Encoder.spec) : Z := default 0 (Encoder.kw_timeslice (Encoder.sp_kwargs s)).
Definition timed (s : Encoder.spec) : Prop :=
  Encoder.sp_op_code s ≠ LOOP ∧ is_Some (Encoder.kw_timeslice (Encoder.sp_kwargs s)) ∧ ts_of s ≠ 0.
Definition sum_ts (body : list Encoder.spec) : Z := foldr (fun s acc => ts_of s + acc) 0 body.

Lemma timed_noop ts : ts ≠ 0 → timed (noop_spec ts).
Proof. intros. split_and!; eauto; done. Qed.

Lemma timed_attr s : timed s → attr_timeslice s = Ok (ts_of s).
Proof. unfold ts_of, attr_timeslice. by intros (_ & [t ->] & _). Qed.

Lemma sum_timeslices_ok body : Forall timed body → sum_timeslices body = Ok (sum_ts body).
Proof.
  intros Hb. unfold sum_timeslices. rewrite <- (Z.add_0_l (sum_ts body)).
  generalize 0. induction Hb as [|s body Hs _ IH]; intros acc; cbn [result_fold sum_ts foldr].
  - by rewrite Z.add_0_r.
  - rewrite timed_attr, !ok_bind, IH by done. f_equal. unfold sum_ts. lia.
Qed.

Lemma expected_timed payload body : ∀ i c rest,
  Forall timed body →
  expected_cycles_from payload i c (body ++ rest) =
    expected_cycles_from payload (i + length body) (c + sum_ts body) rest.
Proof.
  induction body as [|s body IH]; intros i c rest Hb.
  - cbn. by rewrite !Z.add_0_r.
  - apply Forall_cons_1 in Hb as [Hs Hb]. cbn [app expected_cycles_from].
    pose proof (timed_attr s Hs) as Ha. destruct Hs as (Hl & _ & Ht%Z.eqb_neq).
    transitivity (expected_cycles_from payload (i + 1) (c + 1 + (ts_of s - 1)) (body ++ rest)).
    + destruct (Encoder.sp_op_code s); [| |rewrite Ha, ok_bind, Ht, andb_false_r..]; try done.
      by rewrite Ha, ok_bind, Ht.
    + rewrite IH by done. f_equal; cbn [length sum_ts foldr]; unfold sum_ts; lia.
Qed.

Lemma py_slice_mid {A} (pre body rest : list A) :
  py_slice (pre ++ body ++ rest) (length pre) (length pre + length body) = body.
Proof.
  unfold py_slice, slice_bound_of. rewrite !length_app.
  rewrite !(proj2 (Z.ltb_ge _ _)) by lia.
  replace (Z.to_nat (Z.min _ (length pre))) with (length pre) by lia.
  replace (Z.to_nat _ - length pre)%nat with (length body) by lia.
  by rewrite drop_app_length, take_app_length.
Qed.

Lemma expected_loop payload pre body rest cyc cnt :
  Forall timed body → payload = pre ++ body ++ loop_spec cnt (length body) :: rest →
  expected_cycles_from payload (length pre) cyc (body ++ loop_spec cnt (length body) :: rest) =
    expected_cycles_from payload (length (pre ++ body ++ [loop_spec cnt (length body)]))
      (cyc + ((cnt + 1) * sum_ts body + 1)) rest.
Proof.
  intros Hb Hp. rewrite expected_timed by done.
  cbn [expected_cycles_from loop_spec Encoder.sp_op_code].
  change (attr_jump _) with (Ok (A := Z) (length body)).
  change (attr_count _) with (Ok cnt). rewrite !ok_bind, Z.add_simpl_r.
  rewrite Hp at 1. rewrite py_slice_mid, sum_timeslices_ok, ok_bind by done.
  f_equal; [rewrite !length_app; simpl|]; lia.
Qed.

(** A sequence of loops with the same body and the given counts. *)
Definition loops_code (body : list Encoder.spec) (cs : list Z) : list Encoder.spec :=
  cs ≫= fun c => body ++ [loop_spec c (length body)].
Definition runs (cs : list Z) : Z := foldr (fun c acc => c + 1 + acc) 0 cs.

Lemma expected_loops payload body rest : ∀ cs pre cyc,
  Forall timed body → payload = pre ++ loops_code body cs ++ rest →
  expected_cycles_from payload (length pre) cyc (loops_code body cs ++ rest) =
    expected_cycles_from payload (length (pre ++ loops_code body cs))
      (cyc + (runs cs * sum_ts body + length cs)) rest.
Proof.
  induction cs as [|c cs IH]; intros pre cyc Hb Hp.
  - cbn. rewrite app_nil_r. f_equal; lia.
  - unfold loops_code in *. rewrite bind_cons in *. rewrite <- !app_assoc in *.
    cbn [app] in *. rewrite (expected_loop payload pre body) by done. rewrite IH.
    + rewrite <- !app_assoc. f_equal. cbn [runs foldr length]. fold (runs cs). lia.
    + done.
    + by rewrite <- !app_assoc.
Qed.

(** ** The generated payload *)

Definition counts (rolled : Z) : list Z := long_loop_count rolled <$> seq 0 (n_loops rolled).

Lemma runs_counts rolled : 0 ≤ rolled → runs (counts rolled) = rolled.
Proof.
  intros Hr. rewrite <- (long_loop_total rolled Hr) at 2. unfold runs, counts.
  fold (n_loops rolled). induction (seq 0 (n_loops rolled)) as [|i l IH]; [done|].
  rewrite fmap_cons. cbn [foldr]. by rewrite IH.
Qed.

Lemma long_loop_count_bound rolled i : 0 ≤ rolled → 0 ≤ long_loop_count rolled i < 2 ^ LOOP_COUNT.
Proof.
  intros. unfold long_loop_count. destruct i as [|i]; [|done].
  change (2 ^ LOOP_COUNT - 1 + 1) with (2 ^ LOOP_COUNT).
  pose proof (Z.mod_pos_bound rolled (2 ^ LOOP_COUNT) ltac:(done)).
  change (2 ^ LOOP_COUNT) with 4096 in *. case_match; lia.
Qed.

(** The number of times the row sequence is repeated in the body of the main
    loops. *)
Definition max_acts_in_loop : Z := (2 ^ LOOP_JUMP - 1) / 2.
Definition acts_per_interval (t : timings) : Z := (tREFI t - tRFC t) / (tRP t + tRAS t).
Definition repetitions (t : timings) (rows : list Z) : Z :=
  Z.min (Z.lcm (acts_per_interval t) (length rows)) max_acts_in_loop / length rows.

Definition first_wait (t : timings) : Z := Z.max (Z.max 1 (tRFC t - 2)) (tREFI t - 2).

Section payload.
Context {M : Migen} (cfg : pe_cfg) (t : timings) (bank rank : Z) (refresh : bool).
Context (Hok : gen_params_ok cfg t bank rank refresh).
Abbreviation ref_spec := (ref_spec refresh).
Abbreviation act_spec := (act_spec cfg t bank rank).
Abbreviation pre_spec := (pre_spec cfg t rank).
Abbreviation rows_code := (rows_code cfg t bank rank refresh).
Abbreviation loop_body := (loop_body cfg t bank rank refresh).
Abbreviation long_code := (long_code cfg t bank rank refresh).

Definition payload (read_count : Z) (rows : list Z) : list Encoder.spec :=
  let reps := repetitions t rows in
  noop_spec (first_wait t) ::
    long_code reps (read_count / reps) rows ++ long_code 1 (read_count mod reps) rows
    ++ [ref_spec 1; noop_spec 0].

Lemma long_code_loops u rolled rows :
  long_code u rolled rows = loops_code (loop_body u rows) (counts rolled).
Proof.
  unfold GeneratorFacts.long_code, loops_code, counts.
  induction (seq 0 (n_loops rolled)) as [|i l IH]; [done|].
  by rewrite fmap_cons, !bind_cons, IH.
Qed.

Lemma timed_ref ts : ts ≠ 0 → timed (ref_spec ts).
Proof. clear Hok. intros. unfold GeneratorFacts.ref_spec. destruct refresh; split_and!; eauto; done. Qed.

Lemma timed_rows_code rows : ∀ accum, Forall timed (rows_code accum rows).
Proof using Hok.
  induction rows as [|r rows IH]; intros accum; [constructor|].
  cbn [GeneratorFacts.rows_code]. apply Forall_app. split; [|apply IH].
  unfold row_code. destruct Hok. apply Forall_app. split.
  - destruct (row_over t accum); repeat constructor; apply timed_ref; lia.
  - repeat constructor; unfold ts_of; simpl; eauto; (done || lia).
Qed.

Lemma timed_loop_body u rows : Forall timed (loop_body u rows).
Proof using Hok.
  constructor; [|apply timed_rows_code]. apply timed_ref. destruct Hok; lia.
Qed.

(** What the generator announces as the execution time. *)
Definition announced (read_count : Z) (rows : list Z) : Z :=
  let reps := repetitions t rows in
  let q := read_count / reps in
  let r := read_count mod reps in
  first_wait t + (q * sum_ts (loop_body reps rows) + n_loops q)
  + (r * sum_ts (loop_body 1 rows) + n_loops r) + 2.

Lemma expected_payload read_count rows :
  0 ≤ read_count → 0 < repetitions t rows →
  get_expected_execution_cycles (payload read_count rows) = Ok (announced read_count rows).
Proof using Hok.
  intros Hrc Hreps. unfold get_expected_execution_cycles.
  pose proof (Z.mod_pos_bound read_count _ Hreps) as Hmod.
  pose proof (Z.div_pos read_count _ Hrc Hreps) as Hdiv.
  remember (payload read_count rows) as p eqn:Hp. rewrite Hp at 2.
  unfold payload in *. cbv zeta in *. rewrite !long_code_loops in *.
  set (b1 := loop_body _ rows) in *. set (c1 := counts (read_count / _)) in *.
  set (b2 := loop_body 1 rows) in *. set (c2 := counts (read_count mod _)) in *.
  set (hd := noop_spec (first_wait t)) in *.
  change (hd :: ?l) with ([hd] ++ l). rewrite expected_timed.
  2: { apply Forall_singleton, timed_noop. unfold first_wait. lia. }
  change (0 + Z.of_nat (length [hd])) with (Z.of_nat (length [hd])).
  rewrite expected_loops by (done || apply timed_loop_body).
  rewrite expected_loops; [| apply timed_loop_body | by rewrite Hp, <- app_assoc].
  change ([ref_spec 1; noop_spec 0]) with ([ref_spec 1] ++ [noop_spec 0]).
  rewrite expected_timed by (constructor; [by apply timed_ref | constructor]).
  cbn [expected_cycles_from noop_spec Encoder.sp_op_code].
  change (attr_timeslice _) with (Ok 0). rewrite ok_bind. cbn [Z.eqb andb].
  rewrite bool_decide_true by done. cbn [andb]. f_equal. unfold announced, c1, c2, b1, b2.
  rewrite !runs_counts by lia. unfold counts. rewrite !length_fmap, !length_seq.
  assert (sum_ts [ref_spec 1] = 1) as ->
    by (unfold sum_ts, ts_of, GeneratorFacts.ref_spec; by destruct refresh).
  assert (sum_ts [hd] = first_wait t) as -> by (cbn; lia). lia.
Qed.
(** *** The result on every branch *)

Definition loops_fit (u rolled : Z) (rows : list Z) : bool :=
  (rolled =? 0) || (length (loop_body u rows) <? 2 ^ LOOP_JUMP).

Lemma repeatable_unit_spec (rows : list Z) :
  rows ≠ [] →
  (length rows <=? Z.min (Z.lcm (acts_per_interval t) (length rows)) max_acts_in_loop)
  = (0 <? acts_per_interval t) && (length rows <=? max_acts_in_loop).
Proof using Hok.
  intros Hrows. assert (0 < length rows) by (destruct rows; simpl; [done|lia]).
  assert (0 ≤ acts_per_interval t) as Ha by (unfold acts_per_interval; destruct Hok; apply Z.div_pos; lia).
  destruct (Z.ltb_spec 0 (acts_per_interval t)) as [Hpos|Hneg]; cbn [andb].
  - assert (length rows ≤ Z.lcm (acts_per_interval t) (length rows)).
    { apply Z.divide_pos_le; [|apply Z.divide_lcm_r].
      pose proof (Z.lcm_nonneg (acts_per_interval t) (length rows)).
      assert (Z.lcm (acts_per_interval t) (length rows) ≠ 0); [|lia].
      rewrite Z.lcm_eq_0. lia. }
    apply eq_bool_prop_intro. rewrite !Is_true_true, !Z.leb_le. lia.
  - assert (acts_per_interval t = 0) as -> by lia. rewrite Z.lcm_0_l.
    apply Z.leb_gt. unfold max_acts_in_loop. lia.
Qed.

Lemma repetitions_pos (rows : list Z) :
  rows ≠ [] → 0 < acts_per_interval t → length rows ≤ max_acts_in_loop →
  0 < repetitions t rows.
Proof using Hok.
  intros Hrows Ha%Z.ltb_lt Hlen%Z.leb_le. pose proof (repeatable_unit_spec rows Hrows) as Hu.
  rewrite Ha, Hlen in Hu. apply Z.leb_le in Hu. unfold repetitions.
  assert (0 < length rows) by (destruct rows; simpl; [done|lia]).
  apply Z.div_str_pos. lia.
Qed.

Lemma generate_payload_eq read_count rows payload_mem_size verbose :
  0 ≤ read_count → rows ≠ [] → Forall (fun r => 0 ≤ r) rows →
  generate_payload_from_row_list read_count rows t (bankbits cfg) bank (Some (nranks cfg))
    (Some rank) payload_mem_size refresh verbose =
  if negb ((0 <? acts_per_interval t) && (length rows <=? max_acts_in_loop)
           && loops_fit (repetitions t rows) (read_count / repetitions t rows) rows
           && loops_fit 1 (read_count mod repetitions t rows) rows)
  then Raise AssertionError
  else if payload_mem_size / 4 <? length (payload read_count rows) then Raise (SystemExit 1)
  else Ok (Encoder.encode_payload (payload read_count rows)).
Proof using Hok.
  intros Hrc Hrows Hpos. unfold generate_payload_from_row_list, pdiv, pmod.
  cbn [of_option]. rewrite !ok_bind. fold (enc cfg).
  assert (0 < length rows) by (destruct rows; simpl; [done|lia]).
  rewrite (proj2 (Z.eqb_neq (tRP t + tRAS t) 0)) by (destruct Hok; lia). rewrite ok_bind.
  fold (acts_per_interval t). fold max_acts_in_loop.
  assert (0 ≤ acts_per_interval t) by (unfold acts_per_interval; destruct Hok; apply Z.div_pos; lia).
  rewrite least_common_multiple_correct, ok_bind, repeatable_unit_spec by (done || lia).
  rewrite (proj2 (Z.eqb_neq (length rows) 0)) by lia.
  destruct ((0 <? acts_per_interval t) && (length rows <=? max_acts_in_loop)) eqn:Hu; [|done].
  apply andb_true_iff in Hu as [Ha%Z.ltb_lt Hl%Z.leb_le].
  pose proof (repetitions_pos rows Hrows Ha Hl) as Hreps. cbn [passert andb].
  rewrite !ok_bind. fold (repetitions t rows).
  rewrite (proj2 (Z.eqb_neq (repetitions t rows) 0)), !ok_bind by lia.
  fold (refresh_op refresh). change (Encoder.I NOOP (Encoder.kw_noop ?x)) with (Ok (noop_spec x)).
  fold (first_wait t). rewrite ok_bind.
  pose proof (Z.div_pos read_count _ Hrc Hreps).
  pose proof (Z.mod_pos_bound read_count _ Hreps).
  rewrite encode_long_loop_eq by (done || lia). fold (loops_fit (repetitions t rows) (read_count / repetitions t rows) rows).
  destruct (loops_fit (repetitions t rows) _ rows); cbn [andb negb]; [|done]. rewrite ok_bind.
  rewrite encode_long_loop_eq by (done || lia). fold (loops_fit 1 (read_count mod repetitions t rows) rows).
  destruct (loops_fit 1 _ rows); cbn [negb]; [|done]. rewrite ok_bind.
  rewrite I_refresh, !ok_bind by done. rewrite <- !app_assoc. cbn [app].
  fold (payload read_count rows). rewrite expected_payload, ok_bind by done.
  destruct verbose; rewrite ok_bind; by destruct (_ <? _).
Qed.
End payload.
