(* ===== verification/Hammer.v ===== *)
(** * Running generated payloads

    The generated payload as a program of the payload executor, and what the
    executor does with it: the number of activations of each row, the refreshes
    and the execution time. *)

From S2P Require Import Prelude Isa Executor ExecutorSpec Generator GeneratorFacts Payloads.
Import Decoder.

(** ** Decoded instructions *)
Section decoded.
Context (cfg : pe_cfg).

Definition dec (s : Encoder.spec) : decoded := pe_decode cfg (Encoder.encode_spec s).

(** The executor sees the instruction with the time slice it was built with. *)
Definition spec_ok (s : Encoder.spec) : Prop :=
  simple (dec s) ∧ instr_cycles (dec s) = ts_of s.

Lemma spec_ok_noop ts : 0 < ts < 2 ^ TIMESLICE_NOOP → spec_ok (noop_spec ts).
Proof.
  intros Hts. unfold spec_ok, simple, instr_cycles, is_loop, dec, pe_decode.
  destruct (decode_noop (rankbits cfg) (bankbits cfg) (rowbits cfg) (colbits cfg) ts)
    as (-> & -> & ->).
  change TIMESLICE_NOOP with 29 in *. rewrite Z.mod_small by lia.
  rewrite (proj2 (Z.eqb_neq ts 0)) by lia. cbn [op_value Z.eqb ts_of noop_spec].
  unfold ts_of, noop_spec; simpl. lia.
Qed.

Lemma spec_ok_dfi op ts a :
  op ≠ NOOP → op ≠ LOOP → 0 < ts < 2 ^ TIMESLICE → spec_ok (dfi_spec op ts a).
Proof.
  intros Hn Hl Hts. unfold spec_ok, simple, instr_cycles, is_loop, dec, pe_decode.
  destruct (decode_dfi (rankbits cfg) (bankbits cfg) (rowbits cfg) (colbits cfg) op ts a Hn Hl)
    as (-> & -> & _ & -> & _).
  change TIMESLICE_NOOP with 29. change TIMESLICE with 5 in *. rewrite Z.mod_small by lia.
  assert ((op_value op =? op_value LOOP) = false) as -> by (by destruct op).
  unfold ts_of, dfi_spec; simpl. lia.
Qed.

Lemma spec_ok_simple l : Forall spec_ok l → Forall simple (dec <$> l).
Proof. intros Hl. apply Forall_fmap. eapply Forall_impl; [exact Hl|]. by intros s []. Qed.

Lemma sum_cycles_dec l : Forall spec_ok l → sum_cycles (dec <$> l) = sum_ts l.
Proof.
  induction 1 as [|s l [_ Hs] _ IH]; [done|]. rewrite fmap_cons.
  cbn [sum_cycles sum_ts foldr]. unfold sum_cycles, sum_ts in IH. by rewrite Hs, IH.
Qed.

(** *** Loops *)

Definition loop_block (body : list Encoder.spec) (c : Z) : block :=
  Loop (dec <$> body) (dec (loop_spec c (length body))).
Definition loops_blocks (body : list Encoder.spec) (cs : list Z) : list block :=
  loop_block body <$> cs.

Lemma dec_loop c j :
  0 ≤ c < 2 ^ LOOP_COUNT → 0 ≤ j < 2 ^ LOOP_JUMP →
  let d := dec (loop_spec c j) in
  is_loop d = true ∧ stop d = false ∧ loop_jump d = j ∧ loop_count d = c.
Proof.
  intros Hc Hj. unfold is_loop, dec, pe_decode. cbv zeta.
  destruct (decode_loop (rankbits cfg) (bankbits cfg) (rowbits cfg) (colbits cfg) c j)
    as (-> & -> & -> & ->).
  change LOOP_COUNT with 12 in *. change LOOP_JUMP with 17 in *.
  rewrite !Z.mod_small by lia. done.
Qed.

Lemma loops_blocks_code body cs :
  program_code (loops_blocks body cs) = dec <$> loops_code body cs.
Proof.
  unfold loops_blocks, loops_code. induction cs as [|c cs IH]; [done|].
  rewrite fmap_cons, program_code_cons, IH, bind_cons, !fmap_app. done.
Qed.

Definition count_ok (c : Z) : Prop := 0 ≤ c < 2 ^ LOOP_COUNT.

Context (body : list Encoder.spec).
Context (Hbody : Forall spec_ok body) (Hlen : length body < 2 ^ LOOP_JUMP).

Lemma loops_blocks_ok cs : Forall count_ok cs → Forall block_ok (loops_blocks body cs).
Proof using Hbody Hlen.
  intros Hcs. apply Forall_fmap. eapply Forall_impl; [exact Hcs|]. intros c Hc.
  destruct (dec_loop c (length body) Hc) as (Hl & Hs & Hj & Hct); [lia|].
  unfold compose, loop_block, block_ok. rewrite Hl, Hs, Hj, Hct, length_fmap.
  split_and!; try done; try apply Hc. by apply spec_ok_simple.
Qed.

Lemma length_loops_blocks cs :
  Forall count_ok cs →
  Z.of_nat (length (program_trace (loops_blocks body cs))) = runs cs * (sum_ts body + 1).
Proof using Hbody Hlen.
  induction 1 as [|c cs Hc Hcs IH]; [done|].
  unfold loops_blocks in *. rewrite fmap_cons, program_trace_cons, length_app, Nat2Z.inj_add.
  rewrite IH. cbn [runs foldr]. fold (runs cs).
  destruct (dec_loop c (length body) Hc) as (_ & _ & _ & Hct); [lia|].
  unfold loop_block. destruct Hc.
  rewrite length_loop_trace, Hct, sum_cycles_dec; [lia | done | by apply spec_ok_simple | lia].
Qed.

Lemma countb_loops_blocks f cs :
  f None = false → Forall count_ok cs →
  Z.of_nat (countb f (program_trace (loops_blocks body cs))) =
    runs cs * countb (fun s => f (Some (dec s))) body.
Proof using Hbody Hlen.
  intros Hf. induction 1 as [|c cs Hc Hcs IH]; [done|].
  unfold loops_blocks in *. rewrite fmap_cons, program_trace_cons, countb_app, Nat2Z.inj_add.
  rewrite IH. cbn [runs foldr]. fold (runs cs).
  destruct (dec_loop c (length body) Hc) as (_ & _ & _ & Hct); [lia|].
  unfold loop_block. rewrite countb_loop_trace, Hct, countb_fmap by auto using spec_ok_simple.
  destruct Hc. lia.
Qed.
End decoded.

(** ** Commands *)

Definition is_op (op : OpCode) (o : option decoded) : bool :=
  match o with Some d => op_code d =? op_value op | None => false end.

(** Activation of a row. *)
Definition act_on (rank bank row : Z) (o : option decoded) : bool :=
  match o with
  | Some d => (op_code d =? op_value ACT) && (dfi_rank d =? rank) && (dfi_bank d =? bank)
              && (dfi_address d =? row)
  | None => false
  end.

Section program.
Context {M : Migen} (cfg : pe_cfg) (t : timings) (bank rank : Z) (refresh : bool).
Context (Hok : gen_params_ok cfg t bank rank refresh).
Abbreviation ref_spec := (ref_spec refresh).
Abbreviation act_spec := (act_spec cfg t bank rank).
Abbreviation pre_spec := (pre_spec cfg t rank).
Abbreviation rows_code := (rows_code cfg t bank rank refresh).
Abbreviation loop_body := (loop_body cfg t bank rank refresh).
Abbreviation payload := (payload cfg t bank rank refresh).
Abbreviation dec := (dec cfg).

Lemma spec_ok_ref ts : 0 < ts ≤ tRFC t → spec_ok cfg (ref_spec ts).
Proof using Hok.
  intros. unfold GeneratorFacts.ref_spec. destruct Hok, refresh.
  - apply spec_ok_dfi; (done || lia).
  - apply spec_ok_noop. lia.
Qed.

Lemma spec_ok_row accum row : Forall (spec_ok cfg) (row_code cfg t bank rank refresh accum row).
Proof using Hok.
  unfold row_code. pose proof Hok as []. apply Forall_app. split.
  - destruct (row_over t accum); repeat constructor; apply spec_ok_ref; lia.
  - repeat (apply Forall_cons_2; [by apply spec_ok_dfi|]). constructor.
Qed.

Lemma spec_ok_body u rows : Forall (spec_ok cfg) (loop_body u rows).
Proof using Hok.
  apply Forall_cons_2; [apply spec_ok_ref; destruct Hok; lia|].
  generalize (tRFC t + 1). induction (mjoin _) as [|r l IH]; intros accum; [constructor|].
  apply Forall_app. split; [apply spec_ok_row | apply IH].
Qed.

(** *** What is counted in a loop body *)

Definition row_fits (row : Z) : Prop := 0 ≤ row < 2 ^ Z.max (rowbits cfg) (colbits cfg).

Lemma dec_act row :
  row_fits row →
  let d := dec (act_spec row) in
  op_code d = op_value ACT ∧ dfi_rank d = rank ∧ dfi_bank d = bank ∧ dfi_address d = row.
Proof using M Hok.
  intros Hrow. pose proof (rank_ok_gen _ _ _ _ _ Hok) as Hr. pose proof Hok as [].
  destruct (address_decodes (bankbits cfg) (rowbits cfg) (colbits cfg) (rankbits cfg)
    (Some rank) bank (Some row) None rank row ACT (tRAS t)) as (a & Ha & Hd); try done; [lia|].
  rewrite <- gp_nranks in Ha. fold (enc cfg) in Ha.
  rewrite (address_gen _ _ _ _ _ Hok bank (Some row) None row) in Ha by (done || apply Hrow).
  injection Ha as <-. cbv zeta. split; [|exact Hd].
  by apply (decode_dfi (rankbits cfg) (bankbits cfg) (rowbits cfg) (colbits cfg) ACT (tRAS t)).
Qed.

Lemma op_dec_dfi op ts a : op ≠ NOOP → op ≠ LOOP → op_code (dec (dfi_spec op ts a)) = op_value op.
Proof. intros. by apply decode_dfi. Qed.

Lemma op_dec_noop ts : op_code (dec (noop_spec ts)) = op_value NOOP.
Proof. by apply decode_noop. Qed.

Lemma op_dec_ref ts : op_code (dec (ref_spec ts)) = op_value (refresh_op refresh).
Proof. clear Hok. unfold GeneratorFacts.ref_spec. destruct refresh; [by apply op_dec_dfi | apply op_dec_noop]. Qed.

(** In a sequence of rows, a test that holds of no PRE is counted as the
    test on the activations and on the refreshes. *)
Lemma countb_rows f g rows : ∀ accum,
  Forall (fun r => f (Some (dec (act_spec r))) = g r) rows →
  f (Some (dec pre_spec)) = false →
  countb (fun s => f (Some (dec s))) (rows_code accum rows) =
    (countb g rows + (if f (Some (dec (ref_spec (tRFC t)))) then rows_refreshes t accum rows else 0))%nat.
Proof.
  intros accum Hrows Hpre. revert accum.
  induction Hrows as [|r rows Hr Hrows IH]; intros accum; [simpl; by case_match|].
  cbn [GeneratorFacts.rows_code countb rows_refreshes]. rewrite countb_app, IH.
  unfold row_code. rewrite countb_app. cbn [countb]. rewrite Hr, Hpre.
  destruct (row_over t accum); cbn [countb]; destruct (f (Some (dec (ref_spec _)))); lia.
Qed.

Lemma countb_body f g u rows :
  Forall (fun r => f (Some (dec (act_spec r))) = g r) rows →
  f (Some (dec pre_spec)) = false → 0 ≤ u →
  Z.of_nat (countb (fun s => f (Some (dec s))) (loop_body u rows)) =
    u * countb g rows
    + (if f (Some (dec (ref_spec (tRFC t)))) then loop_refreshes t u rows else 0).
Proof.
  intros Hrows Hpre Hu. unfold GeneratorFacts.loop_body, loop_refreshes. cbn [countb].
  rewrite (countb_rows f g) by auto using Forall_mjoin_replicate.
  rewrite countb_repeat. destruct (f (Some (dec (ref_spec _)))); nia.
Qed.

(** *** The payload as a program *)

Definition main_loops (read_count : Z) (rows : list Z) : list block :=
  let reps := repetitions t rows in
  loops_blocks cfg (loop_body reps rows) (counts (read_count / reps)).
Definition rest_loops (read_count : Z) (rows : list Z) : list block :=
  loops_blocks cfg (loop_body 1 rows) (counts (read_count mod repetitions t rows)).
Definition blocks (read_count : Z) (rows : list Z) : list block :=
  Straight (dec (noop_spec (first_wait t))) ::
    main_loops read_count rows ++ rest_loops read_count rows ++ [Straight (dec (ref_spec 1))].

Lemma blocks_code read_count rows :
  program_code (blocks read_count rows) ++ [dec (noop_spec 0)]
  = dec <$> payload read_count rows.
Proof.
  unfold blocks, main_loops, rest_loops, Payloads.payload.
  rewrite program_code_cons, !program_code_app, !loops_blocks_code, !long_code_loops.
  rewrite fmap_cons, !fmap_app, <- !app_assoc. done.
Qed.

Lemma count_ok_counts rolled : 0 ≤ rolled → Forall count_ok (counts rolled).
Proof.
  intros. apply Forall_fmap, Forall_true. intros i. by apply long_loop_count_bound.
Qed.

Lemma loops_fit_cases u rolled rows :
  loops_fit cfg t bank rank refresh u rolled rows = true →
  counts rolled = [] ∨ length (loop_body u rows) < 2 ^ LOOP_JUMP.
Proof.
  unfold loops_fit. intros [->%Z.eqb_eq|?%Z.ltb_lt]%orb_true_iff; auto.
Qed.

Lemma spec_ok_wait : spec_ok cfg (noop_spec (first_wait t)).
Proof using Hok.
  apply spec_ok_noop. unfold first_wait. destruct Hok, refresh;
    change TIMESLICE with 5 in *; change TIMESLICE_NOOP with 29 in *; lia.
Qed.

Context (read_count : Z) (rows : list Z).
Context (Hrc : 0 ≤ read_count) (Hreps : 0 < repetitions t rows).
Context (Hfit : loops_fit cfg t bank rank refresh (repetitions t rows)
                  (read_count / repetitions t rows) rows = true)
        (Hfit1 : loops_fit cfg t bank rank refresh 1 (read_count mod repetitions t rows) rows = true).

Let q := read_count / repetitions t rows.
Let r := read_count mod repetitions t rows.

Lemma quotient_nonneg : 0 ≤ q ∧ 0 ≤ r.
Proof using Hrc Hreps.
  split; [by apply Z.div_pos; lia | by apply Z.mod_pos_bound].
Qed.

Lemma blocks_ok : Forall block_ok (blocks read_count rows).
Proof using Hok Hrc Hreps Hfit Hfit1.
  destruct quotient_nonneg as [Hq Hr]. unfold blocks. apply Forall_cons_2; [apply spec_ok_wait|].
  apply Forall_app; split; [|apply Forall_app; split].
  - destruct (loops_fit_cases _ _ _ Hfit) as [E|?]; unfold main_loops; [by rewrite E; constructor|].
    apply loops_blocks_ok; eauto using spec_ok_body, count_ok_counts.
  - destruct (loops_fit_cases _ _ _ Hfit1) as [E|?]; unfold rest_loops; [by rewrite E; constructor|].
    apply loops_blocks_ok; eauto using spec_ok_body, count_ok_counts.
  - apply Forall_singleton, spec_ok_ref. destruct Hok; lia.
Qed.

(** Commands of a kind in the whole execution. *)
Lemma countb_blocks f :
  f None = false →
  Z.of_nat (countb f (program_trace (blocks read_count rows))) =
    (if f (Some (dec (noop_spec (first_wait t)))) then 1 else 0)
    + q * countb (fun s => f (Some (dec s))) (loop_body (repetitions t rows) rows)
    + r * countb (fun s => f (Some (dec s))) (loop_body 1 rows)
    + (if f (Some (dec (ref_spec 1))) then 1 else 0).
Proof using Hok Hrc Hreps Hfit Hfit1.
  intros Hf. destruct quotient_nonneg as [Hq Hr]. unfold blocks.
  rewrite program_trace_cons, !program_trace_app, !countb_app, !Nat2Z.inj_add.
  assert (∀ s, spec_ok cfg s →
    countb f (block_trace (Straight (dec s))) = if f (Some (dec s)) then 1%nat else 0%nat)
    as Hs by (intros s [(Hl & _) _]; by apply countb_instr_trace).
  assert (∀ u n, 0 ≤ n → loops_fit cfg t bank rank refresh u n rows = true →
    Z.of_nat (countb f (program_trace (loops_blocks cfg (loop_body u rows) (counts n)))) =
      n * countb (fun s => f (Some (dec s))) (loop_body u rows)) as Hl.
  { intros u n Hn Hfn. destruct (loops_fit_cases _ _ _ Hfn) as [E|?].
    - rewrite <- (runs_counts n Hn) at 2. by rewrite E.
    - by rewrite countb_loops_blocks, runs_counts by eauto using spec_ok_body, count_ok_counts. }
  unfold main_loops, rest_loops. rewrite !Hl by done.
  change (program_trace [?b]) with (block_trace b ++ []). rewrite app_nil_r, !Hs.
  - unfold q, r. do 2 case_match; lia.
  - apply spec_ok_ref. destruct Hok; lia.
  - apply spec_ok_wait.
Qed.

Lemma length_blocks :
  Z.of_nat (length (program_trace (blocks read_count rows))) =
    first_wait t + q * (sum_ts (loop_body (repetitions t rows) rows) + 1)
    + r * (sum_ts (loop_body 1 rows) + 1) + 1.
Proof using Hok Hrc Hreps Hfit Hfit1.
  destruct quotient_nonneg as [Hq Hr]. unfold blocks.
  rewrite program_trace_cons, !program_trace_app, !length_app, !Nat2Z.inj_add.
  assert (∀ s, spec_ok cfg s →
    Z.of_nat (length (block_trace (Straight (dec s)))) = ts_of s)
    as Hs by (intros s [(Hl & _) <-]; by apply length_instr_trace).
  assert (∀ u n, 0 ≤ n → loops_fit cfg t bank rank refresh u n rows = true →
    Z.of_nat (length (program_trace (loops_blocks cfg (loop_body u rows) (counts n)))) =
      n * (sum_ts (loop_body u rows) + 1)) as Hl.
  { intros u n Hn Hfn. destruct (loops_fit_cases _ _ _ Hfn) as [E|?].
    - rewrite <- (runs_counts n Hn) at 2. by rewrite E.
    - by rewrite length_loops_blocks, runs_counts by eauto using spec_ok_body, count_ok_counts. }
  unfold main_loops, rest_loops. rewrite !Hl by done.
  change (program_trace [?b]) with (block_trace b ++ []). rewrite app_nil_r, !Hs.
  - unfold q, r. replace (ts_of (ref_spec 1)) with 1
      by (unfold ts_of, GeneratorFacts.ref_spec; by destruct refresh).
    unfold ts_of, noop_spec. simpl. lia.
  - apply spec_ok_ref. destruct Hok; lia.
  - apply spec_ok_wait.
Qed.
End program.

(** ** Executions of generated payloads *)

(** A payload was generated for [rows] and written to the payload memory. *)
Record hammer_setup {M : Migen} (cfg : pe_cfg) (t : timings) (bank rank : Z) (refresh : bool)
    (read_count : Z) (rows : list Z) (payload_mem_size : Z) (verbose : bool) (words : list Z)
    (mem : Z → Z) : Prop := {
  hs_params : gen_params_ok cfg t bank rank refresh;
  hs_count : 0 ≤ read_count;
  hs_rows : rows ≠ [];
  hs_fit : Forall (row_fits cfg) rows;
  hs_gen : generate_payload_from_row_list read_count rows t (bankbits cfg) bank
             (Some (nranks cfg)) (Some rank) payload_mem_size refresh verbose = Ok words;
  hs_mem : ∀ (i : nat) w, words !! i = Some w → mem i = w;
  hs_size : payload_mem_size / 4 ≤ depth cfg;
  hs_pc : depth cfg - 1 < 2 ^ pc_bits cfg;
}.

Section runs.
Context {M : Migen} {cfg : pe_cfg} {t : timings} {bank rank : Z} {refresh : bool}
  {read_count : Z} {rows : list Z} {payload_mem_size : Z} {verbose : bool} {words : list Z}
  {mem : Z → Z}.
Context (H : hammer_setup cfg t bank rank refresh read_count rows payload_mem_size verbose
               words mem).
Abbreviation blocks := (blocks cfg t bank rank refresh).

Lemma rows_nonneg : Forall (fun r => 0 ≤ r) rows.
Proof using H. eapply Forall_impl; [apply H|]. by intros r [? _]. Qed.

(** What successful generation tells. *)
Lemma setup_inv :
  words = Encoder.encode_payload (payload cfg t bank rank refresh read_count rows)
  ∧ length words ≤ payload_mem_size / 4 ∧ 0 < repetitions t rows
  ∧ loops_fit cfg t bank rank refresh (repetitions t rows) (read_count / repetitions t rows) rows = true
  ∧ loops_fit cfg t bank rank refresh 1 (read_count mod repetitions t rows) rows = true.
Proof using H.
  pose proof rows_nonneg as Hnn. destruct H as [Hok Hrc Hrows _ Hgen _ _ _].
  rewrite (generate_payload_eq _ _ _ _ _ Hok) in Hgen by done.
  destruct (negb _) eqn:Hn; [done|]. apply negb_false_iff in Hn.
  apply andb_true_iff in Hn as [Hn Hf1]. apply andb_true_iff in Hn as [Hn Hf].
  apply andb_true_iff in Hn as [Ha%Z.ltb_lt Hl%Z.leb_le].
  destruct (Z.ltb_spec (payload_mem_size / 4) (length (payload cfg t bank rank refresh read_count rows)));
    [done|]. assert (words = Encoder.encode_payload (payload cfg t bank rank refresh read_count rows))
    as Hw by congruence.
  split_and!; try done.
  { rewrite Hw. unfold Encoder.encode_payload. by rewrite length_fmap. }
  by apply (repetitions_pos _ _ _ _ _ Hok).
Qed.

Lemma setup_holds :
  holds_program cfg mem (blocks read_count rows) (dec cfg (noop_spec 0)).
Proof using H.
  destruct setup_inv as (Hw & Hlen & Hreps & Hf & Hf1).
  pose proof H as [Hok Hrc _ _ _ Hmem Hsz _].
  pose proof (blocks_code cfg t bank rank refresh read_count rows) as Hcode.
  split_and!.
  - intros i d. rewrite Hcode, list_lookup_fmap. intros (s & Hs & ->)%fmap_Some_1.
    rewrite Z.add_0_l. rewrite (Hmem i (Encoder.encode_spec s)); [done|].
    rewrite Hw. unfold Encoder.encode_payload. by rewrite list_lookup_fmap, Hs.
  - by apply blocks_ok.
  - by apply decode_noop.
  - by apply decode_noop.
  - by apply decode_noop.
  - apply (f_equal length) in Hcode. rewrite length_app, length_fmap in Hcode.
    rewrite Hw in Hlen. unfold Encoder.encode_payload in Hlen. rewrite length_fmap in Hlen.
    cbn [length] in Hcode. lia.
Qed.

(** The commands issued by a run, and its end. *)
Lemma setup_runs s wait body ins :
  fsm s = READY → loop_counter s = 0 → execution_inputs wait body ins →
  length body = S (length (program_trace (blocks read_count rows))) →
  let os := (pe_run cfg mem ins s).1 in
  let s' := (pe_run cfg mem ins s).2 in
  fsm s' = READY ∧ wants_dfi s' = false ∧ loop_counter s' = 0
  ∧ issued <$> os = replicate (2 + length wait) None
      ++ program_trace (blocks read_count rows) ++ [Some (dec cfg (noop_spec 0))]
  ∧ countb executing os = S (length (program_trace (blocks read_count rows))).
Proof using H.
  intros Hf Hl Hins Hb. cbv zeta.
  destruct (execution_refines cfg mem (hs_pc _ _ _ _ _ _ _ _ _ _ _ H) _ _ wait body ins s
    setup_holds Hf Hl Hins Hb) as (os & s' & -> & Hr). done.
Qed.

(** The number of commands that satisfy a test not satisfied by NOOP. *)
Lemma setup_countb f s wait body ins :
  f None = false → (∀ ts, f (Some (dec cfg (noop_spec ts))) = false) →
  fsm s = READY → loop_counter s = 0 → execution_inputs wait body ins →
  length body = S (length (program_trace (blocks read_count rows))) →
  Z.of_nat (countb f (issued <$> (pe_run cfg mem ins s).1)) =
    read_count / repetitions t rows
      * countb (fun s => f (Some (dec cfg s)))
          (loop_body cfg t bank rank refresh (repetitions t rows) rows)
    + read_count mod repetitions t rows
      * countb (fun s => f (Some (dec cfg s))) (loop_body cfg t bank rank refresh 1 rows)
    + (if f (Some (dec cfg (ref_spec refresh 1))) then 1 else 0).
Proof using H.
  intros Hn Hnoop Hf Hl Hins Hb. destruct setup_inv as (_ & _ & Hreps & Hf1 & Hf2).
  destruct (setup_runs s wait body ins Hf Hl Hins Hb) as (_ & _ & _ & -> & _).
  rewrite !countb_app, countb_replicate by done. cbn [countb]. rewrite Hnoop.
  rewrite Nat.add_0_l, Nat.add_0_r, countb_blocks by (done || apply H). rewrite Hnoop. done.
Qed.
End runs.

(** *** Tests on the decoded instructions of a payload *)
Section tests.
Context {M : Migen} {cfg : pe_cfg} {t : timings} {bank rank : Z} {refresh : bool}.
Context (Hok : gen_params_ok cfg t bank rank refresh).

Lemma act_on_act row r :
  row_fits cfg r → act_on rank bank row (Some (dec cfg (act_spec cfg t bank rank r))) = (row =? r).
Proof using M Hok.
  intros Hr. unfold act_on. destruct (dec_act _ _ _ _ _ Hok r Hr) as (-> & -> & -> & ->).
  rewrite !Z.eqb_refl. simpl. apply Z.eqb_sym.
Qed.

Lemma act_on_other rk bk row s op :
  op_code (dec cfg s) = op_value op → op ≠ ACT → act_on rk bk row (Some (dec cfg s)) = false.
Proof. intros Hs Hop. unfold act_on. rewrite Hs. by destruct op. Qed.

Lemma is_op_other op s op' :
  op_code (dec cfg s) = op_value op' → op' ≠ op → is_op op (Some (dec cfg s)) = false.
Proof. intros Hs Hop. unfold is_op. rewrite Hs. by destruct op, op'. Qed.

Lemma is_op_same op s : op_code (dec cfg s) = op_value op → is_op op (Some (dec cfg s)) = true.
Proof. intros Hs. unfold is_op. rewrite Hs. apply Z.eqb_refl. Qed.
End tests.

Lemma refresh_op_not_act refresh : refresh_op refresh ≠ ACT.
Proof. by destruct refresh. Qed.

(** The activations of a row in a run. *)
Lemma setup_act_count {M : Migen} {cfg t bank rank refresh read_count rows payload_mem_size
    verbose words mem}
  (H : hammer_setup cfg t bank rank refresh read_count rows payload_mem_size verbose words mem)
  row s wait body ins :
  fsm s = READY → loop_counter s = 0 → execution_inputs wait body ins →
  length body = S (length (program_trace (blocks cfg t bank rank refresh read_count rows))) →
  Z.of_nat (countb (act_on rank bank row) (issued <$> (pe_run cfg mem ins s).1))
  = read_count * countb (Z.eqb row) rows.
Proof.
  intros Hf Hl Hins Hb. destruct (setup_inv H) as (_ & _ & Hreps & _).
  pose proof (hs_params _ _ _ _ _ _ _ _ _ _ _ H) as Hok.
  pose proof (Z.div_mod read_count (repetitions t rows) ltac:(lia)) as Hdm.
  rewrite (setup_countb H _ s wait body ins) by (done || eauto using act_on_other, op_dec_noop).
  rewrite !(countb_body _ _ _ _ _ (act_on rank bank row) (Z.eqb row)) by
    first [lia | eapply Forall_impl; [apply H|]; intros r Hr; by apply (act_on_act Hok)
          | eapply act_on_other; [by apply (op_dec_dfi cfg PRE) | done]].
  rewrite !(act_on_other _ _ _ (ref_spec _ _) _ (op_dec_ref _ _ _)) by apply refresh_op_not_act. nia.
Qed.

(** *** A concrete setup *)

(** A payload memory that holds the given words from address 0. *)
Definition mem_of (words : list Z) (a : Z) : Z := default 0 (words !! Z.to_nat a).

Lemma mem_of_lookup words (i : nat) w : words !! i = Some w → mem_of words i = w.
Proof. intros Hi. unfold mem_of. by rewrite Nat2Z.id, Hi. Qed.

Definition demo_cfg : pe_cfg := PeCfg 64 4 1 0 3 14 10 2.
Definition demo_t : timings := Timings 5 3 42 10.
Definition demo_words (read_count : Z) (rows : list Z) : list Z :=
  match generate_payload_from_row_list read_count rows demo_t 3 1 (Some 1) (Some 0) 256 true true with
  | Ok words => words
  | Raise _ => []
  end.

Lemma demo_params : gen_params_ok demo_cfg demo_t 1 0 true.
Proof. constructor; vm_compute; intuition congruence. Qed.

Lemma demo_setup read_count rows :
  0 ≤ read_count → rows ≠ [] → forallb (fun r => (0 <=? r) && (r <? 2 ^ 14)) rows = true →
  is_ok (generate_payload_from_row_list read_count rows demo_t 3 1 (Some 1) (Some 0) 256 true true) = true →
  hammer_setup demo_cfg demo_t 1 0 true read_count rows 256 true (demo_words read_count rows)
    (mem_of (demo_words read_count rows)).
Proof.
  intros Hrc Hrows Hfit Hgen. constructor; try done.
  - apply Forall_forall. intros r Hr. rewrite forallb_forall in Hfit.
    apply list_elem_of_In, Hfit, andb_true_iff in Hr as [?%Z.leb_le ?%Z.ltb_lt].
    unfold row_fits. change (Z.max _ _) with 14. lia.
  - unfold demo_words. simpl bankbits. simpl nranks. by destruct (generate_payload_from_row_list _ _ _ _ _ _ _ _ _ _).
  - apply mem_of_lookup.
Qed.

(** A machine just after reset satisfies the hypotheses on the initial state. *)
Definition demo_inputs (body : list pe_in) : list pe_in :=
  [PeIn true false; PeIn false false; PeIn false true] ++ body.

Lemma demo_execution body : execution_inputs [PeIn false false] body (demo_inputs body).
Proof. exists false, false. split; [done|]. by repeat constructor. Qed.

(** C4: A payload generated for a row sequence hammers exactly as asked.  When
    the words of [generate_payload_from_row_list] are in the payload memory and
    the executor is started, it returns to READY with the DFI released, and
    every row was activated on the requested rank and bank exactly [read_count]
    times its number of occurrences in the sequence, with no other activation,
    however long the executor waited for the DFI. *)
Theorem hammer_count_exact {M : Migen} cfg t bank rank refresh read_count rows payload_mem_size
    verbose words mem s :
  hammer_setup cfg t bank rank refresh read_count rows payload_mem_size verbose words mem →
  fsm s = READY → loop_counter s = 0 →
  ∃ n : nat, ∀ wait body ins, execution_inputs wait body ins → length body = n →
    let os := (pe_run cfg mem ins s).1 in
    let s' := (pe_run cfg mem ins s).2 in
    fsm s' = READY ∧ wants_dfi s' = false ∧ loop_counter s' = 0
    ∧ (∀ row, Z.of_nat (countb (act_on rank bank row) (issued <$> os))
              = read_count * countb (Z.eqb row) rows)
    ∧ Z.of_nat (countb (is_op ACT) (issued <$> os)) = read_count * length rows.
Proof.
  intros H Hf Hl. exists (S (length (program_trace (blocks cfg t bank rank refresh read_count rows)))).
  intros wait body ins Hins Hb. cbv zeta.
  destruct (setup_runs H s wait body ins Hf Hl Hins Hb) as (? & ? & ? & _).
  destruct (setup_inv H) as (_ & _ & Hreps & _). pose proof (hs_params _ _ _ _ _ _ _ _ _ _ _ H) as Hok.
  pose proof (Z.div_mod read_count (repetitions t rows) ltac:(lia)) as Hdm.
  split_and!; [done..| |].
  - intros row. by apply (setup_act_count H row s wait body).
  - rewrite (setup_countb H _ s wait body ins) by (done || eauto using is_op_other, op_dec_noop).
    rewrite !(countb_body _ _ _ _ _ (is_op ACT) (fun _ => true)) by
      first [lia | apply Forall_true; intros r; apply is_op_same; by apply (op_dec_dfi cfg ACT)
            | eapply is_op_other; [by apply (op_dec_dfi cfg PRE) | done]].
    rewrite !(is_op_other _ (ref_spec _ _) _ (op_dec_ref _ _ _)) by apply refresh_op_not_act.
    rewrite (countb_all _ rows) by (by apply Forall_true). nia.
Qed.

Lemma hammer_count_exact_witness :
  ∃ n : nat, ∀ wait body ins, execution_inputs wait body ins → length body = n →
    let os := (pe_run demo_cfg (mem_of (demo_words 5 [3; 9; 3])) ins pe_reset).1 in
    Z.of_nat (countb (act_on 0 1 3) (issued <$> os)) = 10
    ∧ Z.of_nat (countb (act_on 0 1 9) (issued <$> os)) = 5
    ∧ Z.of_nat (countb (is_op ACT) (issued <$> os)) = 15.
Proof.
  destruct (hammer_count_exact demo_cfg demo_t 1 0 true 5 [3; 9; 3] 256 true (demo_words 5 [3; 9; 3])
    (mem_of (demo_words 5 [3; 9; 3])) pe_reset) as [n Hn].
  - apply demo_setup; vm_compute; congruence.
  - reflexivity.
  - reflexivity.
  - exists n. intros wait body ins Hins Hlen. destruct (Hn wait body ins Hins Hlen) as (_ & _ & _ & Hr & Ha).
    split; [exact (Hr 3)|]. split; [exact (Hr 9) | exact Ha].
Defined.

(** C39: The number of refreshes that the generator counts and prints is the
    number of REF commands the payload issues, less the one that closes it;
    with refreshes disabled none is issued. *)
Theorem refresh_count_exact {M : Migen} cfg t bank rank refresh read_count rows payload_mem_size
    verbose words mem s wait body ins :
  hammer_setup cfg t bank rank refresh read_count rows payload_mem_size verbose words mem →
  fsm s = READY → loop_counter s = 0 → execution_inputs wait body ins →
  length body = S (length (program_trace (blocks cfg t bank rank refresh read_count rows))) →
  ∃ refreshes1 payload1 refreshes2 payload2,
    encode_long_loop (repetitions t rows) (read_count / repetitions t rows) rows t (enc cfg) bank
      (Some rank) (refresh_op refresh) [noop_spec (first_wait t)] = Ok (refreshes1, payload1)
    ∧ encode_long_loop 1 (read_count mod repetitions t rows) rows t (enc cfg) bank
      (Some rank) (refresh_op refresh) payload1 = Ok (refreshes2, payload2)
    ∧ words = Encoder.encode_payload (payload2 ++ [ref_spec refresh 1; noop_spec 0])
    ∧ Z.of_nat (countb (is_op REF) (issued <$> (pe_run cfg mem ins s).1))
      = if refresh then refreshes1 + refreshes2 + 1 else 0.
Proof.
  intros H Hf Hl Hins Hb. pose proof (hs_params _ _ _ _ _ _ _ _ _ _ _ H) as Hok.
  destruct (setup_inv H) as (Hw & _ & Hreps & Hfit & Hfit1).
  pose proof (Z.div_pos read_count _ (hs_count _ _ _ _ _ _ _ _ _ _ _ H) Hreps).
  pose proof (Z.mod_pos_bound read_count _ Hreps).
  assert (0 ≤ repetitions t rows) by lia. unfold loops_fit in Hfit, Hfit1.
  rewrite (encode_long_loop_eq _ _ _ _ _ Hok) by (eauto using rows_nonneg).
  rewrite Hfit. do 2 eexists. eexists. eexists. split; [done|].
  rewrite (encode_long_loop_eq _ _ _ _ _ Hok) by first [by eauto using rows_nonneg | lia].
  rewrite Hfit1. split; [done|]. split.
  { rewrite Hw. unfold payload. cbn [app]. by rewrite <- !app_assoc. }
  rewrite (setup_countb H _ s wait body ins) by (done || eauto using is_op_other, op_dec_noop).
  rewrite !(countb_body _ _ _ _ _ (is_op REF) (fun _ => false)) by
    first [lia | apply Forall_true; intros r; eapply is_op_other; [by apply (op_dec_dfi cfg ACT) | done]
          | eapply is_op_other; [by apply (op_dec_dfi cfg PRE) | done]].
  rewrite (countb_none _ rows) by (by apply Forall_true). unfold is_op. rewrite !op_dec_ref.
  destruct refresh; simpl; lia.
Qed.

Lemma refresh_count_exact_witness :
  let body := replicate 351 (PeIn false false) in
  Z.of_nat (countb (is_op REF) (issued <$>
    (pe_run demo_cfg (mem_of (demo_words 9 [3; 9; 3])) (demo_inputs body) pe_reset).1)) = 10.
Proof.
  intros body.
  destruct (refresh_count_exact demo_cfg demo_t 1 0 true 9 [3; 9; 3] 256 true (demo_words 9 [3; 9; 3])
    (mem_of (demo_words 9 [3; 9; 3])) pe_reset [PeIn false false] body (demo_inputs body))
    as (r1 & p1 & r2 & p2 & E1 & E2 & _ & ->).
  - apply demo_setup; vm_compute; congruence.
  - reflexivity.
  - reflexivity.
  - apply demo_execution.
  - vm_compute. reflexivity.
  - vm_compute in E1. injection E1 as <- <-. vm_compute in E2. injection E2 as <- <-. reflexivity.
Defined.

(** How long an execution takes.  [get_expected_execution_cycles] gives, for
    a generated payload, the number of cycles that the executor spends, except
    for the jumps back: each of them costs a cycle that it leaves out. *)
Theorem expected_cycles_gap {M : Migen} cfg t bank rank refresh read_count rows payload_mem_size
    verbose words mem s wait body ins :
  hammer_setup cfg t bank rank refresh read_count rows payload_mem_size verbose words mem →
  fsm s = READY → loop_counter s = 0 → execution_inputs wait body ins →
  length body = S (length (program_trace (blocks cfg t bank rank refresh read_count rows))) →
  let q := read_count / repetitions t rows in
  let r := read_count mod repetitions t rows in
  ∃ specs expected,
    words = Encoder.encode_payload specs ∧ get_expected_execution_cycles specs = Ok expected
    ∧ Z.of_nat (countb executing (pe_run cfg mem ins s).1)
      = expected + (q - n_loops q) + (r - n_loops r).
Proof.
  intros H Hf Hl Hins Hb q r. destruct (setup_inv H) as (Hw & _ & Hreps & Hfit & Hfit1).
  pose proof (hs_params _ _ _ _ _ _ _ _ _ _ _ H) as Hok.
  pose proof (hs_count _ _ _ _ _ _ _ _ _ _ _ H) as Hrc.
  exists (payload cfg t bank rank refresh read_count rows), (announced cfg t bank rank refresh read_count rows).
  split_and!; [done | by apply expected_payload |].
  destruct (setup_runs H s wait body ins Hf Hl Hins Hb) as (_ & _ & _ & _ & ->).
  rewrite Nat2Z.inj_succ, length_blocks by done. unfold announced, q, r. lia.
Qed.

Lemma expected_cycles_gap_witness :
  let body := replicate 351 (PeIn false false) in
  ∃ specs expected,
    demo_words 9 [3; 9; 3] = Encoder.encode_payload specs
    ∧ get_expected_execution_cycles specs = Ok expected
    ∧ Z.of_nat (countb executing
        (pe_run demo_cfg (mem_of (demo_words 9 [3; 9; 3])) (demo_inputs body) pe_reset).1) = expected + 1.
Proof.
  intros body. destruct (expected_cycles_gap demo_cfg demo_t 1 0 true 9 [3; 9; 3] 256 true
    (demo_words 9 [3; 9; 3]) (mem_of (demo_words 9 [3; 9; 3])) pe_reset [PeIn false false] body
    (demo_inputs body)) as (specs & expected & Hw & He & Hc).
  - apply demo_setup; vm_compute; congruence.
  - reflexivity.
  - reflexivity.
  - apply demo_execution.
  - vm_compute. reflexivity.
  - exists specs, expected. split; [exact Hw|]. split; [exact He|]. rewrite Hc.
    change (expected + 1 + 0 = expected + 1). lia.
Defined.

(** C23: The generator's outcome on every input with a non-empty row sequence:
    an assertion failure when no activation fits between two refreshes, when
    the sequence is too long or when a loop body does not fit the jump field;
    an exit with status 1 when the payload is larger than the payload memory;
    otherwise the encoded payload. *)
Theorem generate_payload_outcome {M : Migen} cfg t bank rank refresh read_count rows payload_mem_size verbose :
  gen_params_ok cfg t bank rank refresh →
  0 ≤ read_count → rows ≠ [] → Forall (fun r => 0 ≤ r) rows →
  let reps := repetitions t rows in
  generate_payload_from_row_list read_count rows t (bankbits cfg) bank (Some (nranks cfg))
    (Some rank) payload_mem_size refresh verbose =
  if negb ((0 <? acts_per_interval t) && (length rows <=? max_acts_in_loop)
           && loops_fit cfg t bank rank refresh reps (read_count / reps) rows
           && loops_fit cfg t bank rank refresh 1 (read_count mod reps) rows)
  then Raise AssertionError
  else if payload_mem_size / 4 <? length (payload cfg t bank rank refresh read_count rows)
  then Raise (SystemExit 1)
  else Ok (Encoder.encode_payload (payload cfg t bank rank refresh read_count rows)).
Proof. intros Hok Hrc Hrows Hnn. by apply generate_payload_eq. Qed.

Lemma generate_payload_outcome_witness :
  generate_payload_from_row_list 9 [3; 9; 3] demo_t 3 1 (Some 1) (Some 0) 64 true false
  = Raise (SystemExit 1).
Proof.
  rewrite (generate_payload_outcome demo_cfg demo_t 1 0 true 9 [3; 9; 3] 64 false).
  - vm_compute. reflexivity.
  - apply demo_params.
  - lia.
  - discriminate.
  - repeat constructor; lia.
Defined.
