(* ===== verification/RefreshGap.v ===== *)
(** * Time between refreshes

    The generator inserts REF commands so that a payload run with refreshes
    enabled refreshes the memory in time.  This file measures the distance
    between consecutive REF commands in the cycle trace of a payload. *)

From S2P Require Import Prelude Isa Executor ExecutorSpec Generator GeneratorFacts Payloads Hammer.
Import Decoder.

(** ** Distances in a trace *)
Section gaps.
Context (f : option decoded → bool).

(** Distances between consecutive hits of [f]; the last hit before the trace
    was [n] cycles before its first cycle. *)
Fixpoint gaps (n : Z) (tr : list (option decoded)) : list Z :=
  match tr with
  | [] => []
  | o :: tr' => if f o then n :: gaps 1 tr' else gaps (n + 1) tr'
  end.

(** Cycles since the last hit at the end of the trace. *)
Fixpoint since (n : Z) (tr : list (option decoded)) : Z :=
  match tr with
  | [] => n
  | o :: tr' => since (if f o then 1 else n + 1) tr'
  end.

(** All distances are at most [b], starting [n] cycles after a hit, and the
    trace ends at most [m] cycles after one. *)
Definition gaps_ok (b n m : Z) (tr : list (option decoded)) : Prop :=
  Forall (fun g => g ≤ b) (gaps n tr) ∧ since n tr ≤ m.

Lemma gaps_app n tr1 tr2 : gaps n (tr1 ++ tr2) = gaps n tr1 ++ gaps (since n tr1) tr2.
Proof.
  revert n; induction tr1 as [|o tr1 IH]; intros n; [done|]. simpl.
  destruct (f o); simpl; by rewrite IH.
Qed.

Lemma since_app n tr1 tr2 : since n (tr1 ++ tr2) = since (since n tr1) tr2.
Proof. revert n; induction tr1 as [|o tr1 IH]; intros n; [done|]. simpl. apply IH. Qed.

(** Earlier hits only shorten the distances. *)
Lemma gaps_ok_mono b n n' m tr : n ≤ n' → gaps_ok b n' m tr → gaps_ok b n m tr.
Proof.
  revert n n'; induction tr as [|o tr IH]; intros n n' Hn [Hg Hs]; simpl in *.
  - split; [done | simpl; lia].
  - unfold gaps_ok in *. simpl. destruct (f o).
    + apply Forall_cons_1 in Hg as [Hg1 Hg]. split; [constructor; [lia|done] | done].
    + apply (IH (n + 1) (n' + 1)); [lia | done].
Qed.

Lemma gaps_ok_app b n m k tr1 tr2 :
  gaps_ok b n m tr1 → gaps_ok b m k tr2 → gaps_ok b n k (tr1 ++ tr2).
Proof.
  intros [Hg1 Hs1] H2. apply (gaps_ok_mono _ _ _ _ _ Hs1) in H2 as [Hg2 Hs2].
  split; [rewrite gaps_app; by apply Forall_app | by rewrite since_app].
Qed.

Lemma gaps_ok_repeat b n tr k : gaps_ok b n n tr → gaps_ok b n n (mjoin (replicate k tr)).
Proof.
  intros H. induction k as [|k IH]; simpl; [by split; [constructor | simpl]|].
  by eapply gaps_ok_app.
Qed.

Lemma gaps_ok_none b n (k : nat) : f None = false → gaps_ok b n (n + k) (replicate k None).
Proof.
  intros Hf. revert n; induction k as [|k IH]; intros n; simpl.
  - split; [constructor | simpl; lia].
  - unfold gaps_ok. simpl. rewrite Hf. destruct (IH (n + 1)) as [Hg Hs]. split; [done | lia].
Qed.

Lemma gaps_ok_instr b n d :
  f None = false → is_loop d = false → (f (Some d) = true → n ≤ b) →
  gaps_ok b n ((if f (Some d) then 0 else n) + instr_cycles d) (instr_trace d).
Proof.
  intros Hf Hl Hn. assert (1 ≤ instr_cycles d) by (unfold instr_cycles; rewrite Hl; lia).
  unfold instr_trace. rewrite Hl.
  assert (∀ m, gaps_ok b m (m + (instr_cycles d - 1)) (replicate (Z.to_nat (instr_cycles d - 1)) None)) as Hi.
  { intros m. replace (instr_cycles d - 1) with (Z.of_nat (Z.to_nat (instr_cycles d - 1))) at 1 by lia.
    by apply gaps_ok_none. }
  unfold gaps_ok. simpl. destruct (f (Some d)).
  - destruct (Hi 1) as [Hg Hs]. split; [constructor; auto | lia].
  - destruct (Hi (n + 1)) as [Hg Hs]. split; [done | lia].
Qed.
End gaps.

(** ** Refreshes of a generated payload *)
Section refreshes.
Context {M : Migen} (cfg : pe_cfg) (t : timings) (bank rank : Z).
Context (Hok : gen_params_ok cfg t bank rank true).
(** A refresh, an activation and a precharge fit into the interval. *)
Context (Hint : tRFC t + tRAS t + tRP t ≤ tREFI t).
Abbreviation dec := (dec cfg).
Abbreviation gaps_ok := (gaps_ok (is_op REF) (tREFI t + 1)).

Lemma gaps_ref ts n : 0 < ts ≤ tRFC t → n ≤ tREFI t + 1 →
  gaps_ok n ts (instr_trace (dec (ref_spec true ts))).
Proof using Hok.
  intros Hts Hn. destruct (spec_ok_ref _ _ _ _ _ Hok ts Hts) as [(Hl & _) Hc].
  pose proof (gaps_ok_instr (is_op REF) (tREFI t + 1) n (dec (ref_spec true ts)) eq_refl Hl (fun _ => Hn)) as H.
  rewrite Hc in H. by rewrite (is_op_same REF _ (op_dec_ref _ true ts)) in H.
Qed.

Lemma gaps_other s n op :
  spec_ok cfg s → op_code (dec s) = op_value op → op ≠ REF →
  gaps_ok n (n + ts_of s) (instr_trace (dec s)).
Proof.
  intros [(Hl & _) Hc] Hop Hne. pose proof (is_op_other REF s op Hop Hne) as Hf.
  pose proof (gaps_ok_instr (is_op REF) (tREFI t + 1) n (dec s) eq_refl Hl) as H.
  rewrite Hf, Hc in H. by apply H.
Qed.

Lemma gaps_act_pre n row :
  gaps_ok n (n + (tRAS t + tRP t))
    (instr_trace (dec (act_spec cfg t bank rank row)) ++ instr_trace (dec (pre_spec cfg t rank))).
Proof using Hok.
  destruct Hok. rewrite Z.add_assoc. eapply gaps_ok_app.
  - eapply (gaps_other (act_spec _ _ _ _ _)); [by apply spec_ok_dfi | by apply op_dec_dfi | done].
  - eapply (gaps_other (pre_spec _ _ _)); [by apply spec_ok_dfi | by apply op_dec_dfi | done].
Qed.

(** [accum], the time the generator accounts for, is at least the time since
    the last REF; the generator keeps it within the interval. *)
Lemma gaps_rows rows : ∀ accum,
  accum ≤ tREFI t →
  gaps_ok accum (tREFI t) (seq_trace (dec <$> rows_code cfg t bank rank true accum rows)).
Proof using Hok Hint.
  induction rows as [|row rows IH]; intros accum Ha; [by split; [constructor|]|].
  cbn [rows_code]. unfold row_code. rewrite !fmap_app, !seq_trace_app.
  assert (∀ n, gaps_ok n (n + (tRAS t + tRP t))
    (seq_trace (dec <$> [act_spec cfg t bank rank row; pre_spec cfg t rank]))) as Hap.
  { intros n. unfold seq_trace. cbn [fmap list_fmap]. rewrite !bind_cons, app_nil_r. apply gaps_act_pre. }
  unfold row_accum. destruct (row_over t accum) eqn:Ho; unfold row_over in Ho.
  - apply Z.ltb_lt in Ho. eapply gaps_ok_app; [eapply gaps_ok_app|].
    + unfold seq_trace. cbn [fmap list_fmap]. rewrite bind_cons, app_nil_r.
      apply gaps_ref; destruct Hok; lia.
    + apply Hap.
    + apply IH. lia.
  - apply Z.ltb_ge in Ho. eapply gaps_ok_app; [apply (Hap accum) | apply IH; lia].
Qed.

Lemma gaps_loop u rows c :
  gaps_ok (tREFI t + 1) (tREFI t + 1) (block_trace (loop_block cfg (loop_body cfg t bank rank true u rows) c)).
Proof using Hok Hint.
  apply gaps_ok_repeat. eapply gaps_ok_app.
  - unfold loop_body. rewrite fmap_cons. unfold seq_trace. rewrite bind_cons.
    pose proof Hok as []. eapply gaps_ok_app; [apply gaps_ref; lia|].
    eapply gaps_ok_mono; [|apply gaps_rows; lia]. lia.
  - split; [constructor | simpl; lia].
Qed.

Lemma gaps_loops u rows cs :
  gaps_ok (tREFI t + 1) (tREFI t + 1)
    (program_trace (loops_blocks cfg (loop_body cfg t bank rank true u rows) cs)).
Proof using Hok Hint.
  induction cs as [|c cs IH]; [split; [constructor | simpl; lia]|].
  unfold loops_blocks. rewrite fmap_cons, program_trace_cons.
  eapply gaps_ok_app; [apply gaps_loop | apply IH].
Qed.

Lemma gaps_blocks read_count rows :
  gaps_ok 0 1 (program_trace (blocks cfg t bank rank true read_count rows)).
Proof using Hok Hint.
  unfold blocks. rewrite program_trace_cons, !program_trace_app.
  eapply gaps_ok_app; [|eapply gaps_ok_app; [apply gaps_loops|eapply gaps_ok_app; [apply gaps_loops|]]].
  - destruct (gaps_other (noop_spec (first_wait t)) 0 NOOP) as [Hg Hs];
      [eapply spec_ok_wait; exact Hok | apply op_dec_noop | done |].
    split; [done|]. etrans; [exact Hs|]. unfold ts_of, first_wait. simpl. destruct Hok. lia.
  - unfold program_trace. rewrite bind_cons, app_nil_r. apply gaps_ref; destruct Hok; lia.
Qed.

(** The last command before STOP is a REF of one cycle. *)
Lemma since_blocks read_count rows :
  since (is_op REF) 0 (program_trace (blocks cfg t bank rank true read_count rows)) = 1.
Proof using Hok.
  unfold blocks. rewrite program_trace_cons, !program_trace_app, !since_app.
  match goal with |- since _ ?n _ = 1 => generalize n end. intros n.
  destruct (spec_ok_ref _ _ _ _ _ Hok 1) as [(Hl & _) Hc]; [destruct Hok; lia|].
  change (program_trace [?b]) with (block_trace b ++ []). rewrite app_nil_r.
  cbn [block_trace]. unfold instr_trace. rewrite Hl, Hc.
  change (Z.to_nat (ts_of (ref_spec true 1) - 1)) with 0%nat. cbn [replicate since].
  by rewrite (is_op_same REF _ (op_dec_ref _ true 1)).
Qed.
End refreshes.

(** C5: With refreshes enabled, the payload never lets the memory go without a
    refresh for longer than the refresh interval and one cycle: from the start
    of the payload, and between consecutive REF commands of its execution, at
    most [tREFI + 1] cycles pass, provided that a refresh and one activation
    fit into an interval. *)
Theorem refresh_interval {M : Migen} cfg t bank rank read_count rows payload_mem_size
    verbose words mem s wait body ins :
  hammer_setup cfg t bank rank true read_count rows payload_mem_size verbose words mem →
  tRFC t + tRAS t + tRP t ≤ tREFI t →
  fsm s = READY → loop_counter s = 0 → execution_inputs wait body ins →
  length body = S (length (program_trace (blocks cfg t bank rank true read_count rows))) →
  let tr := drop (2 + length wait) (issued <$> (pe_run cfg mem ins s).1) in
  Forall (fun g => g ≤ tREFI t + 1) (gaps (is_op REF) 0 tr) ∧ since (is_op REF) 0 tr = 2.
Proof.
  intros H Hint Hf Hl Hins Hb tr. pose proof (hs_params _ _ _ _ _ _ _ _ _ _ _ H) as Hok.
  destruct (setup_runs H s wait body ins Hf Hl Hins Hb) as (_ & _ & _ & Htr & _).
  subst tr. rewrite Htr. rewrite drop_app_length' by (by rewrite length_replicate).
  destruct (gaps_blocks cfg t bank rank Hok Hint read_count rows) as [Hg _].
  rewrite gaps_app, since_app. cbn [gaps since].
  rewrite (is_op_other REF _ NOOP (op_dec_noop _ _)) by done.
  split; [by rewrite app_nil_r|]. by rewrite (since_blocks _ _ _ _ Hok).
Qed.

Lemma refresh_interval_witness :
  let body := replicate 351 (PeIn false false) in
  let tr := drop 3 (issued <$>
    (pe_run demo_cfg (mem_of (demo_words 9 [3; 9; 3])) (demo_inputs body) pe_reset).1) in
  Forall (fun g => g ≤ 43) (gaps (is_op REF) 0 tr) ∧ since (is_op REF) 0 tr = 2.
Proof.
  intros body. apply (refresh_interval demo_cfg demo_t 1 0 9 [3; 9; 3] 256 true (demo_words 9 [3; 9; 3])
    (mem_of (demo_words 9 [3; 9; 3])) pe_reset [PeIn false false] body (demo_inputs body)).
  - apply demo_setup; vm_compute; congruence.
  - vm_compute. congruence.
  - reflexivity.
  - reflexivity.
  - apply demo_execution.
  - vm_compute. reflexivity.
Defined.

(** The bound is reached: with an interval of 42 cycles, hammering seven rows
    once leaves 43 cycles between two refreshes.  The extra cycle accounted for
    at the start of a loop covers the jump only until the first refresh inside
    the loop resets the account. *)
Example refresh_interval_tight :
  gaps (is_op REF) 0 (program_trace (blocks demo_cfg demo_t 1 0 true 1 [1; 2; 3; 4; 5; 6; 7]))
  = [40; 34; 43].
Proof. vm_compute. reflexivity. Qed.
