(* ===== verification/Dfi.v ===== *)
(** * The DFI side of the payload executor

    Models the rest of [src/rowhammer_tester/gateware/payload_executor.py]: the
    [DFIExecutor] that drives the DFI phases, the [RefreshCounter] and the
    [DFISwitch] that hands the DFI over from the memory controller, and the
    [Scratchpad] that stores read data.  Like [Executor], one function per
    module maps registers and inputs of a cycle to the next registers; the
    DFII master, the memory controller and the PHY are inputs. *)

From S2P Require Import Prelude Isa Executor.
Import Decoder.

(** ** DFI executor *)

(** The command signals of a DFI phase (one bit per rank in [cke], [odt],
    [reset_n] and [cs_n]). *)
Record dfi_phase := DfiPhase {
  cke : Z; odt : Z; reset_n : Z;
  cs_n : Z; cas_n : bool; ras_n : bool; we_n : bool;
  ph_address : Z; ph_bank : Z; rddata_en : bool;
}.

Section dfi_executor.
Context {M : Migen} (cfg : pe_cfg).

(** [Replicate(1, nranks)]. *)
Definition all_ranks : Z := Z.ones (nranks cfg).

(** Output of the one-hot rank decoder, whose input is undriven without rank bits. *)
Definition rank_decoder_o (d : decoded) : Z :=
  trunc (nranks cfg) (onehot (if rankbits cfg =? 0 then 0 else dfi_rank d)).

(** Next value of phase [i]. *)
Definition phase_next (o : pe_out) (i : nat) (p : dfi_phase) : dfi_phase :=
  let d := instr o in
  if (phase o =? i) && exec o then
    {| cke := all_ranks; odt := all_ranks; reset_n := all_ranks;
       cas_n := negb (cas d); ras_n := negb (ras d); we_n := negb (we d);
       ph_address := dfi_address d; ph_bank := dfi_bank d;
       rddata_en := op_code d =? op_value READ;
       cs_n := if op_code d =? op_value NOOP then all_ranks
               else if op_code d =? op_value REF then 0
               else trunc (nranks cfg) (Z.lnot (rank_decoder_o d)) |}
  else
    {| cke := all_ranks; odt := all_ranks; reset_n := all_ranks;
       cs_n := all_ranks; cas_n := true; ras_n := true; we_n := true;
       (* not assigned when inactive *)
       ph_address := ph_address p; ph_bank := ph_bank p; rddata_en := rddata_en p |}.

Definition DFIExecutor_cycle (o : pe_out) (phases : list dfi_phase) : list dfi_phase :=
  imap (phase_next o) phases.
End dfi_executor.

(** ** Refresh counter *)

(** [RefreshCounter] watches one DFI phase; DDR5 encodes REF in the address. *)
Definition ref_detected (ddr5 : bool) (p : dfi_phase) : bool :=
  if ddr5 then slice (ph_address p) 0 5 =? 19
  else (cs_n p =? 0) && negb (cas_n p) && negb (ras_n p) && we_n p.

Definition counter_width : Z := 32.

Definition RefreshCounter_cycle (ddr5 : bool) (p : dfi_phase) (counter : Z) : Z :=
  if ref_detected ddr5 p then trunc counter_width (counter + 1) else counter.

(** ** DFI switch *)

Inductive switch_fsm := MEMORY_CONTROLLER | PAYLOAD_EXECUTION.

#[global] Instance switch_fsm_eq_dec : EqDecision switch_fsm.
Proof. solve_decision. Defined.

(** Registers of [DFISwitch], its counter and its CSRs included. *)
Record switch_regs := SwitchRegs {
  sw_fsm : switch_fsm;
  refresh_counter : Z;
  mc_ongoing_d : bool;
  refresh_count : Z;       (* CSR status *)
}.

(** Inputs: the request of the executor, the master's phase 0, and the CSRs. *)
Record switch_in := SwitchIn {
  sw_wants : bool;
  master0 : dfi_phase;
  at_refresh : Z;
  refresh_update : bool;
}.

Record switch_out := SwitchOut {
  sw_ready : bool;          (* dfi_ready *)
  ext_dfi_sel : bool;
  refresher_reset : bool;
}.

Section switch.
Context (with_refresh ddr5 : bool).

Definition refresh_matches (i : switch_in) (s : switch_regs) : bool :=
  (at_refresh i =? 0) || (at_refresh i =? refresh_counter s + 1).

Definition DFISwitch_fsm (i : switch_in) (s : switch_regs) : switch_out * switch_fsm :=
  match sw_fsm s with
  | MEMORY_CONTROLLER =>
      (SwitchOut false false false,
       if sw_wants i then
         if with_refresh then
           if ref_detected ddr5 (master0 i) && refresh_matches i s
           then PAYLOAD_EXECUTION else MEMORY_CONTROLLER
         else PAYLOAD_EXECUTION
       else MEMORY_CONTROLLER)
  | PAYLOAD_EXECUTION =>
      if negb (sw_wants i) then (SwitchOut true true true, MEMORY_CONTROLLER)
      else (SwitchOut true true false, PAYLOAD_EXECUTION)
  end.

(** The CSR registers of [add_csrs]. *)
Definition add_csrs (i : switch_in) (s : switch_regs) : bool * Z :=
  let pe_ongoing := bool_decide (sw_fsm s = PAYLOAD_EXECUTION) in
  let mc_ongoing := bool_decide (sw_fsm s = MEMORY_CONTROLLER) in
  let mc_to_pe := mc_ongoing_d s && pe_ongoing in
  (mc_ongoing, if mc_to_pe || refresh_update i then refresh_counter s else refresh_count s).

Definition DFISwitch_cycle (i : switch_in) (s : switch_regs) : switch_out * switch_regs :=
  let '(o, fsm') := DFISwitch_fsm i s in
  let '(mc_d, status) := add_csrs i s in
  (o, SwitchRegs fsm' (RefreshCounter_cycle ddr5 (master0 i) (refresh_counter s)) mc_d status).

Fixpoint DFISwitch_run (ins : list switch_in) (s : switch_regs) : list switch_out * switch_regs :=
  match ins with
  | [] => ([], s)
  | i :: ins' =>
      let '(o, s1) := DFISwitch_cycle i s in
      let '(os, s2) := DFISwitch_run ins' s1 in
      (o :: os, s2)
  end.
End switch.

Definition switch_reset : switch_regs := SwitchRegs MEMORY_CONTROLLER 0 false 0.

(** ** Scratchpad *)

Record pad_regs := PadRegs {
  pad_counter : Z;
  overflow : bool;
  wr_adr : Z;
  wr_dat_w : Z;
  wr_we : bool;
  pad_mem : Z → Z;
}.

(** Inputs of a cycle: the reset and the read data and valid bits of the phases. *)
Record pad_in := PadIn { pad_reset : bool; rddata : list Z; rddata_valid : list bool }.

(** [Cat] of signals of the given width, least significant first. *)
Fixpoint cat (w : Z) (l : list Z) : Z :=
  match l with [] => 0 | x :: l' => trunc w x + cat w l' * 2 ^ w end.

Definition pad_bits (depth : Z) : Z := signal_max_bits (depth - 1).

(** The memory is written at the end of a cycle in which the port is enabled;
    [ResetInserter] resets the registers but not the memory. *)
Definition Scratchpad_cycle (depth databits : Z) (i : pad_in) (s : pad_regs) : pad_regs :=
  let mem' := if wr_we s then fun a => if a =? wr_adr s then wr_dat_w s else pad_mem s a
              else pad_mem s in
  if pad_reset i then PadRegs 0 false 0 0 false mem'
  else
    let '(counter, ovf) :=
      if wr_we s then
        if pad_counter s =? depth - 1 then (0, true)
        else (trunc (pad_bits depth) (pad_counter s + 1), overflow s)
      else (pad_counter s, overflow s) in
    PadRegs counter ovf (pad_counter s) (cat databits (rddata i))
      (foldr orb false (rddata_valid i)) mem'.

Definition Scratchpad_run (depth databits : Z) (ins : list pad_in) (s : pad_regs) : pad_regs :=
  foldl (fun s i => Scratchpad_cycle depth databits i s) s ins.

Definition pad_init (mem : Z → Z) : pad_regs := PadRegs 0 false 0 0 false mem.
