(* ===== verification/DfiFacts.v ===== *)
(** * Properties of the DFI side

    What reaches the DRAM for an instruction, when the DFI changes hands, and
    what the scratchpad holds after a sequence of reads.  The last section
    composes executor, switch and DFI executor cycle by cycle. *)

From S2P Require Import Prelude Isa Executor Dfi.
Import Decoder.

(** ** Commands on the DFI *)
Section commands.
Context {M : Migen} (cfg : pe_cfg) (Hranks : 1 ≤ nranks cfg).

Lemma all_ranks_nonzero : all_ranks cfg ≠ 0.
Proof using Hranks.
  unfold all_ranks. rewrite Z.ones_equiv.
  assert (2 ^ 1 ≤ 2 ^ nranks cfg) by (apply Z.pow_le_mono_r; lia). lia.
Qed.

Lemma all_ranks_testbit r : 0 ≤ r < nranks cfg → Z.testbit (all_ranks cfg) r = true.
Proof. intros. unfold all_ranks. by apply Z.ones_spec_low. Qed.

Lemma decode_op_bound w : 0 ≤ op_code (pe_decode cfg w) < 8.
Proof. apply (slice_bound w 0 OP_CODE). done. Qed.

(** The strobes of a decoded word identify the op code. *)
Lemma strobes_ref w :
  let d := pe_decode cfg w in
  cas d && ras d && negb (we d) = (op_code d =? op_value REF).
Proof.
  cbv zeta. pose proof (decode_op_bound w) as Hb.
  unfold pe_decode, decode in *. cbn [cas ras we op_code] in *.
  generalize dependent (slice w 0 OP_CODE). intros op Hb.
  assert (op = 0 ∨ op = 1 ∨ op = 2 ∨ op = 3 ∨ op = 4 ∨ op = 5 ∨ op = 6 ∨ op = 7) as Hop by lia.
  by repeat destruct Hop as [->|Hop]; [..|rewrite Hop].
Qed.

(** Which ranks a command reaches. *)
Lemma rank_selected o i p w r :
  instr o = pe_decode cfg w → ((rankbits cfg =? 0) = true → nranks cfg = 1) → 0 ≤ r < nranks cfg →
  0 ≤ dfi_rank (instr o) →
  negb (Z.testbit (cs_n (phase_next cfg o i p)) r) =
    (phase o =? i) && exec o
    && ((op_code (instr o) =? op_value REF)
        || negb (op_code (instr o) =? op_value NOOP)
           && ((rankbits cfg =? 0) || (dfi_rank (instr o) =? r))).
Proof using Hranks.
  intros Hw Hone Hr Hd. unfold phase_next.
  destruct ((phase o =? i) && exec o) eqn:Hsel; cbn [cs_n andb].
  2: { by rewrite all_ranks_testbit. }
  destruct (op_code (instr o) =? op_value NOOP) eqn:Hnoop.
  { apply Z.eqb_eq in Hnoop. rewrite Hnoop, all_ranks_testbit by done. done. }
  destruct (op_code (instr o) =? op_value REF); [by rewrite Z.bits_0|]. cbn [orb andb negb].
  unfold trunc, rank_decoder_o. rewrite Z.mod_pow2_bits_low, Z.lnot_spec, negb_involutive by lia.
  unfold trunc. rewrite Z.mod_pow2_bits_low by lia.
  destruct (Z.eqb_spec (rankbits cfg) 0) as [Hz|Hz]; cbn [orb].
  - rewrite onehot_spec, Z.pow2_bits_eqb by lia. apply Z.eqb_eq. lia.
  - by rewrite onehot_spec, Z.pow2_bits_eqb by lia.
Qed.

(** The refresh counter sees exactly the REF commands on phase 0. *)
Lemma ref_detected_phase o i p w :
  instr o = pe_decode cfg w →
  ref_detected false (phase_next cfg o i p) =
    (phase o =? i) && exec o && (op_code (instr o) =? op_value REF).
Proof using Hranks.
  intros Hw. unfold phase_next, ref_detected.
  destruct ((phase o =? i) && exec o); cbn [cs_n cas_n ras_n we_n andb].
  2: { pose proof all_ranks_nonzero as Hz%Z.eqb_neq. by rewrite Hz. }
  rewrite !negb_involutive, Hw. pose proof (strobes_ref w) as Hs. cbv zeta in Hs.
  destruct (op_code (pe_decode cfg w) =? op_value REF) eqn:Hop.
  - apply Z.eqb_eq in Hop. rewrite Hop. exact Hs.
  - by destruct (cas _), (ras _), (we _); simpl in *; rewrite ?andb_false_r.
Qed.
End commands.

(** ** The switch *)
Section switch.
Context (with_refresh ddr5 : bool).
Abbreviation cycle := (DFISwitch_cycle with_refresh ddr5).
Abbreviation run := (DFISwitch_run with_refresh ddr5).

(** The DFI is handed over only on request and, with refreshes, in the cycle
    of a refresh whose number is the requested one. *)
Lemma grant_inv i s :
  sw_fsm s = MEMORY_CONTROLLER → sw_fsm (cycle i s).2 = PAYLOAD_EXECUTION →
  sw_wants i = true
  ∧ (with_refresh = true → ref_detected ddr5 (master0 i) = true
     ∧ (at_refresh i = 0 ∨ at_refresh i = refresh_counter s + 1)).
Proof.
  intros Hf. unfold DFISwitch_cycle, DFISwitch_fsm, refresh_matches. rewrite Hf.
  destruct (sw_wants i), with_refresh; simpl; try done.
  destruct (ref_detected ddr5 (master0 i)); simpl; [|done].
  destruct (Z.eqb_spec (at_refresh i) 0), (Z.eqb_spec (at_refresh i) (refresh_counter s + 1));
    simpl; auto; done.
Qed.

Lemma switch_run_cons i ins s :
  run (i :: ins) s = ((cycle i s).1 :: (run ins (cycle i s).2).1, (run ins (cycle i s).2).2).
Proof.
  cbn [DFISwitch_run]. destruct (cycle i s) as [o s1]. cbn [fst snd].
  by destruct (run ins s1).
Qed.

Lemma refresh_counter_cycle i s :
  refresh_counter (cycle i s).2 = RefreshCounter_cycle ddr5 (master0 i) (refresh_counter s).
Proof.
  unfold DFISwitch_cycle. destruct (DFISwitch_fsm with_refresh ddr5 i s), (add_csrs i s). done.
Qed.

(** The counter counts refreshes modulo its width. *)
Lemma refresh_counter_run ins s :
  0 ≤ refresh_counter s < 2 ^ counter_width →
  refresh_counter (run ins s).2 =
    trunc counter_width
      (refresh_counter s + countb (fun i => ref_detected ddr5 (master0 i)) ins).
Proof.
  revert s; induction ins as [|i ins IH]; intros s Hs.
  - simpl. rewrite Z.add_0_r. by rewrite trunc_small.
  - rewrite switch_run_cons. cbn [snd]. rewrite IH; rewrite refresh_counter_cycle;
      unfold RefreshCounter_cycle; cbn [countb]; destruct (ref_detected ddr5 (master0 i)).
    + unfold trunc. rewrite Zplus_mod_idemp_l. f_equal. lia.
    + done.
    + by apply trunc_bound.
    + done.
Qed.

(** Two cycles after a hand-over at the requested refresh [n], the
    [refresh_count] register reads [n]. *)
Lemma refresh_count_latched i1 i2 i3 s n :
  with_refresh = true → 0 ≤ refresh_counter s → 0 < n < 2 ^ counter_width → at_refresh i2 = n →
  sw_fsm s = MEMORY_CONTROLLER → sw_fsm (cycle i1 s).2 = MEMORY_CONTROLLER →
  sw_fsm (cycle i2 (cycle i1 s).2).2 = PAYLOAD_EXECUTION →
  let s3 := (cycle i3 (cycle i2 (cycle i1 s).2).2).2 in
  refresh_counter (cycle i2 (cycle i1 s).2).2 = n ∧ refresh_count s3 = n.
Proof.
  intros Hw H0 Hn Hat Hf Hf1 Hf2. cbv zeta. set (s1 := (cycle i1 s).2) in *.
  destruct (grant_inv i2 s1 Hf1 Hf2) as [_ Hg]. destruct (Hg Hw) as (Hr & [?|Hm]); [lia|].
  assert (refresh_counter (cycle i2 s1).2 = n) as Hc.
  { rewrite refresh_counter_cycle. unfold RefreshCounter_cycle. rewrite Hr.
    rewrite trunc_small; lia. }
  split; [done|]. set (s2 := (cycle i2 s1).2) in *.
  assert (mc_ongoing_d s2 = true) as Hd.
  { unfold s2, DFISwitch_cycle. destruct (DFISwitch_fsm with_refresh ddr5 i2 s1).
    unfold add_csrs. rewrite Hf1. done. }
  unfold DFISwitch_cycle. destruct (DFISwitch_fsm with_refresh ddr5 i3 s2).
  unfold add_csrs. rewrite Hf2, Hd. simpl. done.
Qed.
End switch.

(** ** The scratchpad *)
Section scratchpad.
Context (depth databits : Z) (Hdepth : 1 < depth) (Hbits : depth - 1 < 2 ^ pad_bits depth).
Abbreviation cycle := (Scratchpad_cycle depth databits).
Abbreviation run := (Scratchpad_run depth databits).

Definition valid_in (i : pad_in) : bool := foldr orb false (rddata_valid i).

(** Read data arriving: a valid cycle, then at least one cycle without. *)
Definition read_burst (data : list Z) (ins : list pad_in) : Prop :=
  ∃ i idle, ins = i :: idle ∧ valid_in i = true ∧ rddata i = data ∧ pad_reset i = false
    ∧ idle ≠ [] ∧ Forall (fun i => valid_in i = false ∧ pad_reset i = false) idle.

(** Nothing pending in the write port. *)
Definition settled (s : pad_regs) : Prop := wr_we s = false ∧ 0 ≤ pad_counter s < depth.

(** The state after storing one word. *)
Definition store (data : list Z) (s : pad_regs) (m : Z → Z) (c : Z) (ovf : bool) : Prop :=
  m = (fun a => if a =? pad_counter s then cat databits data else pad_mem s a)
  ∧ c = (pad_counter s + 1) mod depth
  ∧ ovf = (overflow s || (pad_counter s =? depth - 1)).

Lemma idle_run idle s :
  settled s → Forall (fun i => valid_in i = false ∧ pad_reset i = false) idle →
  let s' := run idle s in
  settled s' ∧ pad_mem s' = pad_mem s ∧ pad_counter s' = pad_counter s ∧ overflow s' = overflow s.
Proof.
  intros Hs Hidle. cbv zeta. revert s Hs.
  induction Hidle as [|i idle [Hv Hr] _ IH]; intros s Hs; [done|].
  unfold Scratchpad_run. cbn [foldl]. fold (run idle (cycle i s)).
  destruct Hs as [Hwe Hc].
  assert (cycle i s = PadRegs (pad_counter s) (overflow s) (pad_counter s) (cat databits (rddata i))
    false (pad_mem s)) as E.
  { unfold Scratchpad_cycle. rewrite Hr, Hwe. unfold valid_in in Hv. by rewrite Hv. }
  destruct (IH (cycle i s)) as (Hs' & Hm' & Hc' & Ho').
  { rewrite E. by split. }
  rewrite E in *. done.
Qed.

Lemma next_counter c :
  0 ≤ c < depth →
  (if c =? depth - 1 then 0 else trunc (pad_bits depth) (c + 1)) = (c + 1) mod depth.
Proof using Hdepth Hbits.
  intros Hc. destruct (Z.eqb_spec c (depth - 1)) as [->|Hne].
  - rewrite Z.sub_add. symmetry. apply Z.mod_same. lia.
  - rewrite trunc_small, Z.mod_small by lia. done.
Qed.

(** One read is stored at the counter, which advances. *)
Lemma read_burst_run data ins s :
  settled s → read_burst data ins →
  let s' := run ins s in
  settled s' ∧ store data s (pad_mem s') (pad_counter s') (overflow s').
Proof using Hdepth Hbits.
  intros [Hwe Hc] (i & idle & -> & Hv & Hd & Hr & Hne & Hidle). cbv zeta.
  destruct idle as [|j idle]; [done|]. apply Forall_cons_1 in Hidle as [[Hvj Hrj] Hidle].
  unfold Scratchpad_run. cbn [foldl]. fold (run idle (cycle j (cycle i s))).
  assert (cycle i s = PadRegs (pad_counter s) (overflow s) (pad_counter s) (cat databits data)
    true (pad_mem s)) as E1.
  { unfold Scratchpad_cycle. rewrite Hr, Hwe, Hd. unfold valid_in in Hv. by rewrite Hv. }
  set (s2 := cycle j (cycle i s)).
  assert (s2 = PadRegs ((pad_counter s + 1) mod depth) (overflow s || (pad_counter s =? depth - 1))
    (pad_counter s) (cat databits (rddata j)) false
    (fun a => if a =? pad_counter s then cat databits data else pad_mem s a)) as E2.
  { unfold s2. rewrite E1. unfold Scratchpad_cycle. cbn [wr_we pad_counter wr_adr wr_dat_w pad_mem overflow].
    rewrite Hrj. unfold valid_in in Hvj. rewrite Hvj, <- next_counter by done.
    destruct (pad_counter s =? depth - 1); by rewrite ?orb_true_r, ?orb_false_r. }
  destruct (idle_run idle s2) as (Hs' & -> & -> & ->).
  { rewrite E2. split; [done|]. apply Z.mod_pos_bound. lia. }
  { done. }
  split; [done|]. rewrite E2. by split.
Qed.

(** A sequence of reads. *)
Inductive bursts : list (list Z) → list pad_in → Prop :=
  | bursts_nil : bursts [] []
  | bursts_cons data datas ins inss :
      read_burst data ins → bursts datas inss → bursts (data :: datas) (ins ++ inss).

Lemma run_app ins1 ins2 s : run (ins1 ++ ins2) s = run ins2 (run ins1 s).
Proof. apply foldl_app. Qed.

(** What is stored after the reads [datas]: the last [depth] of them, each at its number
    modulo the depth. *)
Record holds_reads (datas : list (list Z)) (s : pad_regs) : Prop := {
  hr_settled : settled s;
  hr_counter : pad_counter s = length datas mod depth;
  hr_overflow : overflow s = (depth <=? length datas);
  hr_mem : ∀ (i : nat) data, datas !! i = Some data → length datas ≤ i + depth → pad_mem s (i mod depth) = cat databits data;
}.

Lemma mod_differ (i n : Z) : 0 < n - i < depth → i mod depth ≠ n mod depth.
Proof using Hdepth.
  intros Hd E. assert ((n - i) mod depth = 0) as H0 by (rewrite Zminus_mod, E, Z.sub_diag; apply Z.mod_0_l; lia).
  rewrite Z.mod_small in H0 by lia. lia.
Qed.

Lemma mod_last n : 0 ≤ n → (n mod depth =? depth - 1) || (depth <=? n) = (depth <=? n + 1).
Proof using Hdepth.
  intros Hn. destruct (Z.leb_spec depth n), (Z.leb_spec depth (n + 1)); rewrite ?orb_true_r, ?orb_false_r; try done; try lia.
  - apply Z.eqb_eq. rewrite Z.mod_small; lia.
  - apply Z.eqb_neq. rewrite Z.mod_small; lia.
Qed.

Lemma holds_reads_step datas data ins s :
  holds_reads datas s → read_burst data ins → holds_reads (datas ++ [data]) (run ins s).
Proof using Hdepth Hbits.
  intros [Hs Hc Ho Hm] Hb. destruct (read_burst_run data ins s Hs Hb) as (Hs' & Hm' & Hc' & Ho').
  set (n := Z.of_nat (length datas)) in *.
  assert (Z.of_nat (length (datas ++ [data])) = n + 1) as Hlen by (rewrite length_app; cbn; lia).
  split; rewrite ?Hlen; [done|by rewrite Hc', Hc, Zplus_mod_idemp_l| |].
  - rewrite Ho', Ho, Hc, orb_comm. apply mod_last. lia.
  - intros i d Hi Hle. rewrite Hm', Hc. apply lookup_app_Some in Hi as [Hi|[Hge Hi]].
    + pose proof (lookup_lt_Some _ _ _ Hi). rewrite (proj2 (Z.eqb_neq _ _)) by (apply mod_differ; lia). apply Hm; [done|lia].
    + apply list_lookup_singleton_Some in Hi as [Hi ->]. by rewrite (proj2 (Z.eqb_eq _ _)) by (f_equal; lia).
Qed.

Lemma bursts_run datas ins : ∀ pre s, bursts datas ins → holds_reads pre s → holds_reads (pre ++ datas) (run ins s).
Proof using Hdepth Hbits.
  intros pre s Hb. revert pre s. induction Hb as [|data datas ins inss Hd _ IH]; intros pre s Hs.
  - by rewrite app_nil_r.
  - rewrite run_app. change (data :: datas) with ([data] ++ datas). rewrite app_assoc. apply IH. by apply holds_reads_step.
Qed.
End scratchpad.

(** C28: The scratchpad keeps the data of a payload's reads, when there is at least one
    cycle without read data between two reads.  Starting from the reset that precedes
    every execution, for any number of reads, read number [i] is stored at address
    [i mod depth], so that the last [depth] reads are there; the counter is the number
    of reads modulo the depth, and the overflow flag is raised exactly when there were
    at least [depth] of them.  (The counter must be able to reach the last address, which
    it is not when the depth is one more than a power of two.) *)
Theorem scratchpad_stores depth databits mem datas ins :
  1 < depth → depth - 1 < 2 ^ pad_bits depth → bursts datas ins →
  let s := Scratchpad_run depth databits ins (pad_init mem) in
  (∀ (i : nat) data, datas !! i = Some data → length datas ≤ i + depth → pad_mem s (i mod depth) = cat databits data)
  ∧ pad_counter s = length datas mod depth
  ∧ overflow s = (depth <=? length datas).
Proof.
  intros Hd Hb Hins s.
  destruct (bursts_run depth databits Hd Hb datas ins [] (pad_init mem) Hins) as [_ Hc Ho Hm]; [|done].
  split; [split; [done | cbn; lia]| | |done].
  - cbn. by rewrite Z.mod_0_l by lia.
  - cbn. symmetry. apply Z.leb_gt. lia.
Qed.

Definition demo_burst (d : Z) : list pad_in :=
  [PadIn false [d; 0] [false; true]; PadIn false [0; 0] [false; false]].

Lemma demo_burst_ok d : read_burst [d; 0] (demo_burst d).
Proof. do 2 eexists. split_and!; try done. by repeat constructor. Qed.

(** Three reads into two entries: the third one replaces the first. *)
Lemma scratchpad_stores_witness :
  let s := Scratchpad_run 2 8 (demo_burst 17 ++ demo_burst 34 ++ demo_burst 51 ++ []) (pad_init (fun _ => 0)) in
  pad_mem s 0 = 51 ∧ pad_mem s 1 = 34 ∧ pad_counter s = 1 ∧ overflow s = true.
Proof.
  destruct (scratchpad_stores 2 8 (fun _ => 0) [[17; 0]; [34; 0]; [51; 0]] (demo_burst 17 ++ demo_burst 34 ++ demo_burst 51 ++ []))
    as (Hm & Hc & Ho).
  - lia.
  - reflexivity.
  - repeat (constructor; [apply demo_burst_ok|]). constructor.
  - split; [exact (Hm 2%nat [51; 0] eq_refl ltac:(cbn; lia))|]. split; [exact (Hm 1%nat [34; 0] eq_refl ltac:(cbn; lia))|]. split; [exact Hc | exact Ho].
Defined.

(** Reads in consecutive cycles are written to the same address: the second
    one overwrites the first. *)
Example scratchpad_back_to_back :
  let v d := PadIn false [d] [true] in
  let s := Scratchpad_run 4 8 [v 17; v 34; PadIn false [0] [false]; PadIn false [0] [false]]
             (pad_init (fun _ => 0)) in
  (pad_mem s 0, pad_mem s 1, pad_counter s) = (34, 0, 2).
Proof. reflexivity. Qed.

(** C29: The refresh at which the DFI changes hands is the one asked for.  When
    a non-zero refresh number is set, the executor is given the DFI only in
    the cycle of that refresh (the counter then equals the number), and the
    [refresh_count] register reads it from the second cycle after. *)
Theorem switch_at_refresh ddr5 i1 i2 i3 s n :
  0 ≤ refresh_counter s → 0 < n < 2 ^ counter_width → at_refresh i2 = n →
  sw_fsm s = MEMORY_CONTROLLER → sw_fsm (DFISwitch_run true ddr5 [i1] s).2 = MEMORY_CONTROLLER →
  sw_fsm (DFISwitch_run true ddr5 [i1; i2] s).2 = PAYLOAD_EXECUTION →
  sw_wants i2 = true ∧ ref_detected ddr5 (master0 i2) = true
  ∧ refresh_counter (DFISwitch_run true ddr5 [i1; i2] s).2 = n
  ∧ refresh_count (DFISwitch_run true ddr5 [i1; i2; i3] s).2 = n.
Proof.
  rewrite !switch_run_cons. cbn [DFISwitch_run snd]. intros H0 Hn Hat Hf Hf1 Hf2.
  destruct (grant_inv true ddr5 i2 _ Hf1 Hf2) as [Hw Hg]. destruct (Hg eq_refl) as [Hr _].
  destruct (refresh_count_latched true ddr5 i1 i2 i3 s n) as [Hc Hl]; done.
Qed.

Definition idle_phase : dfi_phase := DfiPhase 1 1 1 1 true true true 0 0 false.
Definition ref_phase : dfi_phase := DfiPhase 1 1 1 0 false false true 0 0 false.

Lemma switch_at_refresh_witness :
  let i p := SwitchIn true p 1 false in
  refresh_count (DFISwitch_run true false [i idle_phase; i ref_phase; i idle_phase] switch_reset).2 = 1.
Proof.
  intros i. apply (switch_at_refresh false (i idle_phase) (i ref_phase) (i idle_phase) switch_reset 1);
    vm_compute; intuition congruence.
Defined.

(** The refresh counter counts every refresh on the bus, modulo its width. *)
Theorem refresh_counter_total with_refresh ddr5 ins s :
  0 ≤ refresh_counter s < 2 ^ counter_width →
  refresh_counter (DFISwitch_run with_refresh ddr5 ins s).2 =
    trunc counter_width (refresh_counter s + countb (fun i => ref_detected ddr5 (master0 i)) ins).
Proof. apply refresh_counter_run. Qed.

Lemma refresh_counter_total_witness :
  let i p := SwitchIn false p 0 false in
  refresh_counter (DFISwitch_run true false [i ref_phase; i idle_phase; i ref_phase] switch_reset).2 = 2.
Proof.
  intros i. rewrite (refresh_counter_total true false [i ref_phase; i idle_phase; i ref_phase] switch_reset).
  - reflexivity.
  - vm_compute. intuition congruence.
Defined.
