(* ===== verification/System.v ===== *)
(** * Executor, switch and DFI together

    The payload executor subsystem as [src/rowhammer_tester/targets/common.py]
    wires it: the [PayloadExecutor] requests the DFI from the [DFISwitch],
    drives the external DFI phases through the [DFIExecutor], and the switch
    watches the refreshes on the DFII master.  The memory controller's commands
    are an input.  The DFII multiplexer belongs to LiteDRAM and is a parameter. *)

From S2P Require Import Prelude Isa Executor ExecutorSpec Generator GeneratorFacts Payloads Hammer.
From S2P Require Import Dfi DfiFacts.
Import Decoder.

(** The DFII injector routes the external DFI to the master when it is selected
    and the memory controller's otherwise. *)
Class Dfii := {
  dfii_master : bool → dfi_phase → dfi_phase → dfi_phase;
  dfii_external : ∀ ext mc, dfii_master true ext mc = ext;
  dfii_controller : ∀ ext mc, dfii_master false ext mc = mc;
}.

#[global, refine] Instance dfii_mux : Dfii :=
  {| dfii_master := fun sel ext mc => if sel then ext else mc |}.
Proof. all: done. Defined.

Record sys_regs := SysRegs {
  s_pe : pe_regs;
  s_phase0 : dfi_phase;       (* phase 0 of the external DFI *)
  s_phases : list dfi_phase;  (* the other phases *)
  s_sw : switch_regs;
}.

Record sys_in := SysIn { i_start : bool; i_mc0 : dfi_phase; i_at : Z; i_update : bool }.
Record sys_out := SysOut { o_pe : pe_out; o_sw : switch_out; o_master0 : dfi_phase }.

Section system.
Context {M : Migen} {D : Dfii} (cfg : pe_cfg) (mem : Z → Z) (with_refresh ddr5 : bool).

Definition sys_cycle (i : sys_in) (s : sys_regs) : sys_out * sys_regs :=
  let sel := bool_decide (sw_fsm (s_sw s) = PAYLOAD_EXECUTION) in
  let m0 := dfii_master sel (s_phase0 s) (i_mc0 i) in
  let '(so, sw') := DFISwitch_cycle with_refresh ddr5
    (SwitchIn (wants_dfi (s_pe s)) m0 (i_at i) (i_update i)) (s_sw s) in
  let '(po, pe') := pe_cycle cfg mem (PeIn (i_start i) (sw_ready so)) (s_pe s) in
  (SysOut po so m0,
   match DFIExecutor_cycle cfg po (s_phase0 s :: s_phases s) with
   | p0 :: ps => SysRegs pe' p0 ps sw'
   | [] => SysRegs pe' (s_phase0 s) [] sw'
   end).

Fixpoint sys_run (ins : list sys_in) (s : sys_regs) : list sys_out * sys_regs :=
  match ins with
  | [] => ([], s)
  | i :: ins' =>
      let '(o, s1) := sys_cycle i s in
      let '(os, s2) := sys_run ins' s1 in
      (o :: os, s2)
  end.

(** States reachable from reset, whatever the DFI registers were. *)
Inductive sys_reach : sys_regs → Prop :=
  | reach_init p0 ps : sys_reach (SysRegs pe_reset p0 ps switch_reset)
  | reach_step s i : sys_reach s → sys_reach (sys_cycle i s).2.

(** The components of a cycle. *)
Lemma switch_ready i s :
  let o := (DFISwitch_cycle with_refresh ddr5 i s).1 in
  sw_ready o = bool_decide (sw_fsm s = PAYLOAD_EXECUTION)
  ∧ ext_dfi_sel o = bool_decide (sw_fsm s = PAYLOAD_EXECUTION).
Proof.
  unfold DFISwitch_cycle, DFISwitch_fsm. destruct (add_csrs i s), (sw_fsm s); [done|].
  by destruct (negb (sw_wants i)).
Qed.

Definition granted (s : sys_regs) : bool := bool_decide (sw_fsm (s_sw s) = PAYLOAD_EXECUTION).
Definition switch_inputs (i : sys_in) (s : sys_regs) : switch_in :=
  SwitchIn (wants_dfi (s_pe s)) (dfii_master (granted s) (s_phase0 s) (i_mc0 i)) (i_at i) (i_update i).

Lemma sys_cycle_split i s :
  let pe := pe_cycle cfg mem (PeIn (i_start i) (granted s)) (s_pe s) in
  let sw := DFISwitch_cycle with_refresh ddr5 (switch_inputs i s) (s_sw s) in
  s_pe (sys_cycle i s).2 = pe.2 ∧ o_pe (sys_cycle i s).1 = pe.1
  ∧ s_phase0 (sys_cycle i s).2 = phase_next cfg pe.1 0 (s_phase0 s)
  ∧ s_sw (sys_cycle i s).2 = sw.2 ∧ ext_dfi_sel (o_sw (sys_cycle i s).1) = granted s.
Proof.
  cbv zeta. destruct (switch_ready (switch_inputs i s) (s_sw s)) as [Hr He].
  unfold sys_cycle. fold (granted s). fold (switch_inputs i s).
  destruct (DFISwitch_cycle _ _ (switch_inputs i s) (s_sw s)) as [so sw'].
  cbn [fst] in *. rewrite Hr. fold (granted s) in *.
  by destruct (pe_cycle cfg mem _ (s_pe s)) as [po pe'].
Qed.

(** *** The DFI is driven by the executor while it executes *)

(** The last word of the memory does not wait. *)
Definition last_word_ok : Prop :=
  let d := pe_decode cfg (mem (depth cfg - 1)) in is_loop d = true ∨ timeslice d = 0 ∨ timeslice d = 1.

Definition sys_inv (s : sys_regs) : Prop :=
  wants_dfi (s_pe s) = negb (bool_decide (fsm (s_pe s) = READY))
  ∧ (fsm (s_pe s) = RUN ∨ fsm (s_pe s) = IDLE → sw_fsm (s_sw s) = PAYLOAD_EXECUTION)
  ∧ (fsm (s_pe s) = RUN → port_adr (s_pe s) = program_counter (s_pe s)).

Lemma switch_keeps i s :
  wants_dfi (s_pe s) = true → sw_fsm (s_sw s) = PAYLOAD_EXECUTION →
  sw_fsm (s_sw (sys_cycle i s).2) = PAYLOAD_EXECUTION.
Proof.
  intros Hw Hf. destruct (sys_cycle_split i s) as (_ & _ & _ & -> & _).
  unfold DFISwitch_cycle, DFISwitch_fsm. rewrite Hf. cbn [switch_inputs sw_wants]. rewrite Hw.
  by destruct (add_csrs _ _).
Qed.

(** How the RUN state is left. *)
Lemma act_RUN_next d s :
  fsm s = RUN → (stop d = true → timeslice d = 0) →
  (program_counter s = depth cfg - 1 → is_loop d = true ∨ timeslice d = 0 ∨ timeslice d = 1) →
  let '(_, fetch_address, s') := act_RUN cfg d s in
  (fsm s' = READY ∧ wants_dfi s' = false)
  ∨ (fsm s' = RUN ∧ wants_dfi s' = wants_dfi s ∧ program_counter s' = fetch_address)
  ∨ (fsm s' = IDLE ∧ wants_dfi s' = wants_dfi s).
Proof.
  intros Hf Hst Hlast. unfold act_RUN, is_loop in *.
  destruct (Z.eqb_spec (program_counter s) (depth cfg - 1)) as [Hpc|Hpc], (stop d) eqn:Hstop;
    cbn [orb];
    (destruct (op_code d =? op_value LOOP); [destruct (negb _); simpl; auto|]);
    destruct ((timeslice d =? 0) || (timeslice d =? 1)) eqn:Ht; simpl; auto;
    exfalso; apply orb_false_iff in Ht as [H0%Z.eqb_neq H1%Z.eqb_neq];
    try (specialize (Hlast Hpc) as [?|[?|?]]; done); by apply H0, Hst.
Qed.

Lemma decode_stop w : stop (pe_decode cfg w) = true → timeslice (pe_decode cfg w) = 0.
Proof. unfold pe_decode, decode. cbn [stop timeslice]. by intros [_ ?%Z.eqb_eq]%andb_true_iff. Qed.

Lemma sys_inv_step i s : last_word_ok → sys_inv s → sys_inv (sys_cycle i s).2.
Proof.
  intros Hlast (Hw & Hsw & Hadr). pose proof (switch_keeps i s) as Hkeep.
  destruct (sys_cycle_split i s) as (Hpe & _ & _ & _ & _). unfold sys_inv. rewrite Hpe.
  unfold pe_cycle. destruct (fsm (s_pe s)) eqn:Hf.
  - unfold act_READY. destruct (i_start i); simpl; rewrite ?Hf; split_and!; try done; by intros [|].
  - unfold act_WAIT_DFI. destruct (granted s) eqn:Hg; simpl; rewrite ?Hf; simpl; split_and!; try done.
    + intros _. apply Hkeep; [done|]. by apply bool_decide_eq_true in Hg.
    + by intros [|].
  - specialize (Hkeep Hw (Hsw (or_introl eq_refl))). specialize (Hadr eq_refl). rewrite Hadr.
    pose proof (act_RUN_next (pe_decode cfg (mem (program_counter (s_pe s)))) (s_pe s) Hf
      (decode_stop _)) as Hnext.
    destruct (act_RUN _ _ _) as [[o fa] s']. simpl.
    destruct Hnext as [(-> & ->)|[(-> & -> & ->)|(-> & ->)]]; simpl.
    { intros Hpc. rewrite Hpc. exact Hlast. }
    all: rewrite ?Hw; split_and!; try done; by intros [|].
  - specialize (Hkeep Hw (Hsw (or_intror eq_refl))). unfold act_IDLE.
    destruct (_ =? 0); simpl; rewrite ?Hf, ?Hw; simpl; split_and!; try done.
Qed.

Lemma sys_inv_reach s : last_word_ok → sys_reach s → sys_inv s.
Proof.
  intros Hlast. induction 1 as [p0 ps|s i _ IH]; [|by apply sys_inv_step].
  split_and!; [done|by intros [|]|done].
Qed.

Lemma executing_granted i s :
  sys_inv s → executing (o_pe (sys_cycle i s).1) = true → granted s = true.
Proof.
  intros (_ & Hsw & _). destruct (sys_cycle_split i s) as (_ & -> & _). unfold pe_cycle, granted.
  destruct (fsm (s_pe s)); [done..| |]; intros _; apply bool_decide_eq_true, Hsw; auto.
Qed.

(** *** Runs *)

(** The inputs that the payload executor sees during a run. *)
Fixpoint pe_inputs (ins : list sys_in) (s : sys_regs) : list pe_in :=
  match ins with
  | [] => []
  | i :: ins' => PeIn (i_start i) (granted s) :: pe_inputs ins' (sys_cycle i s).2
  end.

Lemma sys_run_cons i ins s :
  sys_run (i :: ins) s =
    ((sys_cycle i s).1 :: (sys_run ins (sys_cycle i s).2).1, (sys_run ins (sys_cycle i s).2).2).
Proof.
  cbn [sys_run]. destruct (sys_cycle i s) as [o s1]. cbn [fst snd]. by destruct (sys_run ins s1).
Qed.

Lemma sys_run_pe ins s :
  o_pe <$> (sys_run ins s).1 = (pe_run cfg mem (pe_inputs ins s) (s_pe s)).1
  ∧ s_pe (sys_run ins s).2 = (pe_run cfg mem (pe_inputs ins s) (s_pe s)).2.
Proof.
  revert s; induction ins as [|i ins IH]; intros s; [done|].
  rewrite sys_run_cons. cbn [pe_inputs]. rewrite pe_run_cons. cbn [fst snd].
  destruct (sys_cycle_split i s) as (Hpe & Ho & _). destruct (IH (sys_cycle i s).2) as [IH1 IH2].
  rewrite Hpe in IH1, IH2. rewrite fmap_cons, Ho, IH1, IH2. done.
Qed.

(** Activation of a row on a DFI phase. *)
Definition dfi_act (rank bank row : Z) (p : dfi_phase) : bool :=
  negb (Z.testbit (cs_n p) rank) && negb (ras_n p) && cas_n p && we_n p
  && (ph_bank p =? bank) && (ph_address p =? row).

Context (Hranks : 0 ≤ rankbits cfg) (Hnranks : nranks cfg = 2 ^ rankbits cfg).

Lemma strobes_act w :
  let d := pe_decode cfg w in
  ras d && negb (cas d) && negb (we d) = (op_code d =? op_value ACT).
Proof.
  cbv zeta. pose proof (decode_op_bound cfg w) as Hb.
  unfold pe_decode, decode in *. cbn [cas ras we op_code] in *.
  generalize dependent (slice w 0 OP_CODE). intros op Hb.
  assert (op = 0 ∨ op = 1 ∨ op = 2 ∨ op = 3 ∨ op = 4 ∨ op = 5 ∨ op = 6 ∨ op = 7) as Hop by lia.
  by repeat destruct Hop as [->|Hop]; [..|rewrite Hop].
Qed.

(** Instructions are issued on phase 0, but for reads. *)
Lemma pe_cycle_phase i s :
  let o := (pe_cycle cfg mem i s).1 in
  (∃ w, instr o = pe_decode cfg w) ∧ (ras (instr o) = true → phase o = 0).
Proof.
  cbv zeta. unfold pe_cycle. destruct (fsm s).
  - split; [by eexists | done].
  - split; [by eexists | done].
  - unfold act_RUN.
    destruct (op_code _ =? op_value LOOP); [destruct (negb (loop_counter s =? _))|
      destruct ((timeslice _ =? 0) || _)]; cbn [fst instr phase];
      (split; [by eexists|]); try done; intros ->; by rewrite andb_false_r.
  - unfold act_IDLE. destruct (idle_counter s =? 0); (split; [by eexists | done]).
Qed.

Lemma dfi_act_phase i s rank bank row p :
  0 ≤ rank < nranks cfg →
  let o := (pe_cycle cfg mem i s).1 in
  dfi_act rank bank row (phase_next cfg o 0 p) = act_on rank bank row (issued o).
Proof using Hranks Hnranks.
  intros Hr o. destruct (pe_cycle_phase i s) as [[w Hw] Hph]. fold o in Hw, Hph.
  assert (dfi_rank (instr o) = slice (address (instr o)) 0 (rankbits cfg)) as Hdr by (by rewrite Hw).
  pose proof (slice_bound (address (instr o)) 0 (rankbits cfg) Hranks) as Hdb. rewrite <- Hdr in Hdb.
  unfold dfi_act. rewrite (rank_selected cfg ltac:(lia) o 0 p w rank Hw) by
    first [done | lia | intros E%Z.eqb_eq; by rewrite Hnranks, E].
  pose proof (strobes_act w) as Hs. cbv zeta in Hs. rewrite <- Hw in Hs. unfold act_on, issued.
  destruct (exec o) eqn:He; [|by rewrite andb_false_r].
  unfold phase_next. rewrite He, !andb_true_r. change (Z.of_nat 0) with 0.
  destruct (Z.eqb_spec (phase o) 0) as [Hp|Hp].
  - cbn [ras_n cas_n we_n ph_bank ph_address andb]. rewrite negb_involutive.
    destruct (op_code (instr o) =? op_value ACT) eqn:Hact.
    + apply Z.eqb_eq in Hact. rewrite Hact. cbn [op_value Z.eqb negb orb andb].
      destruct (ras _), (cas _), (we _); try done. cbn [negb]. rewrite !andb_true_r. f_equal. f_equal.
      destruct (Z.eqb_spec (rankbits cfg) 0) as [E|]; [|done].
      rewrite Hnranks, E in *. simpl. symmetry. apply Z.eqb_eq. lia.
    + destruct (ras _), (cas _), (we _); try done; by rewrite ?andb_false_r.
  - cbn [andb]. destruct (op_code (instr o) =? op_value ACT) eqn:Hact; [|done].
    exfalso. apply Hp, Hph. by destruct (ras (instr o)).
Qed.

(** A command issued in a cycle is on the bus in the next one, while the
    executor still holds the DFI. *)
Definition on_bus (rank bank row : Z) (o : sys_out) : bool :=
  ext_dfi_sel (o_sw o) && dfi_act rank bank row (o_master0 o).
Definition pending (rank bank row : Z) (s : sys_regs) : nat :=
  if granted s && dfi_act rank bank row (s_phase0 s) then 1 else 0.

Lemma on_bus_cycle rank bank row i s :
  (if on_bus rank bank row (sys_cycle i s).1 then 1%nat else 0%nat) = pending rank bank row s.
Proof.
  unfold on_bus, pending. destruct (sys_cycle_split i s) as (_ & _ & _ & _ & ->).
  assert (o_master0 (sys_cycle i s).1 = dfii_master (granted s) (s_phase0 s) (i_mc0 i)) as ->.
  { unfold sys_cycle. destruct (DFISwitch_cycle _ _ _ _), (pe_cycle _ _ _ _). done. }
  destruct (granted s); [by rewrite dfii_external | done].
Qed.

Lemma exec_executing i s :
  exec (pe_cycle cfg mem i s).1 = true → executing (pe_cycle cfg mem i s).1 = true.
Proof.
  unfold pe_cycle. destruct (fsm s); [done..| |].
  - unfold act_RUN. destruct (op_code _ =? op_value LOOP); [by destruct (negb _)|].
    by destruct ((timeslice _ =? 0) || _).
  - unfold act_IDLE. by destruct (idle_counter s =? 0).
Qed.

Lemma pending_cycle rank bank row i s :
  0 ≤ rank < nranks cfg → sys_inv s →
  pending rank bank row (sys_cycle i s).2
  = if act_on rank bank row (issued (o_pe (sys_cycle i s).1)) then 1%nat else 0%nat.
Proof using Hranks Hnranks.
  intros Hr Hinv. destruct (sys_cycle_split i s) as (_ & Ho & Hp & _).
  unfold pending. rewrite Hp, Ho. rewrite dfi_act_phase by done. rewrite <- Ho.
  destruct (act_on rank bank row _) eqn:Ha; [|by rewrite andb_false_r]. rewrite andb_true_r.
  assert (executing (o_pe (sys_cycle i s).1) = true) as Hx.
  { rewrite Ho in *. apply exec_executing. unfold issued in Ha.
    by destruct (exec (pe_cycle cfg mem _ (s_pe s)).1). }
  pose proof (executing_granted i s Hinv Hx) as Hg%bool_decide_eq_true.
  unfold granted. rewrite bool_decide_true; [done|]. apply switch_keeps; [|done].
  destruct Hinv as (Hw & _). rewrite Hw. rewrite Ho in Hx. unfold pe_cycle in Hx.
  by destruct (fsm (s_pe s)).
Qed.

Lemma on_bus_run rank bank row ins : ∀ s,
  last_word_ok → 0 ≤ rank < nranks cfg → sys_inv s →
  (countb (on_bus rank bank row) (sys_run ins s).1 + pending rank bank row (sys_run ins s).2
  = countb (act_on rank bank row) (issued <$> (o_pe <$> (sys_run ins s).1)) + pending rank bank row s)%nat.
Proof using Hranks Hnranks.
  induction ins as [|i ins IH]; intros s Hlast Hr Hinv; [done|].
  rewrite sys_run_cons. cbn [fst snd]. rewrite !fmap_cons. cbn [countb]. rewrite on_bus_cycle.
  specialize (IH _ Hlast Hr (sys_inv_step i s Hlast Hinv)).
  rewrite pending_cycle in IH by done. lia.
Qed.

(** At the end only the last command can still be pending. *)
Lemma pending_last rank bank row ins : ∀ s c,
  last_word_ok → 0 ≤ rank < nranks cfg → sys_inv s →
  last (issued <$> (o_pe <$> (sys_run ins s).1)) = Some c →
  pending rank bank row (sys_run ins s).2 = if act_on rank bank row c then 1%nat else 0%nat.
Proof using Hranks Hnranks.
  induction ins as [|i ins IH]; intros s c Hlast Hr Hinv; [done|].
  rewrite sys_run_cons. cbn [fst snd]. rewrite !fmap_cons, last_cons.
  destruct (last (issued <$> (o_pe <$> (sys_run ins (sys_cycle i s).2).1))) as [c'|] eqn:El.
  - intros [= ->]. apply IH; [done|done| |done]. by apply sys_inv_step.
  - intros [= <-]. rewrite <- pending_cycle by done. apply last_None in El.
    destruct ins as [|i' ins]; [done|]. by rewrite sys_run_cons in El.
Qed.

(** *** One execution: start request, refresh that hands over the DFI, run *)

(** The cycles in which the controller issues no refresh leave the DFI with it. *)
Lemma wait_inputs wait s :
  with_refresh = true → fsm (s_pe s) = WAIT_DFI → sw_fsm (s_sw s) = MEMORY_CONTROLLER →
  Forall (fun i => ref_detected ddr5 (i_mc0 i) = false) wait →
  pe_inputs wait s = (fun i => PeIn (i_start i) false) <$> wait
  ∧ fsm (s_pe (sys_run wait s).2) = WAIT_DFI
  ∧ sw_fsm (s_sw (sys_run wait s).2) = MEMORY_CONTROLLER
  ∧ wants_dfi (s_pe (sys_run wait s).2) = wants_dfi (s_pe s).
Proof.
  intros Hwr Hf Hsw Hwait. revert s Hf Hsw.
  induction Hwait as [|i wait Hi _ IH]; intros s Hf Hsw; [done|].
  destruct (sys_cycle_split i s) as (Hpe & _ & _ & Hs & _).
  assert (granted s = false) as Hg by (unfold granted; by rewrite Hsw).
  destruct (IH (sys_cycle i s).2) as (IH1 & IH2 & IH3 & IH4).
  - rewrite Hpe. unfold pe_cycle. rewrite Hf, Hg. done.
  - rewrite Hs. unfold DFISwitch_cycle, DFISwitch_fsm. rewrite Hsw. destruct (add_csrs _ _).
    unfold switch_inputs. rewrite Hg. cbn [sw_wants master0]. rewrite dfii_controller, Hi.
    by destruct (wants_dfi _), with_refresh.
  - rewrite sys_run_cons. cbn [pe_inputs snd]. rewrite fmap_cons, IH1, Hg. split_and!; try done.
    rewrite IH4, Hpe. unfold pe_cycle. rewrite Hf, Hg. done.
Qed.

Lemma pe_inputs_app ins1 ins2 s :
  pe_inputs (ins1 ++ ins2) s = pe_inputs ins1 s ++ pe_inputs ins2 (sys_run ins1 s).2.
Proof.
  revert s; induction ins1 as [|i ins1 IH]; intros s; [done|].
  rewrite sys_run_cons. cbn [app pe_inputs snd]. by rewrite IH.
Qed.

Lemma length_pe_inputs ins s : length (pe_inputs ins s) = length ins.
Proof. revert s; induction ins as [|i ins IH]; intros s; [done|]. cbn. by rewrite IH. Qed.

Definition sys_execution (wait body ins : list sys_in) : Prop :=
  ∃ i0 i1 i2, ins = i0 :: wait ++ i1 :: i2 :: body ∧ i_start i0 = true
    ∧ Forall (fun i => ref_detected ddr5 (i_mc0 i) = false) wait
    ∧ ref_detected ddr5 (i_mc0 i1) = true ∧ i_at i1 = 0.

Lemma sys_execution_inputs wait body ins s :
  with_refresh = true → fsm (s_pe s) = READY → wants_dfi (s_pe s) = false →
  sw_fsm (s_sw s) = MEMORY_CONTROLLER → sys_execution wait body ins →
  ∃ wait' body', execution_inputs wait' body' (pe_inputs ins s)
    ∧ length wait' = S (length wait) ∧ length body' = length body.
Proof.
  intros Hwr Hf Hw Hsw (i0 & i1 & i2 & -> & Hst & Hwait & Hr & Hat).
  assert (granted s = false) as Hg by (unfold granted; by rewrite Hsw).
  destruct (sys_cycle_split i0 s) as (Hpe & _ & _ & Hs & _).
  set (s1 := (sys_cycle i0 s).2) in *.
  assert (fsm (s_pe s1) = WAIT_DFI ∧ wants_dfi (s_pe s1) = true) as [Hf1 Hw1].
  { rewrite Hpe. unfold pe_cycle. rewrite Hf. unfold act_READY. cbn [start]. by rewrite Hst. }
  assert (sw_fsm (s_sw s1) = MEMORY_CONTROLLER) as Hsw1.
  { rewrite Hs. unfold DFISwitch_cycle, DFISwitch_fsm. rewrite Hsw. destruct (add_csrs _ _).
    cbn [switch_inputs sw_wants]. by rewrite Hw. }
  destruct (wait_inputs wait s1 Hwr Hf1 Hsw1 Hwait) as (Hin & Hf2 & Hsw2 & Hw2).
  set (s2 := (sys_run wait s1).2) in *. rewrite Hw1 in Hw2.
  assert (granted s2 = false) as Hg2 by (unfold granted; by rewrite Hsw2).
  destruct (sys_cycle_split i1 s2) as (_ & _ & _ & Hs2 & _).
  assert (granted (sys_cycle i1 s2).2 = true) as Hg3.
  { apply bool_decide_eq_true. rewrite Hs2. unfold DFISwitch_cycle, DFISwitch_fsm. rewrite Hsw2.
    destruct (add_csrs _ _). unfold switch_inputs, refresh_matches. rewrite Hg2.
    cbn [sw_wants master0 at_refresh]. rewrite dfii_controller, Hr, Hw2, Hat. by rewrite Hwr. }
  exists (((fun i => PeIn (i_start i) false) <$> wait) ++ [PeIn (i_start i1) false]),
    (pe_inputs body (sys_cycle i2 (sys_cycle i1 s2).2).2).
  split_and!.
  - exists false, (i_start i2). cbn [pe_inputs]. fold s1. rewrite pe_inputs_app. cbn [pe_inputs].
    fold s2. rewrite Hin, Hg, Hg2, Hg3, Hst, <- app_assoc. split; [done|].
    apply Forall_app. split; [by apply Forall_fmap, Forall_true | by apply Forall_singleton].
  - rewrite length_app, length_fmap. simpl. lia.
  - apply length_pe_inputs.
Qed.
End system.

(** C6: While a payload runs the executor owns the DFI.  In every state that the
    composed subsystem can reach from reset, for any host and controller
    inputs, a cycle in which the executor executes is a cycle in which the
    external DFI is selected, so that no command of a payload is lost and the
    controller does not interfere.  The last word of the payload memory must
    not wait, see [runaway_at_last_word]. *)
Theorem dfi_exclusive {M : Migen} {D : Dfii} cfg mem with_refresh ddr5 s i :
  last_word_ok cfg mem → sys_reach cfg mem with_refresh ddr5 s →
  executing (o_pe (sys_cycle cfg mem with_refresh ddr5 i s).1) = true →
  ext_dfi_sel (o_sw (sys_cycle cfg mem with_refresh ddr5 i s).1) = true.
Proof.
  intros Hlast Hs Hx. destruct (sys_cycle_split cfg mem with_refresh ddr5 i s) as (_ & _ & _ & _ & ->).
  eapply executing_granted; [|exact Hx]. by eapply sys_inv_reach.
Qed.

Definition demo_in (st : bool) (p : dfi_phase) : sys_in := SysIn st p 0 false.
Definition demo_sys : sys_regs := SysRegs pe_reset idle_phase [idle_phase] switch_reset.

Lemma dfi_exclusive_witness :
  let cycle i s := (sys_cycle demo_cfg (mem_of (demo_words 5 [3; 9; 3])) true false i s).2 in
  let s := cycle (demo_in false idle_phase) (cycle (demo_in false ref_phase)
             (cycle (demo_in true idle_phase) demo_sys)) in
  ext_dfi_sel (o_sw (sys_cycle demo_cfg (mem_of (demo_words 5 [3; 9; 3])) true false
    (demo_in false idle_phase) s).1) = true.
Proof.
  intros cycle s.
  apply (dfi_exclusive demo_cfg (mem_of (demo_words 5 [3; 9; 3])) true false s (demo_in false idle_phase)).
  - right. left. vm_compute. reflexivity.
  - unfold s, cycle. do 3 apply reach_step. apply reach_init.
  - vm_compute. reflexivity.
Defined.

(** Without the condition on the last word the executor runs away: a memory
    filled with waiting instructions makes it go on executing after it has
    released the DFI, because the transition to IDLE overrides the one to
    READY. *)
Example runaway_at_last_word :
  let cfg := PeCfg 4 4 1 0 3 14 10 2 in
  let mem := fun _ => Encoder.encode_spec (noop_spec 2) in
  let '(os, s') := sys_run cfg mem true false
    ([demo_in true idle_phase; demo_in false ref_phase] ++ replicate 30 (demo_in false idle_phase))
    demo_sys in
  fsm (s_pe s') = IDLE ∧ wants_dfi (s_pe s') = false
  ∧ countb (fun o => executing (o_pe o) && negb (ext_dfi_sel (o_sw o))) os = 21%nat.
Proof. vm_compute. auto. Qed.

(** End to end, from the row list to the DRAM bus: with the generated words
    in the payload memory, a start request and any number of cycles until the
    controller's next refresh, every row is activated on the DFI, while the
    executor holds it, exactly [read_count] times its number of occurrences in
    the sequence, and the executor is READY again. *)
Theorem sys_hammer_exact {M : Migen} {D : Dfii} cfg t bank rank refresh read_count rows
    payload_mem_size verbose words mem ddr5 s :
  hammer_setup cfg t bank rank refresh read_count rows payload_mem_size verbose words mem →
  last_word_ok cfg mem → fsm (s_pe s) = READY → wants_dfi (s_pe s) = false →
  loop_counter (s_pe s) = 0 → sw_fsm (s_sw s) = MEMORY_CONTROLLER →
  ∃ n : nat, ∀ wait body ins, sys_execution ddr5 wait body ins → length body = n →
    let '(os, s') := sys_run cfg mem true ddr5 ins s in
    fsm (s_pe s') = READY
    ∧ ∀ row, Z.of_nat (countb (on_bus rank bank row) os) = read_count * countb (Z.eqb row) rows.
Proof.
  intros H Hlast Hf Hw Hl Hsw. pose proof (hs_params _ _ _ _ _ _ _ _ _ _ _ H) as Hok.
  assert (sys_inv s) as Hinv.
  { split_and!; [by rewrite Hf, Hw | rewrite Hf; by intros [|] | by rewrite Hf]. }
  exists (S (length (program_trace (blocks cfg t bank rank refresh read_count rows)))).
  intros wait body ins Hins Hn.
  destruct (sys_execution_inputs cfg mem true ddr5 wait body ins s eq_refl Hf Hw Hsw Hins)
    as (wait' & body' & Hin & _ & Hb'). rewrite Hn in Hb'.
  destruct (setup_runs H (s_pe s) wait' body' _ Hf Hl Hin Hb') as (Hr & _ & _ & Htr & _).
  destruct (sys_run_pe cfg mem true ddr5 ins s) as [Hos Hs'].
  destruct Hok as [Hrb Hnr _ _ _ _ Hrank _ _ _ _ _].
  pose proof (fun row => on_bus_run cfg mem true ddr5 Hrb Hnr rank bank row ins s Hlast Hrank Hinv) as Hbus.
  pose proof (fun row => pending_last cfg mem true ddr5 Hrb Hnr rank bank row ins s
    (Some (dec cfg (noop_spec 0))) Hlast Hrank Hinv) as Hpend.
  destruct (sys_run cfg mem true ddr5 ins s) as [os s']. cbn [fst snd] in *.
  split; [by rewrite Hs'|]. intros row. rewrite Hos in *.
  rewrite <- (setup_act_count H row (s_pe s) wait' body' _ Hf Hl Hin Hb').
  specialize (Hbus row). rewrite Hpend in Hbus by (by rewrite Htr, app_assoc, last_snoc).
  rewrite (act_on_other rank bank row _ NOOP (op_dec_noop _ _)) in Hbus by done.
  unfold pending, granted in Hbus. rewrite Hsw in Hbus. simpl in Hbus. lia.
Qed.

Lemma sys_hammer_exact_witness :
  ∃ n : nat, ∀ wait body ins, sys_execution false wait body ins → length body = n →
    let '(os, s') := sys_run demo_cfg (mem_of (demo_words 5 [3; 9; 3])) true false ins demo_sys in
    fsm (s_pe s') = READY ∧ Z.of_nat (countb (on_bus 0 1 3) os) = 10
    ∧ Z.of_nat (countb (on_bus 0 1 4) os) = 0.
Proof.
  destruct (sys_hammer_exact demo_cfg demo_t 1 0 true 5 [3; 9; 3] 256 true (demo_words 5 [3; 9; 3])
    (mem_of (demo_words 5 [3; 9; 3])) false demo_sys) as [n Hn].
  - apply demo_setup; vm_compute; congruence.
  - right. left. vm_compute. reflexivity.
  - reflexivity.
  - reflexivity.
  - reflexivity.
  - reflexivity.
  - exists n. intros wait body ins Hins Hlen. specialize (Hn wait body ins Hins Hlen).
    destruct (sys_run demo_cfg (mem_of (demo_words 5 [3; 9; 3])) true false ins demo_sys) as [os s'].
    destruct Hn as [Hf Hr]. split; [exact Hf|]. split; [exact (Hr 3) | exact (Hr 4)].
Defined.
