(* ===== verification/AddressConverter.v ===== *)
(** * DRAM addresses on the host

    Models [DRAMAddressConverter] of [src/rowhammer_tester/scripts/utils.py] and
    [get_range_from_rows] of [src/rowhammer_tester/scripts/playbook/lib/__init__.py]:
    the host's view of a (bank, row, column) as an address on the bus or of the
    DMA.  Round trips, injectivity and the range that covers a set of rows. *)

From stdpp Require Import strings.
From S2P Require Import Prelude Generator.

(** Settings read from [litedram_settings.json]. *)
Record litedram_settings := LitedramSettings {
  phy_memtype : string;
  phy_nphases : Z;
  phy_dfi_databits : Z;
  geom_colbits : Z;
  geom_rowbits : Z;
  geom_bankbits : Z;
  address_mapping : string;
}.

Record DRAMAddressConverter := MkConverter {
  colbits : Z;
  rowbits : Z;
  bankbits : Z;
  address_align : Z;
  dram_port_width : Z;
}.

Section converter.
Context {M : Migen}.

Definition DRAMAddressConverter_init (colbits rowbits bankbits address_align dram_port_width : Z)
    (address_mapping : string) : result DRAMAddressConverter :=
  passert (bool_decide (address_mapping = "ROW_BANK_COL"%string)) ;;
  Ok (MkConverter colbits rowbits bankbits address_align dram_port_width).

(** [burst_lengths] is LiteDRAM's table. *)
Definition load (burst_lengths : string → option Z) (settings : litedram_settings)
    : result DRAMAddressConverter :=
  burst_length ←
    (if bool_decide (phy_memtype settings = "SDR"%string) then Ok (phy_nphases settings)
     else of_option KeyError (burst_lengths (phy_memtype settings)));
  address_align ← log2_int burst_length;
  DRAMAddressConverter_init (geom_colbits settings) (geom_rowbits settings)
    (geom_bankbits settings) address_align
    (phy_nphases settings * phy_dfi_databits settings) (address_mapping settings).

(** The local [masked] of [_encode]. *)
Definition masked (value width offset : Z) : result Z :=
  let masked := Z.land value (2 ^ width - 1) in
  passert (masked =? value) ;;
  Ok (Z.shiftl masked offset).

Definition _encode (c : DRAMAddressConverter) (bank row col : Z) : result Z :=
  passert (bank <? 2 ^ bankbits c) ;;
  passert (col <? 2 ^ colbits c) ;;
  passert (row <? 2 ^ rowbits c) ;;
  r ← masked row (rowbits c) (bankbits c + colbits c);
  b ← masked bank (bankbits c) (colbits c);
  cl ← masked col (colbits c) 0;
  Ok (Z.lor (Z.lor r b) cl).

Definition _get_bus_shift (c : DRAMAddressConverter) (bus_width : Z) : result Z :=
  q ← pdiv (dram_port_width c) bus_width;
  addr_shift ← log2_int q;
  bus_shift ← log2_int (bus_width / 8);
  Ok (addr_shift + bus_shift - address_align c).

Definition encode_bus (c : DRAMAddressConverter) (bank row col base bus_width : Z) : result Z :=
  shift ← _get_bus_shift c bus_width;
  address ← _encode c bank row col;
  Ok (base + (if 0 <? shift then Z.shiftl address shift else Z.shiftr address (- shift))).

Definition encode_dma (c : DRAMAddressConverter) (bank row col : Z) : result Z :=
  address ← _encode c bank row col;
  Ok (Z.shiftr address (address_align c)).

(** The local [extract] of [_decode]. *)
Definition extract (value width offset : Z) : Z :=
  let mask := 2 ^ width - 1 in
  Z.shiftr (Z.land value (Z.shiftl mask offset)) offset.

Definition _decode (c : DRAMAddressConverter) (address : Z) : Z * Z * Z :=
  let row := extract address (rowbits c) (bankbits c + colbits c) in
  let bank := extract address (bankbits c) (colbits c) in
  let col := extract address (colbits c) 0 in
  (bank, row, col).

Definition decode_bus (c : DRAMAddressConverter) (address base bus_width : Z) : result (Z * Z * Z) :=
  let address := address - base in
  s ← _get_bus_shift c bus_width;
  let shift := -1 * s in
  Ok (_decode c (if 0 <? shift then Z.shiftl address shift else Z.shiftr address (- shift))).

Definition decode_dma (c : DRAMAddressConverter) (address : Z) : Z * Z * Z :=
  _decode c (Z.shiftl address (address_align c)).

(** [min] and [max] of a non-empty list. *)
Definition py_min (l : list Z) : result Z :=
  match l with [] => Raise ValueError | x :: l' => Ok (foldl Z.min x l') end.
Definition py_max (l : list Z) : result Z :=
  match l with [] => Raise ValueError | x :: l' => Ok (foldl Z.max x l') end.

(** The defaults of [encode_bus]. *)
Definition default_base : Z := 1073741824.   (* 0x40000000 *)
Definition default_bus_width : Z := 32.

(** [get_range_from_rows]: offset from the start of the main memory, and size.
    [main_base] and [main_size] are [wb.mems.main_ram]. *)
Definition get_range_from_rows (conv : DRAMAddressConverter) (main_base main_size geom_rowbits : Z)
    (row_nums : list Z) : result (Z * Z) :=
  min_row ← py_min row_nums;
  m ← py_max row_nums;
  let max_row := m + 1 in
  start ← encode_bus conv 0 min_row 0 default_base default_bus_width;
  e ← (if max_row <? 2 ^ geom_rowbits
       then encode_bus conv 0 max_row 0 default_base default_bus_width
       else Ok (main_base + main_size));
  Ok (start - main_base, e - start).
End converter.

(** ** Properties *)

Definition geometry_ok (c : DRAMAddressConverter) : Prop :=
  0 ≤ colbits c ∧ 0 ≤ rowbits c ∧ 0 ≤ bankbits c ∧ 0 ≤ address_align c.
Definition location_ok (c : DRAMAddressConverter) (bank row col : Z) : Prop :=
  0 ≤ bank < 2 ^ bankbits c ∧ 0 ≤ row < 2 ^ rowbits c ∧ 0 ≤ col < 2 ^ colbits c.

(** The address of a location, in columns. *)
Definition flat (c : DRAMAddressConverter) (bank row col : Z) : Z :=
  col + (bank + row * 2 ^ bankbits c) * 2 ^ colbits c.

Lemma masked_spec v w o :
  0 ≤ w → masked v w o = if (0 <=? v) && (v <? 2 ^ w) then Ok (Z.shiftl v o) else Raise AssertionError.
Proof.
  intros Hw. unfold masked. rewrite land_mask by done. pose proof (pow2_pos w Hw) as Hp.
  destruct (Z.leb_spec 0 v) as [H0|H0], (Z.ltb_spec v (2 ^ w)) as [H1|H1]; cbn [andb].
  - rewrite Z.mod_small, Z.eqb_refl by lia. done.
  - rewrite (proj2 (Z.eqb_neq _ _)); [done|]. pose proof (Z.mod_pos_bound v (2 ^ w) Hp). lia.
  - rewrite (proj2 (Z.eqb_neq _ _)); [done|]. pose proof (Z.mod_pos_bound v (2 ^ w) Hp). lia.
  - rewrite (proj2 (Z.eqb_neq _ _)); [done|]. pose proof (Z.mod_pos_bound v (2 ^ w) Hp). lia.
Qed.

Lemma encode_flat c bank row col :
  geometry_ok c → location_ok c bank row col → _encode c bank row col = Ok (flat c bank row col).
Proof.
  intros (Hc & Hr & Hb & _) (Hbank & Hrow & Hcol). unfold _encode.
  rewrite !masked_spec by done.
  rewrite !(proj2 (Z.ltb_lt _ _)), !(proj2 (Z.leb_le 0 _)) by lia. cbn [andb passert].
  rewrite !ok_bind. f_equal. rewrite Z.shiftl_0_r, Z.lor_comm, (Z.lor_comm (Z.shiftl row _)).
  rewrite <- (Z.shiftl_shiftl row), <- Z.shiftl_lor by done.
  by rewrite lor_shiftl_add, lor_shiftl_add by done.
Qed.

Lemma encode_error c bank row col :
  geometry_ok c → ¬ location_ok c bank row col → _encode c bank row col = Raise AssertionError.
Proof.
  intros (Hc & Hr & Hb & _) Hn. unfold _encode. rewrite !masked_spec by done.
  destruct (Z.ltb_spec bank (2 ^ bankbits c)); simpl; [|done].
  destruct (Z.ltb_spec col (2 ^ colbits c)); simpl; [|done].
  destruct (Z.ltb_spec row (2 ^ rowbits c)); simpl; [|done].
  destruct (Z.leb_spec 0 row); simpl; [|done].
  destruct (Z.leb_spec 0 bank); simpl; [|done].
  destruct (Z.leb_spec 0 col); simpl; [|done].
  exfalso. by apply Hn.
Qed.

Lemma extract_slice v w o : 0 ≤ w → 0 ≤ o → extract v w o = slice v o w.
Proof.
  intros Hw Ho. unfold extract, slice. rewrite Z.shiftr_land, Z.shiftr_shiftl_l, Z.sub_diag by lia.
  by rewrite Z.shiftl_0_r, Z.ones_equiv.
Qed.

Lemma decode_flat c bank row col :
  geometry_ok c → location_ok c bank row col → _decode c (flat c bank row col) = (bank, row, col).
Proof.
  intros (Hc & Hr & Hb & _) (Hbank & Hrow & Hcol). unfold _decode.
  rewrite !extract_slice by lia. unfold flat. f_equal; [f_equal|].
  - rewrite slice_high_0 by done. by apply slice_low.
  - rewrite (Z.add_comm (bankbits c)), slice_high, slice_high_0 by lia. by apply slice_id.
  - by apply slice_low.
Qed.

(** Decoding any address of the memory gives a location, which encodes to it. *)
Lemma decode_location c a :
  geometry_ok c → 0 ≤ a < 2 ^ (colbits c + bankbits c + rowbits c) →
  let '(bank, row, col) := _decode c a in location_ok c bank row col ∧ flat c bank row col = a.
Proof.
  intros (Hc & Hr & Hb & _) Ha. unfold _decode. rewrite !extract_slice by lia.
  split.
  - split_and!; by apply slice_bound.
  - unfold flat. rewrite !slice_mod by lia. rewrite Z.pow_0_r, Z.div_1_r.
    rewrite (Z.pow_add_r 2 (bankbits c) (colbits c)), (Z.mul_comm (2 ^ bankbits c)) by done.
    rewrite <- Z.div_div by first [apply Z.pow_nonzero; lia | by apply pow2_pos].
    rewrite !Z.pow_add_r in Ha by lia.
    pose proof (pow2_pos _ Hc). pose proof (pow2_pos _ Hb). pose proof (pow2_pos _ Hr).
    rewrite (Z.mod_small (a / 2 ^ colbits c / 2 ^ bankbits c)).
    2: { split; [apply Z.div_pos; [apply Z.div_pos|]; lia|].
         apply Z.div_lt_upper_bound; [lia|]. apply Z.div_lt_upper_bound; lia. }
    pose proof (Z.div_mod a (2 ^ colbits c) ltac:(lia)).
    pose proof (Z.div_mod (a / 2 ^ colbits c) (2 ^ bankbits c) ltac:(lia)). lia.
Qed.

Lemma flat_bound c bank row col :
  geometry_ok c → location_ok c bank row col →
  0 ≤ flat c bank row col < 2 ^ (colbits c + bankbits c + rowbits c).
Proof.
  intros (Hc & Hr & Hb & _) (Hbank & Hrow & Hcol). unfold flat. rewrite !Z.pow_add_r by lia.
  pose proof (mix_bound _ _ _ _ Hbank Hrow). pose proof (mix_bound _ _ _ _ Hcol H). lia.
Qed.

(** The shift between columns and bytes. *)
Definition shift_by (address shift : Z) : Z :=
  if 0 <? shift then Z.shiftl address shift else Z.shiftr address (- shift).

Lemma shift_by_inv a s :
  (s < 0 → (2 ^ (- s) | a)) → shift_by (shift_by a s) (-1 * s) = a.
Proof.
  intros Hs. unfold shift_by. destruct (Z.ltb_spec 0 s).
  - rewrite (proj2 (Z.ltb_ge _ _)) by lia. rewrite Z.shiftr_shiftl_l by lia.
    replace (s - - (-1 * s)) with 0 by lia. apply Z.shiftl_0_r.
  - destruct (Z.ltb_spec 0 (-1 * s)).
    + destruct Hs as [k ->]; [lia|]. rewrite <- Z.shiftl_mul_pow2 by lia.
      by rewrite Z.shiftr_shiftl_l, Z.sub_diag, Z.shiftl_0_r by lia.
    + assert (s = 0) as -> by lia. done.
Qed.

(** Column numbers that the alignment does not cut off. *)
Lemma flat_divide c bank row col k :
  geometry_ok c → 0 ≤ k ≤ colbits c → (2 ^ k | col) → (2 ^ k | flat c bank row col).
Proof.
  intros _ Hk Hcol. unfold flat. apply Z.divide_add_r; [done|]. apply Z.divide_mul_r.
  exists (2 ^ (colbits c - k)). rewrite <- Z.pow_add_r by lia. f_equal. lia.
Qed.

(** C25: Bus addresses round trip.  For every location of the memory whose
    column the bus can address (a multiple of the granularity, if a bus word
    holds several columns), [decode_bus] of the [encode_bus] address is the
    location; every other location is rejected by [encode_bus]. *)
Theorem bus_roundtrip {M : Migen} c bank row col base bus_width shift :
  geometry_ok c → _get_bus_shift c bus_width = Ok shift →
  (location_ok c bank row col → (shift < 0 → - shift ≤ colbits c ∧ (2 ^ (- shift) | col)) →
   ∃ a, encode_bus c bank row col base bus_width = Ok a
        ∧ decode_bus c a base bus_width = Ok (bank, row, col))
  ∧ (¬ location_ok c bank row col →
     encode_bus c bank row col base bus_width = Raise AssertionError).
Proof.
  intros Hg Hs. unfold encode_bus, decode_bus. rewrite Hs, !ok_bind. split.
  - intros Hl Hcol. rewrite encode_flat, ok_bind by done. fold (shift_by (flat c bank row col) shift).
    eexists. split; [done|]. rewrite Z.add_simpl_l.
    change (Ok (_decode c (shift_by (shift_by (flat c bank row col) shift) (-1 * shift)))
            = Ok (bank, row, col)).
    rewrite shift_by_inv, decode_flat by (done || (intros Hneg; destruct (Hcol Hneg); apply flat_divide; (done || lia))).
    done.
  - intros Hn. by rewrite encode_error.
Qed.

(** A 16-bit DDR3 memory with 4 phases: 128-bit port, bursts of 8. *)
Definition demo_conv : DRAMAddressConverter := MkConverter 10 14 3 3 128.

Lemma bus_roundtrip_witness :
  ∃ a, encode_bus demo_conv 5 1234 8 default_base default_bus_width = Ok a
       ∧ decode_bus demo_conv a default_base default_bus_width = Ok (5, 1234, 8).
Proof.
  apply (bus_roundtrip demo_conv 5 1234 8 default_base default_bus_width 1).
  - vm_compute. intuition congruence.
  - vm_compute. reflexivity.
  - vm_compute. intuition congruence.
  - lia.
Defined.

Lemma dma_roundtrip_aux c bank row col :
  geometry_ok c → location_ok c bank row col → address_align c ≤ colbits c →
  (2 ^ address_align c | col) →
  ∃ a, encode_dma c bank row col = Ok a ∧ decode_dma c a = (bank, row, col).
Proof.
  intros Hg Hl Ha Hcol. unfold encode_dma, decode_dma. rewrite encode_flat, ok_bind by done.
  eexists. split; [done|]. pose proof Hg as (_ & _ & _ & H0).
  destruct (flat_divide c bank row col (address_align c)) as [k Hk]; [done|lia|done|].
  rewrite Hk, <- Z.shiftl_mul_pow2, Z.shiftr_shiftl_l, Z.sub_diag, Z.shiftl_0_r by done.
  rewrite Z.shiftl_mul_pow2, <- Hk by done. by apply decode_flat.
Qed.

(** DMA addresses round trip for columns at burst boundaries. *)
Theorem dma_roundtrip c bank row col :
  geometry_ok c → location_ok c bank row col → address_align c ≤ colbits c →
  (2 ^ address_align c | col) →
  ∃ a, encode_dma c bank row col = Ok a ∧ decode_dma c a = (bank, row, col).
Proof. apply dma_roundtrip_aux. Qed.

Lemma dma_roundtrip_witness :
  ∃ a, encode_dma demo_conv 5 1234 8 = Ok a ∧ decode_dma demo_conv a = (5, 1234, 8).
Proof.
  apply (dma_roundtrip demo_conv 5 1234 8).
  - vm_compute. intuition congruence.
  - vm_compute. intuition congruence.
  - vm_compute. congruence.
  - exists 1. reflexivity.
Defined.

(** ** The range of a set of rows *)

Lemma foldl_min_spec l x : Forall (fun y => foldl Z.min x l ≤ y) (x :: l) ∧ foldl Z.min x l ∈ x :: l.
Proof.
  revert x; induction l as [|y l IH]; intros x; simpl; [split; [by repeat constructor | set_solver]|].
  destruct (IH (Z.min x y)) as [Hle Hin]. clear IH. apply Forall_cons_1 in Hle as [Hm Hl]. split.
  - repeat constructor; [lia..|done].
  - apply elem_of_cons in Hin as [E|?]; [|set_solver]. rewrite E.
    destruct (Z.min_spec x y) as [[_ ->]|[_ ->]]; set_solver.
Qed.

Lemma foldl_max_spec l x : Forall (fun y => y ≤ foldl Z.max x l) (x :: l) ∧ foldl Z.max x l ∈ x :: l.
Proof.
  revert x; induction l as [|y l IH]; intros x; simpl; [split; [by repeat constructor | set_solver]|].
  destruct (IH (Z.max x y)) as [Hle Hin]. clear IH. apply Forall_cons_1 in Hle as [Hm Hl]. split.
  - repeat constructor; [lia..|done].
  - apply elem_of_cons in Hin as [E|?]; [|set_solver]. rewrite E.
    destruct (Z.max_spec x y) as [[_ ->]|[_ ->]]; set_solver.
Qed.

Lemma py_min_max rows :
  rows ≠ [] → ∃ m n, py_min rows = Ok m ∧ py_max rows = Ok n ∧ m ∈ rows ∧ n ∈ rows
    ∧ Forall (fun r => m ≤ r ≤ n) rows.
Proof.
  destruct rows as [|x l]; [done|]. intros _.
  destruct (foldl_min_spec l x) as [Hmin Hm], (foldl_max_spec l x) as [Hmax Hn].
  do 2 eexists. split_and!; [done|done|done|done|]. apply Forall_and. done.
Qed.

(** Bytes of a row, all banks. *)
Definition row_bytes (c : DRAMAddressConverter) (shift : Z) : Z := 2 ^ (bankbits c + colbits c + shift).

Lemma encode_bus_row {M : Migen} c bank row col base bus_width shift :
  geometry_ok c → location_ok c bank row col → _get_bus_shift c bus_width = Ok shift → 0 ≤ shift →
  encode_bus c bank row col base bus_width =
    Ok (base + row * row_bytes c shift + (col + bank * 2 ^ colbits c) * 2 ^ shift).
Proof.
  intros Hg Hl Hs H0. unfold encode_bus. rewrite Hs, ok_bind, encode_flat, ok_bind by done.
  fold (shift_by (flat c bank row col) shift). pose proof Hg as (Hc & _ & Hb & _).
  assert (shift_by (flat c bank row col) shift = flat c bank row col * 2 ^ shift) as ->.
  { unfold shift_by. destruct (Z.ltb_spec 0 shift); [by rewrite Z.shiftl_mul_pow2|].
    assert (shift = 0) as -> by lia. by rewrite Z.shiftr_0_r, Z.mul_1_r. }
  f_equal. unfold flat, row_bytes. rewrite !Z.pow_add_r by lia. lia.
Qed.

Lemma range_of_rows {M : Migen} c main_base main_size rows shift :
  geometry_ok c → _get_bus_shift c default_bus_width = Ok shift → 0 ≤ shift →
  main_base = default_base → main_size = 2 ^ rowbits c * row_bytes c shift →
  rows ≠ [] → Forall (fun r => 0 ≤ r < 2 ^ rowbits c) rows →
  ∃ offset size rmin rmax,
    get_range_from_rows c main_base main_size (rowbits c) rows = Ok (offset, size)
    ∧ rmin ∈ rows ∧ rmax ∈ rows ∧ Forall (fun r => rmin ≤ r ≤ rmax) rows
    ∧ 0 ≤ offset ∧ 0 < size ∧ offset + size ≤ main_size
    ∧ ∀ bank row col, location_ok c bank row col →
      ∃ a, encode_bus c bank row col default_base default_bus_width = Ok a
           ∧ (main_base + offset ≤ a < main_base + offset + size ↔ rmin ≤ row ≤ rmax).
Proof.
  intros Hg Hs H0 -> -> Hne Hrows.
  destruct (py_min_max rows Hne) as (m & n & Hm & Hn & Him & Hin & Hall).
  rewrite Forall_forall in Hrows. pose proof (Hrows _ Him) as Bm. pose proof (Hrows _ Hin) as Bn.
  rewrite Forall_forall in Hall. pose proof (Hall _ Hin) as Hmn.
  pose proof Hg as (Hc & Hr & Hb & _). pose proof (pow2_pos _ Hc). pose proof (pow2_pos _ Hb).
  assert (0 < row_bytes c shift) as Hrb by (apply pow2_pos; lia).
  exists (m * row_bytes c shift), ((n + 1 - m) * row_bytes c shift), m, n.
  split_and!; try done; try nia.
  - unfold get_range_from_rows. rewrite Hm, Hn, !ok_bind.
    rewrite (encode_bus_row c 0 m 0 _ _ shift), ok_bind by (done || (split_and!; lia)).
    destruct (Z.ltb_spec (n + 1) (2 ^ rowbits c)).
    + rewrite (encode_bus_row c 0 (n + 1) 0 _ _ shift), ok_bind by (done || (split_and!; lia)).
      do 2 f_equal; lia.
    + rewrite ok_bind. assert (n + 1 = 2 ^ rowbits c) as <- by lia. do 2 f_equal; lia.
  - by apply Forall_forall.
  - intros bank row col Hl. eexists. split; [by apply (encode_bus_row _ _ _ _ _ _ shift)|].
    destruct Hl as (Hbank & Hrow & Hcol). pose proof (mix_bound _ _ _ _ Hcol Hbank) as Hx.
    assert (row_bytes c shift = 2 ^ colbits c * 2 ^ bankbits c * 2 ^ shift) as Hrw
      by (unfold row_bytes; rewrite !Z.pow_add_r by lia; lia).
    pose proof (pow2_pos shift H0).
    set (x := col + bank * 2 ^ colbits c) in *. set (B := row_bytes c shift) in *.
    assert (0 ≤ x * 2 ^ shift < B) by nia. split; intros; nia.
Qed.

(** The memory range computed for a set of rows is the bytes of all rows
    from the smallest to the largest, in every bank: it lies within the main
    memory and an address belongs to it exactly when its location has such a
    row. *)
Theorem range_covers_rows {M : Migen} c main_base main_size rows shift :
  geometry_ok c → _get_bus_shift c default_bus_width = Ok shift → 0 ≤ shift →
  main_base = default_base → main_size = 2 ^ rowbits c * row_bytes c shift →
  rows ≠ [] → Forall (fun r => 0 ≤ r < 2 ^ rowbits c) rows →
  ∃ offset size rmin rmax,
    get_range_from_rows c main_base main_size (rowbits c) rows = Ok (offset, size)
    ∧ rmin ∈ rows ∧ rmax ∈ rows ∧ Forall (fun r => rmin ≤ r ≤ rmax) rows
    ∧ 0 ≤ offset ∧ 0 < size ∧ offset + size ≤ main_size
    ∧ ∀ bank row col, location_ok c bank row col →
      ∃ a, encode_bus c bank row col default_base default_bus_width = Ok a
           ∧ (main_base + offset ≤ a < main_base + offset + size ↔ rmin ≤ row ≤ rmax).
Proof. apply range_of_rows. Qed.

Lemma range_covers_rows_witness :
  ∃ offset size rmin rmax,
    get_range_from_rows demo_conv default_base (2 ^ 28) 14 [7; 3; 9] = Ok (offset, size)
    ∧ rmin ∈ [7; 3; 9] ∧ rmax ∈ [7; 3; 9].
Proof.
  destruct (range_covers_rows demo_conv default_base (2 ^ 28) [7; 3; 9] 1)
    as (offset & size & rmin & rmax & H & Hmin & Hmax & _).
  - vm_compute. intuition congruence.
  - vm_compute. reflexivity.
  - lia.
  - reflexivity.
  - vm_compute. reflexivity.
  - discriminate.
  - repeat (apply Forall_cons_2; [simpl; lia|]). apply Forall_nil_2.
  - exists offset, size, rmin, rmax. split; [exact H|]. split; [exact Hmin | exact Hmax].
Defined.
