(* ===== verification/Config.v ===== *)
(** * Playbook configurations

    JSON configurations as the playbook reads them, the access to their fields
    and [validate_keys] of [src/rowhammer_tester/scripts/utils.py].  A dictionary
    is an association list in the order of its keys.  A field of another type
    than the code expects raises [TypeError] when it is read; in Python the
    error comes when the value is used. *)

From stdpp Require Export strings.
From S2P Require Import Prelude.

#[local] Set Warnings "-register-all".
Inductive json :=
  | JNull
  | JNum (z : Z)
  | JBool (b : bool)
  | JStr (s : string)
  | JList (l : list json)
  | JObj (fields : list (string * json)).

Abbreviation dict := (list (string * json)).

(** [d.get(k)]. *)
Fixpoint dict_get (d : dict) (k : string) : option json :=
  match d with
  | [] => None
  | (k', v) :: d' => if bool_decide (k = k') then Some v else dict_get d' k
  end.

(** [d[k]]. *)
Definition dict_item (d : dict) (k : string) : result json := of_option KeyError (dict_get d k).

(** [d[k] = v]: in place when the key is present, else at the end. *)
Fixpoint dict_set (d : dict) (k : string) (v : json) : dict :=
  match d with
  | [] => [(k, v)]
  | (k', v') :: d' => if bool_decide (k = k') then (k, v) :: d' else (k', v') :: dict_set d' k v
  end.

Definition as_int (j : json) : result Z :=
  match j with JNum z => Ok z | _ => Raise TypeError end.
Definition as_bool (j : json) : result bool :=
  match j with JBool b => Ok b | _ => Raise TypeError end.
Definition as_str (j : json) : result string :=
  match j with JStr s => Ok s | _ => Raise TypeError end.
Definition as_obj (j : json) : result dict :=
  match j with JObj d => Ok d | _ => Raise TypeError end.
Definition as_ints (j : json) : result (list Z) :=
  match j with JList l => result_map as_int l | _ => Raise TypeError end.

Definition get_int (d : dict) (k : string) : result Z := j ← dict_item d k; as_int j.
Definition get_bool (d : dict) (k : string) : result bool := j ← dict_item d k; as_bool j.
Definition get_str (d : dict) (k : string) : result string := j ← dict_item d k; as_str j.
Definition get_obj (d : dict) (k : string) : result dict := j ← dict_item d k; as_obj j.

(** [d.get(k, default)]. *)
Definition get_int_default (d : dict) (k : string) (z : Z) : result Z :=
  match dict_get d k with Some j => as_int j | None => Ok z end.
Definition get_bool_default (d : dict) (k : string) (b : bool) : result bool :=
  match dict_get d k with Some j => as_bool j | None => Ok b end.

(** [validate_keys]: the loop returns in its first iteration; on an empty
    dictionary the function returns [None]. *)
Definition validate_keys (config_dict : dict) (valid_keys_set : list string) : option bool :=
  match config_dict with
  | [] => None
  | (key, _) :: _ => if bool_decide (key ∈ valid_keys_set) then Some true else Some false
  end.

(** [assert validate_keys(...)]. *)
Definition assert_keys (config_dict : dict) (valid_keys_set : list string) : result unit :=
  passert (default false (validate_keys config_dict valid_keys_set)).

Lemma dict_get_set d k v k' :
  dict_get (dict_set d k v) k' = if bool_decide (k' = k) then Some v else dict_get d k'.
Proof.
  induction d as [|[k1 v1] d IH]; simpl; [done|].
  destruct (decide (k = k1)) as [->|Hk].
  - rewrite bool_decide_true by done. simpl. by case_bool_decide.
  - rewrite bool_decide_false by done. simpl. rewrite IH.
    repeat case_bool_decide; congruence.
Qed.

(** What the check is meant to establish, and what it does establish: only the
    first key is looked at. *)
Definition all_keys_valid (d : dict) (valid : list string) : bool :=
  forallb (fun kv => bool_decide (kv.1 ∈ valid)) d.

Lemma assert_keys_ok d valid u :
  assert_keys d valid = Ok u ↔ ∃ k v d', d = (k, v) :: d' ∧ k ∈ valid.
Proof.
  unfold assert_keys, validate_keys. destruct u, d as [|[k v] d]; simpl.
  - split; [done|]. by intros (? & ? & ? & ? & _).
  - case_bool_decide; simpl; split; try done; [by eauto 10|].
    intros (? & ? & ? & [= -> -> ->] & ?). done.
Qed.

Example validate_keys_first_only :
  let d := [("nr_rows"%string, JNum 10); ("max_rows"%string, JNum 64)] in
  validate_keys d ["nr_rows"; "max_row"]%string = Some true
  ∧ all_keys_valid d ["nr_rows"; "max_row"]%string = false.
Proof. by vm_compute. Qed.
