(* ===== verification/RowMappings.v ===== *)
(** * Row mappings

    Models [src/rowhammer_tester/scripts/playbook/row_mappings/__init__.py]: the
    translation between logical row numbers and the physical order of rows in
    a module.  [RowMapping] is the interface of the base class, with an instance
    per subclass; [RowMappingOk] is what the payload generators rely on. *)

From stdpp Require Import strings.
From S2P Require Import Prelude.

Class RowMapping := MkRowMapping {
  logical_to_physical : Z → Z;
  physical_to_logical : Z → Z;
}.

(** The promise to the generators: errors found in a physical row are reported
    for the logical row that was meant. *)
Class RowMappingOk (m : RowMapping) := {
  logical_roundtrip : ∀ r, physical_to_logical (logical_to_physical r) = r;
  logical_nonneg : ∀ r, 0 ≤ r → 0 ≤ logical_to_physical r;
}.

Definition TrivialRowMapping : RowMapping := {|
  logical_to_physical logical := logical;
  physical_to_logical physical := physical;
|}.

(** Both directions of type A: bit 3 is added to bits 1 and 2. *)
Definition type_a (row : Z) : Z :=
  let bit3 := Z.shiftr (Z.land row 8) 3 in
  Z.lxor (Z.lxor row (Z.shiftl bit3 1)) (Z.shiftl bit3 2).

Definition TypeARowMapping : RowMapping := {|
  logical_to_physical := type_a;
  physical_to_logical := type_a;
|}.

Definition TypeBRowMapping : RowMapping := {|
  logical_to_physical logical := logical * 2;
  physical_to_logical physical := physical / 2;
|}.

(** [RowMapping.get_by_name]: the registry filled by [__init_subclass__]. *)
Definition RowMapping_get_by_name (name : string) : result RowMapping :=
  if bool_decide (name = "TrivialRowMapping"%string) then Ok TrivialRowMapping
  else if bool_decide (name = "TypeARowMapping"%string) then Ok TypeARowMapping
  else if bool_decide (name = "TypeBRowMapping"%string) then Ok TypeBRowMapping
  else Raise KeyError.

(** ** Type A is an involution that stays within blocks of 16 rows *)

Lemma type_a_mask row : type_a row = Z.lxor row (if Z.testbit row 3 then 6 else 0).
Proof.
  unfold type_a. rewrite Z.lxor_assoc. f_equal.
  replace (Z.shiftr (Z.land row 8) 3) with (Z.b2z (Z.testbit row 3)); [by destruct (Z.testbit row 3)|].
  apply Z.bits_inj'; intros n Hn. rewrite Z.shiftr_spec, Z.land_spec by done.
  change 8 with (2 ^ 3). rewrite Z.pow2_bits_eqb by done.
  destruct (Z.eqb_spec 3 (n + 3)).
  - assert (n = 0) as -> by lia. rewrite andb_true_r. apply Z.b2z_bit0.
  - rewrite andb_false_r. destruct (Z.testbit row 3); simpl; [|apply Z.bits_0].
    destruct n; [lia|done..].
Qed.

Lemma type_a_bit3 row : Z.testbit (type_a row) 3 = Z.testbit row 3.
Proof.
  rewrite type_a_mask, Z.lxor_spec. destruct (Z.testbit row 3); simpl; by rewrite ?xorb_false_r.
Qed.

Lemma type_a_involutive row : type_a (type_a row) = row.
Proof.
  rewrite (type_a_mask (type_a row)), type_a_bit3, type_a_mask, Z.lxor_assoc.
  by rewrite Z.lxor_nilpotent, Z.lxor_0_r.
Qed.

Lemma type_a_block row : type_a row / 16 = row / 16.
Proof.
  change 16 with (2 ^ 4). rewrite <- !Z.shiftr_div_pow2 by done.
  rewrite type_a_mask, Z.shiftr_lxor. destruct (Z.testbit row 3); by rewrite Z.lxor_0_r.
Qed.

Lemma type_a_bound row rowbits : 4 ≤ rowbits → 0 ≤ row < 2 ^ rowbits → 0 ≤ type_a row < 2 ^ rowbits.
Proof.
  intros Hb Hr. pose proof (type_a_block row) as Hblk.
  pose proof (Z.div_mod (type_a row) 16 ltac:(lia)). pose proof (Z.mod_pos_bound (type_a row) 16 ltac:(lia)).
  pose proof (Z.div_mod row 16 ltac:(lia)). pose proof (Z.mod_pos_bound row 16 ltac:(lia)).
  assert (2 ^ rowbits = 16 * 2 ^ (rowbits - 4)) as Hp
    by (rewrite <- (Z.pow_add_r 2 4) by lia; f_equal; lia). nia.
Qed.

#[export] Instance TrivialRowMapping_ok : RowMappingOk TrivialRowMapping.
Proof. by split. Qed.
#[export] Instance TypeARowMapping_ok : RowMappingOk TypeARowMapping.
Proof.
  split; simpl; [apply type_a_involutive|]. intros r Hr. pose proof (type_a_block r).
  pose proof (Z.div_mod (type_a r) 16 ltac:(lia)). pose proof (Z.mod_pos_bound (type_a r) 16 ltac:(lia)).
  pose proof (Z.div_pos r 16). lia.
Qed.
#[export] Instance TypeBRowMapping_ok : RowMappingOk TypeBRowMapping.
Proof. split; simpl; intros; [by apply Z.div_mul | lia]. Qed.

Lemma logical_inj (m : RowMapping) `{!RowMappingOk m} r1 r2 :
  logical_to_physical r1 = logical_to_physical r2 → r1 = r2.
Proof. intros H. by rewrite <- (logical_roundtrip r1), H, logical_roundtrip. Qed.

(** Every mapping of the registry keeps its promise: translating a logical
    row to a physical one and back gives the row, distinct rows stay distinct,
    and unknown names raise [KeyError]. *)
Theorem row_mappings_ok name :
  match RowMapping_get_by_name name with
  | Ok m => ∀ r r', physical_to_logical (logical_to_physical r) = r
                    ∧ (logical_to_physical r = logical_to_physical r' → r = r')
  | Raise e => e = KeyError
  end.
Proof.
  unfold RowMapping_get_by_name. repeat case_bool_decide; try done;
    intros r r'; (split; [apply logical_roundtrip | apply logical_inj; apply _]).
Qed.
