(* ===== verification/RowGenerators.v ===== *)
(** * Row generators

    Models the classes under [src/rowhammer_tester/scripts/playbook/row_generators/]:
    for an iteration of an experiment, the rows to hammer.  [RowGenerator] is the
    interface of the base class; the generators keep the row mapping they were
    initialized with. *)

From stdpp Require Import strings.
From S2P Require Import Prelude Generator AddressConverter Config RowMappings.
#[local] Open Scope Z_scope.

(** What the payload generators use of a row generator. *)
Record RowGenerator := MkRowGenerator {
  generate_rows : Z → result (list Z);
  (** offset and size of the memory under test, from [wb.mems.main_ram] and
      the row bits of the settings *)
  get_memory_range : DRAMAddressConverter → Z → Z → Z → result (Z * Z);
}.

(** The base class's range: the whole main memory. *)
Definition default_memory_range (main_size : Z) : result (Z * Z) := Ok (0, main_size).

(** [config["payload_generator_config"]["row_generator_config"]]. *)
Definition row_generator_config (config : dict) : result dict :=
  p ← get_obj config "payload_generator_config"; get_obj p "row_generator_config".

(** ** EvenRowGenerator *)
Module EvenRows.
Record t := Mk { nr_rows : Z; max_row : Z; row_mapping : RowMapping }.

Definition _valid_module_keys : list string := ["nr_rows"; "max_row"]%string.

Definition initialize (config : dict) (m : RowMapping) : result t :=
  c ← row_generator_config config;
  assert_keys c _valid_module_keys ;;
  n ← get_int c "nr_rows";
  x ← get_int c "max_row";
  Ok (Mk n x m).

Definition generate_rows (g : t) (iteration : Z) : result (list Z) :=
  result_map (fun i => r ← pmod (iteration + 2 * i) (max_row g);
                       Ok (@logical_to_physical (row_mapping g) r)) (zrange (nr_rows g)).

Definition get_memory_range {M : Migen} (g : t) (conv : DRAMAddressConverter)
    (main_base main_size rowbits : Z) : result (Z * Z) :=
  get_range_from_rows conv main_base main_size rowbits
    (@logical_to_physical (row_mapping g) <$> zrange (max_row g)).

Definition generator {M : Migen} (g : t) : RowGenerator :=
  MkRowGenerator (generate_rows g) (get_memory_range g).
End EvenRows.

(** ** RowSequenceGenerator *)
Module RowSeq.
Record t := Mk { row_seq : list Z; row_mapping : RowMapping }.

Definition _valid_module_keys : list string := ["row_seq"]%string.

Definition initialize (config : dict) (m : RowMapping) : result t :=
  c ← row_generator_config config;
  assert_keys c _valid_module_keys ;;
  j ← dict_item c "row_seq";
  l ← as_ints j;
  Ok (Mk l m).

Definition generate_rows (g : t) (iteration : Z) : result (list Z) :=
  Ok (@logical_to_physical (row_mapping g) <$> row_seq g).

(** The method reads [self.max_row], an attribute the class does not have. *)
Definition get_memory_range (g : t) (conv : DRAMAddressConverter)
    (main_base main_size rowbits : Z) : result (Z * Z) :=
  Raise AttributeError.

Definition generator (g : t) : RowGenerator :=
  MkRowGenerator (generate_rows g) (get_memory_range g).
End RowSeq.

(** ** HalfDoubleRowGenerator *)
Module HalfDoubleRows.
Record t := Mk {
  nr_rows : Z;
  distance_one : bool;
  double_sided : bool;
  distance_two : bool;
  attack_rows_start : Z;
  max_attack_row_idx : Z;
  decoy_rows_start : Z;
  config : dict;           (* self.row_generator_config *)
  row_mapping : RowMapping;
}.

Definition _valid_module_keys : list string :=
  ["nr_rows"; "distance_one"; "double_sided"; "distance_two"; "attack_rows_start";
   "max_attack_row_idx"; "decoy_rows_start"]%string.
Definition _updateable_module_keys : list string :=
  ["nr_rows"; "distance_one"; "double_sided"; "distance_two"]%string.

Definition load_params (c : dict) (m : RowMapping) : result t :=
  n ← get_int c "nr_rows";
  d1 ← get_bool c "distance_one";
  ds ← get_bool c "double_sided";
  d2 ← get_bool c "distance_two";
  a ← get_int c "attack_rows_start";
  x ← get_int c "max_attack_row_idx";
  dec ← get_int c "decoy_rows_start";
  Ok (Mk n d1 ds d2 a x dec c m).

Definition initialize (config : dict) (m : RowMapping) : result t :=
  c ← row_generator_config config;
  assert_keys c _valid_module_keys ;;
  load_params c m.

Definition update_param (g : t) (param : string) (value : json) : result t :=
  passert (bool_decide (param ∈ _updateable_module_keys)) ;;
  load_params (dict_set (config g) param value) (row_mapping g).

Definition get_logical_victim (g : t) (iteration : Z) : result Z :=
  r ← pmod (iteration + 2) (max_attack_row_idx g - 2);
  Ok (attack_rows_start g + r).

(** Row [i] of the loop over the distance-two rows. *)
Definition distance_two_row (g : t) (iteration i : Z) : result Z :=
  if negb (double_sided g) && (i mod 2 =? 0) then
    Raise AttributeError        (* self.decoy_row_start *)
  else if distance_two g then
    if negb (i mod 2 =? 0) && double_sided g then
      r ← pmod (iteration + 4) (max_attack_row_idx g); Ok (attack_rows_start g + r)
    else
      r ← pmod iteration (max_attack_row_idx g - 4); Ok (attack_rows_start g + r)
  else if negb (double_sided g) || (i mod 2 =? 0) then Ok (decoy_rows_start g + 1)
  else Ok (decoy_rows_start g + 2).

Definition logical_rows (g : t) (iteration : Z) : result (list Z) :=
  let distance_two_rows := if double_sided g then nr_rows g - 2 else nr_rows g - 1 in
  far ← result_map (distance_two_row g iteration) (zrange distance_two_rows);
  near ←
    (if distance_one g then
       r1 ← pmod (iteration + 1) (max_attack_row_idx g - 3);
       if double_sided g then
         r3 ← pmod (iteration + 3) (max_attack_row_idx g - 1);
         Ok [attack_rows_start g + r1; attack_rows_start g + r3]
       else Ok [attack_rows_start g + r1]
     else Ok []);
  Ok (far ++ near).

Definition generate_rows (g : t) (iteration : Z) : result (list Z) :=
  row_list ← logical_rows g iteration;
  Ok (map (@logical_to_physical (row_mapping g)) row_list).

Definition generator (g : t) : RowGenerator :=
  MkRowGenerator (generate_rows g) (fun _ _ main_size _ => default_memory_range main_size).
End HalfDoubleRows.

(** [RowGenerator.get_by_name] followed by [initialize]. *)
Definition init_row_generator {M : Migen} (name : string) (config : dict) (m : RowMapping)
    : result RowGenerator :=
  if bool_decide (name = "EvenRowGenerator"%string) then
    g ← EvenRows.initialize config m; Ok (EvenRows.generator g)
  else if bool_decide (name = "RowSequenceGenerator"%string) then
    g ← RowSeq.initialize config m; Ok (RowSeq.generator g)
  else if bool_decide (name = "HalfDoubleRowGenerator"%string) then
    g ← HalfDoubleRows.initialize config m; Ok (HalfDoubleRows.generator g)
  else Raise KeyError.

(** ** Properties *)

Lemma pmod_pos x y : 0 < y → pmod x y = Ok (x mod y).
Proof. intros. unfold pmod. by rewrite (proj2 (Z.eqb_neq y 0)) by lia. Qed.

Lemma pmod_small x y : 0 ≤ x < y → pmod x y = Ok x.
Proof. intros. rewrite pmod_pos, Z.mod_small by lia. done. Qed.

Lemma even_rows_eq g iteration :
  0 < EvenRows.max_row g →
  EvenRows.generate_rows g iteration =
    Ok ((fun i => @logical_to_physical (EvenRows.row_mapping g)
                    ((iteration + 2 * i) mod EvenRows.max_row g)) <$> zrange (EvenRows.nr_rows g)).
Proof.
  intros Hm. unfold EvenRows.generate_rows. apply result_map_ok, Forall_forall.
  intros i _. by rewrite pmod_pos by done.
Qed.

(** The memory under test contains the hammered rows.  The range that
    [EvenRowGenerator] gives to fill and to check contains every byte of every
    row that it generates, in any iteration, in every bank. *)
Theorem even_rows_in_range {M : Migen} g conv main_base main_size shift iteration :
  geometry_ok conv → _get_bus_shift conv default_bus_width = Ok shift → 0 ≤ shift →
  main_base = default_base → main_size = 2 ^ rowbits conv * row_bytes conv shift →
  0 ≤ EvenRows.nr_rows g → 0 < EvenRows.max_row g →
  (∀ r, 0 ≤ r < EvenRows.max_row g →
     0 ≤ @logical_to_physical (EvenRows.row_mapping g) r < 2 ^ rowbits conv) →
  ∃ rows offset size,
    EvenRows.generate_rows g iteration = Ok rows
    ∧ Z.of_nat (length rows) = EvenRows.nr_rows g
    ∧ EvenRows.get_memory_range g conv main_base main_size (rowbits conv) = Ok (offset, size)
    ∧ ∀ bank row col, row ∈ rows → location_ok conv bank row col →
      ∃ a, encode_bus conv bank row col default_base default_bus_width = Ok a
           ∧ main_base + offset ≤ a < main_base + offset + size.
Proof.
  intros Hg Hs H0 Hb Hsz Hn Hm Hfit.
  set (all := @logical_to_physical (EvenRows.row_mapping g) <$> zrange (EvenRows.max_row g)).
  assert (all ≠ []) as Hne.
  { intros E%(f_equal length). unfold all in E. rewrite length_fmap in E.
    pose proof (length_zrange (EvenRows.max_row g)). simpl in E. lia. }
  assert (Forall (fun r => 0 ≤ r < 2 ^ rowbits conv) all) as Hall.
  { apply Forall_fmap, Forall_forall. intros r Hr%elem_of_zrange. by apply Hfit. }
  destruct (range_of_rows conv main_base main_size all shift Hg Hs H0 Hb Hsz Hne Hall)
    as (offset & size & rmin & rmax & Hr & _ & _ & Hbd & _ & _ & _ & Hcov).
  do 3 eexists. split_and!; [by apply even_rows_eq | | exact Hr |].
  - rewrite length_fmap. by apply length_zrange.
  - intros bank row col Hrow Hl. destruct (Hcov bank row col Hl) as (a & Ha & Hiff).
    exists a. split; [done|]. apply Hiff. rewrite Forall_forall in Hbd. apply Hbd.
    apply list_elem_of_fmap in Hrow as (i & -> & _). apply list_elem_of_fmap.
    eexists. split; [done|]. apply elem_of_zrange. by apply Z.mod_pos_bound.
Qed.

Lemma even_rows_in_range_witness :
  let g := EvenRows.Mk 10 64 TypeARowMapping in
  ∃ rows offset size,
    EvenRows.generate_rows g 3 = Ok rows ∧ Z.of_nat (length rows) = 10
    ∧ EvenRows.get_memory_range g demo_conv default_base (2 ^ 28) 14 = Ok (offset, size).
Proof.
  intros g. destruct (even_rows_in_range g demo_conv default_base (2 ^ 28) 1 3)
    as (rows & offset & size & Hr & Hl & Hm & _).
  - vm_compute. intuition congruence.
  - vm_compute. reflexivity.
  - lia.
  - reflexivity.
  - vm_compute. reflexivity.
  - vm_compute. congruence.
  - vm_compute. congruence.
  - intros r Hr. apply type_a_bound; simpl in *; lia.
  - exists rows, offset, size. split; [exact Hr|]. split; [exact Hl | exact Hm].
Defined.

Lemma half_double_rows g iteration :
  HalfDoubleRows.double_sided g = true → 2 ≤ HalfDoubleRows.nr_rows g →
  0 ≤ iteration < HalfDoubleRows.max_attack_row_idx g - 4 →
  ∃ victim far near,
    HalfDoubleRows.get_logical_victim g iteration = Ok victim
    ∧ victim = HalfDoubleRows.attack_rows_start g + iteration + 2
    ∧ HalfDoubleRows.logical_rows g iteration = Ok (far ++ near)
    ∧ Z.of_nat (length far) = HalfDoubleRows.nr_rows g - 2
    ∧ near = (if HalfDoubleRows.distance_one g then [victim - 1; victim + 1] else [])
    ∧ ∀ (i : nat) row, far !! i = Some row →
        row = if HalfDoubleRows.distance_two g
              then (if i mod 2 =? 0 then victim - 2 else victim + 2)
              else HalfDoubleRows.decoy_rows_start g + (if i mod 2 =? 0 then 1 else 2).
Proof.
  intros Hds Hn Hit. set (v := HalfDoubleRows.attack_rows_start g + iteration + 2).
  set (row_at := fun i : Z => if HalfDoubleRows.distance_two g
         then (if i mod 2 =? 0 then v - 2 else v + 2)
         else HalfDoubleRows.decoy_rows_start g + (if i mod 2 =? 0 then 1 else 2)).
  exists v, (row_at <$> zrange (HalfDoubleRows.nr_rows g - 2)),
    (if HalfDoubleRows.distance_one g then [v - 1; v + 1] else []). split_and!; try done.
  - unfold HalfDoubleRows.get_logical_victim. rewrite pmod_small, ok_bind by lia.
    f_equal. unfold v. lia.
  - unfold HalfDoubleRows.logical_rows. rewrite Hds.
    rewrite (result_map_ok _ row_at), ok_bind.
    + destruct (HalfDoubleRows.distance_one g); [|done].
      rewrite !pmod_small, !ok_bind by lia. unfold v. do 2 f_equal. f_equal; [lia|]. f_equal. lia.
    + apply Forall_forall. intros i _. unfold HalfDoubleRows.distance_two_row, row_at. rewrite Hds.
      destruct (HalfDoubleRows.distance_two g), (i mod 2 =? 0); cbn [negb andb orb]; try done.
      * rewrite pmod_small, ok_bind by lia. f_equal. unfold v. lia.
      * rewrite pmod_small, ok_bind by lia. f_equal. unfold v. lia.
  - rewrite length_fmap. apply length_zrange. lia.
  - intros i row. rewrite list_lookup_fmap. unfold zrange. rewrite list_lookup_fmap.
    intros (z & (k & Hk & ->)%fmap_Some_1 & ->)%fmap_Some_1.
    apply lookup_seq in Hk as [-> _]. done.
Qed.

(** The half-double attack surrounds its victim.  While the experiment
    runs (the iteration is below [max_attack_row_idx - 4]) a double-sided
    attack hammers [nr_rows - 2] rows that alternate between the rows at
    distance two of the victim (or two decoys), followed by the two rows next
    to the victim when distance-one hammering is on; nothing is taken modulo
    the window. *)
Theorem half_double_surrounds g iteration :
  HalfDoubleRows.double_sided g = true → 2 ≤ HalfDoubleRows.nr_rows g →
  0 ≤ iteration < HalfDoubleRows.max_attack_row_idx g - 4 →
  ∃ victim far near,
    HalfDoubleRows.get_logical_victim g iteration = Ok victim
    ∧ victim = HalfDoubleRows.attack_rows_start g + iteration + 2
    ∧ HalfDoubleRows.logical_rows g iteration = Ok (far ++ near)
    ∧ Z.of_nat (length far) = HalfDoubleRows.nr_rows g - 2
    ∧ near = (if HalfDoubleRows.distance_one g then [victim - 1; victim + 1] else [])
    ∧ ∀ (i : nat) row, far !! i = Some row →
        row = if HalfDoubleRows.distance_two g
              then (if i mod 2 =? 0 then victim - 2 else victim + 2)
              else HalfDoubleRows.decoy_rows_start g + (if i mod 2 =? 0 then 1 else 2).
Proof. apply half_double_rows. Qed.

Definition demo_half_double : HalfDoubleRows.t :=
  HalfDoubleRows.Mk 6 true true true 0 36 36 [] TypeARowMapping.

Lemma half_double_surrounds_witness :
  ∃ victim far near,
    HalfDoubleRows.get_logical_victim demo_half_double 5 = Ok victim
    ∧ HalfDoubleRows.logical_rows demo_half_double 5 = Ok (far ++ near)
    ∧ near = [victim - 1; victim + 1].
Proof.
  destruct (half_double_surrounds demo_half_double 5) as (v & far & near & Hv & _ & Hr & _ & Hn & _).
  - reflexivity.
  - vm_compute. congruence.
  - vm_compute. intuition congruence.
  - exists v, far, near. split; [exact Hv|]. split; [exact Hr | exact Hn].
Defined.

(** A single-sided attack fails: the loop reads an attribute that is spelt
    differently from the one that is set. *)
Example half_double_single_sided :
  HalfDoubleRows.generate_rows
    (HalfDoubleRows.Mk 3 true false false 0 36 36 [] TrivialRowMapping) 0 = Raise AttributeError.
Proof. reflexivity. Qed.
