(* ===== verification/HalfDouble.v ===== *)
(** * The half-double analysis

    Models [src/rowhammer_tester/scripts/playbook/payload_generators/half_double_analysis.py]:
    a state machine that, victim by victim, searches for the largest dilution
    and the smallest number of hammers at which a half-double attack flips
    bits.  [process_errors] is one step; the histograms are finite maps.
    Output for the user is left out. *)

From stdpp Require Import gmap strings.
From S2P Require Import Prelude Generator AddressConverter Config RowMappings RowGenerators.
#[local] Open Scope Z_scope.

(** An error of the memory test: position, data read, data expected. *)
Definition error : Type := Z * Z * Z.

(** [bin(x).count('1')]: the bits of the absolute value. *)
Fixpoint pos_ones (p : positive) : nat :=
  match p with xH => 1 | xO p => pos_ones p | xI p => S (pos_ones p) end.
Definition bitcount (x : Z) : Z :=
  match x with Z0 => 0 | Zpos p | Zneg p => pos_ones p end.
Definition bitflips (val ref : Z) : Z := bitcount (Z.lxor val ref).

Definition sum_bitflips (errors : list error) : Z :=
  foldr (fun '(_, value, expected) acc => bitflips value expected + acc) 0 errors.

(** [row_errors_logical]: keyed by the logical row, a later row overriding an
    earlier one with the same logical row. *)
Definition by_logical (m : RowMapping) (row_errors : list (Z * list error)) : gmap Z (Z * list error) :=
  foldl (fun acc '(row, errors) => <[physical_to_logical row := (row, errors)]> acc) ∅ row_errors.

Inductive HalfDoubleAnalysisState :=
  NOFLIP_DISTANCE_ONE | NOFLIP_DISTANCE_TWO | HAMMER_TOLERANCE | MAX_DILUTION.

#[global] Instance hd_state_eq_dec : EqDecision HalfDoubleAnalysisState.
Proof. solve_decision. Defined.

(** Parameters read from the configuration. *)
Record params := Params {
  max_total_read_count : Z;
  read_count_steps : Z;
  initial_dilution : Z;
  dilution_multiplier : Z;
  max_dilution : Z;
  verbose : bool;
  attack_rows_start : Z;
  max_attack_row_idx : Z;
  decoy_rows_start : Z;
  fill_local : bool;
  row_mapping : RowMapping;
}.

(** Key of the histograms: the dilution ([None] is [math.inf]) and the number
    of hammers. *)
Abbreviation histo_key := (option Z * Z)%type.

Record hd := Hd {
  row_generator : HalfDoubleRows.t;
  iteration : Z;
  total_read_count : Z;
  dilution : Z;
  read_count : Z;
  state : HalfDoubleAnalysisState;
  row_count : gmap histo_key Z;
  bit_count : gmap histo_key Z;
  victim_list : gmap histo_key (list Z);
}.

Definition set_gen g s := Hd g (iteration s) (total_read_count s) (dilution s) (read_count s) (state s) (row_count s) (bit_count s) (victim_list s).
Definition set_iteration i s := Hd (row_generator s) i (total_read_count s) (dilution s) (read_count s) (state s) (row_count s) (bit_count s) (victim_list s).
Definition set_total t s := Hd (row_generator s) (iteration s) t (dilution s) (read_count s) (state s) (row_count s) (bit_count s) (victim_list s).
Definition set_dilution d s := Hd (row_generator s) (iteration s) (total_read_count s) d (read_count s) (state s) (row_count s) (bit_count s) (victim_list s).
Definition set_read_count r s := Hd (row_generator s) (iteration s) (total_read_count s) (dilution s) r (state s) (row_count s) (bit_count s) (victim_list s).
Definition set_state x s := Hd (row_generator s) (iteration s) (total_read_count s) (dilution s) (read_count s) x (row_count s) (bit_count s) (victim_list s).

Definition _valid_module_keys : list string :=
  ["max_total_read_count"; "read_count_steps"; "initial_dilution"; "dilution_multiplier";
   "verbose"; "row_mapping"; "attack_rows_start"; "max_attack_row_idx"; "decoy_rows_start";
   "max_dilution"; "fill_local"]%string.

(** The configuration that [initialize] builds for its row generator. *)
Definition generator_config (dilution start max_idx decoy : Z) : dict :=
  [("nr_rows", JNum dilution); ("distance_one", JBool true); ("double_sided", JBool true);
   ("distance_two", JBool false); ("attack_rows_start", JNum start);
   ("max_attack_row_idx", JNum max_idx); ("decoy_rows_start", JNum decoy)]%string.

Definition initialize (config : dict) : result (params * hd) :=
  c ← get_obj config "payload_generator_config";
  assert_keys c _valid_module_keys ;;
  name ← get_str c "row_mapping";
  m ← RowMapping_get_by_name name;
  mtr ← get_int c "max_total_read_count";
  steps ← get_int c "read_count_steps";
  dil ← get_int c "initial_dilution";
  mult ← get_int c "dilution_multiplier";
  maxd ← get_int c "max_dilution";
  verb ← get_bool c "verbose";
  start ← get_int c "attack_rows_start";
  maxi ← get_int c "max_attack_row_idx";
  decoy ← get_int c "decoy_rows_start";
  local ← get_bool_default c "fill_local" false;
  let p := Params mtr steps dil mult maxd verb start maxi decoy local m in
  let c' := dict_set c "row_generator_config" (JObj (generator_config dil start maxi decoy)) in
  g ← HalfDoubleRows.initialize (dict_set config "payload_generator_config" (JObj c')) m;
  rc ← pdiv mtr dil;
  Ok (p, Hd g 0 mtr dil rc NOFLIP_DISTANCE_ONE ∅ ∅ ∅).

Section machine.
Context (p : params).

(** [self.row_generator.update_param(k, v)]. *)
Definition update_gen (k : string) (v : json) (s : hd) : result hd :=
  g ← HalfDoubleRows.update_param (row_generator s) k v; Ok (set_gen g s).

(** [self.read_count = self.total_read_count // self.dilution]. *)
Definition update_read_count (s : hd) : result hd :=
  r ← pdiv (total_read_count s) (dilution s); Ok (set_read_count r s).

Definition next_row (s : hd) : result hd :=
  let s := set_state NOFLIP_DISTANCE_ONE s in
  let s := set_dilution (initial_dilution p) s in
  let s := set_total (max_total_read_count p) s in
  s ← update_read_count s;
  s ← update_gen "distance_two" (JBool false) s;
  s ← update_gen "nr_rows" (JNum (dilution s)) s;
  Ok (set_iteration (iteration s + 1) s).

Definition noflip_distance_one (victim_flipped : bool) (s : hd) : result hd :=
  if negb victim_flipped then
    let s := set_state NOFLIP_DISTANCE_TWO s in
    s ← update_gen "distance_two" (JBool true) s;
    update_gen "distance_one" (JBool false) s
  else
    let s := set_dilution (dilution s * dilution_multiplier p) s in
    if max_dilution p <? dilution s then next_row s
    else
      s ← update_gen "nr_rows" (JNum (dilution s)) s;
      update_read_count s.

Definition noflip_distance_two (victim_flipped : bool) (s : hd) : result hd :=
  if negb victim_flipped then
    update_gen "distance_one" (JBool true) (set_state HAMMER_TOLERANCE s)
  else next_row s.

Definition find_hammer_tolerance (victim_flipped : bool) (s : hd) : result hd :=
  stop ← (if negb victim_flipped then Ok true
          else q ← pdiv (max_total_read_count p) (read_count_steps p);
               Ok (total_read_count s <=? q));
  if (stop : bool) then next_row s
  else
    let s := set_dilution (dilution s * dilution_multiplier p) s in
    s ← update_gen "nr_rows" (JNum (dilution s)) s;
    s ← update_read_count s;
    Ok (set_state MAX_DILUTION s).

Definition find_max_dilution (victim_flipped : bool) (s : hd) : result hd :=
  if negb victim_flipped || (max_dilution p <? dilution s * dilution_multiplier p) then
    let s := set_dilution (initial_dilution p) s in
    q ← pdiv (max_total_read_count p) (read_count_steps p);
    let s := set_total (total_read_count s - q) s in
    if 0 <? total_read_count s then
      s ← update_gen "nr_rows" (JNum (dilution s)) s;
      s ← update_read_count s;
      Ok (set_state HAMMER_TOLERANCE s)
    else next_row s
  else
    let s := set_dilution (dilution s * dilution_multiplier p) s in
    s ← update_gen "nr_rows" (JNum (dilution s)) s;
    update_read_count s.

(** The statistics of a flipped victim. *)
Definition record_victim (victim : Z) (errors : list error) (s : hd) : hd :=
  if bool_decide (state s = NOFLIP_DISTANCE_ONE) then s
  else
    let d := if bool_decide (state s = NOFLIP_DISTANCE_TWO) then None else Some (dilution s) in
    let k := (d, total_read_count s) in
    Hd (row_generator s) (iteration s) (total_read_count s) (dilution s) (read_count s) (state s)
      (<[k := default 0 (row_count s !! k) + 1]> (row_count s))
      (<[k := default 0 (bit_count s !! k) + sum_bitflips errors]> (bit_count s))
      (<[k := default [] (victim_list s !! k) ++ [victim]]> (victim_list s)).

Definition advance (victim_flipped : bool) (s : hd) : result hd :=
  match state s with
  | NOFLIP_DISTANCE_ONE => noflip_distance_one victim_flipped s
  | NOFLIP_DISTANCE_TWO => noflip_distance_two victim_flipped s
  | HAMMER_TOLERANCE => find_hammer_tolerance victim_flipped s
  | MAX_DILUTION => find_max_dilution victim_flipped s
  end.

Definition process_errors (row_errors : list (Z * list error)) (s : hd) : result hd :=
  victim ← HalfDoubleRows.get_logical_victim (row_generator s) (iteration s);
  match by_logical (row_mapping p) row_errors !! victim with
  | Some (_, errors) => advance true (record_victim victim errors s)
  | None => advance false s
  end.

Definition done (s : hd) : bool := max_attack_row_idx p - 4 <=? iteration s.

Definition get_memset_range {M : Migen} (conv : DRAMAddressConverter)
    (main_base main_size rowbits : Z) (s : hd) : result (Z * Z) :=
  if negb (fill_local p) then default_memory_range main_size
  else
    rows ← HalfDoubleRows.generate_rows (row_generator s) (iteration s);
    v ← HalfDoubleRows.get_logical_victim (row_generator s) (iteration s);
    get_range_from_rows conv main_base main_size rowbits
      (rows ++ [@logical_to_physical (row_mapping p) v]).

Definition get_memtest_range {M : Migen} (conv : DRAMAddressConverter)
    (main_base main_size rowbits : Z) (s : hd) : result (Z * Z) :=
  v ← HalfDoubleRows.get_logical_victim (row_generator s) (iteration s);
  get_range_from_rows conv main_base main_size rowbits [@logical_to_physical (row_mapping p) v].

(** The call passes neither [nranks] nor [rank]. *)
Definition get_payload {M : Migen} (t : timings) (bankbits bank payload_mem_size : Z) (s : hd)
    : result (list Z) :=
  rows ← HalfDoubleRows.generate_rows (row_generator s) (iteration s);
  generate_payload_from_row_list (read_count s) rows t bankbits bank None None
    payload_mem_size false (verbose p).
End machine.
