(* ===== verification/HalfDoubleFacts.v ===== *)
(** * Properties of the half-double analysis

    The invariant of the state machine, the number of activations of its
    payloads, and its termination whatever the memory does. *)

From stdpp Require Import gmap strings.
From S2P Require Import Prelude Generator AddressConverter Config RowMappings RowGenerators HalfDouble.
#[local] Open Scope Z_scope.

(** ** The row generator's parameters follow its configuration *)

Definition gen_ok (g : HalfDoubleRows.t) : Prop :=
  dict_get (HalfDoubleRows.config g) "nr_rows" = Some (JNum (HalfDoubleRows.nr_rows g))
  ∧ dict_get (HalfDoubleRows.config g) "distance_one" = Some (JBool (HalfDoubleRows.distance_one g))
  ∧ dict_get (HalfDoubleRows.config g) "double_sided" = Some (JBool (HalfDoubleRows.double_sided g))
  ∧ dict_get (HalfDoubleRows.config g) "distance_two" = Some (JBool (HalfDoubleRows.distance_two g))
  ∧ dict_get (HalfDoubleRows.config g) "attack_rows_start" = Some (JNum (HalfDoubleRows.attack_rows_start g))
  ∧ dict_get (HalfDoubleRows.config g) "max_attack_row_idx" = Some (JNum (HalfDoubleRows.max_attack_row_idx g))
  ∧ dict_get (HalfDoubleRows.config g) "decoy_rows_start" = Some (JNum (HalfDoubleRows.decoy_rows_start g)).

(** What an update leaves alone. *)
Definition same_window (g g' : HalfDoubleRows.t) : Prop :=
  HalfDoubleRows.double_sided g' = HalfDoubleRows.double_sided g
  ∧ HalfDoubleRows.attack_rows_start g' = HalfDoubleRows.attack_rows_start g
  ∧ HalfDoubleRows.max_attack_row_idx g' = HalfDoubleRows.max_attack_row_idx g
  ∧ HalfDoubleRows.decoy_rows_start g' = HalfDoubleRows.decoy_rows_start g
  ∧ HalfDoubleRows.row_mapping g' = HalfDoubleRows.row_mapping g.

Local Ltac update_field :=
  intros (H1 & H2 & H3 & H4 & H5 & H6 & H7); unfold HalfDoubleRows.update_param;
  rewrite bool_decide_true by set_solver; cbn [passert]; rewrite ok_bind;
  unfold HalfDoubleRows.load_params, get_int, get_bool, dict_item;
  rewrite !dict_get_set, H1, H2, H3, H4, H5, H6, H7; simpl;
  eexists; split; [reflexivity|]; unfold gen_ok, same_window; simpl;
  rewrite !dict_get_set; simpl; rewrite ?H1, ?H2, ?H3, ?H4, ?H5, ?H6, ?H7; auto 20.

Lemma update_nr_rows g n :
  gen_ok g → ∃ g', HalfDoubleRows.update_param g "nr_rows" (JNum n) = Ok g' ∧ gen_ok g'
    ∧ same_window g g' ∧ HalfDoubleRows.nr_rows g' = n
    ∧ HalfDoubleRows.distance_one g' = HalfDoubleRows.distance_one g
    ∧ HalfDoubleRows.distance_two g' = HalfDoubleRows.distance_two g.
Proof. update_field. Qed.

Lemma update_distance_one g b :
  gen_ok g → ∃ g', HalfDoubleRows.update_param g "distance_one" (JBool b) = Ok g' ∧ gen_ok g'
    ∧ same_window g g' ∧ HalfDoubleRows.nr_rows g' = HalfDoubleRows.nr_rows g
    ∧ HalfDoubleRows.distance_one g' = b
    ∧ HalfDoubleRows.distance_two g' = HalfDoubleRows.distance_two g.
Proof. update_field. Qed.

Lemma update_distance_two g b :
  gen_ok g → ∃ g', HalfDoubleRows.update_param g "distance_two" (JBool b) = Ok g' ∧ gen_ok g'
    ∧ same_window g g' ∧ HalfDoubleRows.nr_rows g' = HalfDoubleRows.nr_rows g
    ∧ HalfDoubleRows.distance_one g' = HalfDoubleRows.distance_one g
    ∧ HalfDoubleRows.distance_two g' = b.
Proof. update_field. Qed.

Lemma same_window_trans g1 g2 g3 : same_window g1 g2 → same_window g2 g3 → same_window g1 g3.
Proof. unfold same_window. intros; destruct_and?; split_and!; congruence. Qed.

(** ** Invariant *)

(** Sensible parameters: the search makes progress. *)
Record params_ok (p : params) : Prop := {
  po_dilution : 2 ≤ initial_dilution p;
  po_multiplier : 2 ≤ dilution_multiplier p;
  po_max : 0 ≤ max_dilution p;
  po_total : 0 < max_total_read_count p;
  po_steps : 0 < max_total_read_count p / read_count_steps p;
}.

Record hd_inv (p : params) (s : hd) : Prop := {
  inv_gen : gen_ok (row_generator s);
  inv_double : HalfDoubleRows.double_sided (row_generator s) = true;
  inv_window : HalfDoubleRows.max_attack_row_idx (row_generator s) = max_attack_row_idx p
               ∧ HalfDoubleRows.attack_rows_start (row_generator s) = attack_rows_start p;
  inv_nr_rows : HalfDoubleRows.nr_rows (row_generator s) = dilution s;
  inv_read_count : read_count s = total_read_count s / dilution s;
  inv_dilution : 2 ≤ dilution s;
  inv_total : 0 < total_read_count s ≤ max_total_read_count p;
  inv_first : state s = NOFLIP_DISTANCE_ONE ∨ state s = NOFLIP_DISTANCE_TWO →
              total_read_count s = max_total_read_count p;
  inv_distances :
    HalfDoubleRows.distance_two (row_generator s) = negb (bool_decide (state s = NOFLIP_DISTANCE_ONE))
    ∧ (state s = NOFLIP_DISTANCE_TWO → HalfDoubleRows.distance_one (row_generator s) = false)
    ∧ (state s = HAMMER_TOLERANCE ∨ state s = MAX_DILUTION →
       HalfDoubleRows.distance_one (row_generator s) = true);
}.

(** ** Progress *)

(** Work left for the current victim: the phases in their order, within a phase
    the dilutions not yet tried, and the number of hammers still to lower. *)
Definition row_work (p : params) (s : hd) : Z :=
  let c := max_dilution p + 3 in
  let d := Z.max 0 (max_dilution p - dilution s) in
  match state s with
  | NOFLIP_DISTANCE_ONE => total_read_count s * c + c + 1 + d
  | NOFLIP_DISTANCE_TWO => total_read_count s * c + c
  | HAMMER_TOLERANCE => total_read_count s * c + (c - 1)
  | MAX_DILUTION => total_read_count s * c + d
  end.

Definition row_bound (p : params) : Z :=
  (max_total_read_count p + 2) * (max_dilution p + 3) + 1.

(** A step stays with the victim with less work left, or goes to the next. *)
Definition progress (p : params) (s s' : hd) : Prop :=
  hd_inv p s' ∧ ((iteration s' = iteration s ∧ row_work p s' < row_work p s)
                 ∨ iteration s' = iteration s + 1).

Lemma row_work_bound p s : params_ok p → hd_inv p s → 0 ≤ row_work p s < row_bound p.
Proof.
  intros [] []. unfold row_work, row_bound.
  assert (0 ≤ total_read_count s * (max_dilution p + 3) ≤ max_total_read_count p * (max_dilution p + 3)) by nia.
  destruct (state s); nia.
Qed.

(** Prove the invariant of a new state from the fields that changed. *)
Local Ltac keep_inv :=
  repeat match goal with
    | H : same_window _ _ |- _ => destruct H as (? & ? & ? & ? & ?)
    | H : _ ∧ _ |- _ => destruct H
    end;
  constructor; simpl;
  repeat match goal with
    | H : HalfDoubleRows.double_sided ?g = _ |- context [HalfDoubleRows.double_sided ?g] => rewrite H
    | H : HalfDoubleRows.attack_rows_start ?g = _ |- context [HalfDoubleRows.attack_rows_start ?g] => rewrite H
    | H : HalfDoubleRows.max_attack_row_idx ?g = _ |- context [HalfDoubleRows.max_attack_row_idx ?g] => rewrite H
    | H : HalfDoubleRows.nr_rows ?g = _ |- context [HalfDoubleRows.nr_rows ?g] => rewrite H
    | H : HalfDoubleRows.distance_one ?g = _ |- context [HalfDoubleRows.distance_one ?g] => rewrite H
    | H : HalfDoubleRows.distance_two ?g = _ |- context [HalfDoubleRows.distance_two ?g] => rewrite H
    | H : state ?s = _ |- context [state ?s] => rewrite H
    end;
  split_and?; try done; try nia; auto; intros; destruct_or?; try done; auto.

Section steps.
Context (p : params) (Hp : params_ok p).

Lemma update_read_count_ok s :
  2 ≤ dilution s →
  update_read_count s = Ok (set_read_count (total_read_count s / dilution s) s).
Proof. intros. unfold update_read_count, pdiv. by rewrite (proj2 (Z.eqb_neq _ 0)) by lia. Qed.

Lemma next_row_ok s :
  gen_ok (row_generator s) → HalfDoubleRows.double_sided (row_generator s) = true →
  HalfDoubleRows.max_attack_row_idx (row_generator s) = max_attack_row_idx p →
  HalfDoubleRows.attack_rows_start (row_generator s) = attack_rows_start p →
  ∃ s', next_row p s = Ok s' ∧ hd_inv p s' ∧ iteration s' = iteration s + 1
        ∧ HalfDoubleRows.distance_one (row_generator s') = HalfDoubleRows.distance_one (row_generator s).
Proof using Hp.
  intros Hg Hd Hm Ha. pose proof Hp as []. unfold next_row, update_gen.
  rewrite update_read_count_ok, ok_bind by done. simpl row_generator.
  destruct (update_distance_two (row_generator s) false Hg)
    as (g1 & -> & Hg1 & Hw1 & Hn1 & H11 & H12). rewrite !ok_bind. simpl row_generator.
  destruct (update_nr_rows g1 (initial_dilution p) Hg1)
    as (g2 & Hu & Hg2 & Hw2 & Hn2 & H21 & H22). simpl dilution. rewrite Hu, !ok_bind.
  eexists. split; [done|]. split; [|split; [done | simpl; congruence]].
  keep_inv.
Qed.

Lemma next_row_progress s s0 :
  hd_inv p s → row_generator s0 = row_generator s → iteration s0 = iteration s →
  ∃ s', next_row p s0 = Ok s' ∧ progress p s s'.
Proof using Hp.
  intros [] Hg Hi. destruct (next_row_ok s0) as (s' & H & Hinv & Hit & _); rewrite ?Hg; try done; [apply inv_window0..|].
  exists s'. split; [done|]. split; [done|]. right. congruence.
Qed.

Lemma noflip_one_progress s b :
  hd_inv p s → state s = NOFLIP_DISTANCE_ONE →
  ∃ s', noflip_distance_one p b s = Ok s' ∧ progress p s s'.
Proof using Hp.
  intros Hinv Hst. pose proof Hinv as []. pose proof Hp as [].
  unfold noflip_distance_one, update_gen. destruct b; simpl.
  - destruct (Z.ltb_spec (max_dilution p) (dilution s * dilution_multiplier p)) as [?|Hle].
    { by apply next_row_progress. }
    destruct (update_nr_rows (row_generator s) (dilution s * dilution_multiplier p) inv_gen0)
      as (g' & -> & Hg' & ? & ? & ? & ?). rewrite !ok_bind.
    rewrite update_read_count_ok by (simpl; nia). eexists. split; [done|]. split.
    + keep_inv.
    + left. split; [done|]. unfold row_work. simpl. rewrite Hst. nia.
  - destruct (update_distance_two (row_generator s) true inv_gen0)
      as (g1 & -> & Hg1 & ? & ? & ? & ?). rewrite !ok_bind. simpl row_generator.
    destruct (update_distance_one g1 false Hg1)
      as (g2 & -> & Hg2 & ? & ? & ? & ?). rewrite !ok_bind.
    eexists. split; [done|]. split.
    + keep_inv.
    + left. split; [done|]. unfold row_work. simpl. rewrite Hst. lia.
Qed.

Lemma noflip_two_progress s b :
  hd_inv p s → state s = NOFLIP_DISTANCE_TWO →
  ∃ s', noflip_distance_two p b s = Ok s' ∧ progress p s s'.
Proof using Hp.
  intros Hinv Hst. pose proof Hinv as []. pose proof Hp as [].
  unfold noflip_distance_two, update_gen. destruct b; simpl; [by apply next_row_progress|].
  destruct (update_distance_one (row_generator s) true inv_gen0)
    as (g' & -> & Hg' & ? & ? & ? & ?). rewrite !ok_bind.
  eexists. split; [done|]. split; [keep_inv|].
  left. split; [done|]. unfold row_work. simpl. rewrite Hst. lia.
Qed.

Lemma steps_nonzero : pdiv (max_total_read_count p) (read_count_steps p)
  = Ok (max_total_read_count p / read_count_steps p).
Proof using Hp.
  unfold pdiv. destruct Hp. destruct (Z.eqb_spec (read_count_steps p) 0) as [E|]; [|done].
  rewrite E, Z.div_0_r in po_steps0. lia.
Qed.

Lemma hammer_tolerance_progress s b :
  hd_inv p s → state s = HAMMER_TOLERANCE →
  ∃ s', find_hammer_tolerance p b s = Ok s' ∧ progress p s s'.
Proof using Hp.
  intros Hinv Hst. pose proof Hinv as []. pose proof Hp as [].
  unfold find_hammer_tolerance, update_gen. destruct b; simpl; [|by apply next_row_progress].
  rewrite steps_nonzero, !ok_bind.
  destruct (total_read_count s <=? _); [by apply next_row_progress|].
  destruct (update_nr_rows (row_generator s) (dilution s * dilution_multiplier p) inv_gen0)
    as (g' & -> & Hg' & ? & ? & ? & ?). rewrite !ok_bind.
  rewrite update_read_count_ok, ok_bind by (simpl; nia).
  eexists. split; [done|]. split; [keep_inv|].
  left. split; [done|]. unfold row_work. simpl. rewrite Hst. lia.
Qed.

Lemma max_dilution_progress s b :
  hd_inv p s → state s = MAX_DILUTION →
  ∃ s', find_max_dilution p b s = Ok s' ∧ progress p s s'.
Proof using Hp.
  intros Hinv Hst. pose proof Hinv as []. pose proof Hp as [].
  unfold find_max_dilution, update_gen.
  destruct (negb b || (max_dilution p <? dilution s * dilution_multiplier p)) eqn:Hstop.
  - rewrite steps_nonzero, ok_bind. simpl.
    destruct (Z.ltb_spec 0 (total_read_count s - max_total_read_count p / read_count_steps p));
      [|by apply next_row_progress].
    destruct (update_nr_rows (row_generator s) (initial_dilution p) inv_gen0)
      as (g' & -> & Hg' & ? & ? & ? & ?). rewrite !ok_bind.
    rewrite update_read_count_ok, ok_bind by done.
    eexists. split; [done|]. split; [keep_inv|].
    left. split; [done|]. unfold row_work. simpl. rewrite Hst. nia.
  - apply orb_false_iff in Hstop as [_ Hle%Z.ltb_ge]. simpl.
    destruct (update_nr_rows (row_generator s) (dilution s * dilution_multiplier p) inv_gen0)
      as (g' & -> & Hg' & ? & ? & ? & ?). rewrite !ok_bind.
    rewrite update_read_count_ok by (simpl; nia).
    eexists. split; [done|]. split; [keep_inv|].
    left. split; [done|]. unfold row_work. simpl. rewrite Hst. nia.
Qed.

Lemma advance_progress s b : hd_inv p s → ∃ s', advance p b s = Ok s' ∧ progress p s s'.
Proof using Hp.
  intros Hinv. unfold advance. destruct (state s) eqn:Hst;
    auto using noflip_one_progress, noflip_two_progress, hammer_tolerance_progress, max_dilution_progress.
Qed.

(** Recording statistics touches nothing the machine looks at. *)
Lemma record_victim_inv victim errors s :
  hd_inv p s → hd_inv p (record_victim victim errors s)
  ∧ iteration (record_victim victim errors s) = iteration s
  ∧ row_work p (record_victim victim errors s) = row_work p s.
Proof.
  intros Hinv. unfold record_victim. case_bool_decide; [done|]. split; [|done].
  destruct Hinv. by constructor.
Qed.

Lemma process_errors_progress row_errors s :
  hd_inv p s → done p s = false → 0 ≤ iteration s →
  ∃ s', process_errors p row_errors s = Ok s' ∧ progress p s s'.
Proof using Hp.
  intros Hinv Hdone%Z.leb_gt Hi. unfold process_errors, HalfDoubleRows.get_logical_victim.
  destruct (inv_window _ _ Hinv) as [Hmax _]. rewrite Hmax, pmod_small, !ok_bind by lia.
  destruct (by_logical _ _ !! _) as [[row errors]|]; [|by apply advance_progress].
  edestruct (record_victim_inv) as (Hinv' & Hit & Hw); [exact Hinv|].
  destruct (advance_progress _ true Hinv') as (s' & Hs' & Hinv2 & Hprog).
  exists s'. split; [done|]. split; [done|]. by rewrite Hit, Hw in Hprog.
Qed.
End steps.

(** ** Whole experiments *)

(** The main loop of the playbook on the generator's side: process the errors
    of each round until the generator is done; what the memory shows in a round
    is given by [outcomes]. *)
Fixpoint run_rounds (p : params) (outcomes : list (list (Z * list error))) (s : hd) : result hd :=
  match outcomes with
  | [] => Ok s
  | row_errors :: rest =>
      if done p s then Ok s else s' ← process_errors p row_errors s; run_rounds p rest s'
  end.

Definition rounds_bound (p : params) : Z :=
  Z.max 0 (max_attack_row_idx p - 4) * row_bound p + row_bound p.

Lemma run_rounds_done p outcomes : ∀ s,
  params_ok p → hd_inv p s → 0 ≤ iteration s →
  Z.max 0 (max_attack_row_idx p - 4 - iteration s) * row_bound p + row_work p s < length outcomes →
  ∃ s', run_rounds p outcomes s = Ok s' ∧ done p s' = true ∧ hd_inv p s'.
Proof.
  induction outcomes as [|o outcomes IH]; intros s Hp Hinv Hi Hlen.
  - pose proof (row_work_bound p s Hp Hinv). simpl in Hlen. unfold row_bound in *. nia.
  - cbn [run_rounds]. destruct (done p s) eqn:Hd; [by exists s|].
    destruct (process_errors_progress p Hp o s Hinv Hd Hi) as (s' & -> & Hinv' & Hprog).
    rewrite ok_bind. apply Z.leb_gt in Hd. simpl length in Hlen.
    pose proof (row_work_bound p s Hp Hinv). pose proof (row_work_bound p s' Hp Hinv').
    apply IH; [done|done|lia|]. destruct Hprog as [[Hi' Hw]|Hi'].
    + rewrite Hi'. lia.
    + rewrite Hi', !Z.max_r in * by lia. nia.
Qed.

Lemma init_generator config c m dil start maxi decoy :
  let gc := generator_config dil start maxi decoy in
  HalfDoubleRows.initialize (dict_set config "payload_generator_config"
    (JObj (dict_set c "row_generator_config" (JObj gc)))) m =
    Ok (HalfDoubleRows.Mk dil true true false start maxi decoy gc m).
Proof.
  cbv zeta. unfold HalfDoubleRows.initialize, row_generator_config, get_obj, dict_item.
  rewrite dict_get_set. simpl. rewrite dict_get_set. reflexivity.
Qed.

Lemma initial_inv config p s :
  initialize config = Ok (p, s) → params_ok p →
  hd_inv p s ∧ iteration s = 0 ∧ state s = NOFLIP_DISTANCE_ONE
  ∧ HalfDoubleRows.distance_one (row_generator s) = true.
Proof.
  unfold initialize. intros H Hp. inv_result.
  match goal with H : HalfDoubleRows.initialize _ _ = _ |- _ => rewrite init_generator in H end.
  inv_result. destruct Hp as []. unfold pdiv in *. simpl in *.
  match goal with H : (if ?d =? 0 then _ else _) = _ |- _ => destruct (Z.eqb_spec d 0); [lia|] end.
  inv_result. split; [|done]. constructor; simpl; try done.
Qed.

(** States that an experiment passes through. *)
Inductive reachable (p : params) : hd → Prop :=
  | reachable_init config s : initialize config = Ok (p, s) → reachable p s
  | reachable_step row_errors s s' :
      reachable p s → done p s = false → process_errors p row_errors s = Ok s' → reachable p s'.

Lemma reachable_inv p s : params_ok p → reachable p s → hd_inv p s ∧ 0 ≤ iteration s.
Proof.
  intros Hp. induction 1 as [config s Hs|row_errors s s' _ [Hinv Hi] Hd Hs'].
  - destruct (initial_inv config p s Hs Hp) as (Hinv & Hi & _). split; [done|lia].
  - destruct (process_errors_progress p Hp row_errors s Hinv Hd Hi) as (s2 & E & Hinv' & Hprog).
    assert (s2 = s') as <- by congruence. split; [done|lia].
Qed.

(** C18: The half-double analysis terminates.  With a multiplier and an initial
    dilution of at least 2 and a positive step, the experiment comes to an end
    after at most [rounds_bound] rounds without raising an exception, whatever
    errors the memory shows in each round. *)
Theorem half_double_terminates config p s outcomes :
  initialize config = Ok (p, s) → params_ok p → rounds_bound p ≤ length outcomes →
  ∃ s', run_rounds p outcomes s = Ok s' ∧ done p s' = true.
Proof.
  intros Hs Hp Hlen. destruct (initial_inv config p s Hs Hp) as (Hinv & Hi & _).
  destruct (run_rounds_done p outcomes s) as (s' & H & Hd & _); try done; [lia| |by exists s'].
  pose proof (row_work_bound p s Hp Hinv). unfold rounds_bound in Hlen. rewrite Hi, Z.sub_0_r. lia.
Qed.

Definition demo_hd_config : dict :=
  [("payload_generator_config", JObj
     [("row_mapping", JStr "TypeARowMapping"); ("verbose", JBool true);
      ("attack_rows_start", JNum 0); ("max_attack_row_idx", JNum 6); ("decoy_rows_start", JNum 36);
      ("initial_dilution", JNum 4); ("dilution_multiplier", JNum 2); ("max_dilution", JNum 8);
      ("max_total_read_count", JNum 64); ("read_count_steps", JNum 4)])]%string.

Definition demo_params : params := Params 64 4 4 2 8 true 0 6 36 false TypeARowMapping.
Definition demo_hd : hd :=
  Hd (HalfDoubleRows.Mk 4 true true false 0 6 36 (generator_config 4 0 6 36) TypeARowMapping)
    0 64 4 16 NOFLIP_DISTANCE_ONE ∅ ∅ ∅.

Lemma demo_params_ok : params_ok demo_params.
Proof. by constructor. Qed.

Lemma half_double_terminates_witness :
  ∃ s', run_rounds demo_params (replicate 5000 []) demo_hd = Ok s' ∧ done demo_params s' = true.
Proof.
  apply (half_double_terminates demo_hd_config demo_params demo_hd (replicate 5000 [])).
  - reflexivity.
  - apply demo_params_ok.
  - rewrite length_replicate. vm_compute. congruence.
Defined.

(** C19: The budget of hammers is kept.  In every state of an experiment that is
    not done the rows to hammer can be generated, the payload's activations
    (rows times read count) do not exceed the current total read count, which
    does not exceed the configured maximum, and with distance-one hammering on
    they fall short of it by less than the dilution.  The rows at distance two
    are hammered in every phase but the first. *)
Theorem half_double_budget p s :
  params_ok p → reachable p s → done p s = false →
  ∃ rows, HalfDoubleRows.generate_rows (row_generator s) (iteration s) = Ok rows
    ∧ read_count s * length rows ≤ total_read_count s ≤ max_total_read_count p
    ∧ (HalfDoubleRows.distance_one (row_generator s) = true →
       Z.of_nat (length rows) = dilution s
       ∧ total_read_count s - dilution s < read_count s * length rows)
    ∧ HalfDoubleRows.distance_two (row_generator s) = negb (bool_decide (state s = NOFLIP_DISTANCE_ONE)).
Proof.
  intros Hp Hs Hd%Z.leb_gt. destruct (reachable_inv p s Hp Hs) as [[] Hi].
  destruct (half_double_rows (row_generator s) (iteration s))
    as (v & far & near & _ & _ & Hrows & Hfar & Hnear & _); [done|lia|destruct inv_window0; lia|].
  unfold HalfDoubleRows.generate_rows. rewrite Hrows, ok_bind. eexists. split; [done|].
  rewrite length_map, length_app, Nat2Z.inj_add, Hfar, Hnear, inv_nr_rows0, inv_read_count0.
  pose proof (Z.div_mod (total_read_count s) (dilution s) ltac:(lia)).
  pose proof (Z.mod_pos_bound (total_read_count s) (dilution s) ltac:(lia)).
  pose proof (Z.div_pos (total_read_count s) (dilution s) ltac:(lia) ltac:(lia)).
  destruct (HalfDoubleRows.distance_one (row_generator s)); simpl length;
    (split_and!; [nia..| |by destruct inv_distances0]); [|done].
  intros _. split; nia.
Qed.

Lemma half_double_budget_witness :
  ∃ rows, HalfDoubleRows.generate_rows (row_generator demo_hd) (iteration demo_hd) = Ok rows
    ∧ 16 * length rows ≤ 64.
Proof.
  destruct (half_double_budget demo_params demo_hd) as (rows & H & Hle & _).
  - apply demo_params_ok.
  - by apply (reachable_init _ demo_hd_config).
  - reflexivity.
  - exists rows. split; [exact H | exact (proj1 Hle)].
Defined.

(** After a victim flipped at distance two alone, the analysis of the next
    victim begins with distance-one hammering still switched off: [next_row]
    resets only the distance-two parameter. *)
Example distance_one_not_restored :
  (s1 ← advance demo_params false demo_hd;
   s2 ← advance demo_params true s1;
   Ok (state s2, iteration s2, HalfDoubleRows.distance_one (row_generator s2)))
  = Ok (NOFLIP_DISTANCE_ONE, 1, false).
Proof. reflexivity. Qed.
