(* ===== verification/PayloadGenerators.v ===== *)
(** * Payload generators of the playbook

    Models the other generators under
    [src/rowhammer_tester/scripts/playbook/payload_generators/] (row list, logged
    row list, idle and hammer tolerance) with the statistics they keep, and the
    error decoding and the main loop of
    [src/rowhammer_tester/scripts/playbook/playbook.py].  Reports for the user
    are values; writing them to files is left out.  [json.loads] gives the
    configuration. *)

From stdpp Require Import gmap strings sorting.
From S2P Require Import Prelude Generator AddressConverter Config RowMappings RowGenerators HalfDouble.
#[local] Open Scope Z_scope.

(** Memory map and settings that the methods read. *)
Record environment := Environment {
  env_conv : DRAMAddressConverter;
  main_base : Z;
  main_size : Z;
  env_rowbits : Z;
  env_colbits : Z;
  env_bankbits : Z;
  env_timings : timings;
  payload_size : Z;
  sys_clk_freq : Z;
  dma_data_width : Z;
}.

Definition key_le {A} (a b : Z * A) : Prop := a.1 ≤ b.1.
#[local] Instance key_le_dec {A} (a b : Z * A) : Decision (key_le a b).
Proof. unfold key_le. apply _. Defined.

(** The report of [process_errors]: the flips of every row with errors, in the
    order of logical rows. *)
Definition flip_report (m : RowMapping) (row_errors : list (Z * list error)) : list (Z * Z) :=
  let l := by_logical m row_errors in
  merge_sort key_le (map_to_list l) ≫= fun '(logical_row, (_, errors)) =>
    match errors with [] => [] | _ => [(logical_row, sum_bitflips errors)] end.

(** [row_errors.get(row)] on a dictionary. *)
Fixpoint errors_of (row_errors : list (Z * list error)) (row : Z) : option (list error) :=
  match row_errors with
  | [] => None
  | (r, l) :: d => if r =? row then Some l else errors_of d row
  end.

(** ** Row list *)
Module RowList.
Record t := Mk {
  row_mapping : RowMapping;
  row_generator : RowGenerator;
  max_iteration : Z;
  refresh : bool;
  verbose : bool;
  read_count : Z;
  fill_local : bool;
  iteration : Z;
}.

Definition _valid_module_keys : list string :=
  ["row_generator"; "read_count"; "refresh"; "verbose"; "row_generator_config";
   "row_mapping"; "max_iteration"; "fill_local"]%string.

Definition initialize {M : Migen} (config : dict) : result t :=
  c ← get_obj config "payload_generator_config";
  assert_keys c _valid_module_keys ;;
  name ← get_str c "row_mapping";
  m ← RowMapping_get_by_name name;
  gname ← get_str c "row_generator";
  g ← init_row_generator gname config m;
  maxi ← get_int c "max_iteration";
  refr ← get_bool c "refresh";
  verb ← get_bool c "verbose";
  rc ← get_int c "read_count";
  local ← get_bool_default c "fill_local" false;
  Ok (Mk m g maxi refr verb rc local 0).

(** [get_memtest_range] and [get_memset_range] are the same. *)
Definition get_memtest_range (e : environment) (s : t) : result (Z * Z) :=
  if negb (fill_local s) then default_memory_range (main_size e)
  else get_memory_range (row_generator s) (env_conv e) (main_base e) (main_size e) (env_rowbits e).

Definition get_memset_range (e : environment) (s : t) : result (Z * Z) :=
  if negb (fill_local s) then default_memory_range (main_size e)
  else get_memory_range (row_generator s) (env_conv e) (main_base e) (main_size e) (env_rowbits e).

(** The call passes neither [nranks] nor [rank]. *)
Definition get_payload {M : Migen} (e : environment) (bank : Z) (s : t) : result (list Z) :=
  row_sequence ← generate_rows (row_generator s) (iteration s);
  generate_payload_from_row_list (read_count s) row_sequence (env_timings e) (env_bankbits e) bank
    None None (payload_size e) (refresh s) (verbose s).

Definition process_errors (row_errors : list (Z * list error)) (s : t) : list (Z * Z) * t :=
  (flip_report (row_mapping s) row_errors,
   Mk (row_mapping s) (row_generator s) (max_iteration s) (refresh s) (verbose s) (read_count s)
     (fill_local s) (iteration s + 1)).

Definition done (s : t) : bool := max_iteration s <=? iteration s.
End RowList.

(** ** The JSON log of bit flips *)

(** [bin(x)] has this many digits. *)
Definition bin_digits (x : Z) : Z := if x =? 0 then 1 else Z.log2 (Z.abs x) + 1.

(** The positions of the ones in [f'{v:#0{len(bin(expected))}b}'[2:]], counted
    from the most significant digit. *)
Definition flip_positions (value expected : Z) : list Z :=
  let v := Z.lxor value expected in
  let width := Z.max (bin_digits expected) (bin_digits v) in
  filter (fun i => Z.testbit v (width - 1 - i) = true) (zrange width).

(** [addresses_per_row] of the generators, whose bank is fixed. *)
Definition row_addresses {M : Migen} (conv : DRAMAddressConverter) (colbits bank row : Z) : result (list Z) :=
  result_map (fun col => encode_bus conv bank row col default_base default_bus_width) (zrange (2 ^ colbits)).

(** What the log says about a row. *)
Record row_desc := RowDesc {
  physical_row : Z;
  desc_col : gmap Z (list Z);
  desc_bitflips : Z;
}.

(** Local variables of the loop of [update_log]: [flips] and [_row] keep their
    values from one row to the next and are unbound at first. *)
Record log_state := LogState {
  ls_flips : option Z;
  ls_row : option Z;
  ls_desc : gmap Z row_desc;
}.

Definition log_cell {M : Migen} (e : environment) (bank row : Z) (st : gmap Z (list Z) * option Z)
    (err : error) : result (gmap Z (list Z) * option Z) :=
  let '(cols, _) := st in
  let '(addr, value, expected) := err in
  addresses ← row_addresses (env_conv e) (env_colbits e) bank row;
  base_addr ← py_min addresses;
  '(_, _row, col) ← decode_bus (env_conv e) (base_addr + 4 * addr) default_base default_bus_width;
  passert (row =? _row) ;;
  Ok (<[col := flip_positions value expected]> cols, Some _row).

Definition log_row {M : Migen} (e : environment) (bank : Z) (m : RowMapping) (st : log_state)
    (entry : Z * list error) : result log_state :=
  let '(row, errors) := entry in
  let flips := match errors with [] => ls_flips st | _ => Some (sum_bitflips errors) end in
  '(cols, _row) ← result_fold (log_cell e bank row) (∅, ls_row st) errors;
  r ← of_option NameError _row;
  f ← of_option NameError flips;
  Ok (LogState flips _row (<[physical_to_logical row := RowDesc r cols f]> (ls_desc st))).

Definition update_log {M : Migen} (e : environment) (bank : Z) (m : RowMapping)
    (row_errors : list (Z * list error)) : result (gmap Z row_desc) :=
  st ← result_fold (log_row e bank m) (LogState None None ∅) row_errors;
  Ok (ls_desc st).

(** ** Logged row list *)
Module LoggedRowList.
Record t := Mk {
  base : RowList.t;
  log_dir : bool;          (* whether a directory is given *)
  bank : Z;
  err_summary : list (gmap Z row_desc);
}.

Definition initialize {M : Migen} (config : dict) : result t :=
  b ← RowList.initialize config;
  c ← get_obj config "payload_generator_config";
  bk ← get_int_default c "bank" 0;
  Ok (Mk b (match dict_get c "log_dir" with Some (JStr s) => negb (bool_decide (s = ""%string)) | _ => false end)
        bk []).

Definition process_errors {M : Migen} (e : environment) (row_errors : list (Z * list error)) (s : t)
    : result (list (Z * Z) * t) :=
  let '(report, b) := RowList.process_errors row_errors (base s) in
  if log_dir s then
    d ← update_log e (bank s) (RowList.row_mapping (base s)) row_errors;
    Ok (report, Mk b (log_dir s) (bank s) (err_summary s ++ [d]))
  else Ok (report, Mk b (log_dir s) (bank s) (err_summary s)).
End LoggedRowList.

(** ** Idle *)
Module Idle.
Record t := Mk {
  row_mapping : RowMapping;
  bank : Z;
  idle_time : Z;
  max_iteration : Z;
  verbose : bool;
  log_dir : bool;
  err_summary : list (gmap Z row_desc);
  iteration : Z;
}.

Definition _valid_module_keys : list string :=
  ["idle_time"; "max_iteration"; "row_mapping"; "verbose"; "log_dir"; "bank"]%string.

(** [idle_time] is a number of seconds, here an integer. *)
Definition initialize (config : dict) : result t :=
  c ← get_obj config "payload_generator_config";
  assert_keys c _valid_module_keys ;;
  name ← get_str c "row_mapping";
  m ← RowMapping_get_by_name name;
  bk ← get_int_default c "bank" 0;
  time ← get_int c "idle_time";
  maxi ← get_int c "max_iteration";
  verb ← get_bool c "verbose";
  Ok (Mk m bk time maxi verb
        (match dict_get c "log_dir" with Some (JStr s) => negb (bool_decide (s = ""%string)) | _ => false end)
        [] 0).

Definition get_memtest_range (e : environment) (s : t) : result (Z * Z) := default_memory_range (main_size e).
Definition get_memset_range (e : environment) (s : t) : result (Z * Z) := default_memory_range (main_size e).

Definition get_payload {M : Migen} (e : environment) (s : t) : result (list Z) :=
  generate_idle_payload (idle_time s * sys_clk_freq e) (env_timings e) (payload_size e) true.

Definition process_errors {M : Migen} (e : environment) (row_errors : list (Z * list error)) (s : t)
    : result (list (Z * Z) * t) :=
  let report := flip_report (row_mapping s) row_errors in
  summary ← (if log_dir s then
               d ← update_log e (bank s) (row_mapping s) row_errors; Ok (err_summary s ++ [d])
             else Ok (err_summary s));
  Ok (report, Mk (row_mapping s) (bank s) (idle_time s) (max_iteration s) (verbose s) (log_dir s)
                summary (iteration s + 1)).

Definition done (s : t) : bool := max_iteration s <=? iteration s.
End Idle.

(** ** Hammer tolerance *)
Module HammerTolerance.
(** The nested dictionaries of counters are maps on the path of their keys. *)
Record stats := Stats {
  row_errors : gmap Z Z;
  bit_errors : gmap Z Z;
  beat_errors : gmap (Z * Z) Z;
  chip_errors_per_read : gmap (Z * Z * Z) Z;
  chip_errors_per_beat : gmap (Z * Z * Z) Z;
  chips_with_errors_per_beat : gmap (Z * Z) Z;
}.
Definition no_stats : stats := Stats ∅ ∅ ∅ ∅ ∅ ∅.

Record t := Mk {
  row_mapping : RowMapping;
  max_iteration : Z;
  verbose : bool;
  nr_rows : Z;
  read_count_step : Z;
  iters_per_row : Z;
  nr_chips : Z;
  fill_local : bool;
  initial_read_count : Z;
  distance : Z;
  baseline : bool;
  first_dummy_row : option Z;
  run_baseline : bool;
  baseline_flips : option Z;   (* attribute not set at first *)
  st : stats;
  iteration : Z;
}.

Definition set_progress (it : Z) (rb : bool) (bf : option Z) (x : stats) (s : t) : t :=
  Mk (row_mapping s) (max_iteration s) (verbose s) (nr_rows s) (read_count_step s)
    (iters_per_row s) (nr_chips s) (fill_local s) (initial_read_count s) (distance s) (baseline s)
    (first_dummy_row s) rb bf x it.

Definition _valid_module_keys : list string :=
  ["verbose"; "row_mapping"; "nr_rows"; "read_count_step"; "iters_per_row"; "max_iteration";
   "nr_chips"; "fill_local"; "initial_read_count"; "distance"; "baseline"; "first_dummy_row"]%string.

Definition initialize (config : dict) : result t :=
  c ← get_obj config "payload_generator_config";
  assert_keys c _valid_module_keys ;;
  name ← get_str c "row_mapping";
  m ← RowMapping_get_by_name name;
  maxi ← get_int c "max_iteration";
  verb ← get_bool c "verbose";
  n ← get_int c "nr_rows";
  step ← get_int c "read_count_step";
  iters ← get_int c "iters_per_row";
  chips ← get_int c "nr_chips";
  local ← get_bool_default c "fill_local" false;
  init ← get_int_default c "initial_read_count" step;
  dist ← get_int_default c "distance" 1;
  base ← get_bool_default c "baseline" false;
  dummy ← (if (base : bool) then r ← get_int c "first_dummy_row"; Ok (Some r) else Ok None);
  Ok (Mk m maxi verb n step iters chips local init dist base dummy base None no_stats 0).

Definition get_row_for_iter (s : t) (row_idx : Z) : result (Z * Z) :=
  passert (row_idx <? 1 + 2 * distance s) ;;
  q ← pdiv (iteration s) (iters_per_row s);
  logical_row_num ← pmod (q + row_idx) (nr_rows s - row_idx);
  Ok (logical_row_num, @logical_to_physical (row_mapping s) logical_row_num).

(** The two aggressors of the current iteration. *)
Definition aggressors (s : t) : result (list Z) :=
  logical_row_num ← (if negb (run_baseline s) then '(l, _) ← get_row_for_iter s 0; Ok l
                     else of_option AttributeError (first_dummy_row s));
  Ok [@logical_to_physical (row_mapping s) logical_row_num;
      @logical_to_physical (row_mapping s) (logical_row_num + 2 * distance s)].

Definition get_payload {M : Migen} (e : environment) (bank : Z) (s : t) : result (list Z) :=
  row_sequence ← aggressors s;
  step ← pmod (iteration s) (iters_per_row s);
  generate_payload_from_row_list (initial_read_count s + read_count_step s * step) row_sequence
    (env_timings e) (env_bankbits e) bank None None (payload_size e) false (verbose s).

Definition get_memset_range {M : Migen} (e : environment) (s : t) : result (Z * Z) :=
  if negb (fill_local s) then default_memory_range (main_size e)
  else
    row_nums ← result_map (fun i => '(_, r) ← get_row_for_iter s i; Ok r) (zrange (1 + 2 * distance s));
    get_range_from_rows (env_conv e) (main_base e) (main_size e) (env_rowbits e) row_nums.

Definition get_memtest_range {M : Migen} (e : environment) (s : t) : result (Z * Z) :=
  '(_, row_num) ← get_row_for_iter s (distance s);
  get_range_from_rows (env_conv e) (main_base e) (main_size e) (env_rowbits e) [row_num].

(** Number of ones among [n] bits of [v] from bit [lo]. *)
Definition ones_in (v lo n : Z) : Z :=
  countb (fun i => Z.testbit v (lo + i)) (zrange n).

(** [extract_bits] and the count of its ones. *)
Definition extract_ones (v first_bit group_stride group_size nr_groups : Z) : Z :=
  foldr (fun g acc => ones_in v (first_bit + g * group_stride) group_size + acc) 0 (zrange nr_groups).

Definition bump {K} `{Countable K} (k : K) (m : gmap K Z) : gmap K Z := <[k := default 0 (m !! k) + 1]> m.

(** One beat of a read; the number of chips counted is that of all chips. *)
Definition beat_stats (chips dq_bits step flips : Z) (acc : stats * Z) (beat : Z) : result (stats * Z) :=
  let '(x, total) := acc in
  let flip_count := ones_in flips (beat * 64) 64 in
  passert (flip_count <? 64) ;;
  if flip_count =? 0 then Ok (x, total)
  else
    let per_beat := foldl (fun m chip =>
        let n := ones_in flips (beat * 64 + chip * dq_bits) dq_bits in
        if n =? 0 then m else bump (step, chip, n) m)
      (chip_errors_per_beat x) (zrange chips) in
    let chip_count := Z.of_nat (length (zrange chips)) in
    let with_errors := if 0 <? chip_count then bump (step, chip_count) (chips_with_errors_per_beat x)
                       else chips_with_errors_per_beat x in
    Ok (Stats (row_errors x) (bit_errors x) (bump (step, flip_count) (beat_errors x))
          (chip_errors_per_read x) per_beat with_errors,
        total + flip_count).

Definition gather_error (chips dq_bits step : Z) (x : stats) (err : error) : result stats :=
  let '(_, value, expected) := err in
  let flips := Z.lxor value expected in
  passert (flips <? 2 ^ 512) ;;
  '(x, total) ← result_fold (beat_stats chips dq_bits step flips) (x, 0) (zrange 8);
  let per_read := foldl (fun m chip =>
      let n := extract_ones flips (chip * dq_bits) 64 dq_bits 8 in
      if n =? 0 then m else bump (step, chip, n) m)
    (chip_errors_per_read x) (zrange chips) in
  Ok (Stats (row_errors x) (<[step := default 0 (bit_errors x !! step) + total]> (bit_errors x))
        (beat_errors x) per_read (chip_errors_per_beat x) (chips_with_errors_per_beat x)).

Definition gather_full_stats (chips step : Z) (errors : list error) (x : stats) : result stats :=
  dq_bits ← pdiv 64 chips;
  result_fold (gather_error chips dq_bits step) x errors.

Definition add_bits (step n : Z) (x : stats) : stats :=
  Stats (row_errors x) (<[step := default 0 (bit_errors x !! step) + n]> (bit_errors x)) (beat_errors x)
    (chip_errors_per_read x) (chip_errors_per_beat x) (chips_with_errors_per_beat x).
Definition add_row (step : Z) (x : stats) : stats :=
  Stats (bump step (row_errors x)) (bit_errors x) (beat_errors x)
    (chip_errors_per_read x) (chip_errors_per_beat x) (chips_with_errors_per_beat x).

Definition process_errors (row_errors : list (Z * list error)) (s : t) : result t :=
  i ← pmod (iteration s) (iters_per_row s);
  let step := (i + 1) * read_count_step s in
  '(_, row_num) ← get_row_for_iter s (distance s);
  let it := if run_baseline s then iteration s else iteration s + 1 in
  let bf := if run_baseline s then Some 0 else baseline_flips s in
  let rb := if baseline s then negb (run_baseline s) else run_baseline s in
  match errors_of row_errors row_num with
  | None => Ok (set_progress it rb bf (st s) s)
  | Some [] => Ok (set_progress it rb bf (st s) s)
  | Some errors =>
      if negb (baseline s) then
        x ← gather_full_stats (nr_chips s) step errors (st s);
        Ok (set_progress it rb bf (add_row step x) s)
      else if run_baseline s then
        b ← of_option AttributeError bf;
        Ok (set_progress it rb (Some (b + sum_bitflips errors)) (st s) s)
      else
        b ← of_option AttributeError bf;
        let flipped_bits := Z.max (sum_bitflips errors - b) 0 in
        let x := add_bits step flipped_bits (st s) in
        Ok (set_progress it rb bf (if 0 <? flipped_bits then add_row step x else x) s)
  end.

Definition done (s : t) : bool := max_iteration s <=? iteration s.
End HammerTolerance.
