(* ===== verification/Playbook.v ===== *)
(** * The playbook

    Models [src/rowhammer_tester/scripts/playbook/playbook.py]: the decoding of
    memory errors into rows and the main loop, over the interface that all
    payload generators implement.  Properties of the generators and of the loop. *)

From stdpp Require Import gmap strings.
From S2P Require Import Prelude Generator AddressConverter Config RowMappings RowGenerators HalfDouble.
From S2P Require Import PayloadGenerators.
#[local] Open Scope Z_scope.

(** An entry of [hw_memtest]: offset in DMA words, data and expected data. *)
Definition bist_error : Type := Z * Z * Z.

(** ** Decoding errors *)
Section decode.
Context {M : Migen} (e : environment).

(** [addresses_per_row] with its cache [_addresses_per_row], keyed by the row. *)
Definition addresses_per_row (cache : gmap Z (list Z)) (bank row : Z) : result (list Z * gmap Z (list Z)) :=
  match cache !! row with
  | Some addresses => Ok (addresses, cache)
  | None =>
      addresses ← row_addresses (env_conv e) (env_colbits e) bank row;
      Ok (addresses, <[row := addresses]> cache)
  end.

(** [row_errors[row].append(x)] on a [defaultdict(list)]. *)
Fixpoint append_error {A} (row : Z) (x : A) (d : list (Z * list A)) : list (Z * list A) :=
  match d with
  | [] => [(row, [x])]
  | (r, l) :: d' => if r =? row then (r, l ++ [x]) :: d' else (r, l) :: append_error row x d'
  end.

Definition decode_error (acc : list (Z * list error) * gmap Z (list Z)) (err : bist_error)
    : result (list (Z * list error) * gmap Z (list Z)) :=
  let '(row_errors, cache) := acc in
  let '(offset, data, expected) := err in
  let dma_data_bytes := dma_data_width e / 8 in
  let addr := main_base e + offset * dma_data_bytes in
  '(bank, row, _) ← decode_bus (env_conv e) addr default_base default_bus_width;
  '(addresses, cache) ← addresses_per_row cache bank row;
  base_addr ← py_min addresses;
  Ok (append_error row ((addr - base_addr) / 4, data, expected) row_errors, cache).

Definition decode_errors (cache : gmap Z (list Z)) (errors : list bist_error)
    : result (list (Z * list error) * gmap Z (list Z)) :=
  result_fold decode_error ([], cache) errors.
End decode.

(** ** The main loop *)

(** The interface of [PayloadGenerator] for a generator with state [S]. *)
Class PayloadGenerator (S : Type) := {
  pg_done : S → bool;
  pg_memset_range : environment → S → result (Z * Z);
  pg_payload : environment → Z → S → result (list Z);
  pg_memtest_range : environment → S → result (Z * Z);
  pg_process_errors : environment → list (Z * list error) → S → result S;
}.

Section instances.
Context {M : Migen}.

#[export] Instance row_list_pg : PayloadGenerator RowList.t := {
  pg_done := RowList.done;
  pg_memset_range := RowList.get_memset_range;
  pg_payload := RowList.get_payload;
  pg_memtest_range := RowList.get_memtest_range;
  pg_process_errors e errs s := Ok (RowList.process_errors errs s).2;
}.

#[export] Instance idle_pg : PayloadGenerator Idle.t := {
  pg_done := Idle.done;
  pg_memset_range := Idle.get_memset_range;
  pg_payload e _ s := Idle.get_payload e s;
  pg_memtest_range := Idle.get_memtest_range;
  pg_process_errors e errs s := r ← Idle.process_errors e errs s; Ok r.2;
}.

#[export] Instance hammer_tolerance_pg : PayloadGenerator HammerTolerance.t := {
  pg_done := HammerTolerance.done;
  pg_memset_range := HammerTolerance.get_memset_range;
  pg_payload := HammerTolerance.get_payload;
  pg_memtest_range := HammerTolerance.get_memtest_range;
  pg_process_errors e errs s := HammerTolerance.process_errors errs s;
}.

#[export] Instance half_double_pg : PayloadGenerator (params * hd) := {
  pg_done '(p, s) := done p s;
  pg_memset_range e '(p, s) :=
    get_memset_range p (env_conv e) (main_base e) (main_size e) (env_rowbits e) s;
  pg_payload e bank '(p, s) :=
    get_payload p (env_timings e) (env_bankbits e) bank (payload_size e) s;
  pg_memtest_range e '(p, s) :=
    get_memtest_range p (env_conv e) (main_base e) (main_size e) (env_rowbits e) s;
  pg_process_errors e errs '(p, s) := s' ← process_errors p errs s; Ok (p, s');
}.
End instances.

(** The board: the effects of filling memory and executing a payload, and the
    errors that a memory test finds. *)
Class Board := {
  board : Type;
  hw_memset : Z → Z → Z → board → board;
  execute_payload : list Z → board → board;
  hw_memtest : Z → Z → Z → board → list bist_error * board;
}.

Section main.
Context {M : Migen} {B : Board} {S : Type} `{!PayloadGenerator S} (e : environment) (row_pattern : Z).

(** The state of the loop: generator, board and the cache of addresses. *)
Definition loop_state : Type := S * board * gmap Z (list Z).

(** One iteration of [while not pg.done()]; the bank is 0. *)
Definition main_iteration (st : loop_state) : result loop_state :=
  let '(s, b, cache) := st in
  '(offset, size) ← pg_memset_range e s;
  let b := hw_memset offset size row_pattern b in
  payload ← pg_payload e 0 s;
  let b := execute_payload payload b in
  '(offset, size) ← pg_memtest_range e s;
  let '(errors, b) := hw_memtest offset size row_pattern b in
  '(row_errors, cache) ← decode_errors e cache errors;
  s' ← pg_process_errors e row_errors s;
  Ok (s', b, cache).

(** The loop; [None] when [fuel] iterations were not enough. *)
Fixpoint main_loop (fuel : nat) (st : loop_state) : option (result loop_state) :=
  if pg_done st.1.1 then Some (Ok st)
  else match fuel with
       | O => None
       | Datatypes.S fuel' =>
           match main_iteration st with
           | Ok st' => main_loop fuel' st'
           | Raise x => Some (Raise x)
           end
       end.
End main.

(** ** Properties of error decoding *)

(** An environment that belongs together: the settings' columns are those of
    the converter, the DMA is word aligned and the main memory starts at the
    converter's base. *)
Record env_ok {M : Migen} (e : environment) (shift : Z) : Prop := {
  eo_geometry : geometry_ok (env_conv e);
  eo_shift : _get_bus_shift (env_conv e) default_bus_width = Ok shift;
  eo_shift_pos : 0 ≤ shift;
  eo_base : main_base e = default_base;
  eo_cols : env_colbits e = colbits (env_conv e);
}.

Lemma Forall_foldl_min x l : Forall (fun y => x ≤ y) l → foldl Z.min x l = x.
Proof. induction 1 as [|y l Hy _ IH]; [done|]. simpl. by rewrite Z.min_l. Qed.

Lemma zrange_pos n : 0 < n → ∃ l, zrange n = 0 :: l ∧ Forall (fun i => 0 < i < n) l.
Proof.
  intros Hn. unfold zrange. destruct (Z.to_nat n) as [|k] eqn:Hk; [lia|].
  exists (Z.of_nat <$> seq 1 k). split; [done|]. apply Forall_fmap, Forall_forall.
  intros i Hi%elem_of_seq. unfold compose. lia.
Qed.

(** The lowest address of a row is that of its first column. *)
Lemma row_addresses_min {M : Migen} e shift bank row :
  env_ok e shift → location_ok (env_conv e) bank row 0 →
  ∃ l a, row_addresses (env_conv e) (env_colbits e) bank row = Ok l ∧ py_min l = Ok a
    ∧ encode_bus (env_conv e) bank row 0 default_base default_bus_width = Ok a.
Proof.
  intros [] (Hb & Hr & Hc). unfold row_addresses. rewrite eo_cols0.
  set (addr := fun col => default_base + row * row_bytes (env_conv e) shift
                          + (col + bank * 2 ^ colbits (env_conv e)) * 2 ^ shift).
  assert (∀ col, 0 ≤ col < 2 ^ colbits (env_conv e) →
    encode_bus (env_conv e) bank row col default_base default_bus_width = Ok (addr col)) as Henc.
  { intros col Hcol. apply encode_bus_row; done. }
  pose proof (pow2_pos shift eo_shift_pos0).
  destruct (zrange_pos (2 ^ colbits (env_conv e))) as (l & Hz & Hl);
    [apply pow2_pos, eo_geometry0|].
  exists (addr <$> zrange (2 ^ colbits (env_conv e))), (addr 0). split_and!.
  - apply result_map_ok, Forall_forall. intros col Hcol%elem_of_zrange. by apply Henc.
  - rewrite Hz, fmap_cons. cbn [py_min]. f_equal. apply Forall_foldl_min, Forall_fmap.
    eapply Forall_impl; [exact Hl|]. intros col [Hcol _]. unfold compose, addr.
    apply Z.add_le_mono_l, Z.mul_le_mono_nonneg_r; lia.
  - apply Henc. done.
Qed.

(** Where an error is: the location of its DMA word. *)
Definition error_addr (e : environment) (err : bist_error) : Z :=
  main_base e + err.1.1 * (dma_data_width e / 8).
Definition error_location {M : Migen} (e : environment) (err : bist_error) : result (Z * Z * Z) :=
  decode_bus (env_conv e) (error_addr e err) default_base default_bus_width.

(** The entry that an error should be given: under its row, at the index of its
    word within the row of its bank. *)
Definition expected_entry {M : Migen} (e : environment) (err : bist_error) (row : Z) (x : error) : Prop :=
  ∃ bank col first, error_location e err = Ok (bank, row, col)
    ∧ encode_bus (env_conv e) bank row 0 default_base default_bus_width = Ok first
    ∧ x = ((error_addr e err - first) / 4, err.1.2, err.2).

Lemma error_location_ok {M : Migen} e shift err :
  env_ok e shift → ∃ bank row col, error_location e err = Ok (bank, row, col)
    ∧ location_ok (env_conv e) bank row col.
Proof.
  intros []. unfold error_location, decode_bus. rewrite eo_shift0, ok_bind.
  eexists _, _, _. split; [done|]. destruct eo_geometry0 as (Hc & Hr & Hb & _).
  rewrite !extract_slice by lia. split_and!; by apply slice_bound.
Qed.

(** The cache holds addresses of one bank. *)
Definition cache_ok {M : Migen} (e : environment) (bank : Z) (cache : gmap Z (list Z)) : Prop :=
  ∀ row l, cache !! row = Some l → row_addresses (env_conv e) (env_colbits e) bank row = Ok l.

Lemma decode_error_step {M : Migen} e shift bank cache d err :
  env_ok e shift → cache_ok e bank cache →
  (∃ row col, error_location e err = Ok (bank, row, col)) →
  ∃ row x cache', decode_error e (d, cache) err = Ok (append_error row x d, cache')
    ∧ expected_entry e err row x ∧ cache_ok e bank cache'.
Proof.
  intros Hok Hcache (row & col & Hloc).
  destruct (error_location_ok e shift err Hok) as (b' & r' & c' & Hloc' & Hl). rewrite Hloc in Hloc'.
  injection Hloc' as <- <- <-.
  assert (location_ok (env_conv e) bank row 0) as Hl0.
  { destruct Hl as (? & ? & ?). split_and!; try done; try lia. }
  destruct (row_addresses_min e shift bank row Hok Hl0) as (l & first & Hrow & Hmin & Hfirst).
  destruct err as [[offset data] expected].
  assert (∃ cache', addresses_per_row e cache bank row = Ok (l, cache') ∧ cache_ok e bank cache')
    as (cache' & Hadr & Hc').
  { unfold addresses_per_row. destruct (cache !! row) as [l'|] eqn:E.
    - rewrite (Hcache _ _ E) in Hrow. injection Hrow as ->. by exists cache.
    - rewrite Hrow, ok_bind. eexists. split; [done|]. intros row' l'.
      destruct (decide (row' = row)) as [->|Hne].
      + rewrite lookup_insert_eq. by intros [= <-].
      + rewrite lookup_insert_ne by done. apply Hcache. }
  exists row, ((error_addr e (offset, data, expected) - first) / 4, data, expected), cache'.
  split_and!; [|by exists bank, col, first | done].
  unfold decode_error. unfold error_location in Hloc.
  change (main_base e + offset * (dma_data_width e / 8)) with (error_addr e (offset, data, expected)).
  rewrite Hloc, ok_bind, Hadr, ok_bind, Hmin, ok_bind. done.
Qed.

Definition group_errors (entries : list (Z * error)) (d : list (Z * list error)) : list (Z * list error) :=
  foldl (fun d '(row, x) => append_error row x d) d entries.

Lemma decode_errors_from {M : Migen} e shift bank errors : ∀ d cache,
  env_ok e shift → cache_ok e bank cache →
  Forall (fun err => ∃ row col, error_location e err = Ok (bank, row, col)) errors →
  ∃ entries cache', result_fold (decode_error e) (d, cache) errors = Ok (group_errors entries d, cache')
    ∧ Forall2 (fun err '(row, x) => expected_entry e err row x) errors entries.
Proof.
  induction errors as [|err errors IH]; intros d cache Hok Hcache Hall.
  - exists [], cache. split; [done | constructor].
  - apply Forall_cons_1 in Hall as [Herr Hall].
    destruct (decode_error_step e shift bank cache d err Hok Hcache Herr) as (row & x & c' & H & Hx & Hc').
    destruct (IH (append_error row x d) c' Hok Hc' Hall) as (entries & cache' & H' & Hf).
    exists ((row, x) :: entries), cache'. cbn [result_fold]. rewrite H, ok_bind. split; [exact H'|].
    by constructor.
Qed.

(** C27: Errors of a memory test are reported in the right place.  For errors in
    one bank, as the playbook's payloads hammer a single bank, [decode_errors]
    lists every error once under the row that holds it, in the order found,
    with the index of its word counted from the first column of that row. *)
Theorem decode_errors_exact {M : Migen} e shift bank errors :
  env_ok e shift →
  Forall (fun err => ∃ row col, error_location e err = Ok (bank, row, col)) errors →
  ∃ entries cache, decode_errors e ∅ errors = Ok (group_errors entries [], cache)
    ∧ Forall2 (fun err '(row, x) => expected_entry e err row x) errors entries.
Proof. intros Hok Hall. by apply (decode_errors_from e shift bank). Qed.

(** A memory with 8 columns, 2 banks and 16 rows behind a 32-bit port. *)
Definition demo_env : environment :=
  Environment (MkConverter 3 4 1 0 32) default_base 1024 4 3 1 (Timings 5 3 42 10) 256 100 32.

Lemma demo_env_ok : env_ok demo_env 2.
Proof. constructor; vm_compute; intuition congruence. Qed.

Lemma decode_errors_exact_witness :
  ∃ entries cache, decode_errors demo_env ∅ [(35, 1, 0); (51, 2, 0); (36, 4, 0)]
    = Ok (group_errors entries [], cache).
Proof.
  destruct (decode_errors_exact demo_env 2 0 [(35, 1, 0); (51, 2, 0); (36, 4, 0)])
    as (entries & cache & H & _).
  - apply demo_env_ok.
  - repeat (apply Forall_cons_2; [by eexists _, _; vm_compute|]). apply Forall_nil_2.
  - exists entries, cache. exact H.
Defined.

(** With errors in two banks of the same row the cached addresses of the first
    bank are used for the second: the word with index 3 is reported as 11. *)
Example decode_errors_two_banks :
  (r ← decode_errors demo_env ∅ [(35, 1, 0); (43, 1, 0)]; Ok r.1)
  = Ok [(2, [(3, 1, 0); (11, 1, 0)])]
  ∧ (r ← decode_errors demo_env ∅ [(43, 1, 0)]; Ok r.1) = Ok [(2, [(3, 1, 0)])].
Proof. split; reflexivity. Qed.

(** ** The generators in the loop *)

Section loop.
Context {M : Migen} {B : Board}.

Lemma main_loop_raises {S : Type} `{!PayloadGenerator S} e row_pattern fuel (s : S) b cache range x :
  pg_done s = false → pg_memset_range e s = Ok range → pg_payload e 0 s = Raise x →
  main_loop e row_pattern (Datatypes.S fuel) (s, b, cache) = Some (Raise x).
Proof.
  intros Hd Hr Hp. cbn [main_loop fst]. rewrite Hd. unfold main_iteration.
  rewrite Hr, ok_bind. destruct range as [offset size]. by rewrite Hp.
Qed.

Lemma hammer_tolerance_payload_error e bank s rows i :
  HammerTolerance.aggressors s = Ok rows →
  pmod (HammerTolerance.iteration s) (HammerTolerance.iters_per_row s) = Ok i →
  HammerTolerance.get_payload e bank s = Raise TypeError.
Proof. intros Hr Hi. unfold HammerTolerance.get_payload. by rewrite Hr, ok_bind, Hi. Qed.

Lemma half_double_payload_error p t bankbits bank size s rows :
  HalfDoubleRows.generate_rows (HalfDouble.row_generator s) (HalfDouble.iteration s) = Ok rows →
  get_payload p t bankbits bank size s = Raise TypeError.
Proof. intros Hr. unfold get_payload. by rewrite Hr. Qed.
End loop.

(** As the code stands, no playbook round that hammers a row list gets past
    payload generation: [get_payload] calls [generate_payload_from_row_list]
    without its required [nranks] and [rank], so the main loop raises
    [TypeError] in its first round, whatever the board does.  The
    hammer-tolerance and half-double generators make the same call, see
    [hammer_tolerance_payload_error] and [half_double_payload_error]. *)
Theorem playbook_payload_type_error {M : Migen} {B : Board} e row_pattern fuel s b cache range rows :
  RowList.done s = false → RowList.get_memset_range e s = Ok range →
  generate_rows (RowList.row_generator s) (RowList.iteration s) = Ok rows →
  main_loop (S := RowList.t) e row_pattern (Datatypes.S fuel) (s, b, cache) = Some (Raise TypeError).
Proof.
  intros Hd Hr Hrows. apply (main_loop_raises e row_pattern fuel s b cache range); [done..|].
  cbn. unfold RowList.get_payload. by rewrite Hrows.
Qed.

(** A board without errors. *)
Definition quiet_board : Board := {|
  board := unit;
  hw_memset _ _ _ b := b;
  execute_payload _ b := b;
  hw_memtest _ _ _ b := ([], b);
|}.

Lemma playbook_payload_type_error_witness :
  let s := RowList.Mk TrivialRowMapping (RowSeq.generator (RowSeq.Mk [1; 3] TrivialRowMapping))
             10 false true 100 false 0 in
  main_loop (B := quiet_board) (S := RowList.t) demo_env 0 1 (s, tt, ∅) = Some (Raise TypeError).
Proof.
  intros s. apply (playbook_payload_type_error (B := quiet_board) demo_env 0 0 s tt ∅ (0, 1024) [1; 3]);
    reflexivity.
Defined.

(** ** Hammer tolerance *)

(** The hammer-tolerance experiment attacks and tests the same victim.  As
    long as the window of aggressors fits below [nr_rows], the two hammered
    rows are at the configured distance on both sides of the logical row that
    is tested afterwards, and the rows of the window from the first aggressor to
    the victim are consecutive. *)
Theorem hammer_tolerance_surrounds s :
  let q := HammerTolerance.iteration s / HammerTolerance.iters_per_row s in
  let d := HammerTolerance.distance s in
  let phys := @logical_to_physical (HammerTolerance.row_mapping s) in
  HammerTolerance.run_baseline s = false → 0 ≤ HammerTolerance.iteration s →
  0 < HammerTolerance.iters_per_row s → 1 ≤ d → q + 2 * d < HammerTolerance.nr_rows s →
  ∃ victim,
    HammerTolerance.get_row_for_iter s d = Ok (victim, phys victim)
    ∧ HammerTolerance.aggressors s = Ok [phys (victim - d); phys (victim + d)]
    ∧ 0 ≤ victim - d ∧ victim + d < HammerTolerance.nr_rows s
    ∧ ∀ i, 0 ≤ i ≤ d → HammerTolerance.get_row_for_iter s i = Ok (victim - d + i, phys (victim - d + i)).
Proof.
  intros q d phys Hb Hi Hp Hd Hw. pose proof (Z.div_pos _ _ Hi Hp) as Hq. fold q in Hq.
  assert (∀ i, 0 ≤ i ≤ d → HammerTolerance.get_row_for_iter s i = Ok (q + i, phys (q + i))) as Hrow.
  { intros i Hi'. unfold HammerTolerance.get_row_for_iter. fold d.
    rewrite (proj2 (Z.ltb_lt _ _)) by lia. cbn [passert]. rewrite ok_bind.
    unfold pdiv. rewrite (proj2 (Z.eqb_neq _ 0)) by lia. fold q.
    rewrite ok_bind, pmod_small, ok_bind by lia. done. }
  exists (q + d). split_and!; try lia.
  - apply Hrow. lia.
  - unfold HammerTolerance.aggressors. rewrite Hb. cbn [negb]. rewrite (Hrow 0) by lia.
    rewrite !ok_bind. fold d phys. do 2 f_equal; [f_equal; lia|]. do 2 f_equal. lia.
  - intros i Hi'. rewrite Hrow by lia. do 2 f_equal; [|f_equal]; lia.
Qed.

Definition demo_tolerance (iteration : Z) : HammerTolerance.t :=
  HammerTolerance.Mk TypeARowMapping 320 true 34 10000 10 4 true 10000 1 false None false None
    HammerTolerance.no_stats iteration.

Lemma hammer_tolerance_surrounds_witness :
  ∃ victim, HammerTolerance.get_row_for_iter (demo_tolerance 75) 1 = Ok (victim, type_a victim)
    ∧ HammerTolerance.aggressors (demo_tolerance 75) = Ok [type_a (victim - 1); type_a (victim + 1)].
Proof.
  destruct (hammer_tolerance_surrounds (demo_tolerance 75)) as (v & Hv & Ha & _).
  - reflexivity.
  - vm_compute. congruence.
  - reflexivity.
  - vm_compute. congruence.
  - reflexivity.
  - exists v. split; [exact Hv | exact Ha].
Defined.

(** *** Counting flips *)

Lemma ones_in_split v lo n m :
  0 ≤ n → 0 ≤ m →
  HammerTolerance.ones_in v lo (n + m) = HammerTolerance.ones_in v lo n + HammerTolerance.ones_in v (lo + n) m.
Proof.
  intros Hn Hm. unfold HammerTolerance.ones_in.
  rewrite zrange_add, countb_app, countb_fmap, Nat2Z.inj_add by done. do 2 f_equal.
  apply countb_ext. intros i _. by rewrite Z.add_assoc.
Qed.

Lemma bitcount_step v : 0 ≤ v → bitcount v = (if Z.testbit v 0 then 1 else 0) + bitcount (v / 2).
Proof.
  intros Hv. destruct v as [|p|]; [done| |lia].
  rewrite <- Z.div2_div. destruct p as [p|p|]; simpl; lia.
Qed.

Lemma ones_in_bitcount n : ∀ v, 0 ≤ v < 2 ^ Z.of_nat n → HammerTolerance.ones_in v 0 n = bitcount v.
Proof.
  induction n as [|n IH]; intros v Hv.
  - assert (v = 0) as -> by (simpl in Hv; lia). done.
  - rewrite bitcount_step by lia. rewrite <- IH.
    2: { rewrite Nat2Z.inj_succ, Z.pow_succ_r in Hv by lia.
         split; [apply Z.div_pos; lia | apply Z.div_lt_upper_bound; lia]. }
    replace (Z.of_nat (S n)) with (1 + Z.of_nat n) by lia.
    rewrite ones_in_split by lia. f_equal.
    + unfold HammerTolerance.ones_in. change (zrange 1) with [0]. cbn [countb].
      rewrite Z.add_0_l. by destruct (Z.testbit v 0).
    + unfold HammerTolerance.ones_in. f_equal. apply countb_ext. intros i Hi%elem_of_zrange.
      rewrite <- Z.div2_div, Z.div2_spec, Z.shiftr_spec by lia. f_equal. lia.
Qed.

(** The eight beats of a read, with the chip statistics left aside. *)
Lemma beats_total chips dq_bits step flips beats : ∀ x total x' total',
  result_fold (HammerTolerance.beat_stats chips dq_bits step flips) (x, total) beats = Ok (x', total') →
  total' = total + foldr (fun b acc => HammerTolerance.ones_in flips (b * 64) 64 + acc) 0 beats
  ∧ HammerTolerance.bit_errors x' = HammerTolerance.bit_errors x.
Proof.
  induction beats as [|b beats IH]; intros x total x' total'; cbn [result_fold foldr].
  - intros [= -> ->]. split; [lia|done].
  - intros ([x1 t1] & H1 & H2)%bind_ok_inv. apply IH in H2 as [-> ->].
    unfold HammerTolerance.beat_stats in H1. apply bind_ok_inv in H1 as (_ & _ & H1).
    destruct (Z.eqb_spec (HammerTolerance.ones_in flips (b * 64) 64) 0);
      injection H1 as <- <-; (split; [lia|done]).
Qed.

Lemma beats_ones flips :
  foldr (fun b acc => HammerTolerance.ones_in flips (b * 64) 64 + acc) 0 (zrange 8)
  = HammerTolerance.ones_in flips 0 512.
Proof.
  change 512 with (64 + (64 + (64 + (64 + (64 + (64 + (64 + 64))))))).
  rewrite !ones_in_split by lia. change (zrange 8) with [0; 1; 2; 3; 4; 5; 6; 7].
  cbn [foldr]. rewrite Z.add_0_r. reflexivity.
Qed.

(** The bit statistics are exact.  When [gather_full_stats] accepts a list
    of read errors of at most 512 bits, it adds to the bit errors of the step
    the number of bits in which the data read differs from what was expected. *)
Theorem gather_full_stats_bits chips step errors x x' :
  Forall (fun '(_, value, expected) => 0 ≤ Z.lxor value expected) errors →
  errors ≠ [] → HammerTolerance.gather_full_stats chips step errors x = Ok x' →
  HammerTolerance.bit_errors x' !! step
    = Some (default 0 (HammerTolerance.bit_errors x !! step) + sum_bitflips errors)
  ∧ ∀ step', step' ≠ step → HammerTolerance.bit_errors x' !! step' = HammerTolerance.bit_errors x !! step'.
Proof.
  intros Hpos Hne. unfold HammerTolerance.gather_full_stats. intros (dq & _ & H)%bind_ok_inv.
  revert x H. destruct errors as [|err errors]; [done|]. clear Hne.
  revert err Hpos. induction errors as [|err' errors IH]; intros err Hpos x H;
    apply Forall_cons_1 in Hpos as [Hv Hpos]; cbn [result_fold] in H;
    apply bind_ok_inv in H as (x1 & H1 & H);
    destruct err as [[addr value] expected]; unfold HammerTolerance.gather_error in H1;
    apply bind_ok_inv in H1 as (_ & Hlt%passert_ok_inv%Z.ltb_lt & H1);
    apply bind_ok_inv in H1 as ([x2 total] & Hb & [= <-]);
    apply beats_total in Hb as [-> Hbits]; rewrite beats_ones in H;
    pose proof (ones_in_bitcount 512 (Z.lxor value expected) (conj Hv Hlt)) as Hones;
    change (Z.of_nat 512) with 512 in Hones; rewrite Hones in H.
  - injection H as <-. cbn [HammerTolerance.bit_errors sum_bitflips foldr]. rewrite Hbits.
    unfold bitflips. split.
    + rewrite lookup_insert_eq. f_equal. lia.
    + intros step' Hs. by rewrite lookup_insert_ne.
  - specialize (IH err' Hpos _ H) as [IH1 IH2].
    cbn [HammerTolerance.bit_errors] in *. rewrite Hbits in *. split.
    + rewrite IH1, lookup_insert_eq. cbn [default from_option sum_bitflips foldr].
      unfold bitflips, sum_bitflips. simpl. f_equal. lia.
    + intros step' Hs. rewrite IH2 by done. by rewrite lookup_insert_ne.
Qed.

Lemma gather_full_stats_bits_witness :
  ∃ x', HammerTolerance.gather_full_stats 4 10000 [(0, 7, 0); (1, 1, 3)] HammerTolerance.no_stats = Ok x'
    ∧ HammerTolerance.bit_errors x' !! 10000 = Some 4.
Proof.
  destruct (HammerTolerance.gather_full_stats 4 10000 [(0, 7, 0); (1, 1, 3)] HammerTolerance.no_stats)
    as [x'|] eqn:E; [|vm_compute in E; discriminate E].
  exists x'. split; [reflexivity|].
  apply (gather_full_stats_bits 4 10000 [(0, 7, 0); (1, 1, 3)] HammerTolerance.no_stats x').
  - repeat (apply Forall_cons_2; [vm_compute; congruence|]). apply Forall_nil_2.
  - discriminate.
  - exact E.
Defined.

(** The histogram of chips with errors counts all chips for every beat with an
    error: a single flipped bit is recorded as an error of four chips. *)
Example chips_with_errors_counts_all :
  (x ← HammerTolerance.gather_full_stats 4 10000 [(0, 1, 0)] HammerTolerance.no_stats;
   Ok (HammerTolerance.chips_with_errors_per_beat x !! (10000, 4),
       map_to_list (HammerTolerance.chip_errors_per_beat x)))
  = Ok (Some 1, [((10000, 0, 1), 1)]).
Proof. vm_compute. reflexivity. Qed.
