(* ===== verification/Bist.v ===== *)
(** * Built-in self test gateware

    Models [src/rowhammer_tester/gateware/bist.py]: the address selector and the
    data inverter, the [Writer] that fills the memory with a pattern and the
    [Reader] that checks it, and [src/rowhammer_tester/gateware/rowhammer.py].
    A cycle function per module as in [Executor]; DMA engines and FIFOs are
    LiteDRAM's and LiteX's and appear as inputs. *)

From S2P Require Import Prelude.

(** Parameters of a BIST module: widths and contents of the pattern memories,
    and the position of the row bits used for inversion. *)
Record bist_cfg := BistCfg {
  mem_depth : Z;            (* of the pattern memories *)
  addr_width : Z;           (* of DMA addresses *)
  data_width : Z;
  rowbits : Z;
  row_shift : Z;
}.

(** Control registers, constant during an operation. *)
Record bist_csr := BistCsr {
  modulo : bool;
  count : Z;
  mem_mask : Z;
  data_mask : Z;
  data_div : Z;
  divisor_mask : Z;
  selection_mask : Z;
}.

(** [RowDataInverter.__init__] accepts at most 6 row bits. *)
Definition RowDataInverter_init (rowbits : Z) : result unit := passert (rowbits <=? 6).

(** ** Address selector and inverter *)
Record inv_regs := InvRegs {
  decoder_i : Z;
  selected : bool;
  data_out : Z;
}.

Section inverter.
Context {M : Migen} (cfg : bist_cfg) (csr : bist_csr).

(** [AddressSelector] on the row bits of an address. *)
Definition AddressSelector_cycle (address : Z) (r : inv_regs) : Z * bool :=
  (Z.land address (divisor_mask csr),
   negb (Z.land (selection_mask csr) (onehot (decoder_i r)) =? 0)).

Definition RowDataInverter_cycle (addr data_in : Z) (r : inv_regs) : inv_regs :=
  let '(i, sel) := AddressSelector_cycle (slice addr (row_shift cfg) (rowbits cfg)) r in
  InvRegs i sel (if selected r then trunc (data_width cfg) (Z.lnot data_in) else data_in).

(** What the inverter computes for a stable address and data. *)
Definition row_selected (addr : Z) : bool :=
  Z.testbit (selection_mask csr)
    (Z.land (slice addr (row_shift cfg) (rowbits cfg)) (divisor_mask csr)).
Definition inverted (addr data : Z) : Z :=
  if row_selected addr then trunc (data_width cfg) (Z.lnot data) else data.
End inverter.

(** [Signal(max=pattern_mem.data.depth)]. *)
Definition mask_bits (cfg : bist_cfg) : Z := signal_max_bits (mem_depth cfg).

(** ** Writer *)
Inductive writer_fsm :=
  W_READY | W_COMPUTE_MEM_ADDR | W_WAIT_FOR_DRAM_ADDR | W_COMPUTE_DRAM_ADDR | W_INVERT_COMPUTE | W_SEND.

#[global] Instance writer_fsm_eq_dec : EqDecision writer_fsm.
Proof. solve_decision. Defined.

Record writer_regs := WriterRegs {
  w_fsm : writer_fsm;
  cmd_counter : Z;
  mem_addr : Z;
  dram_addr : Z;
  wait_counter : Z;
  w_port : Z;               (* address latched by the two pattern memory ports *)
  w_inv : inv_regs;
  last_address : Z;
}.

Record writer_in := WriterIn { w_start : bool; sink_ready : bool }.

Section writer.
Context {M : Migen} (cfg : bist_cfg) (csr : bist_csr) (data_mem addr_mem : Z → Z).

(** The FSM: next state, [cmd_counter], [mem_addr], [dram_addr] and
    [wait_counter]. *)
Definition writer_next (i : writer_in) (s : writer_regs) : writer_fsm * Z * Z * Z * Z :=
  let keep f := (f, cmd_counter s, mem_addr s, dram_addr s, wait_counter s) in
  match w_fsm s with
  | W_READY =>
      if w_start i then (W_COMPUTE_MEM_ADDR, 0, 0, dram_addr s, wait_counter s) else keep W_READY
  | W_COMPUTE_MEM_ADDR =>
      let m := if negb (modulo csr)
               then Z.land (slice (cmd_counter s) 0 (mask_bits cfg)) (data_mask csr)
               else mem_addr s in
      (if count csr <=? cmd_counter s then W_READY else W_WAIT_FOR_DRAM_ADDR,
       cmd_counter s, m, dram_addr s, wait_counter s)
  | W_WAIT_FOR_DRAM_ADDR => keep W_COMPUTE_DRAM_ADDR
  | W_COMPUTE_DRAM_ADDR =>
      (W_INVERT_COMPUTE, cmd_counter s, mem_addr s,
       trunc (addr_width cfg) (addr_mem (w_port s) + Z.land (cmd_counter s) (mem_mask csr)), 0)
  | W_INVERT_COMPUTE =>
      (if wait_counter s =? 2 then W_SEND else W_INVERT_COMPUTE,
       cmd_counter s, mem_addr s, dram_addr s, trunc 2 (wait_counter s + 1))
  | W_SEND =>
      if sink_ready i then
        (W_COMPUTE_MEM_ADDR, trunc 32 (cmd_counter s + 1),
         if modulo csr && (mem_addr s =? data_div csr) then 0
         else if modulo csr then trunc (mask_bits cfg) (mem_addr s + 1) else mem_addr s,
         dram_addr s, wait_counter s)
      else keep W_SEND
  end.

(** The transfer that the DMA accepts in a cycle. *)
Definition writer_transfer (i : writer_in) (s : writer_regs) : option (Z * Z) :=
  if bool_decide (w_fsm s = W_SEND) && sink_ready i then Some (dram_addr s, data_out (w_inv s)) else None.

Definition writer_cycle (i : writer_in) (s : writer_regs) : option (Z * Z) * writer_regs :=
  let '(f, c, m, d, w) := writer_next i s in
  let x := writer_transfer i s in
  (x, WriterRegs f c m d w (mem_addr s)
        (RowDataInverter_cycle cfg csr (dram_addr s) (data_mem (w_port s)) (w_inv s))
        (match x with Some _ => dram_addr s | None => last_address s end)).

(** The transfers of a run, in order. *)
Fixpoint writer_run (ins : list writer_in) (s : writer_regs) : list (Z * Z) * writer_regs :=
  match ins with
  | [] => ([], s)
  | i :: ins' =>
      let '(x, s1) := writer_cycle i s in
      let '(xs, s2) := writer_run ins' s1 in
      (option_list x ++ xs, s2)
  end.

(** *** Specification: transfer number [k] *)
Definition pattern_index (k : Z) : Z :=
  if modulo csr then k mod (data_div csr + 1)
  else Z.land (slice k 0 (mask_bits cfg)) (data_mask csr).
Definition transfer_address (k : Z) : Z :=
  trunc (addr_width cfg) (addr_mem (pattern_index k) + Z.land k (mem_mask csr)).
Definition transfer (k : Z) : Z * Z :=
  (transfer_address k, inverted cfg csr (transfer_address k) (data_mem (pattern_index k))).
Definition transfers (n : Z) : list (Z * Z) := transfer ∘ Z.of_nat <$> seq 0 (Z.to_nat n).
End writer.

(** ** Reader: address FSM *)
Inductive reader_addr_fsm :=
  RA_READY | RA_COMPUTE_MEM_ADDR | RA_WAIT_FOR_DRAM_ADDR | RA_COMPUTE_DRAM_ADDR
  | RA_PUSH_TO_FIFO | RA_PUSH_TO_DMA.

Record reader_addr_regs := ReaderAddrRegs {
  ra_fsm : reader_addr_fsm;
  counter_addr : Z;
  ra_mem_addr : Z;
  ra_dram_addr : Z;
  ra_port : Z;
}.

(** Inputs: start, the address FIFO's and the DMA's ready. *)
Record reader_addr_in := ReaderAddrIn { ra_start : bool; fifo_ready : bool; dma_ready : bool }.

(** Outputs: the addresses that the FIFO and the DMA accept. *)
Record reader_addr_out := ReaderAddrOut { to_fifo : option Z; to_dma : option Z }.

Section reader_addr.
Context (cfg : bist_cfg) (csr : bist_csr) (addr_mem : Z → Z).

Definition reader_addr_cycle (i : reader_addr_in) (s : reader_addr_regs)
    : reader_addr_out * reader_addr_regs :=
  let none := ReaderAddrOut None None in
  let next f c m d := ReaderAddrRegs f c m d (ra_mem_addr s) in
  let keep f := next f (counter_addr s) (ra_mem_addr s) (ra_dram_addr s) in
  match ra_fsm s with
  | RA_READY =>
      (none, if ra_start i then next RA_COMPUTE_MEM_ADDR 0 0 (ra_dram_addr s) else keep RA_READY)
  | RA_COMPUTE_MEM_ADDR =>
      let m := if negb (modulo csr)
               then Z.land (slice (counter_addr s) 0 (mask_bits cfg)) (data_mask csr)
               else ra_mem_addr s in
      (none, next (if count csr <=? counter_addr s then RA_READY else RA_WAIT_FOR_DRAM_ADDR)
               (counter_addr s) m (ra_dram_addr s))
  | RA_WAIT_FOR_DRAM_ADDR => (none, keep RA_COMPUTE_DRAM_ADDR)
  | RA_COMPUTE_DRAM_ADDR =>
      (none, next RA_PUSH_TO_FIFO (counter_addr s) (ra_mem_addr s)
               (trunc (addr_width cfg) (addr_mem (ra_port s) + Z.land (counter_addr s) (mem_mask csr))))
  | RA_PUSH_TO_FIFO =>
      if fifo_ready i then (ReaderAddrOut (Some (ra_dram_addr s)) None, keep RA_PUSH_TO_DMA)
      else (none, keep RA_PUSH_TO_FIFO)
  | RA_PUSH_TO_DMA =>
      if dma_ready i then
        (ReaderAddrOut None (Some (ra_dram_addr s)),
         next RA_COMPUTE_MEM_ADDR (trunc 32 (counter_addr s + 1))
           (if modulo csr && (ra_mem_addr s =? data_div csr) then 0
            else if modulo csr then trunc (mask_bits cfg) (ra_mem_addr s + 1) else ra_mem_addr s)
           (ra_dram_addr s))
      else (none, keep RA_PUSH_TO_DMA)
  end.

(** The addresses accepted by the FIFO and by the DMA during a run. *)
Fixpoint reader_addr_run (ins : list reader_addr_in) (s : reader_addr_regs)
    : list Z * list Z * reader_addr_regs :=
  match ins with
  | [] => ([], [], s)
  | i :: ins' =>
      let '(o, s1) := reader_addr_cycle i s in
      let '(fs, ds, s2) := reader_addr_run ins' s1 in
      (option_list (to_fifo o) ++ fs, option_list (to_dma o) ++ ds, s2)
  end.
End reader_addr.

(** ** Reader: pattern FSM *)
Inductive reader_fsm :=
  R_READY | R_COMPUTE_MEM_ADDR | R_WAIT_FOR_DRAM_ADDR | R_INVERT_COMPUTE | R_RD_DATA | R_WR_ERR.

#[global] Instance reader_fsm_eq_dec : EqDecision reader_fsm.
Proof. solve_decision. Defined.

(** An error: offset, data read, data expected. *)
Record reader_regs := ReaderRegs {
  r_fsm : reader_fsm;
  counter_gen : Z;
  data_mem_addr : Z;
  r_wait : Z;
  r_port : Z;
  r_inv : inv_regs;              (* data_out is data_expected *)
  error_count : Z;
  error_sink : Z * Z * Z;        (* registers before the error FIFO *)
}.

(** Inputs: the head of the address FIFO, the DMA's data, the error FIFO. *)
Record reader_in := ReaderIn {
  r_start : bool;
  af_valid : bool;
  af_address : Z;
  rd_valid : bool;
  rd_data : Z;
  ef_ready : bool;
  skip_fifo : bool;
}.

(** Outputs: whether the word is taken from the DMA and the address FIFO, and
    the error that the error FIFO accepts. *)
Record reader_out := ReaderOut { r_pop : bool; r_error : option (Z * Z * Z) }.

Section reader.
Context {M : Migen} (cfg : bist_cfg) (csr : bist_csr) (data_mem : Z → Z).

Definition reader_cycle (i : reader_in) (s : reader_regs) : reader_out * reader_regs :=
  let inv' := RowDataInverter_cycle cfg csr (af_address i) (data_mem (r_port s)) (r_inv s) in
  let next f c m w ec es := ReaderRegs f c m w (data_mem_addr s) inv' ec es in
  let keep f := next f (counter_gen s) (data_mem_addr s) (r_wait s) (error_count s) (error_sink s) in
  let quiet := ReaderOut false None in
  match r_fsm s with
  | R_READY =>
      (quiet, if r_start i then next R_COMPUTE_MEM_ADDR 0 0 (r_wait s) 0 (error_sink s) else keep R_READY)
  | R_COMPUTE_MEM_ADDR =>
      let m := if negb (modulo csr)
               then trunc (mask_bits cfg) (Z.land (counter_gen s) (data_mask csr)) else data_mem_addr s in
      (quiet, next (if count csr <=? counter_gen s then R_READY else R_WAIT_FOR_DRAM_ADDR)
                (counter_gen s) m (r_wait s) (error_count s) (error_sink s))
  | R_WAIT_FOR_DRAM_ADDR =>
      (quiet, if af_valid i
              then next R_INVERT_COMPUTE (counter_gen s) (data_mem_addr s) 0 (error_count s) (error_sink s)
              else keep R_WAIT_FOR_DRAM_ADDR)
  | R_INVERT_COMPUTE =>
      (quiet, next (if r_wait s =? 2 then R_RD_DATA else R_INVERT_COMPUTE)
                (counter_gen s) (data_mem_addr s) (trunc 2 (r_wait s + 1)) (error_count s) (error_sink s))
  | R_RD_DATA =>
      if rd_valid i then
        let expected := data_out (r_inv s) in
        let c := trunc 32 (counter_gen s + 1) in
        (ReaderOut true None,
         if negb (rd_data i =? expected) then
           next (if skip_fifo i then R_COMPUTE_MEM_ADDR else R_WR_ERR) c (data_mem_addr s) (r_wait s)
             (trunc 32 (error_count s + 1)) (af_address i, rd_data i, expected)
         else next R_COMPUTE_MEM_ADDR c (data_mem_addr s) (r_wait s) (error_count s) (error_sink s))
      else (quiet, keep R_RD_DATA)
  | R_WR_ERR =>
      (ReaderOut false (if ef_ready i then Some (error_sink s) else None),
       keep (if ef_ready i || skip_fifo i then R_COMPUTE_MEM_ADDR else R_WR_ERR))
  end.

Fixpoint reader_run (ins : list reader_in) (s : reader_regs) : list (Z * Z * Z) * reader_regs :=
  match ins with
  | [] => ([], s)
  | i :: ins' =>
      let '(o, s1) := reader_cycle i s in
      let '(errs, s2) := reader_run ins' s1 in
      (option_list (r_error o) ++ errs, s2)
  end.
End reader.

(** ** Reader: error FSM *)
Record error_regs := ErrorRegs { e_valid : bool; error_reg : Z * Z * Z }.

(** Inputs: the head of the error FIFO and [error_continue]. *)
Record error_in := ErrorIn { es_valid : bool; es_error : Z * Z * Z; e_ready : bool; e_skip : bool }.

(** Whether the FIFO's head is taken, and the next registers. *)
Definition error_cycle (i : error_in) (s : error_regs) : bool * error_regs :=
  if negb (e_valid s) then
    if es_valid i then (true, if negb (e_skip i) then ErrorRegs true (es_error i) else s)
    else (false, s)
  else if e_ready i && es_valid i then
    (true, if negb (e_skip i) then ErrorRegs true (es_error i) else ErrorRegs false (error_reg s))
  else if e_ready i then (false, ErrorRegs false (error_reg s))
  else (false, s).

(** The errors taken from the FIFO and the errors that the user acknowledged
    ([error_continue] while an error is presented) during a run. *)
Fixpoint error_run (ins : list error_in) (s : error_regs)
    : list (Z * Z * Z) * list (Z * Z * Z) * error_regs :=
  match ins with
  | [] => ([], [], s)
  | i :: ins' =>
      let '(pop, s1) := error_cycle i s in
      let '(taken, acked, s2) := error_run ins' s1 in
      ((if pop then es_error i :: taken else taken),
       (if e_valid s && e_ready i then error_reg s :: acked else acked), s2)
  end.

(** ** RowHammer DMA *)
Module RowHammerDMA.
Record csrs := Csrs { enabled : bool; address1 : Z; address2 : Z; count_we : bool }.

(** The address and valid signals towards the DMA in a cycle. *)
Definition sink (c : csrs) (counter : Z) : bool * Z :=
  (enabled c, if Z.testbit counter 0 then address2 c else address1 c).

(** [count_we] is asserted when the count register is accessed. *)
Definition cycle (c : csrs) (ready : bool) (counter : Z) : Z :=
  if enabled c then
    if (sink c counter).1 && ready then trunc 32 (counter + 1) else counter
  else if count_we c then 0 else counter.

(** The addresses accepted while the module is enabled. *)
Fixpoint run (a1 a2 : Z) (readys : list bool) (counter : Z) : list Z * Z :=
  match readys with
  | [] => ([], counter)
  | r :: readys' =>
      let c := Csrs true a1 a2 false in
      let '(xs, counter') := run a1 a2 readys' (cycle c r counter) in
      (if r then (sink c counter).2 :: xs else xs, counter')
  end.
End RowHammerDMA.
