(* ===== verification/BistFacts.v ===== *)
(** * Properties of the self test

    The writer transfers exactly the configured pattern, for any behaviour of
    the DMA's ready signal, and comes to an end; the reader reports exactly the
    words that differ from that pattern. *)

From S2P Require Import Prelude Bist.

Record csr_ok (cfg : bist_cfg) (csr : bist_csr) : Prop := {
  co_count : 0 ≤ count csr < 2 ^ 32;
  co_div : 0 ≤ data_div csr < 2 ^ mask_bits cfg;
  co_mask : 0 ≤ divisor_mask csr;
  co_rowbits : 0 ≤ rowbits cfg;
}.

Section writer.
Context {M : Migen} (cfg : bist_cfg) (csr : bist_csr) (data_mem addr_mem : Z → Z).
Context (Hok : csr_ok cfg csr).
Abbreviation index := (pattern_index cfg csr).
Abbreviation addr := (transfer_address cfg csr addr_mem).
Abbreviation cycle := (writer_cycle cfg csr data_mem addr_mem).
Abbreviation run := (writer_run cfg csr data_mem addr_mem).
Abbreviation xfers := (transfers cfg csr data_mem addr_mem).

(** The selector's one-hot comparison tests a bit of the selection mask. *)
Lemma selected_bit i m : 0 ≤ i → negb (Z.land m (onehot i) =? 0) = Z.testbit m i.
Proof.
  intros Hi. rewrite onehot_spec by done. destruct (Z.testbit m i) eqn:E.
  - apply negb_true_iff, Z.eqb_neq. intros H0.
    assert (Z.testbit (Z.land m (2 ^ i)) i = true) as Ht
      by (rewrite Z.land_spec, E, Z.pow2_bits_true by done; done).
    by rewrite H0, Z.bits_0 in Ht.
  - apply negb_false_iff, Z.eqb_eq. apply Z.bits_inj'. intros n Hn.
    rewrite Z.land_spec, Z.bits_0, Z.pow2_bits_eqb by done.
    destruct (Z.eqb_spec i n) as [->|]; [by rewrite E | apply andb_false_r].
Qed.

(** What has been computed in each state for transfer [k]. *)
Definition writer_inv (s : writer_regs) : Prop :=
  let k := cmd_counter s in
  0 ≤ k ≤ count csr
  ∧ match w_fsm s with
    | W_READY => k = count csr
    | W_COMPUTE_MEM_ADDR => modulo csr = true → mem_addr s = index k
    | W_WAIT_FOR_DRAM_ADDR => k < count csr ∧ mem_addr s = index k
    | W_COMPUTE_DRAM_ADDR => k < count csr ∧ mem_addr s = index k ∧ w_port s = index k
    | W_INVERT_COMPUTE =>
        k < count csr ∧ mem_addr s = index k ∧ w_port s = index k ∧ dram_addr s = addr k
        ∧ (wait_counter s = 0
           ∨ (wait_counter s = 1 ∨ wait_counter s = 2)
             ∧ decoder_i (w_inv s) = Z.land (slice (addr k) (row_shift cfg) (rowbits cfg)) (divisor_mask csr)
             ∧ (wait_counter s = 2 → selected (w_inv s) = row_selected cfg csr (addr k)))
    | W_SEND =>
        k < count csr ∧ mem_addr s = index k ∧ w_port s = index k ∧ dram_addr s = addr k
        ∧ decoder_i (w_inv s) = Z.land (slice (addr k) (row_shift cfg) (rowbits cfg)) (divisor_mask csr)
        ∧ selected (w_inv s) = row_selected cfg csr (addr k)
        ∧ data_out (w_inv s) = inverted cfg csr (addr k) (data_mem (index k))
    end.

Lemma index_succ k :
  0 ≤ k → modulo csr = true →
  (if index k =? data_div csr then 0 else trunc (mask_bits cfg) (index k + 1)) = index (k + 1).
Proof using Hok.
  intros Hk Hm. unfold pattern_index. rewrite Hm. destruct Hok.
  pose proof (Z.mod_pos_bound k (data_div csr + 1) ltac:(lia)).
  destruct (Z.eqb_spec (k mod (data_div csr + 1)) (data_div csr)) as [E|E].
  - rewrite <- (Z.add_mod_idemp_l k), E by lia. symmetry. apply Z.mod_same. lia.
  - rewrite trunc_small by lia. rewrite <- (Z.add_mod_idemp_l k) by lia. symmetry. apply Z.mod_small. lia.
Qed.

Lemma row_index_nonneg a :
  0 ≤ Z.land (slice a (row_shift cfg) (rowbits cfg)) (divisor_mask csr).
Proof using Hok.
  destruct Hok. apply Z.land_nonneg. left. by apply slice_bound.
Qed.

Lemma selector_cycle a r :
  decoder_i r = Z.land (slice a (row_shift cfg) (rowbits cfg)) (divisor_mask csr) →
  (AddressSelector_cycle csr (slice a (row_shift cfg) (rowbits cfg)) r).2 = row_selected cfg csr a.
Proof using Hok.
  intros H. unfold AddressSelector_cycle, row_selected. rewrite H. apply selected_bit, row_index_nonneg.
Qed.

Lemma writer_inv_step i s :
  writer_inv s → w_start i = false →
  let '(x, s') := cycle i s in
  writer_inv s' ∧ (match x with
                   | Some t => t = transfer cfg csr data_mem addr_mem (cmd_counter s)
                               ∧ cmd_counter s' = cmd_counter s + 1
                   | None => cmd_counter s' = cmd_counter s
                   end).
Proof using Hok.
  intros [Hk Hs] Hst. pose proof Hok as [].
  unfold writer_cycle, writer_next, writer_transfer, writer_inv in *.
  destruct (w_fsm s) eqn:Hf; cbn [bool_decide andb].
  - rewrite Hst. rewrite bool_decide_false by done. done.
  - rewrite bool_decide_false by done. cbn [andb cmd_counter w_fsm mem_addr].
    split; [|done]. split; [done|]. destruct (Z.leb_spec (count csr) (cmd_counter s)); [lia|].
    split; [done|]. unfold pattern_index in *. destruct (modulo csr); [by apply Hs | done].
  - rewrite bool_decide_false by done. destruct Hs as [Hlt Hm]. done.
  - rewrite bool_decide_false by done. destruct Hs as (Hlt & Hm & Hp).
    cbn [andb cmd_counter w_fsm mem_addr dram_addr wait_counter w_port]. rewrite Hp. auto 10.
  - rewrite bool_decide_false by done. destruct Hs as (Hlt & Hm & Hp & Ha & Hw).
    cbn [andb cmd_counter w_fsm mem_addr dram_addr wait_counter w_port w_inv].
    unfold RowDataInverter_cycle. rewrite Ha, Hp, Hm.
    destruct Hw as [->|([->| ->] & Hd & Hsel)]; cbn -[AddressSelector_cycle trunc].
    + change (trunc 2 (0 + 1)) with 1. split; [|done]. split; [done|]. split_and!; try done.
      right. split_and!; [by left | done | done].
    + change (trunc 2 (1 + 1)) with 2. split; [|done]. split; [done|]. split_and!; try done.
      right. split_and!; [by right | done |]. intros _. by apply selector_cycle.
    + split; [|done]. split; [done|]. pose proof (selector_cycle (addr (cmd_counter s)) (w_inv s) Hd) as Hsc.
      split_and!; try done. cbn -[row_selected AddressSelector_cycle]. rewrite Hsel by done.
      by destruct (AddressSelector_cycle _ _ _).
  - destruct Hs as (Hlt & Hm & Hp & Ha & Hd & Hsel & Hdat). rewrite bool_decide_true by done.
    pose proof (selector_cycle (addr (cmd_counter s)) (w_inv s) Hd) as Hsc.
    destruct (sink_ready i); cbn [andb cmd_counter w_fsm mem_addr dram_addr wait_counter w_port w_inv].
    + rewrite trunc_small by lia. split.
      * split; [lia|]. intros Hmod. rewrite Hmod, Hm. cbn [andb]. apply index_succ; [apply Hk | done].
      * unfold transfer. by rewrite Ha, Hdat.
    + split; [|done]. split; [done|]. unfold RowDataInverter_cycle. rewrite Ha, Hp, Hm.
      simpl in *. split_and!; try done. unfold inverted. by rewrite Hsel.
Qed.

Lemma xfers_succ n :
  0 ≤ n → xfers (n + 1) = xfers n ++ [transfer cfg csr data_mem addr_mem n].
Proof.
  intros Hn. unfold transfers. replace (Z.to_nat (n + 1)) with (S (Z.to_nat n)) by lia.
  rewrite seq_S, fmap_app. cbn. by rewrite Z2Nat.id.
Qed.

Lemma writer_run_cons i ins s :
  run (i :: ins) s =
    (option_list (cycle i s).1 ++ (run ins (cycle i s).2).1, (run ins (cycle i s).2).2).
Proof.
  cbn [writer_run]. destruct (cycle i s) as [x s1]. cbn [fst snd]. by destruct (run ins s1).
Qed.

Definition no_start (ins : list writer_in) : Prop := Forall (fun i => w_start i = false) ins.

Lemma writer_run_inv ins s :
  writer_inv s → no_start ins →
  writer_inv (run ins s).2
  ∧ xfers (cmd_counter s) ++ (run ins s).1 = xfers (cmd_counter (run ins s).2).
Proof using Hok.
  intros Hinv Hns. revert s Hinv. induction Hns as [|i ins Hi _ IH]; intros s Hinv.
  - simpl. by rewrite app_nil_r.
  - rewrite writer_run_cons. cbn [fst snd]. pose proof (writer_inv_step i s Hinv Hi) as Hstep.
    destruct (cycle i s) as [x s1]. cbn [fst snd]. destruct Hstep as [Hinv1 Hx].
    destruct (IH s1 Hinv1) as [Hinv2 Hrun]. split; [done|]. rewrite <- Hrun.
    destruct x as [t|]; cbn [option_list].
    + destruct Hx as [-> ->]. rewrite xfers_succ by apply Hinv. by rewrite <- app_assoc.
    + by rewrite Hx.
Qed.

(** Cycles still needed when the DMA is always ready. *)
Definition writer_work (s : writer_regs) : Z :=
  let n := 7 * (count csr - cmd_counter s) in
  match w_fsm s with
  | W_READY => 0
  | W_COMPUTE_MEM_ADDR => n + 1
  | W_WAIT_FOR_DRAM_ADDR => n
  | W_COMPUTE_DRAM_ADDR => n - 1
  | W_INVERT_COMPUTE => n - 2 - wait_counter s
  | W_SEND => n - 5
  end.

Lemma writer_work_step i s :
  writer_inv s → w_start i = false →
  let s' := (cycle i s).2 in
  0 ≤ writer_work s' ∧ writer_work s' ≤ writer_work s
  ∧ (sink_ready i = true → w_fsm s ≠ W_READY → writer_work s' ≤ writer_work s - 1).
Proof using Hok.
  intros Hinv Hst. pose proof (writer_inv_step i s Hinv Hst) as Hstep.
  pose proof Hok as []. destruct Hinv as [Hk Hs].
  unfold writer_cycle, writer_next, writer_work in *. cbv zeta.
  destruct (w_fsm s) eqn:Hf; cbn [snd w_fsm cmd_counter wait_counter] in *.
  - rewrite Hst. cbn. split_and!; try lia. done.
  - destruct (Z.leb_spec (count csr) (cmd_counter s)); split_and!; intros; lia.
  - split_and!; intros; lia.
  - split_and!; intros; lia.
  - destruct Hs as (Hlt & _ & _ & _ & [Hw|([Hw|Hw] & _)]); rewrite Hw; cbn;
      change (trunc 2 (0 + 1)) with 1; change (trunc 2 (1 + 1)) with 2; split_and!; intros; lia.
  - destruct Hs as [Hlt _]. destruct (sink_ready i); cbn.
    + rewrite trunc_small by lia. split_and!; intros; lia.
    + split_and!; intros; try lia.
Qed.

Lemma writer_run_done ins s :
  writer_inv s → no_start ins →
  writer_work s ≤ countb sink_ready ins → w_fsm (run ins s).2 = W_READY.
Proof using Hok.
  intros Hinv Hns. revert s Hinv. induction Hns as [|i ins Hi Hns IH]; intros s Hinv Hw.
  - simpl in *. destruct Hinv as [Hk Hs]. unfold writer_work in Hw.
    destruct (w_fsm s); try done; lia.
  - rewrite writer_run_cons. cbn [snd]. pose proof (writer_inv_step i s Hinv Hi) as Hstep.
    destruct (writer_work_step i s Hinv Hi) as (H0 & Hle & Hlt).
    destruct (cycle i s) as [x s1]. cbn [snd] in *. destruct Hstep as [Hinv1 _].
    apply IH; [done|]. cbn [countb] in Hw.
    destruct (sink_ready i) eqn:Hr; [|lia].
    destruct (decide (w_fsm s = W_READY)) as [E|E]; [|specialize (Hlt eq_refl E); lia].
    unfold writer_work in Hle at 2. rewrite E in Hle. lia.
Qed.
End writer.

Lemma writer_from_ready {M : Migen} cfg csr data_mem addr_mem s sr ins :
  csr_ok cfg csr → w_fsm s = W_READY → no_start ins →
  let r := writer_run cfg csr data_mem addr_mem (WriterIn true sr :: ins) s in
  r.1 = transfers cfg csr data_mem addr_mem (cmd_counter r.2)
  ∧ cmd_counter r.2 ≤ count csr
  ∧ (w_fsm r.2 = W_READY → r.1 = transfers cfg csr data_mem addr_mem (count csr))
  ∧ (7 * count csr + 1 ≤ countb sink_ready ins → w_fsm r.2 = W_READY).
Proof.
  intros Hok Hf Hns r. unfold r. clear r. rewrite writer_run_cons. cbn [fst snd].
  set (s1 := (writer_cycle cfg csr data_mem addr_mem (WriterIn true sr) s).2).
  assert (w_fsm s1 = W_COMPUTE_MEM_ADDR ∧ cmd_counter s1 = 0 ∧ mem_addr s1 = 0
    ∧ (writer_cycle cfg csr data_mem addr_mem (WriterIn true sr) s).1 = None) as (E1 & E2 & E3 & E4).
  { unfold s1, writer_cycle, writer_next, writer_transfer. rewrite Hf. done. }
  rewrite E4. cbn [option_list app].
  assert (writer_inv cfg csr data_mem addr_mem s1) as Hinv.
  { destruct Hok. unfold writer_inv. rewrite E1, E2, E3. split; [lia|]. intros Hm.
    unfold pattern_index. by rewrite Hm, Z.mod_0_l by lia. }
  destruct (writer_run_inv cfg csr data_mem addr_mem Hok ins s1 Hinv Hns) as [Hinv2 Hrun].
  rewrite E2 in Hrun. simpl in Hrun. split_and!; [done | apply Hinv2 | |].
  - intros Hr. destruct Hinv2 as [_ Hc]. rewrite Hr in Hc. by rewrite <- Hc.
  - intros Hw. apply (writer_run_done cfg csr data_mem addr_mem Hok); [done..|].
    unfold writer_work. rewrite E1, E2. lia.
Qed.

Lemma writer_ready_transfers {M : Migen} cfg csr data_mem addr_mem s sr ins :
  csr_ok cfg csr → w_fsm s = W_READY → no_start ins →
  w_fsm (writer_run cfg csr data_mem addr_mem (WriterIn true sr :: ins) s).2 = W_READY →
  (writer_run cfg csr data_mem addr_mem (WriterIn true sr :: ins) s).1
  = transfers cfg csr data_mem addr_mem (count csr).
Proof. intros Hok Hf Hns. by apply (writer_from_ready cfg csr data_mem addr_mem s sr ins). Qed.

(** The writer fills memory with the configured pattern.  From READY, after
    a start request and for any behaviour of the DMA's ready signal: the
    transfers accepted so far are the first ones of the specified sequence
    (pattern index by mask or modulo, address offset by the transfer number,
    data inverted in the selected rows), [done] tells how many, the writer is
    READY again only after all [count] of them, and it is READY after at most
    [7 * count + 1] cycles in which the DMA is ready. *)
Theorem writer_writes_pattern {M : Migen} cfg csr data_mem addr_mem s sr ins :
  csr_ok cfg csr → w_fsm s = W_READY → no_start ins →
  let r := writer_run cfg csr data_mem addr_mem (WriterIn true sr :: ins) s in
  r.1 = transfers cfg csr data_mem addr_mem (cmd_counter r.2)
  ∧ cmd_counter r.2 ≤ count csr
  ∧ (w_fsm r.2 = W_READY → r.1 = transfers cfg csr data_mem addr_mem (count csr))
  ∧ (7 * count csr + 1 ≤ countb sink_ready ins → w_fsm r.2 = W_READY).
Proof. apply writer_from_ready. Qed.

Definition demo_bist : bist_cfg := BistCfg 4 24 8 5 3.
Definition demo_csr : bist_csr := BistCsr false 3 255 1 0 1 2.
Definition demo_writer : writer_regs := WriterRegs W_READY 0 0 0 0 0 (InvRegs 0 false 0) 0.

Lemma writer_writes_pattern_witness :
  (writer_run demo_bist demo_csr (fun a => 85 + a) (fun a => 8 * a)
    (WriterIn true true :: replicate 22 (WriterIn false true)) demo_writer).1
  = [(0, 85); (9, 169); (2, 85)].
Proof.
  destruct (writer_writes_pattern demo_bist demo_csr (fun a => 85 + a) (fun a => 8 * a) demo_writer true
    (replicate 22 (WriterIn false true))) as (_ & _ & Hr & Hw).
  - constructor; vm_compute; intuition congruence.
  - reflexivity.
  - by apply Forall_replicate.
  - rewrite Hr; [reflexivity|]. apply Hw. vm_compute. congruence.
Defined.

(** ** Reader: addresses *)
Section reader_addr.
Context (cfg : bist_cfg) (csr : bist_csr) (addr_mem : Z → Z) (Hok : csr_ok cfg csr).
Abbreviation index := (pattern_index cfg csr).
Abbreviation addr := (transfer_address cfg csr addr_mem).
Abbreviation cycle := (reader_addr_cycle cfg csr addr_mem).
Abbreviation run := (reader_addr_run cfg csr addr_mem).

Definition addresses (n : Z) : list Z := addr ∘ Z.of_nat <$> seq 0 (Z.to_nat n).

Lemma addresses_succ n : 0 ≤ n → addresses (n + 1) = addresses n ++ [addr n].
Proof.
  intros Hn. unfold addresses. replace (Z.to_nat (n + 1)) with (S (Z.to_nat n)) by lia.
  rewrite seq_S, fmap_app. cbn. by rewrite Z2Nat.id.
Qed.

(** Addresses handed to the FIFO: one ahead of the DMA in the last state. *)
Definition pushed (s : reader_addr_regs) : Z :=
  counter_addr s + match ra_fsm s with RA_PUSH_TO_DMA => 1 | _ => 0 end.

Definition reader_addr_inv (s : reader_addr_regs) : Prop :=
  let k := counter_addr s in
  0 ≤ k ≤ count csr
  ∧ match ra_fsm s with
    | RA_READY => k = count csr
    | RA_COMPUTE_MEM_ADDR => modulo csr = true → ra_mem_addr s = index k
    | RA_WAIT_FOR_DRAM_ADDR => k < count csr ∧ ra_mem_addr s = index k
    | RA_COMPUTE_DRAM_ADDR => k < count csr ∧ ra_mem_addr s = index k ∧ ra_port s = index k
    | RA_PUSH_TO_FIFO | RA_PUSH_TO_DMA =>
        k < count csr ∧ ra_mem_addr s = index k ∧ ra_dram_addr s = addr k
    end.

Lemma reader_addr_step i s :
  reader_addr_inv s → ra_start i = false →
  let '(o, s') := cycle i s in
  reader_addr_inv s'
  ∧ addresses (pushed s) ++ option_list (to_fifo o) = addresses (pushed s')
  ∧ addresses (counter_addr s) ++ option_list (to_dma o) = addresses (counter_addr s').
Proof using Hok.
  intros [Hk Hs] Hst. pose proof Hok as [].
  unfold reader_addr_cycle, reader_addr_inv, pushed in *.
  destruct (ra_fsm s) eqn:Hf; cbn.
  - rewrite Hst. cbn. by rewrite !app_nil_r.
  - rewrite !app_nil_r. destruct (Z.leb_spec (count csr) (counter_addr s)); cbn.
    + split_and!; try lia; done.
    + split_and!; try lia; try done. unfold pattern_index in *. destruct (modulo csr); [by apply Hs | done].
  - destruct Hs as [Hlt Hm]. rewrite !app_nil_r. split_and!; try done; lia.
  - destruct Hs as (Hlt & Hm & Hp). rewrite !app_nil_r, Hp. done.
  - destruct Hs as (Hlt & Hm & Ha). destruct (fifo_ready i); cbn; rewrite !app_nil_r; [|done].
    rewrite Z.add_0_r, Ha, <- addresses_succ by lia. done.
  - destruct Hs as (Hlt & Hm & Ha). destruct (dma_ready i); cbn; rewrite ?app_nil_r; [|done].
    rewrite trunc_small by lia. rewrite Z.add_0_r, Ha, <- addresses_succ by lia. split_and!; try done; try lia.
    intros Hmod. rewrite Hmod, Hm. cbn [andb]. apply (index_succ cfg csr Hok); [apply Hk | done].
Qed.

Lemma reader_addr_run_inv ins s :
  reader_addr_inv s → Forall (fun i => ra_start i = false) ins →
  let '(fs, ds, s') := run ins s in
  reader_addr_inv s' ∧ addresses (pushed s) ++ fs = addresses (pushed s')
  ∧ addresses (counter_addr s) ++ ds = addresses (counter_addr s').
Proof using Hok.
  intros Hinv Hns. revert s Hinv. induction Hns as [|i ins Hi _ IH]; intros s Hinv.
  - cbn. by rewrite !app_nil_r.
  - cbn [reader_addr_run]. pose proof (reader_addr_step i s Hinv Hi) as Hstep.
    destruct (cycle i s) as [o s1]. destruct Hstep as (Hinv1 & Hp & Hc).
    specialize (IH s1 Hinv1). destruct (run ins s1) as [[fs ds] s2]. destruct IH as (? & IHp & IHc).
    split; [done|]. by rewrite !app_assoc, Hp, Hc.
Qed.
End reader_addr.

Lemma reader_addr_from_ready cfg csr addr_mem s fr dr ins :
  csr_ok cfg csr → ra_fsm s = RA_READY → Forall (fun i => ra_start i = false) ins →
  let '(fifo, dma, s') := reader_addr_run cfg csr addr_mem (ReaderAddrIn true fr dr :: ins) s in
  dma = addresses cfg csr addr_mem (counter_addr s')
  ∧ (fifo = dma ∨ fifo = dma ++ [transfer_address cfg csr addr_mem (counter_addr s')])
  ∧ counter_addr s' ≤ count csr
  ∧ (ra_fsm s' = RA_READY → fifo = dma ∧ dma = addresses cfg csr addr_mem (count csr)).
Proof.
  intros Hok Hf Hns. cbn [reader_addr_run].
  set (s1 := ReaderAddrRegs RA_COMPUTE_MEM_ADDR 0 0 (ra_dram_addr s) (ra_mem_addr s)).
  assert (reader_addr_cycle cfg csr addr_mem (ReaderAddrIn true fr dr) s = (ReaderAddrOut None None, s1)) as ->
    by (unfold reader_addr_cycle; by rewrite Hf).
  assert (reader_addr_inv cfg csr addr_mem s1) as Hinv.
  { destruct Hok. split; [cbn; lia|]. cbn. intros Hm. unfold pattern_index. by rewrite Hm, Z.mod_0_l by lia. }
  pose proof (reader_addr_run_inv cfg csr addr_mem Hok ins s1 Hinv Hns) as Hrun.
  destruct (reader_addr_run cfg csr addr_mem ins s1) as [[fs ds] s']. destruct Hrun as ([Hk Hs] & Hp & Hc).
  change (addresses cfg csr addr_mem (pushed s1)) with (@nil Z) in Hp.
  change (addresses cfg csr addr_mem (counter_addr s1)) with (@nil Z) in Hc.
  cbn [app] in Hp, Hc. cbn [to_fifo to_dma option_list app]. subst fs ds. unfold pushed. split_and!.
  - done.
  - destruct (ra_fsm s'); rewrite ?Z.add_0_r; auto. right. apply addresses_succ, Hk.
  - apply Hk.
  - intros Hr. rewrite Hr in *. by rewrite Z.add_0_r, <- Hs.
Qed.

(** The reader asks for the words that the writer wrote.  For any behaviour
    of the FIFO and the DMA, the addresses handed to the DMA are the first ones
    of the writer's sequence, the address FIFO gets the same sequence and is
    never more than one ahead, and the FSM is READY again only after all of
    them. *)
Theorem reader_requests_pattern cfg csr addr_mem s fr dr ins :
  csr_ok cfg csr → ra_fsm s = RA_READY → Forall (fun i => ra_start i = false) ins →
  let '(fifo, dma, s') := reader_addr_run cfg csr addr_mem (ReaderAddrIn true fr dr :: ins) s in
  dma = addresses cfg csr addr_mem (counter_addr s')
  ∧ (fifo = dma ∨ fifo = dma ++ [transfer_address cfg csr addr_mem (counter_addr s')])
  ∧ counter_addr s' ≤ count csr
  ∧ (ra_fsm s' = RA_READY → fifo = dma ∧ dma = addresses cfg csr addr_mem (count csr)).
Proof. apply reader_addr_from_ready. Qed.

Lemma reader_requests_pattern_witness :
  let '(fifo, dma, s') := reader_addr_run demo_bist demo_csr (fun a => 8 * a)
    (ReaderAddrIn true true true :: replicate 20 (ReaderAddrIn false true true))
    (ReaderAddrRegs RA_READY 0 0 0 0) in
  fifo = dma ∧ dma = addresses demo_bist demo_csr (fun a => 8 * a) 3.
Proof.
  pose proof (reader_requests_pattern demo_bist demo_csr (fun a => 8 * a) (ReaderAddrRegs RA_READY 0 0 0 0)
    true true (replicate 20 (ReaderAddrIn false true true))) as H.
  destruct (reader_addr_run _ _ _ _ _) as [[fifo dma] s'] eqn:E.
  destruct H as (_ & _ & _ & H).
  - constructor; vm_compute; intuition congruence.
  - reflexivity.
  - by apply Forall_replicate.
  - apply H. vm_compute in E. injection E as <- <- <-. reflexivity.
Defined.

(** ** Reader: comparison *)
Section reader.
Context {M : Migen} (cfg : bist_cfg) (csr : bist_csr) (data_mem : Z → Z) (Hok : csr_ok cfg csr).
(** The streams that the address FIFO and the DMA deliver: address and data of
    word [k]. *)
Context (addrs datas : Z → Z).
Abbreviation cycle := (reader_cycle cfg csr data_mem).
Abbreviation run := (reader_run cfg csr data_mem).

(** The pattern word compared with: in modulo mode the index is never
    advanced. *)
Definition reader_index (k : Z) : Z :=
  if modulo csr then 0 else trunc (mask_bits cfg) (Z.land k (data_mask csr)).
Definition expected (k : Z) : Z := inverted cfg csr (addrs k) (data_mem (reader_index k)).
Definition mismatch (k : Z) : bool := negb (datas k =? expected k).
Definition error_entry (k : Z) : Z * Z * Z := (addrs k, datas k, expected k).
(** The errors among the first [n] words. *)
Definition errors (n : Z) : list (Z * Z * Z) :=
  error_entry <$> filter (fun k => mismatch k = true) (Z.of_nat <$> seq 0 (Z.to_nat n)).

Lemma errors_succ n :
  0 ≤ n → errors (n + 1) = errors n ++ (if mismatch n then [error_entry n] else []).
Proof.
  intros Hn. unfold errors. replace (Z.to_nat (n + 1)) with (S (Z.to_nat n)) by lia.
  rewrite seq_S, fmap_app, filter_app, fmap_app. f_equal. cbn. rewrite Z2Nat.id by done.
  unfold filter, list_filter. cbn. destruct (decide (mismatch n = true)) as [E|E]; [by rewrite E|].
  apply not_true_is_false in E. by rewrite E.
Qed.

Lemma length_errors n : 0 ≤ n → Z.of_nat (length (errors n)) ≤ n.
Proof.
  intros Hn. unfold errors. rewrite length_fmap.
  pose proof (length_filter (fun k => mismatch k = true) (Z.of_nat <$> seq 0 (Z.to_nat n))) as H.
  rewrite length_fmap, length_seq in H. lia.
Qed.

(** What the environment does in a cycle: the heads of the two streams are
    those of the word the FSM is at, the address FIFO keeps its head until it
    is taken, and no start or skip is requested. *)
Definition input_ok (s : reader_regs) (i : reader_in) : Prop :=
  r_start i = false ∧ skip_fifo i = false
  ∧ (af_valid i = true → af_address i = addrs (counter_gen s))
  ∧ (rd_valid i = true → rd_data i = datas (counter_gen s))
  ∧ (r_fsm s = R_INVERT_COMPUTE ∨ r_fsm s = R_RD_DATA → af_valid i = true).

Fixpoint inputs_ok (ins : list reader_in) (s : reader_regs) : Prop :=
  match ins with
  | [] => True
  | i :: ins' => input_ok s i ∧ inputs_ok ins' (cycle i s).2
  end.

Definition row_index (k : Z) : Z :=
  Z.land (slice (addrs k) (row_shift cfg) (rowbits cfg)) (divisor_mask csr).

(** Errors reported so far: all, but for the one being written. *)
Definition reported (s : reader_regs) : list (Z * Z * Z) :=
  errors (counter_gen s - match r_fsm s with R_WR_ERR => 1 | _ => 0 end).

Definition reader_inv (s : reader_regs) : Prop :=
  let k := counter_gen s in
  0 ≤ k ≤ count csr ∧ error_count s = length (errors k)
  ∧ (modulo csr = true → data_mem_addr s = 0)
  ∧ match r_fsm s with
    | R_READY => k = count csr
    | R_COMPUTE_MEM_ADDR => True
    | R_WAIT_FOR_DRAM_ADDR => k < count csr ∧ data_mem_addr s = reader_index k
    | R_INVERT_COMPUTE =>
        k < count csr ∧ data_mem_addr s = reader_index k ∧ r_port s = reader_index k
        ∧ (r_wait s = 0
           ∨ (r_wait s = 1 ∨ r_wait s = 2) ∧ decoder_i (r_inv s) = row_index k
             ∧ (r_wait s = 2 → selected (r_inv s) = row_selected cfg csr (addrs k)))
    | R_RD_DATA =>
        k < count csr ∧ data_mem_addr s = reader_index k ∧ r_port s = reader_index k
        ∧ decoder_i (r_inv s) = row_index k ∧ selected (r_inv s) = row_selected cfg csr (addrs k)
        ∧ data_out (r_inv s) = expected k
    | R_WR_ERR => 1 ≤ k ∧ mismatch (k - 1) = true ∧ error_sink s = error_entry (k - 1)
    end.

(** The inverter on the address of word [k]. *)
Lemma inverter_step s k i :
  af_address i = addrs k → r_port s = reader_index k →
  let inv' := RowDataInverter_cycle cfg csr (af_address i) (data_mem (r_port s)) (r_inv s) in
  decoder_i inv' = row_index k
  ∧ (decoder_i (r_inv s) = row_index k → selected inv' = row_selected cfg csr (addrs k))
  ∧ (selected (r_inv s) = row_selected cfg csr (addrs k) → data_out inv' = expected k).
Proof using Hok.
  intros -> ->. cbv zeta. unfold RowDataInverter_cycle. split_and!; [done| |].
  - intros Hd. by apply (selector_cycle cfg csr Hok).
  - cbn. by intros ->.
Qed.

Lemma reader_inv_step i s :
  reader_inv s → input_ok s i →
  let '(o, s') := cycle i s in
  reader_inv s' ∧ reported s ++ option_list (r_error o) = reported s'.
Proof using Hok.
  intros (Hk & Hec & Hm & Hs) (Hst & Hskip & Haf & Hrd & Hkeep). pose proof Hok as [].
  unfold reader_cycle, reader_inv, reported in *. cbv zeta in *.
  destruct (r_fsm s) eqn:Hf; rewrite ?Hst, ?Hskip; cbn [negb r_error option_list];
    rewrite ?app_nil_r.
  - done.
  - cbn. destruct (Z.leb_spec (count csr) (counter_gen s)); cbn; split_and!; try done; try lia;
      try (intros Hmod; rewrite Hmod; by apply Hm).
    unfold reader_index. destruct (modulo csr); [by apply Hm | done].
  - destruct Hs as [Hlt Hd]. destruct (af_valid i); cbn; split_and!; try done; try lia; auto.
  - destruct Hs as (Hlt & Hd & Hp & Hw). specialize (Haf (Hkeep (or_introl eq_refl))).
    destruct (inverter_step s (counter_gen s) i Haf Hp) as (I1 & I2 & I3).
    destruct Hw as [->|([->| ->] & Hdec & Hsel)]; cbn -[trunc RowDataInverter_cycle];
      change (trunc 2 (0 + 1)) with 1; change (trunc 2 (1 + 1)) with 2; split_and!; try done; try lia.
    + right. split_and!; [by right|done|auto].
    + auto.
    + auto.
  - destruct Hs as (Hlt & Hd & Hp & Hdec & Hsel & Hdat).
    specialize (Haf (Hkeep (or_intror eq_refl))).
    destruct (inverter_step s (counter_gen s) i Haf Hp) as (I1 & I2 & I3).
    destruct (rd_valid i); cbn -[trunc RowDataInverter_cycle];
      [|rewrite app_nil_r; split_and!; try done; try lia; auto].
    rewrite (Hrd eq_refl), Hdat, Haf. fold (mismatch (counter_gen s)).
    pose proof (errors_succ (counter_gen s) ltac:(lia)) as He.
    pose proof (length_errors (counter_gen s) ltac:(lia)) as Hle.
    destruct (mismatch (counter_gen s)) eqn:Hmis; cbn -[trunc RowDataInverter_cycle];
      rewrite !trunc_small by lia; rewrite !app_nil_r, ?Z.sub_0_r, ?Z.add_simpl_r.
    + split_and!; try done; try lia. rewrite He, length_app. simpl. lia.
    + rewrite He, app_nil_r. split_and!; try done; lia.
  - destruct Hs as (H1 & Hmis & Hsink).
    pose proof (errors_succ (counter_gen s - 1) ltac:(lia)) as He. rewrite Hmis, Z.sub_add in He.
    destruct (ef_ready i); cbn -[trunc RowDataInverter_cycle].
    + rewrite Z.sub_0_r, Hsink, <- He. done.
    + rewrite app_nil_r. done.
Qed.

Lemma reader_run_inv ins s :
  reader_inv s → inputs_ok ins s →
  reader_inv (run ins s).2 ∧ reported s ++ (run ins s).1 = reported (run ins s).2.
Proof using Hok.
  revert s; induction ins as [|i ins IH]; intros s Hinv Hin.
  - cbn. by rewrite app_nil_r.
  - cbn [inputs_ok reader_run] in *. destruct Hin as [Hi Hin].
    pose proof (reader_inv_step i s Hinv Hi) as Hstep.
    destruct (cycle i s) as [o s1]. destruct Hstep as [Hinv1 Hrep]. cbn [snd] in Hin.
    destruct (IH s1 Hinv1 Hin) as [Hinv2 Hrun]. destruct (run ins s1) as [errs s2]. cbn [fst snd] in *.
    split; [done|]. by rewrite app_assoc, Hrep.
Qed.
End reader.

Lemma reader_from_ready {M : Migen} cfg csr data_mem addrs datas s i0 ins :
  csr_ok cfg csr → r_fsm s = R_READY → r_start i0 = true →
  inputs_ok cfg csr data_mem addrs datas ins (reader_cycle cfg csr data_mem i0 s).2 →
  let '(errs, s') := reader_run cfg csr data_mem (i0 :: ins) s in
  errs = reported cfg csr data_mem addrs datas s'
  ∧ error_count s' = length (errors cfg csr data_mem addrs datas (counter_gen s'))
  ∧ counter_gen s' ≤ count csr
  ∧ (r_fsm s' = R_READY → errs = errors cfg csr data_mem addrs datas (count csr)).
Proof.
  intros Hok Hf Hst Hin. cbn [reader_run]. unfold reader_cycle at 1 in Hin. unfold reader_cycle at 1.
  rewrite Hf, Hst in *. cbn [snd] in Hin. cbn [r_error option_list app].
  set (s1 := ReaderRegs R_COMPUTE_MEM_ADDR 0 0 _ _ _ _ _) in *.
  assert (reader_inv cfg csr data_mem addrs datas s1) as Hinv.
  { destruct Hok. unfold reader_inv. cbn. split_and!; auto; lia. }
  destruct (reader_run_inv cfg csr data_mem Hok addrs datas ins s1 Hinv Hin) as [Hinv' Hrep].
  destruct (reader_run cfg csr data_mem ins s1) as [errs s']. cbn [fst snd] in *.
  change (reported cfg csr data_mem addrs datas s1) with (@nil (Z * Z * Z)) in Hrep. cbn [app] in Hrep.
  destruct Hinv' as (Hk & Hec & _ & Hs). split_and!; [done|done|lia|].
  intros Hr. rewrite Hrep. unfold reported. rewrite Hr in *. by rewrite Z.sub_0_r, Hs.
Qed.

Lemma reader_ready_errors {M : Migen} cfg csr data_mem addrs datas s i0 ins :
  csr_ok cfg csr → r_fsm s = R_READY → r_start i0 = true →
  inputs_ok cfg csr data_mem addrs datas ins (reader_cycle cfg csr data_mem i0 s).2 →
  let r := reader_run cfg csr data_mem (i0 :: ins) s in
  r_fsm r.2 = R_READY →
  r.1 = errors cfg csr data_mem addrs datas (count csr) ∧ error_count r.2 = length r.1.
Proof.
  intros Hok Hf Hst Hin r Hr. pose proof (reader_from_ready cfg csr data_mem addrs datas s i0 ins Hok Hf Hst Hin) as H.
  fold r in H. destruct r as [errs s']. cbn [fst snd] in *. destruct H as (Hrep & Hc & _ & He).
  split; [by apply He|]. rewrite Hc, Hrep. unfold reported. by rewrite Hr, Z.sub_0_r.
Qed.

(** The reader reports exactly the mismatches.  For any timing of the address
    FIFO, the DMA and the error FIFO, the errors handed to the error FIFO are
    those of the words compared so far, in order and each with its address, the
    data read and the data expected (one may still be waiting to be accepted);
    [error_count] is the number of mismatching words, and the reader is READY
    only when all [count] words were compared and all errors delivered. *)
Theorem reader_reports_mismatches {M : Migen} cfg csr data_mem addrs datas s i0 ins :
  csr_ok cfg csr → r_fsm s = R_READY → r_start i0 = true →
  inputs_ok cfg csr data_mem addrs datas ins (reader_cycle cfg csr data_mem i0 s).2 →
  let '(errs, s') := reader_run cfg csr data_mem (i0 :: ins) s in
  errs = reported cfg csr data_mem addrs datas s'
  ∧ error_count s' = length (errors cfg csr data_mem addrs datas (counter_gen s'))
  ∧ counter_gen s' ≤ count csr
  ∧ (r_fsm s' = R_READY → errs = errors cfg csr data_mem addrs datas (count csr)).
Proof. apply reader_from_ready. Qed.

(** Three words at addresses 8, 9 and 10, of which the second one is corrupted. *)
Definition demo_addrs (k : Z) : Z := 8 + k.
Definition demo_datas (k : Z) : Z := if k =? 1 then 7 else 170.
Definition demo_reader_in (k : Z) : reader_in := ReaderIn false true (demo_addrs k) true (demo_datas k) true false.
Definition demo_reader_start : reader_in := ReaderIn true false 0 false 0 true false.
Definition demo_reader_ins : list reader_in :=
  replicate 6 (demo_reader_in 0) ++ replicate 6 (demo_reader_in 1)
  ++ replicate 7 (demo_reader_in 2) ++ [demo_reader_in 3].
Definition demo_reader : reader_regs := ReaderRegs R_READY 0 0 0 0 (InvRegs 0 false 0) 0 (0, 0, 0).

Lemma reader_reports_mismatches_witness :
  (reader_run demo_bist demo_csr (fun a => 85 + a) (demo_reader_start :: demo_reader_ins) demo_reader).1
  = [(9, 7, 169)].
Proof.
  pose proof (reader_reports_mismatches demo_bist demo_csr (fun a => 85 + a) demo_addrs demo_datas
    demo_reader demo_reader_start demo_reader_ins) as H.
  destruct (reader_run _ _ _ _ _) as [errs s'] eqn:E. cbn [fst].
  destruct H as (_ & _ & _ & H).
  - constructor; vm_compute; intuition congruence.
  - reflexivity.
  - reflexivity.
  - vm_compute. intuition congruence.
  - rewrite H; [vm_compute; reflexivity|]. vm_compute in E. injection E as <- <-. reflexivity.
Defined.

(** In modulo mode the pattern FSM compares every word with the first pattern
    word: a memory that holds what the writer puts there for a pattern of two
    words is reported with errors. *)
Definition demo_modulo : bist_csr := BistCsr true 2 255 0 1 0 0.
Definition modulo_in (k : Z) : reader_in := ReaderIn false true k true (20 + k) true false.

Example reader_modulo_false_errors :
  (writer_run demo_bist demo_modulo (fun a => 20 + a) (fun _ => 0)
     (WriterIn true true :: replicate 16 (WriterIn false true)) demo_writer).1 = [(0, 20); (1, 21)]
  ∧ (reader_run demo_bist demo_modulo (fun a => 20 + a)
       (demo_reader_start :: replicate 6 (modulo_in 0) ++ replicate 6 (modulo_in 1)
        ++ replicate 2 (modulo_in 2)) demo_reader).1 = [(1, 21, 20)].
Proof. split; vm_compute; reflexivity. Qed.

(** ** Writer and reader together *)

(** Masked mode: on a memory that returns what the writer wrote, the reader's
    expectations hold word by word, so that errors are real differences.  The
    pattern index of both is the same. *)
Lemma reader_index_masked cfg csr k :
  modulo csr = false → 0 ≤ mask_bits cfg → 0 ≤ data_mask csr < 2 ^ mask_bits cfg →
  reader_index cfg csr k = pattern_index cfg csr k.
Proof.
  intros Hm Hb Hd. unfold reader_index, pattern_index. rewrite Hm. unfold slice.
  rewrite Z.shiftr_0_r. apply Z.bits_inj'. intros n Hn.
  unfold trunc. rewrite !Z.land_spec, <- !Z.land_ones, !Z.land_spec by done.
  destruct (Z.testbit (Z.ones (mask_bits cfg)) n), (Z.testbit k n), (Z.testbit (data_mask csr) n); done.
Qed.

(** The memory after the accepted transfers. *)
Definition fill (xs : list (Z * Z)) (m : Z → Z) : Z → Z :=
  foldl (fun m x a => if a =? x.1 then x.2 else m a) m xs.

Lemma fill_app xs ys m : fill (xs ++ ys) m = fill ys (fill xs m).
Proof. apply foldl_app. Qed.

Lemma fill_other xs m a : a ∉ xs.*1 → fill xs m a = m a.
Proof.
  revert m; induction xs as [|x xs IH]; intros m Ha; [done|].
  rewrite fmap_cons, not_elem_of_cons in Ha. destruct Ha as [Hx Ha].
  change (fill (x :: xs) m a) with (fill xs (fun b => if b =? x.1 then x.2 else m b) a). rewrite IH by done.
  by destruct (Z.eqb_spec a x.1).
Qed.

Lemma fill_written xs m a v : NoDup xs.*1 → (a, v) ∈ xs → fill xs m a = v.
Proof.
  revert m; induction xs as [|x xs IH]; intros m Hn Hin; [by apply elem_of_nil in Hin|].
  rewrite fmap_cons, NoDup_cons in Hn. destruct Hn as [Hx Hn].
  change (fill (x :: xs) m a) with (fill xs (fun b => if b =? x.1 then x.2 else m b) a).
  apply elem_of_cons in Hin as [<-|Hin]; [|by apply IH].
  rewrite fill_other by done. by rewrite Z.eqb_refl.
Qed.

Section scan.
Context {M : Migen} (cfg : bist_cfg) (csr : bist_csr) (data_mem addr_mem : Z → Z).
Context (Hok : csr_ok cfg csr) (Hmod : modulo csr = false).
Context (Hmask : 0 ≤ mask_bits cfg ∧ 0 ≤ data_mask csr < 2 ^ mask_bits cfg).

Abbreviation written := (transfers cfg csr data_mem addr_mem (count csr)).
Abbreviation scanned := (addresses cfg csr addr_mem (count csr)).
Abbreviation addrs := (transfer_address cfg csr addr_mem).

Lemma transfers_fst n : (transfers cfg csr data_mem addr_mem n).*1 = addresses cfg csr addr_mem n.
Proof. unfold transfers, addresses. rewrite <- list_fmap_compose. done. Qed.

(** What a scan of memory [m] finds, when every address is written once:
    the addresses whose content is not what the writer put there. *)
Definition differences (m0 m : Z → Z) : list (Z * Z * Z) :=
  let m1 := fill written m0 in
  (fun a => (a, m a, m1 a)) <$> filter (fun a => m a ≠ m1 a) scanned.

Lemma expected_written m0 k :
  NoDup scanned → 0 ≤ k < count csr →
  expected cfg csr data_mem addrs k = fill written m0 (addrs k).
Proof using Hmod Hmask.
  intros Hn Hk. symmetry. apply fill_written; [by rewrite transfers_fst|].
  unfold expected. rewrite reader_index_masked by tauto.
  unfold transfers. apply list_elem_of_fmap. exists (Z.to_nat k). split.
  - unfold compose, transfer. by rewrite Z2Nat.id by lia.
  - apply elem_of_seq. lia.
Qed.

Lemma errors_differences m0 m :
  NoDup scanned →
  errors cfg csr data_mem addrs (fun k => m (addrs k)) (count csr) = differences m0 m.
Proof using Hmod Hmask Hok.
  intros Hn. unfold errors, differences, addresses. cbv zeta. rewrite list_fmap_compose.
  assert (Forall (fun k => 0 ≤ k < count csr) (Z.of_nat <$> seq 0 (Z.to_nat (count csr)))) as Hks.
  { apply Forall_fmap, Forall_forall. intros n ?%elem_of_seq. cbn. lia. }
  revert Hks. generalize (Z.of_nat <$> seq 0 (Z.to_nat (count csr))) as ks.
  induction ks as [|k ks IH]; intros Hks; [done|]. apply Forall_cons in Hks as [Hk Hks].
  assert (mismatch cfg csr data_mem addrs (fun k => m (addrs k)) k = true
          ↔ m (addrs k) ≠ fill written m0 (addrs k)) as Hmis.
  { unfold mismatch. rewrite (expected_written m0 k Hn Hk). rewrite negb_true_iff. apply Z.eqb_neq. }
  rewrite fmap_cons, !filter_cons.
  destruct (decide (m (addrs k) ≠ fill written m0 (addrs k))) as [E|E].
  - rewrite decide_True by tauto. rewrite !fmap_cons. f_equal; [|by apply IH].
    unfold error_entry. by rewrite (expected_written m0 k Hn Hk).
  - rewrite decide_False by tauto. by apply IH.
Qed.
End scan.

(** C10: A scan finds the bit flips.  Fill the memory with the writer, let it change
    in any way, then scan it with the reader (masked mode, each address written
    once, the streams delivering the addresses asked for and the memory's
    content there): when both are READY again, the errors reported are exactly
    the addresses whose content is no longer what the writer put there, in the
    order of the scan, with the content found and the content written, and
    [error_count] is their number.  In particular an unchanged memory gives no
    error. *)
Theorem scan_reports_flips {M : Migen} cfg csr data_mem addr_mem ws sr wins m0 m rs i0 rins :
  csr_ok cfg csr → modulo csr = false → 0 ≤ mask_bits cfg → 0 ≤ data_mask csr < 2 ^ mask_bits cfg →
  NoDup (addresses cfg csr addr_mem (count csr)) →
  w_fsm ws = W_READY → no_start wins → r_fsm rs = R_READY → r_start i0 = true →
  inputs_ok cfg csr data_mem (transfer_address cfg csr addr_mem)
    (fun k => m (transfer_address cfg csr addr_mem k)) rins (reader_cycle cfg csr data_mem i0 rs).2 →
  let w := writer_run cfg csr data_mem addr_mem (WriterIn true sr :: wins) ws in
  let r := reader_run cfg csr data_mem (i0 :: rins) rs in
  w_fsm w.2 = W_READY → r_fsm r.2 = R_READY →
  let m1 := fill w.1 m0 in
  r.1 = ((fun a => (a, m a, m1 a)) <$> filter (fun a => m a ≠ m1 a) (addresses cfg csr addr_mem (count csr)))
  ∧ error_count r.2 = length r.1.
Proof.
  intros Hok Hmod Hb Hd Hn Hw Hns Hr Hst Hin w r Hwr Hrr. cbv zeta.
  assert (w.1 = transfers cfg csr data_mem addr_mem (count csr)) as -> by by apply writer_ready_transfers.
  destruct (reader_ready_errors cfg csr data_mem (transfer_address cfg csr addr_mem)
    (fun k => m (transfer_address cfg csr addr_mem k)) rs i0 rins Hok Hr Hst Hin Hrr) as [He Hc].
  fold r in He, Hc. rewrite Hc, He. split; [|done].
  by apply errors_differences.
Qed.

(** The content of the three words after the fill, the second one flipped. *)
Definition demo_flipped (a : Z) : Z := if a =? 9 then 7 else 170.
Definition demo_scan_addr_mem (a : Z) : Z := 8.

Lemma scan_reports_flips_witness :
  (reader_run demo_bist demo_csr (fun a => 85 + a) (demo_reader_start :: demo_reader_ins) demo_reader).1
  = [(9, 7, 169)].
Proof.
  pose proof (scan_reports_flips demo_bist demo_csr (fun a => 85 + a) demo_scan_addr_mem demo_writer true
    (replicate 22 (WriterIn false true)) (fun _ => 0) demo_flipped
    demo_reader demo_reader_start demo_reader_ins) as H.
  cbv zeta in H. destruct H as [H _].
  - constructor; vm_compute; intuition congruence.
  - reflexivity.
  - vm_compute. congruence.
  - vm_compute. intuition congruence.
  - apply (bool_decide_unpack _). vm_compute. exact I.
  - reflexivity.
  - by apply Forall_replicate.
  - reflexivity.
  - reflexivity.
  - vm_compute. intuition congruence.
  - vm_compute. reflexivity.
  - vm_compute. reflexivity.
  - rewrite H. vm_compute. reflexivity.
Defined.

(** ** Errors presented to the user *)
Definition pending (s : error_regs) : list (Z * Z * Z) := if e_valid s then [error_reg s] else [].

Lemma error_run_fifo ins s :
  Forall (fun i => e_skip i = false) ins →
  let '(taken, acked, s') := error_run ins s in pending s ++ taken = acked ++ pending s'.
Proof.
  intros Hns. revert s. induction Hns as [|i ins Hi _ IH]; intros s; [by cbn; rewrite app_nil_r|].
  cbn [error_run]. unfold error_cycle, pending. rewrite Hi. cbn [negb].
  destruct (e_valid s) eqn:Hv; [destruct (e_ready i) eqn:Hr|]; cbn [negb andb].
  - destruct (es_valid i).
    + specialize (IH (ErrorRegs true (es_error i))). destruct (error_run ins _) as [[taken acked] s'].
      cbn in IH |- *. f_equal. exact IH.
    + specialize (IH (ErrorRegs false (error_reg s))). destruct (error_run ins _) as [[taken acked] s'].
      cbn in IH |- *. f_equal. exact IH.
  - specialize (IH s). destruct (error_run ins s) as [[taken acked] s'].
    unfold pending in IH. by rewrite Hv in IH.
  - destruct (es_valid i).
    + specialize (IH (ErrorRegs true (es_error i))). destruct (error_run ins _) as [[taken acked] s'].
      exact IH.
    + specialize (IH s). destruct (error_run ins s) as [[taken acked] s'].
      unfold pending in IH. by rewrite Hv in IH.
Qed.

(** No error is lost between the error FIFO and the user.  With [skip_fifo] off,
    and for any timing of the FIFO and of [error_continue], the errors the user
    acknowledged are the errors taken from the FIFO, in order and without
    repetition, but for the one presented at the end, if any. *)
Theorem errors_presented_in_order ins :
  Forall (fun i => e_skip i = false) ins →
  let '(taken, acked, s') := error_run ins (ErrorRegs false (0, 0, 0)) in
  taken = acked ++ (if e_valid s' then [error_reg s'] else []).
Proof. apply (error_run_fifo ins (ErrorRegs false (0, 0, 0))). Qed.

Lemma errors_presented_in_order_witness :
  let e k := ErrorIn true (k, 0, 0) true false in
  error_run [e 1; e 2; e 3] (ErrorRegs false (0, 0, 0))
  = ([(1, 0, 0); (2, 0, 0); (3, 0, 0)], [(1, 0, 0); (2, 0, 0)], ErrorRegs true (3, 0, 0)).
Proof.
  intros e. pose proof (errors_presented_in_order [e 1; e 2; e 3] ltac:(by repeat constructor)) as H.
  destruct (error_run _ _) as [[taken acked] s'] eqn:E. rewrite H. vm_compute in E. by injection E as <- <- <-.
Defined.

(** ** Row hammer DMA *)

(** Access number [k] of an attack. *)
Definition hammer_address (a1 a2 k : Z) : Z := if Z.even k then a1 else a2.
Definition hammer_addresses (a1 a2 c : Z) (n : nat) : list Z :=
  (fun j => hammer_address a1 a2 (c + Z.of_nat j)) <$> seq 0 n.

Lemma hammer_address_trunc a1 a2 k : hammer_address a1 a2 (trunc 32 k) = hammer_address a1 a2 k.
Proof.
  unfold hammer_address, trunc. rewrite <- !Z.negb_odd, <- !Z.bit0_odd.
  by rewrite Z.mod_pow2_bits_low by lia.
Qed.

Lemma hammer_addresses_S a1 a2 c n :
  hammer_addresses a1 a2 c (S n) = hammer_address a1 a2 c :: hammer_addresses a1 a2 (trunc 32 (c + 1)) n.
Proof.
  unfold hammer_addresses. rewrite <- cons_seq, fmap_cons, <- fmap_S_seq, <- list_fmap_compose, Z.add_0_r.
  f_equal. apply list_fmap_ext. intros i j _. cbn [compose].
  rewrite <- (hammer_address_trunc a1 a2 (trunc 32 (c + 1) + _)), <- hammer_address_trunc. f_equal.
  unfold trunc. rewrite Zplus_mod_idemp_l. f_equal. unfold compose. lia.
Qed.

Lemma RowHammerDMA_run a1 a2 readys counter :
  0 ≤ counter < 2 ^ 32 →
  RowHammerDMA.run a1 a2 readys counter
  = (hammer_addresses a1 a2 counter (countb id readys), trunc 32 (counter + countb id readys)).
Proof.
  revert counter; induction readys as [|r readys IH]; intros counter Hc.
  - cbn. by rewrite Z.add_0_r, trunc_small by lia.
  - destruct r; cbn [RowHammerDMA.run countb id].
    + unfold RowHammerDMA.cycle, RowHammerDMA.sink. cbn [RowHammerDMA.enabled fst andb].
      rewrite IH by (apply trunc_bound; lia). cbn [Nat.add]. rewrite hammer_addresses_S.
      unfold hammer_address. rewrite <- Z.negb_odd, <- Z.bit0_odd. f_equal.
      * unfold RowHammerDMA.sink. cbn [snd]. f_equal. by destruct (Z.testbit counter 0).
      * unfold trunc. rewrite Zplus_mod_idemp_l. f_equal. lia.
    + unfold RowHammerDMA.cycle, RowHammerDMA.sink. cbn [RowHammerDMA.enabled fst andb].
      by rewrite IH by done.
Qed.

(** The DMA attacker alternates.  While enabled, and for any timing of the
    DMA, the accepted reads alternate between the two addresses from the one
    that the counter's parity selects (also across the 32-bit wrap-around), and
    the counter advances by the number of accepted reads modulo 2^32; an access
    of the count register while disabled clears it, so that the next attack
    starts with the first address. *)
Theorem dma_alternates a1 a2 readys counter :
  0 ≤ counter < 2 ^ 32 →
  let '(xs, counter') := RowHammerDMA.run a1 a2 readys counter in
  length xs = countb id readys
  ∧ (∀ j x, xs !! j = Some x → x = if Z.even (counter + Z.of_nat j) then a1 else a2)
  ∧ counter' = (counter + countb id readys) mod 2 ^ 32
  ∧ (∀ rdy, RowHammerDMA.cycle (RowHammerDMA.Csrs false a1 a2 true) rdy counter' = 0).
Proof.
  intros Hc. rewrite RowHammerDMA_run by done. split_and!; try done.
  - unfold hammer_addresses. by rewrite length_fmap, length_seq.
  - intros j x (n & -> & Hn)%list_lookup_fmap_Some. apply lookup_seq in Hn as [-> _]. done.
Qed.

Lemma dma_alternates_witness :
  RowHammerDMA.run 5 9 [true; false; true; true] 4294967295 = ([9; 5; 9], 2).
Proof.
  pose proof (dma_alternates 5 9 [true; false; true; true] 4294967295 ltac:(lia)) as H.
  destruct (RowHammerDMA.run _ _ _ _) as [xs c] eqn:E. destruct H as (H1 & H2 & -> & _).
  vm_compute in E. injection E as <-. vm_compute. reflexivity.
Defined.
