(* ===== verification/PayloadVerifier.v ===== *)
(** * Payload verifier

    Models [src/rowhammer_tester/payload/verify_payload.py]: the checker that
    runs a text payload against the timing rules of a DRAM standard.  The code
    is parametric in [dramlib], the module of the standard ([ddr3lib] or
    [ddr4lib]); here it is a class [DramLib], with the operations that
    [verify_payload] calls and the laws the theorems of this file rely on.
    [Ddr3] and [Ddr4] give the two instances.

    The instructions are those of the protobuf messages: numbers are [uint32]
    fields, and an instruction whose [oneof] is not set is [IUnset]. *)

From Stdlib Require Export Sorted.
From S2P Require Import Prelude.

Inductive opcode := NOP | RD | ACT | PRE | REF | JMP | MAX.

#[global] Instance opcode_eq_dec : EqDecision opcode.
Proof. solve_decision. Defined.

(** [NopInstr] and [JmpInstr], the same in both standards. *)
Record nop_instr := NopInstr { nop_opcode : opcode; nop_timeslice : Z }.
Record jmp_instr := JmpInstr { jmp_opcode : opcode; offset : Z; jmp_count : Z }.

Inductive instr (Mem : Type) :=
  | IMem (m : Mem)
  | INop (n : nop_instr)
  | IJmp (j : jmp_instr)
  | IUnset.
Arguments IMem {_} _.
Arguments INop {_} _.
Arguments IJmp {_} _.
Arguments IUnset {_}.

(** The [nop] and [jmp] branches of [VerifyInstr] (NopInstr.Bits.TIMESLICE is 29,
    JmpInstr.Bits.OFFSET 9 and JmpInstr.Bits.COUNT 20). *)
Definition verify_nop (n : nop_instr) : bool :=
  bool_decide (nop_opcode n = NOP)
  && ((0 <? nop_timeslice n) && (nop_timeslice n <? Z.shiftl 1 29)).

Definition verify_jmp (ip : Z) (j : jmp_instr) : bool :=
  bool_decide (jmp_opcode j = JMP)
  && ((0 <? offset j) && (offset j <? Z.shiftl 1 9))
  && negb (ip <? offset j)
  && ((0 <? jmp_count j) && (jmp_count j <? Z.shiftl 1 20)).

(** ** The interface of a [dramlib] *)
Class DramLib := {
  Timing : Type;
  Mem : Type;
  Rank : Type;
  mem_opcode : Mem → opcode;
  timeslice : Mem → Z;
  (** values of all fields of the [Timing] message *)
  timing_fields : Timing → list Z;
  (** number of an opcode, and [Opcode.MAX] *)
  opcode_number : opcode → Z;
  VerifyInstr : Z → instr Mem → bool;
  Rank_init : Timing → Rank;
  (** [None] when the code returns [False] *)
  Rank_Execute : Z → Mem → Rank → result (option Rank);
  (** Laws *)
  rank_wf : Rank → Prop;
  verify_timeslice ip m : VerifyInstr ip (IMem m) = true → 0 < timeslice m;
  verify_opcode ip m : VerifyInstr ip (IMem m) = true → mem_opcode m ∈ [RD; ACT; PRE; REF];
  verify_unset ip : VerifyInstr ip IUnset = false;
  verify_nop_law ip n : VerifyInstr ip (INop n) = verify_nop n;
  verify_jmp_law ip j : VerifyInstr ip (IJmp j) = verify_jmp ip j;
  rank_init_wf t : rank_wf (Rank_init t);
  rank_execute_ok t ip m r :
    VerifyInstr ip (IMem m) = true → rank_wf r →
    ∃ o, Rank_Execute t m r = Ok o ∧ (∀ r', o = Some r' → rank_wf r');
}.

Record payload `{DramLib} := Payload { timing : Timing; instrs : list (instr Mem) }.
Arguments Payload {_} _ _.
Arguments timing {_} _.
Arguments instrs {_} _.

(** ** The run *)
Record state := State { ip : Z; tick : Z; loop : Z; executed : list Z }.

Inductive verdict :=
  | Accepted (s : state)                 (* prints OK, returns 0 *)
  | BadTiming                            (* the others return -1 *)
  | IllegalInstr (ip : Z)
  | Violation (ip tick : Z)
  | Crashed (e : exn).

(** What one iteration of the [while] loop does. *)
Inductive outcome (R : Type) :=
  | Continue (s : state) (r : R)
  | Stop (v : verdict).
Arguments Continue {_} _ _.
Arguments Stop {_} _.

Section verifier.
Context `{DramLib}.

Definition state_init : state := State 0 0 0 (replicate (Z.to_nat (opcode_number MAX)) 0).

(** [state.executed[opcode] += 1] *)
Definition count_executed (op : opcode) (l : list Z) : list Z :=
  alter (fun n => n + 1) (Z.to_nat (opcode_number op)) l.

Definition iteration (i : instr Mem) (s : state) (r : Rank) : outcome Rank :=
  match i with
  | IMem m =>
      match Rank_Execute (tick s) m r with
      | Ok (Some r') =>
          Continue (State (ip s + 1) (tick s + timeslice m) (loop s)
                      (count_executed (mem_opcode m) (executed s))) r'
      | Ok None => Stop (Violation (ip s) (tick s))
      | Raise e => Stop (Crashed e)
      end
  | INop n =>
      Continue (State (ip s + 1) (tick s + nop_timeslice n) (loop s)
                  (count_executed (nop_opcode n) (executed s))) r
  | IJmp j =>
      if loop s <? jmp_count j then
        Continue (State (ip s - offset j) (tick s + 1) (loop s + 1)
                    (count_executed (jmp_opcode j) (executed s))) r
      else
        Continue (State (ip s + 1) (tick s + 1) 0 (count_executed (jmp_opcode j) (executed s))) r
  | IUnset => Stop (IllegalInstr (ip s))
  end.

(** The [while] loop; [None] when the fuel is used up.  A negative [ip]
    indexes from the end in Python; [VerifyInstr] excludes it. *)
Fixpoint run (fuel : nat) (p : payload) (s : state) (r : Rank) : option verdict :=
  match fuel with
  | O => None
  | S fuel' =>
      if ip s <? length (instrs p) then
        match instrs p !! Z.to_nat (ip s) with
        | None => Some (Crashed IndexError)
        | Some i =>
            match iteration i s r with
            | Continue s' r' => run fuel' p s' r'
            | Stop v => Some v
            end
        end
      else Some (Accepted s)
  end.

(** The first illegal instruction, in the loop over [enumerate(payload.instr)]. *)
Fixpoint first_illegal (n : Z) (l : list (instr Mem)) : option Z :=
  match l with
  | [] => None
  | i :: l' => if VerifyInstr n i then first_illegal (n + 1) l' else Some n
  end.

Definition main (fuel : nat) (p : payload) : option verdict :=
  if forallb (fun t => 0 <? t) (timing_fields (timing p)) then
    match first_illegal 0 (instrs p) with
    | Some n => Some (IllegalInstr n)
    | None => run fuel p state_init (Rank_init (timing p))
    end
  else Some BadTiming.

(** ** What the payload does, whether or not it is legal *)

(** The memory commands of a run, with their ticks. *)
Fixpoint commands (fuel : nat) (p : payload) (s : state) : list (Z * Mem) :=
  match fuel with
  | O => []
  | S fuel' =>
      match instrs p !! Z.to_nat (ip s) with
      | Some (IMem m) =>
          (tick s, m) :: commands fuel' p
            (State (ip s + 1) (tick s + timeslice m) (loop s) (executed s))
      | Some (INop n) =>
          commands fuel' p (State (ip s + 1) (tick s + nop_timeslice n) (loop s) (executed s))
      | Some (IJmp j) =>
          if loop s <? jmp_count j then
            commands fuel' p (State (ip s - offset j) (tick s + 1) (loop s + 1) (executed s))
          else commands fuel' p (State (ip s + 1) (tick s + 1) 0 (executed s))
      | _ => []
      end
  end.

(** Executing commands on a rank, all accepted. *)
Fixpoint execute_all (cmds : list (Z * Mem)) (r : Rank) : option Rank :=
  match cmds with
  | [] => Some r
  | (t, m) :: cmds' =>
      match Rank_Execute t m r with
      | Ok (Some r') => execute_all cmds' r'
      | _ => None
      end
  end.

(** No loop body contains another loop. *)
Definition is_jmp (i : instr Mem) : bool := match i with IJmp _ => true | _ => false end.
Definition not_nested (p : payload) : Prop :=
  ∀ n j k i, instrs p !! n = Some (IJmp j) → instrs p !! k = Some i →
    (Z.of_nat n - offset j ≤ Z.of_nat k < Z.of_nat n) → is_jmp i = false.
End verifier.

(** ** Facts *)
Section facts.
Context `{DramLib}.

Lemma first_illegal_None n l k i :
  first_illegal n l = None → l !! k = Some i → VerifyInstr (n + Z.of_nat k) i = true.
Proof.
  revert n k; induction l as [|x l IH]; intros n k Hf Hk; [done|].
  cbn in Hf. destruct (VerifyInstr n x) eqn:E; [|done].
  destruct k as [|k]; cbn in Hk.
  - injection Hk as <-. by rewrite Z.add_0_r.
  - replace (n + Z.of_nat (S k)) with (n + 1 + Z.of_nat k) by lia. by apply IH.
Qed.

Context (p : payload) (Hp : first_illegal 0 (instrs p) = None).

Lemma verified k i : instrs p !! k = Some i → VerifyInstr (Z.of_nat k) i = true.
Proof using Hp. intros Hk. by apply (first_illegal_None 0 (instrs p) k i). Qed.

Lemma verified_jmp k j :
  instrs p !! k = Some (IJmp j) → 0 < offset j ≤ Z.of_nat k ∧ 0 < jmp_count j < 2 ^ 20.
Proof using Hp.
  intros Hk%verified. rewrite verify_jmp_law in Hk. unfold verify_jmp in Hk.
  rewrite !andb_true_iff, negb_true_iff in Hk. change (Z.shiftl 1 20) with (2 ^ 20) in Hk. lia.
Qed.

Lemma verified_nop k n : instrs p !! k = Some (INop n) → 0 < nop_timeslice n.
Proof using Hp.
  intros Hk%verified. rewrite verify_nop_law in Hk. unfold verify_nop in Hk.
  rewrite !andb_true_iff in Hk. lia.
Qed.

(** The state stays inside the payload. *)
Definition in_payload (s : state) : Prop := 0 ≤ ip s ≤ length (instrs p).

Lemma iteration_in_payload s r i s' r' :
  in_payload s → instrs p !! Z.to_nat (ip s) = Some i → iteration i s r = Continue s' r' →
  in_payload s'.
Proof using Hp.
  intros Hs Hi. pose proof (lookup_lt_Some _ _ _ Hi) as Hlt. unfold in_payload in *.
  unfold iteration. destruct i as [m|n|j|].
  - destruct (Rank_Execute _ m r) as [[r1|]|e]; [|done..]. intros [= <- <-]. cbn. lia.
  - intros [= <- <-]. cbn. lia.
  - pose proof (verified_jmp _ _ Hi). destruct (loop s <? jmp_count j); intros [= <- <-]; cbn; lia.
  - done.
Qed.

Lemma iteration_rank_wf s r i s' r' :
  rank_wf r → instrs p !! Z.to_nat (ip s) = Some i → iteration i s r = Continue s' r' → rank_wf r'.
Proof using Hp.
  intros Hr Hi%verified. unfold iteration. destruct i as [m|n|j|].
  - destruct (rank_execute_ok (tick s) _ m r Hi Hr) as (o & -> & Ho).
    destruct o as [r1|]; [|done]. intros [= <- <-]. by apply Ho.
  - by intros [= <- <-].
  - destruct (loop s <? jmp_count j); by intros [= <- <-].
  - done.
Qed.

(** The commands depend on the position, the tick and the loop counter. *)
Lemma commands_executed fuel s l :
  commands fuel p (State (ip s) (tick s) (loop s) l) = commands fuel p s.
Proof.
  revert s l; induction fuel as [|fuel IH]; intros s l; [done|].
  cbn [commands ip tick loop executed].
  destruct (instrs p !! Z.to_nat (ip s)) as [[m|n|j|]|]; try done.
  - f_equal. rewrite <- (IH (State (ip s + 1) (tick s + timeslice m) (loop s) (executed s)) l). done.
  - rewrite <- (IH (State (ip s + 1) (tick s + nop_timeslice n) (loop s) (executed s)) l). done.
  - destruct (loop s <? jmp_count j).
    + rewrite <- (IH (State (ip s - offset j) (tick s + 1) (loop s + 1) (executed s)) l). done.
    + rewrite <- (IH (State (ip s + 1) (tick s + 1) 0 (executed s)) l). done.
Qed.

(** An accepted run has executed all its commands. *)
Lemma accepted_executes fuel s r s' :
  in_payload s → run fuel p s r = Some (Accepted s') →
  ∃ r', execute_all (commands fuel p s) r = Some r'.
Proof using Hp.
  revert s r; induction fuel as [|fuel IH]; intros s r Hs Hrun; [done|]. cbn [run commands] in *.
  destruct (Z.ltb_spec (ip s) (length (instrs p))) as [Hlt|Hge].
  - destruct (instrs p !! Z.to_nat (ip s)) as [i|] eqn:Hi; [|done].
    destruct (iteration i s r) as [s1 r1|v] eqn:Hit.
    + pose proof (iteration_in_payload _ _ _ _ _ Hs Hi Hit) as Hs1.
      specialize (IH s1 r1 Hs1 Hrun). rewrite <- (commands_executed _ _ (executed s)) in IH.
      unfold iteration in Hit. destruct i as [m|n|j|].
      * cbn [execute_all]. destruct (Rank_Execute (tick s) m r) as [[r2|]|e]; [|done..].
        injection Hit as <- <-. exact IH.
      * injection Hit as <- <-. exact IH.
      * destruct (loop s <? jmp_count j); injection Hit as <- <-; exact IH.
      * done.
    + injection Hrun as ->. unfold iteration in Hit.
      destruct i as [m|n|j|]; try done; [|by destruct (_ <? _)].
      by destruct (Rank_Execute (tick s) m r) as [[r2|]|e].
  - rewrite lookup_ge_None_2 by lia. by exists r.
Qed.

(** Commands are issued at increasing ticks. *)
Lemma commands_sorted fuel s :
  Forall (fun c => tick s ≤ c.1) (commands fuel p s)
  ∧ StronglySorted (fun c1 c2 => c1.1 < c2.1) (commands fuel p s)
  ∧ Forall (fun c => ∃ n, VerifyInstr n (IMem c.2) = true) (commands fuel p s).
Proof using Hp.
  revert s; induction fuel as [|fuel IH]; intros s; [repeat constructor|]. cbn [commands].
  assert (∀ s1, tick s ≤ tick s1 →
    Forall (fun c => tick s ≤ c.1) (commands fuel p s1)
    ∧ StronglySorted (fun c1 c2 => c1.1 < c2.1) (commands fuel p s1)
    ∧ Forall (fun c => ∃ n, VerifyInstr n (IMem c.2) = true) (commands fuel p s1)) as Hnext.
  { intros s1 Hs1. destruct (IH s1) as (H1 & H2 & H3). split_and!; [|done..].
    eapply Forall_impl; [exact H1|]. cbn. lia. }
  destruct (instrs p !! Z.to_nat (ip s)) as [[m|n|j|]|] eqn:Hi; [| | |repeat constructor..].
  - pose proof (verified _ _ Hi) as Hv. pose proof (verify_timeslice _ _ Hv) as Ht.
    set (s1 := State _ _ _ _). destruct (IH s1) as (H1 & H2 & H3). cbn [tick s1] in H1. split_and!.
    + constructor; [done|]. eapply Forall_impl; [exact H1|]. cbn. lia.
    + constructor; [done|]. eapply Forall_impl; [exact H1|]. cbn. lia.
    + constructor; [by eexists|done].
  - pose proof (verified_nop _ _ Hi). apply Hnext. cbn. lia.
  - destruct (loop s <? jmp_count j); apply Hnext; cbn; lia.
Qed.
End facts.

(** ** Properties of accepted runs *)
Section accepted.
Context `{DramLib}.
(** An invariant of the rank with respect to the commands executed so far, and
    what it gives for the next command. *)
Context (Inv : list (Z * Mem) → Rank → Prop) (Good : list (Z * Mem) → Z → Mem → Prop).
Hypothesis Hstep : ∀ h r t m r',
  Inv h r → Forall (fun c => c.1 ≤ t) h → (∃ n, VerifyInstr n (IMem m) = true) →
  Rank_Execute t m r = Ok (Some r') → Inv (h ++ [(t, m)]) r' ∧ Good h t m.

Lemma execute_all_good cmds h r r' :
  Inv h r → execute_all cmds r = Some r' →
  Forall (fun c => ∃ n, VerifyInstr n (IMem c.2) = true) cmds →
  StronglySorted (fun c1 c2 => c1.1 < c2.1) cmds →
  Forall (fun c0 => Forall (fun c => c0.1 ≤ c.1) cmds) h →
  ∀ pre t m post, cmds = pre ++ (t, m) :: post → Good (h ++ pre) t m.
Proof using Hstep.
  revert h r; induction cmds as [|[t0 m0] cmds IH]; intros h r Hinv Hex Hv Hsort Hle pre t m post Heq.
  { by destruct pre. }
  cbn [execute_all] in Hex. destruct (Rank_Execute t0 m0 r) as [[r1|]|e] eqn:Hr; [|done..].
  apply Forall_cons in Hv as [Hv0 Hv]. apply StronglySorted_inv in Hsort as [Hsort Hlt].
  assert (Forall (fun c => c.1 ≤ t0) h) as Hle0.
  { eapply Forall_impl; [exact Hle|]. intros c Hc. by apply Forall_cons in Hc as [? _]. }
  destruct (Hstep h r t0 m0 r1 Hinv Hle0 Hv0 Hr) as [Hinv1 Hgood].
  destruct pre as [|c pre]; cbn in Heq.
  - injection Heq as <- <- _. by rewrite app_nil_r.
  - injection Heq as <- Heq. rewrite cons_middle, app_assoc. eapply (IH _ r1); [exact Hinv1|done..| |exact Heq].
    apply Forall_app. split; [|apply Forall_singleton].
    + eapply Forall_impl; [exact Hle|]. intros c Hc. by apply Forall_cons in Hc as [_ ?].
    + eapply Forall_impl; [exact Hlt|]. cbn. lia.
Qed.

Lemma accepted_good fuel p s' :
  Inv [] (Rank_init (timing p)) → main fuel p = Some (Accepted s') →
  ∀ pre t m post, commands fuel p state_init = pre ++ (t, m) :: post → Good pre t m.
Proof using Hstep.
  intros Hinit. unfold main. destruct (forallb _ _); [|done].
  destruct (first_illegal 0 (instrs p)) as [n|] eqn:Hp; [done|]. intros Hrun pre t m post Heq.
  destruct (accepted_executes p Hp fuel state_init (Rank_init (timing p)) s') as [r' Hex]; [|done|].
  { unfold in_payload, state_init. cbn. lia. }
  destruct (commands_sorted p Hp fuel state_init) as (_ & Hs & Hv).
  by apply (execute_all_good _ [] (Rank_init (timing p)) r' Hinit Hex Hv Hs (Forall_nil_2 _) pre t m post).
Qed.
End accepted.

Lemma accepted_timing `{DramLib} fuel p s' :
  main fuel p = Some (Accepted s') → Forall (fun t => 0 < t) (timing_fields (timing p)).
Proof.
  unfold main. destruct (forallb _ _) eqn:E; [|done]. intros _. apply Forall_forall. intros t Ht.
  rewrite forallb_forall in E. specialize (E t ltac:(by apply list_elem_of_In)). lia.
Qed.

(** ** Runs that are accepted *)
Section complete.
Context `{DramLib} (p : payload) (Hp : first_illegal 0 (instrs p) = None).
Context (Inv : list (Z * Mem) → Rank → Prop) (Good : list (Z * Mem) → Z → Mem → Prop).
(** A command that is good is executed. *)
Hypothesis Hgo : ∀ h r t m,
  Inv h r → Forall (fun c => c.1 ≤ t) h → 0 ≤ t → (∃ n, VerifyInstr n (IMem m) = true) → Good h t m →
  ∃ r', Rank_Execute t m r = Ok (Some r') ∧ Inv (h ++ [(t, m)]) r'.

Lemma never_violates fuel : ∀ s r h,
  in_payload p s → Inv h r → Forall (fun c => c.1 ≤ tick s) h → 0 ≤ tick s →
  (∀ pre t m post, commands fuel p s = pre ++ (t, m) :: post → Good (h ++ pre) t m) →
  ∀ n t, run fuel p s r ≠ Some (Violation n t).
Proof using Hp Hgo.
  induction fuel as [|fuel IH]; intros s r h Hs Hinv Hle Ht Hgood n t; [done|]. cbn [run commands] in *.
  destruct (ip s <? length (instrs p)); [|done].
  destruct (instrs p !! Z.to_nat (ip s)) as [i|] eqn:Hi; [|done]. pose proof (verified p Hp _ _ Hi) as Hv.
  destruct (iteration i s r) as [s1 r1|v] eqn:Hit; [pose proof (iteration_in_payload p Hp _ _ _ _ _ Hs Hi Hit) as Hs1|];
    unfold iteration in Hit; destruct i as [m|x|j|]; try done.
  - destruct (Hgo h r (tick s) m) as (r' & Hr & Hinv'); [done..|by eexists|rewrite <- (app_nil_r h); by eapply (Hgood [])|].
    rewrite Hr in Hit. injection Hit as <- <-. pose proof (verify_timeslice _ _ Hv).
    apply (IH _ _ (h ++ [(tick s, m)])); [done|done| |cbn; lia|].
    + apply Forall_app. split; [eapply Forall_impl; [exact Hle|]; cbn; lia|]. apply Forall_singleton. cbn. lia.
    + intros pre t' m' post E. rewrite <- app_assoc. apply (Hgood _ t' m' post). cbn [app].
      rewrite <- E. f_equal. by rewrite <- (commands_executed p fuel (State (ip s + 1) (tick s + timeslice m) (loop s) (executed s)) (count_executed (mem_opcode m) (executed s))).
  - injection Hit as <- <-. pose proof (verified_nop p Hp _ _ Hi). apply (IH _ _ h); [done|done| |cbn; lia|].
    + eapply Forall_impl; [exact Hle|]; cbn; lia.
    + intros pre t' m' post E. apply (Hgood _ t' m' post). rewrite <- E.
      by rewrite <- (commands_executed p fuel (State (ip s + 1) (tick s + nop_timeslice x) (loop s) (executed s)) (count_executed (nop_opcode x) (executed s))).
  - destruct (loop s <? jmp_count j); injection Hit as <- <-; (apply (IH _ _ h); [done|done| |cbn; lia|]).
    1, 3: eapply Forall_impl; [exact Hle|]; cbn; lia.
    all: intros pre t' m' post E; apply (Hgood _ t' m' post); rewrite <- E.
    + by rewrite <- (commands_executed p fuel (State (ip s - offset j) (tick s + 1) (loop s + 1) (executed s)) (count_executed (jmp_opcode j) (executed s))).
    + by rewrite <- (commands_executed p fuel (State (ip s + 1) (tick s + 1) 0 (executed s)) (count_executed (jmp_opcode j) (executed s))).
  - destruct (Hgo h r (tick s) m) as (r' & Hr & Hinv'); [done..|by eexists|rewrite <- (app_nil_r h); by eapply (Hgood [])|].
    by rewrite Hr in Hit.
  - by destruct (loop s <? jmp_count j).
  - by rewrite verify_unset in Hv.
Qed.
End complete.

(** More fuel changes nothing. *)
Section more_fuel.
Context `{DramLib} (p : payload).

Lemma run_mono fuel k : ∀ s r v, run fuel p s r = Some v → run (fuel + k) p s r = Some v.
Proof.
  induction fuel as [|fuel IH]; intros s r v; [done|]. cbn [run Nat.add]. destruct (ip s <? _); [|done].
  destruct (instrs p !! _) as [i|]; [|done]. destruct (iteration i s r); [apply IH|done].
Qed.

Lemma commands_mono fuel k : ∀ s, commands fuel p s `prefix_of` commands (fuel + k) p s.
Proof.
  induction fuel as [|fuel IH]; intros s; [apply prefix_nil|]. cbn [commands Nat.add].
  destruct (instrs p !! _) as [[m|n|j|]|]; try done; [by apply prefix_cons|]. destruct (loop s <? jmp_count j); apply IH.
Qed.

Lemma main_mono fuel k v : main fuel p = Some v → main (fuel + k) p = Some v.
Proof. unfold main. destruct (forallb _ _); [|done]. destruct (first_illegal _ _); [done|]. apply run_mono. Qed.
End more_fuel.

(** ** Termination *)

(** Lexicographic order on triples. *)
Definition lex3 (a b : nat * nat * nat) : Prop :=
  let '(a1, a2, a3) := a in let '(b1, b2, b3) := b in
  (a1 < b1 ∨ a1 = b1 ∧ (a2 < b2 ∨ a2 = b2 ∧ a3 < b3))%nat.

Lemma lex3_wf : well_founded lex3.
Proof.
  intros [[a1 a2] a3]. revert a2 a3. induction (lt_wf a1) as [a1 _ IH1]. intros a2.
  induction (lt_wf a2) as [a2 _ IH2]. intros a3. induction (lt_wf a3) as [a3 _ IH3].
  constructor. intros [[b1 b2] b3] [Hlt|[-> [Hlt|[-> Hlt]]]]; auto.
Qed.

Lemma omap_nil {A B} (f : A → option B) l : Forall (fun x => f x = None) l → omap f l = [].
Proof. induction 1 as [|x l Hx _ IH]; [done|]. simpl. by rewrite Hx. Qed.

Section termination.
Context `{DramLib} (p : payload).
Context (Hp : first_illegal 0 (instrs p) = None) (Hnest : not_nested p).

(** The jumps at or after an instruction. *)
Definition jump_of (i : instr Mem) : option jmp_instr := match i with IJmp j => Some j | _ => None end.
Definition upcoming (n : nat) : list jmp_instr := omap jump_of (drop n (instrs p)).

Lemma upcoming_step n i :
  instrs p !! n = Some i →
  upcoming n = match i with IJmp j => j :: upcoming (S n) | _ => upcoming (S n) end.
Proof. intros Hi. unfold upcoming. rewrite (drop_S _ _ _ Hi). by destruct i. Qed.

Lemma upcoming_back n j k :
  instrs p !! n = Some (IJmp j) → Z.of_nat k = Z.of_nat n - offset j → 0 < offset j → upcoming k = upcoming n.
Proof using Hnest.
  intros Hn Hk Ho. unfold upcoming.
  rewrite <- (take_drop (n - k) (drop k (instrs p))), drop_drop.
  replace (k + (n - k))%nat with n by lia. rewrite omap_app.
  replace (omap jump_of (take (n - k) (drop k (instrs p)))) with (@nil jmp_instr); [done|].
  symmetry. apply omap_nil, Forall_lookup. intros m i Hi.
  apply lookup_take_Some in Hi as [Hi Hm]. rewrite lookup_drop in Hi.
  pose proof (Hnest n j (k + m)%nat i Hn Hi ltac:(lia)) as Hj. by destruct i.
Qed.

(** Jumps to come, iterations left of the next one, instructions left. *)
Definition measure (s : state) : nat * nat * nat :=
  let u := upcoming (Z.to_nat (ip s)) in
  (length u,
   match u with j :: _ => Z.to_nat (jmp_count j - loop s) | [] => 0 end,
   Z.to_nat (length (instrs p) - ip s))%nat.

Lemma iteration_decreases s r i s' r' :
  in_payload p s → instrs p !! Z.to_nat (ip s) = Some i → iteration i s r = Continue s' r' →
  lex3 (measure s') (measure s).
Proof using Hp Hnest.
  intros Hs Hi. pose proof (lookup_lt_Some _ _ _ Hi) as Hlt. unfold in_payload in Hs.
  pose proof (upcoming_step _ _ Hi) as Hu. unfold iteration, measure, lex3.
  assert (Z.to_nat (ip s + 1) = S (Z.to_nat (ip s))) as HS by lia.
  destruct i as [m|n|j|]; [| | |done].
  - destruct (Rank_Execute _ m r) as [[r1|]|e]; [|done..]. intros [= <- <-]. cbn [ip loop].
    rewrite HS, <- Hu. right. split; [done|]. right. split; [done|]. lia.
  - intros [= <- <-]. cbn [ip loop]. rewrite HS, <- Hu. right. split; [done|]. right. split; [done|]. lia.
  - destruct (verified_jmp p Hp _ _ Hi) as [Ho Hc].
    destruct (Z.ltb_spec (loop s) (jmp_count j)); intros [= <- <-]; cbn [ip loop].
    + rewrite (upcoming_back _ _ (Z.to_nat (ip s - offset j)) Hi) by lia. rewrite Hu.
      right. split; [done|]. left. lia.
    + rewrite HS, Hu. left. cbn. lia.
Qed.

Lemma run_S fuel s r : run (S fuel) p s r =
  if ip s <? length (instrs p) then
    match instrs p !! Z.to_nat (ip s) with
    | None => Some (Crashed IndexError)
    | Some i => match iteration i s r with Continue s' r' => run fuel p s' r' | Stop v => Some v end
    end
  else Some (Accepted s).
Proof. done. Qed.

Lemma run_terminates s r :
  in_payload p s → rank_wf r →
  ∃ fuel v, run fuel p s r = Some v
    ∧ ((∃ s', v = Accepted s') ∨ (∃ n t, v = Violation n t)).
Proof using Hp Hnest.
  remember (measure s) as m eqn:Hm. revert s r Hm.
  induction (lex3_wf m) as [m _ IH]. intros s r -> Hs Hr.
  destruct (Z.ltb_spec (ip s) (length (instrs p))) as [Hlt|Hge].
  - destruct (lookup_lt_is_Some_2 (instrs p) (Z.to_nat (ip s))) as [i Hi]; [unfold in_payload in Hs; lia|].
    destruct (iteration i s r) as [s1 r1|v] eqn:Hit.
    + destruct (IH _ (iteration_decreases _ _ _ _ _ Hs Hi Hit) s1 r1 eq_refl) as (fuel & v & Hv & Hk).
      * by eapply iteration_in_payload.
      * by eapply iteration_rank_wf.
      * exists (S fuel), v. rewrite run_S. apply Z.ltb_lt in Hlt. by rewrite Hlt, Hi, Hit.
    + exists 1%nat, v. rewrite run_S. apply Z.ltb_lt in Hlt. rewrite Hlt, Hi, Hit. split; [done|]. right.
      pose proof (verified p Hp _ _ Hi) as Hv. unfold iteration in Hit. destruct i as [m|n|j|].
      * destruct (rank_execute_ok (tick s) _ m r Hv Hr) as (o & Ho & _). rewrite Ho in Hit.
        destruct o; [done|]. injection Hit as <-. eauto.
      * done.
      * by destruct (loop s <? jmp_count j).
      * by rewrite verify_unset in Hv.
  - exists 1%nat, (Accepted s). rewrite run_S. apply Z.ltb_ge in Hge. rewrite Hge. eauto.
Qed.
End termination.

(** ** Exactly the good payloads

    When the rank, in states that satisfy an invariant, executes a command if and only
    if it is good, the verifier accepts a payload if and only if all its commands are. *)
Section exact.
Context `{DramLib} (p : payload) (Hnest : not_nested p).
Context (Inv : list (Z * Mem) → Rank → Prop) (Good : list (Z * Mem) → Z → Mem → Prop).
Context (Hinit : Inv [] (Rank_init (timing p))).
Hypothesis Hstep : Forall (fun x => 0 < x) (timing_fields (timing p)) → ∀ h r t m r',
  Inv h r → Forall (fun c => c.1 ≤ t) h →
  Rank_Execute t m r = Ok (Some r') → Inv (h ++ [(t, m)]) r' ∧ Good h t m.
Hypothesis Hgo : Forall (fun x => 0 < x) (timing_fields (timing p)) → ∀ h r t m n,
  Inv h r → 0 ≤ t → VerifyInstr n (IMem m) = true → Good h t m → ∃ r', Rank_Execute t m r = Ok (Some r').

Lemma accepts_exactly :
  (∃ fuel s, main fuel p = Some (Accepted s)) ↔
  Forall (fun x => 0 < x) (timing_fields (timing p))
  ∧ first_illegal 0 (instrs p) = None
  ∧ ∀ fuel pre tick m post, commands fuel p state_init = pre ++ (tick, m) :: post → Good pre tick m.
Proof using Hnest Hinit Hstep Hgo.
  split.
  - intros (fuel & s & Hmain). pose proof (accepted_timing fuel p s Hmain) as Hpos. split_and!; [done| |].
    + unfold main in Hmain. destruct (forallb _ _), (first_illegal 0 (instrs p)); done.
    + intros fuel' pre tick m post Hcmd. apply (main_mono _ _ fuel') in Hmain.
      destruct (commands_mono p fuel' fuel state_init) as [rest Hrest]. rewrite Nat.add_comm, Hcmd, <- app_assoc in Hrest.
      apply (accepted_good Inv Good) with (fuel + fuel')%nat p s (post ++ rest); try done.
      intros h r t x r' Hinv Hle _. by apply (Hstep Hpos).
  - intros (Hpos & Hp & Hgood). destruct (run_terminates p Hp Hnest state_init (Rank_init (timing p))) as (fuel & v & Hrun & Hv).
    { unfold in_payload, state_init. cbn. lia. }
    { apply rank_init_wf. }
    exists fuel. destruct Hv as [[s ->]|(n & t & ->)].
    + exists s. unfold main. assert (forallb (fun t => 0 <? t) (timing_fields (timing p)) = true) as ->; [|by rewrite Hp].
      apply forallb_forall. intros x Hx%list_elem_of_In. rewrite Forall_forall in Hpos. by apply Z.ltb_lt, Hpos.
    + exfalso. revert Hrun. apply (never_violates p Hp Inv Good) with (h := []); try done.
      * intros h r t' m Hinv Hle Ht [n' Hv] Had. destruct (Hgo Hpos h r t' m n' Hinv Ht Hv Had) as [r' Hr].
        exists r'. split; [done|]. by eapply (Hstep Hpos h r t' m).
      * unfold in_payload, state_init. cbn. lia.
      * intros pre t' m post. apply Hgood.
Qed.
End exact.
