(* ===== verification/DramTiming.v ===== *)
(** * Tables of next ticks

    The timing automata of [src/rowhammer_tester/payload/ddr3lib.py] and
    [ddr4lib.py] are tables of the earliest tick of each opcode, raised by every
    executed command.  This file has the table, the class [Bank] (the same in
    both files) and the invariant by which a table enforces minimal distances
    between commands, for any table of parameters that meets [table_ok]. *)

From stdpp Require Import functions.
From S2P Require Import Prelude PayloadVerifier.

(** Ticks, with [math.inf]. *)
Inductive time := Fin (n : Z) | Inf.

(** [next_tick]: opcodes that are not keys have the default 0 of [get]. *)
Abbreviation next_ticks := (opcode → time).
(** [parameters]: for an executed opcode, the delays of others. *)
Definition params := opcode → list (opcode * time).

Definition before (t : Z) (n : time) : bool := match n with Fin n => t <? n | Inf => true end.
Definition plus (t : Z) (p : time) : time := match p with Fin q => Fin (t + q) | Inf => Inf end.

(** One turn of the loop over [parameters.get(instr.opcode, {}).items()]. *)
Definition raise_tick (tick : Z) (nt : next_ticks) (e : opcode * time) : next_ticks :=
  let '(op, p) := e in
  match nt op with
  | Inf => <[op := plus tick p]> nt
  | Fin n => if before n (plus tick p) then <[op := plus tick p]> nt else nt
  end.

Definition raise_ticks (P : params) (tick : Z) (op : opcode) (nt : next_ticks) : next_ticks :=
  foldl (raise_tick tick) nt (P op).

(** ** Bank *)
Record bank_timing := BankTiming { bt_rtp : Z; bt_rcd : Z; bt_ras : Z; bt_rp : Z }.

Definition Bank_parameters (t : bank_timing) : params := fun op =>
  match op with
  | RD => [(PRE, Fin (bt_rtp t))]
  | ACT => [(RD, Fin (bt_rcd t)); (ACT, Inf); (PRE, Fin (bt_ras t))]
  | PRE => [(RD, Inf); (ACT, Fin (bt_rp t))]
  | _ => []
  end.

Definition Bank_init : next_ticks := fun op => match op with RD => Inf | _ => Fin 0 end.

Definition Bank_Execute (t : bank_timing) (tick : Z) (op : opcode) (nt : next_ticks) : option next_ticks :=
  if before tick (nt op) then None else Some (raise_ticks (Bank_parameters t) tick op nt).

(** ** What a table enforces *)
Fixpoint assoc (o : opcode) (l : list (opcode * time)) : option time :=
  match l with
  | [] => None
  | (o', p) :: l' => if decide (o' = o) then Some p else assoc o l'
  end.

(** The minimal distance from a command [s] to a command [o]. *)
Definition delay (P : params) (s o : opcode) : Z :=
  match assoc o (P s) with Some (Fin p) => p | _ => 0 end.

Definition combine (t : Z) (n p : time) : time :=
  match n, p with
  | _, Inf => Inf
  | Inf, Fin q => Fin (t + q)
  | Fin n, Fin q => Fin (Z.max n (t + q))
  end.

Lemma raise_tick_at t nt o p o' :
  raise_tick t nt (o, p) o' = if decide (o = o') then combine t (nt o) p else nt o'.
Proof.
  unfold raise_tick. destruct (decide (o = o')) as [<-|Hne].
  - destruct (nt o) as [n|] eqn:E, p as [q|]; cbn [before plus combine];
      rewrite ?fn_lookup_insert; try done.
    destruct (Z.ltb_spec n (t + q)); rewrite ?fn_lookup_insert, ?E; f_equal; lia.
  - destruct (nt o); [destruct (before _ _)|]; by rewrite ?fn_lookup_insert_ne.
Qed.

Lemma raise_ticks_at P t s nt o :
  NoDup (P s).*1 →
  raise_ticks P t s nt o = match assoc o (P s) with Some p => combine t (nt o) p | None => nt o end.
Proof.
  unfold raise_ticks. generalize (P s) as l. intros l. revert nt.
  induction l as [|[o' p] l IH]; intros nt Hn; [done|].
  rewrite fmap_cons, NoDup_cons in Hn. destruct Hn as [Hn1 Hn2]. cbn [foldl assoc].
  rewrite (IH _ Hn2), raise_tick_at. destruct (decide (o' = o)) as [<-|]; [|done].
  assert (assoc o' l = None) as ->; [|done]. clear -Hn1. induction l as [|[o1 p1] l IH]; [done|].
  rewrite fmap_cons, not_elem_of_cons in Hn1. cbn in Hn1 |- *. rewrite decide_False by (destruct Hn1; congruence). apply IH, Hn1.
Qed.

Section table.
Context (P : params) (nt0 : next_ticks).

(** An opcode that is never blocked indefinitely. *)
Definition finite_slot (o : opcode) : Prop := nt0 o ≠ Inf ∧ ∀ s, assoc o (P s) ≠ Some Inf.

(** When an opcode can be blocked, the command that releases it must not come
    too early for the commands that delayed it before. *)
Class table_ok : Prop := {
  table_nodup s : NoDup (P s).*1;
  table_release o : finite_slot o
    ∨ ∀ s p k q, assoc o (P s) = Some (Fin p) → assoc o (P k) = Some (Fin q) → k ≠ o →
        p ≤ q ∨ ∃ p', assoc k (P s) = Some (Fin p') ∧ p ≤ q + p';
}.

Context `{table_ok}.

(** [h]: the commands executed so far. *)
Definition table_inv (h : list (Z * opcode)) (nt : next_ticks) : Prop :=
  (∀ o, finite_slot o → nt o ≠ Inf)
  ∧ (∀ t s o p n, (t, s) ∈ h → assoc o (P s) = Some (Fin p) → nt o = Fin n → t + p ≤ n).

Lemma table_init : table_inv [] nt0.
Proof. split; [by intros o [? _]|]. intros t s o p n Hin. by apply elem_of_nil in Hin. Qed.

Lemma table_gap h nt t k s t0 p :
  table_inv h nt → before t (nt k) = false → (t0, s) ∈ h → assoc k (P s) = Some (Fin p) → t0 + p ≤ t.
Proof.
  intros [_ Hinv] Hb Hin Ha. destruct (nt k) as [n|] eqn:E; [|done]. cbn in Hb.
  specialize (Hinv _ _ _ _ _ Hin Ha E). lia.
Qed.

Lemma table_delay h nt t k t0 s :
  table_inv h nt → Forall (fun e => e.1 ≤ t) h → before t (nt k) = false → (t0, s) ∈ h →
  t0 + delay P s k ≤ t.
Proof.
  intros Hinv Hle Hb Hin. pose proof (proj1 (Forall_forall _ _) Hle _ Hin) as Ht. cbn in Ht.
  unfold delay. destruct (assoc k (P s)) as [[p|]|] eqn:Ha; [|lia..]. by eapply table_gap.
Qed.

Lemma table_step h nt t k :
  table_inv h nt → Forall (fun e => e.1 ≤ t) h → before t (nt k) = false →
  table_inv (h ++ [(t, k)]) (raise_ticks P t k nt).
Proof using All.
  intros Hinv Hle Hb. pose proof Hinv as [Hfin Hdel]. split.
  - intros o Ho. rewrite raise_ticks_at by apply table_nodup.
    specialize (Hfin o Ho). destruct Ho as [_ Ho]. specialize (Ho k).
    destruct (assoc o (P k)) as [[q|]|]; [|done..]. by destruct (nt o).
  - intros t0 s o p n Hin Ha. rewrite raise_ticks_at by apply table_nodup.
    apply elem_of_app in Hin as [Hin|Hin%list_elem_of_singleton].
    + pose proof (proj1 (Forall_forall _ _) Hle _ Hin) as Ht. cbn in Ht.
      destruct (assoc o (P k)) as [[q|]|] eqn:Hk; [|by destruct (nt o)|by intros; eapply Hdel].
      destruct (nt o) as [n0|] eqn:En; cbn; intros [= <-].
      { specialize (Hdel _ _ _ _ _ Hin Ha En). lia. }
      destruct (table_release o) as [Ho|Hrel]; [by destruct (Hfin o Ho)|].
      destruct (Hrel s p k q Ha Hk) as [Hpq|(p' & Hp' & Hpq)]; [by intros ->; rewrite En in Hb|lia|].
      pose proof (table_gap _ _ _ _ _ _ _ Hinv Hb Hin Hp'). lia.
    + injection Hin as <- <-. rewrite Ha. destruct (nt o); cbn; intros [= <-]; lia.
Qed.
End table.

(** ** Tables are exact: a finite entry comes from a command executed before. *)
Definition table_exact (P : params) (h : list (Z * opcode)) (nt : next_ticks) : Prop :=
  ∀ o n, nt o = Fin n → n ≤ 0 ∨ ∃ t s p, (t, s) ∈ h ∧ assoc o (P s) = Some (Fin p) ∧ n = t + p.

Lemma table_exact_init P nt0 : (∀ o n, nt0 o = Fin n → n = 0) → table_exact P [] nt0.
Proof. intros H0 o n Hn. left. specialize (H0 _ _ Hn). lia. Qed.

Lemma table_exact_step P h nt t k :
  NoDup (P k).*1 → table_exact P h nt → table_exact P (h ++ [(t, k)]) (raise_ticks P t k nt).
Proof.
  intros Hnd Hex o n. rewrite raise_ticks_at by done.
  assert (∀ n, nt o = Fin n → n ≤ 0 ∨ ∃ t' s p, (t', s) ∈ h ++ [(t, k)] ∧ assoc o (P s) = Some (Fin p) ∧ n = t' + p) as Hold.
  { clear n. intros n [?|(t' & s & p & Hin & ? & ?)]%Hex; [by left|right]. exists t', s, p. split_and!; [apply elem_of_app; by left|done|done]. }
  assert (∀ q, assoc o (P k) = Some (Fin q) → ∃ t' s p, (t', s) ∈ h ++ [(t, k)] ∧ assoc o (P s) = Some (Fin p) ∧ t + q = t' + p) as Hnew.
  { intros q Hq. exists t, k, q. split_and!; [apply elem_of_app; right; by left|done|done]. }
  destruct (assoc o (P k)) as [[q|]|] eqn:Ea; [| |by apply Hold].
  - destruct (nt o) as [n0|] eqn:En; cbn; intros [= <-].
    + destruct (Z.max_spec n0 (t + q)) as [[_ ->]|[_ ->]]; [right; by apply Hnew|]. by apply Hold.
    + right. by apply Hnew.
  - by destruct (nt o).
Qed.

(** When the distances are kept, only a blocked opcode is refused. *)
Lemma table_accepts P h nt t k :
  table_exact P h nt → 0 ≤ t → nt k ≠ Inf → (∀ t0 s, (t0, s) ∈ h → t0 + delay P s k ≤ t) → before t (nt k) = false.
Proof.
  intros Hex Ht Hk Hd. destruct (nt k) as [n|] eqn:E; [|done]. cbn. apply Z.ltb_ge.
  destruct (Hex k n E) as [?|(t0 & s & p & Hin & Ha & ->)]; [lia|]. specialize (Hd t0 s Hin). unfold delay in Hd. rewrite Ha in Hd. lia.
Qed.

#[global] Instance Bank_table t : table_ok (Bank_parameters t) Bank_init.
Proof.
  split.
  - intros []; apply (bool_decide_unpack _); vm_compute; exact I.
  - intros []; try (left; split; [done|]; by intros []); right; intros [] p [] q; cbn; intros [=] [=] _; subst; by left.
Qed.

(** Whether a row of the bank is open after commands. *)
Definition row_open (h : list opcode) : bool :=
  foldl (fun b op => match op with ACT => true | PRE => false | _ => b end) false h.

Definition Bank_inv (t : bank_timing) (h : list (Z * opcode)) (nt : next_ticks) : Prop :=
  table_inv (Bank_parameters t) Bank_init h nt
  ∧ (nt RD = Inf ↔ row_open h.*2 = false) ∧ (nt ACT = Inf ↔ row_open h.*2 = true).

Lemma Bank_inv_init t : Bank_inv t [] Bank_init.
Proof. split; [apply table_init|]. done. Qed.

(** A command that the bank accepts keeps the distances and the row discipline. *)
Lemma Bank_step t h nt tick op nt' :
  Bank_inv t h nt → Forall (fun e => e.1 ≤ tick) h → Bank_Execute t tick op nt = Some nt' →
  Bank_inv t (h ++ [(tick, op)]) nt'
  ∧ (∀ t0 s, (t0, s) ∈ h → t0 + delay (Bank_parameters t) s op ≤ tick)
  ∧ (op = RD → row_open h.*2 = true) ∧ (op = ACT → row_open h.*2 = false).
Proof.
  intros (Hinv & Hrd & Hact) Hle. unfold Bank_Execute. destruct (before tick (nt op)) eqn:Hb; [done|].
  intros [= <-]. unfold Bank_inv. split_and!.
  - by apply table_step; [apply _|..].
  - rewrite fmap_app. unfold row_open. rewrite foldl_app. fold (row_open h.*2). cbn [fmap list_fmap foldl snd].
    rewrite raise_ticks_at by apply (table_nodup _ Bank_init). destruct op; cbn; try done; by destruct (nt RD).
  - rewrite fmap_app. unfold row_open. rewrite foldl_app. fold (row_open h.*2). cbn [fmap list_fmap foldl snd].
    rewrite raise_ticks_at by apply (table_nodup _ Bank_init). destruct op; cbn; try done; by destruct (nt ACT).
  - intros t0 s Hin. by eapply (table_delay _ Bank_init).
  - intros ->. apply not_false_is_true. rewrite <- Hrd. intros E. by rewrite E in Hb.
  - intros ->. apply not_true_is_false. rewrite <- Hact. intros E. by rewrite E in Hb.
Qed.

(** For the rank a refresh is possible when the last command among ACT and PRE, on any
    bank, was not an ACT. *)
Definition ref_ready (h : list opcode) : bool :=
  foldl (fun b op => match op with ACT => false | PRE => true | _ => b end) true h.

Lemma ref_ready_snoc h op : ref_ready (h ++ [op]) = match op with ACT => false | PRE => true | _ => ref_ready h end.
Proof. unfold ref_ready. by rewrite foldl_app. Qed.

(** Opcodes other than RD and ACT are never blocked. *)
Lemma Bank_finite t h nt op : Bank_inv t h nt → op ≠ RD → op ≠ ACT → nt op ≠ Inf.
Proof. intros ([Hf _] & _) H1 H2. apply Hf. split; [by destruct op|]. intros []; by destruct op. Qed.

Lemma Bank_accepts t h nt tick op :
  Bank_inv t h nt → table_exact (Bank_parameters t) h nt → 0 ≤ tick →
  (∀ t0 s, (t0, s) ∈ h → t0 + delay (Bank_parameters t) s op ≤ tick) →
  (op = RD → row_open h.*2 = true) → (op = ACT → row_open h.*2 = false) →
  Bank_Execute t tick op nt = Some (raise_ticks (Bank_parameters t) tick op nt).
Proof.
  intros Hinv Hex Ht Hd Hrd Hact. unfold Bank_Execute. rewrite (table_accepts _ _ _ _ _ Hex Ht); [done| |done].
  destruct Hinv as (Htab & H1 & H2). destruct (decide (op = RD)) as [->|]; [rewrite H1, Hrd; done|].
  destruct (decide (op = ACT)) as [->|]; [rewrite H2, Hact; done|]. by apply (Bank_finite t h).
Qed.

(** ** Four-activate window *)

(** [collections.deque(maxlen=4)]: appending drops the oldest element. *)
Definition deque_append (t : Z) (l : list Z) : list Z :=
  if decide (length l = 4%nat) then drop 1 l ++ [t] else l ++ [t].

(** The check of [Rank.Execute]: [None] on a violation. *)
Definition faw_execute (faw tick : Z) (op : opcode) (prev : list Z) : option (list Z) :=
  if decide (op = ACT) then
    if bool_decide (length prev = 4%nat) && (tick - nth 0 prev 0 <? faw) then None
    else Some (deque_append tick prev)
  else Some prev.

Definition last4 (l : list Z) : list Z := drop (length l - 4) l.
Definition act_ticks (h : list (Z * opcode)) : list Z := (filter (fun e => e.2 = ACT) h).*1.

Lemma last4_append l t : last4 (l ++ [t]) = deque_append t (last4 l).
Proof.
  unfold last4, deque_append. rewrite length_app, length_drop. cbn [length].
  destruct (decide (length l - (length l - 4) = 4)%nat) as [E|E].
  - rewrite drop_drop, <- drop_app_le by lia. f_equal. lia.
  - replace (length l - 4)%nat with 0%nat by lia. replace (length l + 1 - 4)%nat with 0%nat by lia. done.
Qed.

(** The ACT at [tick] respects the window with respect to the fourth ACT before it. *)
Definition faw_ok (faw tick : Z) (acts : list Z) : Prop :=
  ∀ t0, acts !! (length acts - 4)%nat = Some t0 → (4 ≤ length acts)%nat → faw ≤ tick - t0.

Lemma faw_step faw tick op h prev :
  faw_execute faw tick op (last4 (act_ticks h)) = Some prev →
  prev = last4 (act_ticks (h ++ [(tick, op)])) ∧ (op = ACT → faw_ok faw tick (act_ticks h)).
Proof.
  unfold faw_execute, act_ticks. rewrite filter_app, fmap_app, filter_cons. cbn [snd].
  fold (act_ticks h). generalize (act_ticks h) as l. intros l.
  destruct (decide (op = ACT)) as [->|Hne].
  - destruct (bool_decide _ && _) eqn:E; [done|]. intros [= <-]. rewrite filter_nil.
    cbn [fmap list_fmap fst]. rewrite last4_append. split; [done|]. intros _ t0 Ht0 H4.
    unfold last4 in E. rewrite bool_decide_true in E by (rewrite length_drop; lia). cbn [andb] in E.
    apply Z.ltb_ge in E. replace (nth 0 (drop (length l - 4) l) 0) with t0 in E; [done|].
    symmetry. apply nth_lookup_Some. rewrite lookup_drop, Nat.add_0_r. done.
  - intros [= <-]. rewrite filter_nil, app_nil_r. done.
Qed.

(** The window is also enough. *)
Lemma faw_accepts faw tick op h :
  (op = ACT → faw_ok faw tick (act_ticks h)) → ∃ prev, faw_execute faw tick op (last4 (act_ticks h)) = Some prev.
Proof.
  intros Hok. unfold faw_execute. destruct (decide (op = ACT)) as [->|]; [|by eexists]. specialize (Hok eq_refl).
  destruct (bool_decide _ && _) eqn:E; [|by eexists]. exfalso. apply andb_true_iff in E as [E1%bool_decide_eq_true E2%Z.ltb_lt].
  revert Hok E1 E2. unfold last4, faw_ok. generalize (act_ticks h) as l. intros l Hok E1 E2. rewrite length_drop in E1.
  destruct (lookup_lt_is_Some_2 l (length l - 4)) as [t0 Ht0]; [lia|]. specialize (Hok t0 Ht0 ltac:(lia)).
  replace (nth 0 (drop (length l - 4) l) 0) with t0 in E2; [lia|]. symmetry. apply nth_lookup_Some. by rewrite lookup_drop, Nat.add_0_r.
Qed.
