(* ===== verification/Ddr3.v ===== *)
(** * DDR3 rules of the payload verifier

    Models [src/rowhammer_tester/payload/ddr3lib.py], the [dramlib] for DDR3, as
    an instance of [DramLib], and shows what an accepted payload guarantees. *)

From stdpp Require Import functions.
From S2P Require Import Prelude PayloadVerifier DramTiming.

Record timing3 := Timing3 {
  tick_ps : Z; ras : Z; rp : Z; rfc : Z; rcd : Z; ccd : Z; rtp : Z; rrd : Z; faw : Z;
}.

Record mem3 := Mem3 { opcode3 : opcode; timeslice3 : Z; rank : Z; bank : nat; addr : Z }.

(** MemInstr.Bits: TIMESLICE is 8, BANK 3, ADDR 16. *)
Definition VerifyInstr3 (ip : Z) (i : instr mem3) : bool :=
  match i with
  | IMem m =>
      bool_decide (opcode3 m ∈ [RD; ACT; PRE; REF])
      && ((0 <? timeslice3 m) && (timeslice3 m <? Z.shiftl 1 8))
      && (rank m =? 0)
      && negb (Z.shiftl 1 3 <=? bank m)
      && negb (Z.shiftl 1 16 <=? addr m)
      && negb (bool_decide (opcode3 m = RD) && negb (addr m mod 8 =? 0))
  | INop n => verify_nop n
  | IJmp j => verify_jmp ip j
  | IUnset => false
  end.

(** ** Rank *)
Definition Rank3_parameters (t : timing3) : params := fun op =>
  match op with
  | RD => [(RD, Fin (ccd t))]
  | ACT => [(ACT, Fin (rrd t)); (REF, Inf)]
  | PRE => [(REF, Fin (rp t))]
  | REF => [(ACT, Fin (rfc t)); (PRE, Fin (rfc t)); (REF, Fin (rfc t))]
  | _ => []
  end.

Definition bank_timing3 (t : timing3) : bank_timing := BankTiming (rtp t) (rcd t) (ras t) (rp t).

Record rank3 := Rank3 {
  r_timing : timing3;
  next_tick : next_ticks;
  prev_acts : list Z;
  banks : list next_ticks;
}.

Definition Rank3_init (t : timing3) : rank3 :=
  Rank3 t (fun _ => Fin 0) [] (replicate (Z.to_nat (Z.shiftl 1 3)) Bank_init).

(** The [if] that reports a violation first, then the window, the bank and the
    rank's own table. *)
Definition Rank3_Execute (tick : Z) (m : mem3) (r : rank3) : result (option rank3) :=
  if before tick (next_tick r (opcode3 m)) then Ok None
  else match faw_execute (faw (r_timing r)) tick (opcode3 m) (prev_acts r) with
  | None => Ok None
  | Some acts =>
      b ← of_option IndexError (banks r !! bank m);
      match Bank_Execute (bank_timing3 (r_timing r)) tick (opcode3 m) b with
      | None => Ok None
      | Some b' =>
          Ok (Some (Rank3 (r_timing r)
                (raise_ticks (Rank3_parameters (r_timing r)) tick (opcode3 m) (next_tick r))
                acts (<[bank m := b']> (banks r))))
      end
  end.

Definition opcode_number3 (op : opcode) : Z :=
  match op with NOP => 0 | RD => 2 | ACT => 4 | PRE => 5 | REF => 6 | JMP => 7 | MAX => 8 end.

Definition timing_fields3 (t : timing3) : list Z :=
  [tick_ps t; ras t; rp t; rfc t; rcd t; ccd t; rtp t; rrd t; faw t].

(** ** Instance *)
Lemma verify3_mem ip m :
  VerifyInstr3 ip (IMem m) = true →
  opcode3 m ∈ [RD; ACT; PRE; REF] ∧ 0 < timeslice3 m < 256 ∧ bank m < 8.
Proof.
  cbn -[elem_of]. change (Z.shiftl 1 8) with 256. change (Z.shiftl 1 3) with 8.
  rewrite !andb_true_iff, bool_decide_eq_true, !negb_true_iff.
  intros (((((He & Ht) & _) & Hb) & _) & _). split; [done|]. lia.
Qed.

Definition rank3_wf (r : rank3) : Prop := length (banks r) = 8%nat.

Lemma rank3_execute_ok t ip m r :
  VerifyInstr3 ip (IMem m) = true → rank3_wf r →
  ∃ o, Rank3_Execute t m r = Ok o ∧ (∀ r', o = Some r' → rank3_wf r').
Proof.
  intros (_ & _ & Hb)%verify3_mem Hr. unfold Rank3_Execute, rank3_wf in *.
  destruct (before _ _); [by eexists|]. destruct (faw_execute _ _ _ _); [|by eexists].
  destruct (lookup_lt_is_Some_2 (banks r) (bank m)) as [b ->]; [lia|].
  cbn [of_option]. rewrite ok_bind. destruct (Bank_Execute _ _ _ _); [|by eexists].
  eexists; split; [done|]. intros r' [= <-]. cbn. by rewrite length_insert.
Qed.

#[global] Program Instance ddr3lib : DramLib := {|
  Timing := timing3; Mem := mem3; Rank := rank3;
  mem_opcode := opcode3; timeslice := timeslice3; timing_fields := timing_fields3;
  opcode_number := opcode_number3; VerifyInstr := VerifyInstr3;
  Rank_init := Rank3_init; Rank_Execute := Rank3_Execute; rank_wf := rank3_wf;
  rank_execute_ok := rank3_execute_ok;
|}.
Next Obligation. intros ip m ?%verify3_mem. tauto. Qed.
Next Obligation. intros ip m ?%verify3_mem. tauto. Qed.
Next Obligation. done. Qed.
Next Obligation. done. Qed.
Next Obligation. done. Qed.
Next Obligation. done. Qed.

(** ** What the rules are *)

(** Minimal distance of two commands, in ticks. *)
Definition min_gap3 (t : timing3) (m0 m : mem3) : Z :=
  let same v := if decide (bank m0 = bank m) then v else 0 in
  match opcode3 m0, opcode3 m with
  | RD, RD => ccd t
  | ACT, ACT => rrd t
  | PRE, REF => rp t
  | REF, (ACT | PRE | REF) => rfc t
  | RD, PRE => same (rtp t)
  | ACT, RD => same (rcd t)
  | ACT, PRE => same (ras t)
  | PRE, ACT => same (rp t)
  | _, _ => 0
  end.

(** The commands on a bank, and all of them, without the other fields. *)
Definition on_bank3 (b : nat) (h : list (Z * mem3)) : list (Z * opcode) :=
  (fun c => (c.1, opcode3 c.2)) <$> filter (fun c => bank c.2 = b) h.
Definition on_rank3 (h : list (Z * mem3)) : list (Z * opcode) := (fun c => (c.1, opcode3 c.2)) <$> h.

(** Command [m] at [tick] is legal after the commands [h]. *)
Record legal3 (t : timing3) (h : list (Z * mem3)) (tick : Z) (m : mem3) : Prop := {
  legal3_gap t0 m0 : (t0, m0) ∈ h → min_gap3 t m0 m ≤ tick - t0;
  legal3_read : opcode3 m = RD → row_open (on_bank3 (bank m) h).*2 = true;
  legal3_act : opcode3 m = ACT → row_open (on_bank3 (bank m) h).*2 = false;
  legal3_faw : opcode3 m = ACT → faw_ok (faw t) tick (act_ticks (on_rank3 h));
}.

Definition init_table : next_ticks := fun _ => Fin 0.

#[global] Instance Rank3_table t : 0 ≤ rp t → table_ok (Rank3_parameters t) init_table.
Proof.
  intros Hrp. split.
  - intros []; apply (bool_decide_unpack _); vm_compute; exact I.
  - intros []; try (left; split; [done|]; by intros []); right; intros [] p [] q; cbn; intros [=] [=] ?;
      subst; try done; try (left; lia). right. eexists; split; [done|]. lia.
Qed.

Definition rank3_inv (t : timing3) (h : list (Z * mem3)) (r : rank3) : Prop :=
  r_timing r = t ∧ length (banks r) = 8%nat ∧ 
  table_inv (Rank3_parameters t) init_table (on_rank3 h) (next_tick r)
  ∧ prev_acts r = last4 (act_ticks (on_rank3 h))
  ∧ ∀ b nt, banks r !! b = Some nt → Bank_inv (bank_timing3 t) (on_bank3 b h) nt.

Lemma on_bank3_snoc b h t m :
  on_bank3 b (h ++ [(t, m)]) = on_bank3 b h ++ (if decide (bank m = b) then [(t, opcode3 m)] else []).
Proof.
  unfold on_bank3. rewrite filter_app, fmap_app, filter_cons, filter_nil. cbn [snd].
  by destruct (decide (bank m = b)).
Qed.

Lemma on_bank3_elem b h t m : (t, m) ∈ h → bank m = b → (t, opcode3 m) ∈ on_bank3 b h.
Proof. intros Hin <-. apply list_elem_of_fmap. exists (t, m). split; [done|]. by apply list_elem_of_filter. Qed.

Lemma on_bank3_le b h t : Forall (fun c => c.1 ≤ t) h → Forall (fun e => e.1 ≤ t) (on_bank3 b h).
Proof.
  rewrite !Forall_forall. intros Hle e (c & -> & Hc)%list_elem_of_fmap.
  apply list_elem_of_filter in Hc as [_ Hc]. by apply (Hle c).
Qed.

Lemma rank3_init_inv t : rank3_inv t [] (Rank3_init t).
Proof.
  split_and!; try done; [apply table_init|]. intros b nt Hb. cbn in Hb.
  apply lookup_replicate_1 in Hb as [-> _]. apply Bank_inv_init.
Qed.

Lemma min_gap3_delay t m0 m :
  min_gap3 t m0 m = delay (Rank3_parameters t) (opcode3 m0) (opcode3 m)
  ∨ bank m0 = bank m ∧ min_gap3 t m0 m = delay (Bank_parameters (bank_timing3 t)) (opcode3 m0) (opcode3 m).
Proof.
  unfold min_gap3. destruct (opcode3 m0), (opcode3 m); try (left; reflexivity);
    case_decide; (left; reflexivity) || (right; split; [done|reflexivity]).
Qed.

Lemma rank3_step t h r tick m r' :
  0 ≤ rp t → rank3_inv t h r → Forall (fun c => c.1 ≤ tick) h →
  Rank3_Execute tick m r = Ok (Some r') → rank3_inv t (h ++ [(tick, m)]) r' ∧ legal3 t h tick m.
Proof.
  intros Hrp (<- & Hlen & Htab & Hacts & Hbanks) Hle. pose proof (Rank3_table (r_timing r) Hrp) as Htok.
  assert (Forall (fun e => e.1 ≤ tick) (on_rank3 h)) as Hle' by by apply Forall_fmap.
  unfold Rank3_Execute. destruct (before tick (next_tick r (opcode3 m))) eqn:Hb; [done|].
  destruct (faw_execute _ _ _ _) as [acts|] eqn:Hfaw; [|done]. rewrite Hacts in Hfaw.
  destruct (faw_step _ _ _ _ _ Hfaw) as [-> Hok].
  destruct (banks r !! bank m) as [b|] eqn:Hbank; cbn [of_option]; [rewrite ok_bind|done].
  destruct (Bank_Execute _ _ _ _) as [b'|] eqn:Hex; [|done]. intros [= <-].
  destruct (Bank_step _ _ _ _ _ _ (Hbanks _ _ Hbank) (on_bank3_le (bank m) h tick Hle) Hex)
    as (Hb' & Hgap & Hrd & Hact).
  split; [split_and!|split].
  - done.
  - cbn. by rewrite length_insert.
  - unfold on_rank3. rewrite fmap_app. by apply table_step.
  - unfold on_rank3. by rewrite fmap_app.
  - intros b0 nt. cbn [banks]. rewrite on_bank3_snoc. destruct (decide (bank m = b0)) as [<-|Hne].
    + rewrite list_lookup_insert_eq by by eapply lookup_lt_Some. by intros [= <-].
    + rewrite list_lookup_insert_ne by done. rewrite app_nil_r. apply Hbanks.
  - intros t0 m0 Hin.
    pose proof (table_delay _ _ _ _ _ _ t0 (opcode3 m0) Htab Hle' Hb
      ltac:(apply list_elem_of_fmap; by exists (t0, m0))) as Hr.
    assert (bank m0 = bank m → t0 + delay (Bank_parameters (bank_timing3 (r_timing r))) (opcode3 m0) (opcode3 m) ≤ tick)
      as Hbk by (intros ?; apply Hgap; by apply on_bank3_elem).
    destruct (min_gap3_delay (r_timing r) m0 m) as [->|[E ->]]; [lia|]. specialize (Hbk E). lia.
  - done.
  - done.
  - done.
Qed.

(** ** Exactly the legal payloads *)

Definition admissible3 (t : timing3) (h : list (Z * mem3)) (tick : Z) (m : mem3) : Prop :=
  legal3 t h tick m ∧ (opcode3 m = REF → ref_ready (on_rank3 h).*2 = true).

Record rank3_exact (t : timing3) (h : list (Z * mem3)) (r : rank3) : Prop := {
  re_inv : rank3_inv t h r;
  re_table : table_exact (Rank3_parameters t) (on_rank3 h) (next_tick r);
  re_ref : next_tick r REF = Inf ↔ ref_ready (on_rank3 h).*2 = false;
  re_banks : ∀ b nt, banks r !! b = Some nt → table_exact (Bank_parameters (bank_timing3 t)) (on_bank3 b h) nt;
}.

Lemma rank3_exact_init t : rank3_exact t [] (Rank3_init t).
Proof.
  split; [apply rank3_init_inv|by apply table_exact_init; intros ? ? [= <-]|done|].
  intros b nt [-> _]%lookup_replicate_1. apply table_exact_init. by intros [] n [= <-].
Qed.

Lemma assoc_REF t op :
  assoc REF (Rank3_parameters t op) = match op with ACT => Some Inf | PRE => Some (Fin (rp t)) | REF => Some (Fin (rfc t)) | _ => None end.
Proof. by destruct op. Qed.

Lemma rank3_exact_step t h r tick m r' :
  0 ≤ rp t → rank3_exact t h r → Forall (fun c => c.1 ≤ tick) h →
  Rank3_Execute tick m r = Ok (Some r') → rank3_exact t (h ++ [(tick, m)]) r' ∧ admissible3 t h tick m.
Proof.
  intros Hrp [Hinv Htab Href Hbanks] Hle Hex. destruct (rank3_step t h r tick m r' Hrp Hinv Hle Hex) as [Hinv' Hlegal].
  destruct Hinv as (<- & _). unfold Rank3_Execute in Hex. destruct (before tick (next_tick r (opcode3 m))) eqn:Hb; [done|].
  destruct (faw_execute _ _ _ _) as [acts|]; [|done].
  destruct (banks r !! bank m) as [b|] eqn:Hbank; cbn [of_option] in Hex; [rewrite ok_bind in Hex|done].
  unfold Bank_Execute in Hex. destruct (before tick (b (opcode3 m))); [done|]. injection Hex as <-.
  assert (opcode3 m = REF → ref_ready (on_rank3 h).*2 = true) as Hready.
  { intros E. rewrite E in Hb. apply not_false_is_true. rewrite <- Href. intros E'. by rewrite E' in Hb. }
  split; [|by split]. split; [done| | |].
  - cbn. unfold on_rank3. rewrite fmap_app. by apply table_exact_step; [apply (table_nodup _ init_table (table_ok := Rank3_table (r_timing r) Hrp))|].
  - cbn [next_tick]. unfold on_rank3. rewrite !fmap_app. cbn [fmap list_fmap snd fst]. fold (on_rank3 h).
    rewrite ref_ready_snoc, raise_ticks_at, assoc_REF by apply (table_nodup _ init_table (table_ok := Rank3_table (r_timing r) Hrp)).
    destruct (opcode3 m); try exact Href; try (by destruct (next_tick r REF)).
    rewrite (Hready eq_refl) in *. by destruct (next_tick r REF).
  - intros b0 nt. cbn [banks]. rewrite on_bank3_snoc. destruct (decide (bank m = b0)) as [<-|Hne].
    + rewrite list_lookup_insert_eq by by eapply lookup_lt_Some. intros [= <-].
      by apply table_exact_step; [apply (table_nodup _ Bank_init)|apply Hbanks].
    + rewrite list_lookup_insert_ne by done. rewrite app_nil_r. apply Hbanks.
Qed.

Lemma min_gap3_covers t m0 m :
  Forall (fun x => 0 < x) (timing_fields3 t) →
  delay (Rank3_parameters t) (opcode3 m0) (opcode3 m) ≤ min_gap3 t m0 m
  ∧ (bank m0 = bank m → delay (Bank_parameters (bank_timing3 t)) (opcode3 m0) (opcode3 m) ≤ min_gap3 t m0 m).
Proof.
  unfold timing_fields3. rewrite !Forall_cons. intros (? & ? & ? & ? & ? & ? & ? & ? & ? & _).
  unfold min_gap3. destruct (opcode3 m0), (opcode3 m); split; intros; try case_decide; try done; vm_compute delay; try lia.
Qed.

Lemma rank3_go t h r tick m n :
  Forall (fun x => 0 < x) (timing_fields3 t) → rank3_exact t h r → 0 ≤ tick →
  VerifyInstr3 n (IMem m) = true → admissible3 t h tick m → ∃ r', Rank3_Execute tick m r = Ok (Some r').
Proof.
  intros Hpos [(<- & Hlen & Htab & Hacts & Hbanks) Hexact Href Hbex] Ht (_ & _ & Hb)%verify3_mem [[Hgap Hrd Hact Hfaw] Hready].
  unfold Rank3_Execute. rewrite (table_accepts _ _ _ _ _ Hexact Ht).
  - rewrite Hacts. destruct (faw_accepts (faw (r_timing r)) tick (opcode3 m) (on_rank3 h) Hfaw) as [acts ->].
    destruct (lookup_lt_is_Some_2 (banks r) (bank m)) as [b Hbank]; [lia|]. rewrite Hbank. cbn [of_option]. rewrite ok_bind.
    rewrite (Bank_accepts _ (on_bank3 (bank m) h)); [by eexists|by apply Hbanks|by apply Hbex|done| |done|done].
    intros t0 s ([t1 m0] & [= -> ->] & [Hm0 Hin]%list_elem_of_filter)%list_elem_of_fmap. cbn in Hm0.
    destruct (min_gap3_covers (r_timing r) m0 m Hpos) as [_ Hc]. specialize (Hc Hm0). specialize (Hgap _ _ Hin). lia.
  - destruct (decide (opcode3 m = REF)) as [E|Hne]; [specialize (Hready E); rewrite E, Href, Hready; done|]. apply Htab. split; [done|].
    intros []; cbn; by destruct (opcode3 m).
  - intros t0 s ([t1 m0] & [= -> ->] & Hin)%list_elem_of_fmap.
    destruct (min_gap3_covers (r_timing r) m0 m Hpos) as [Hc _]. specialize (Hgap _ _ Hin). lia.
Qed.

(** Accepted DDR3 payloads are legal.  When [verify_payload] returns 0, every
    memory command of the payload's execution (loops unrolled) keeps the minimal
    distance to every earlier one (tCCD, tRRD, tRFC, tRP on the rank; tRCD, tRAS,
    tRTP, tRP on the bank), reads find their bank's row open, activations find
    it closed, and any five activations span at least tFAW. *)
Theorem ddr3_accepted_legal fuel (p : @payload ddr3lib) s :
  main fuel p = Some (Accepted s) →
  ∀ pre tick m post, commands fuel p state_init = pre ++ (tick, m) :: post →
    legal3 (timing p) pre tick m.
Proof.
  intros Hmain. apply (@accepted_good ddr3lib (rank3_inv (timing p)) (legal3 (timing p))) with s; [| |done].
  - intros h r t m r' Hinv Hle _ Hex. apply (rank3_step _ h r t m r'); [|done..].
    apply accepted_timing in Hmain. cbn in Hmain. unfold timing_fields3 in Hmain.
    rewrite !Forall_cons in Hmain. lia.
  - apply rank3_init_inv.
Qed.

(** A payload that activates a row, reads it and closes it, three times. *)
Definition demo_timing3 : timing3 := Timing3 10000 4 2 5 2 1 1 1 4.
Definition demo_payload3 : @payload ddr3lib := @Payload ddr3lib demo_timing3
  [IMem (Mem3 ACT 2 0 1 5); IMem (Mem3 RD 2 0 1 8); IMem (Mem3 PRE 1 0 1 0);
   INop (NopInstr NOP 1); IJmp (JmpInstr JMP 4 2); IMem (Mem3 REF 5 0 0 0)].

Lemma ddr3_accepted_legal_witness :
  legal3 demo_timing3 (take 9 (commands 20 demo_payload3 state_init)) 21 (Mem3 REF 5 0 0 0).
Proof.
  apply (ddr3_accepted_legal 20 demo_payload3 (State 6 26 0 [3; 0; 3; 0; 3; 3; 1; 3])) with [];
    vm_compute; reflexivity.
Defined.

(** C20: The DDR3 verifier accepts exactly the legal payloads.  A payload without nested
    loops is accepted if and only if its timings are positive, its instructions are
    well formed, and every memory command of its execution (loops unrolled) keeps the
    minimal distance to every earlier one (tCCD, tRRD, tRFC, tRP on the rank; tRCD,
    tRAS, tRTP, tRP on the bank), reads find their bank's row open, activations find it
    closed, any five activations span at least tFAW, and the last of the activations
    and precharges before a refresh is a precharge. *)
Theorem ddr3_accepts_exactly (p : @payload ddr3lib) :
  not_nested p →
  (∃ fuel s, main fuel p = Some (Accepted s)) ↔
  Forall (fun x => 0 < x) (timing_fields3 (timing p))
  ∧ first_illegal 0 (instrs p) = None
  ∧ ∀ fuel pre tick m post, commands fuel p state_init = pre ++ (tick, m) :: post → admissible3 (timing p) pre tick m.
Proof.
  intros Hnest. apply (@accepts_exactly ddr3lib p Hnest (rank3_exact (timing p)) (admissible3 (timing p))).
  - apply rank3_exact_init.
  - intros Hpos h r t m r' Hinv Hle Hex. apply (rank3_exact_step _ h r t m r'); try done.
    cbn in Hpos. unfold timing_fields3 in Hpos. rewrite !Forall_cons in Hpos. lia.
  - intros Hpos h r t m n. by apply rank3_go.
Qed.

Lemma demo_not_nested : not_nested demo_payload3.
Proof.
  intros n j k i Hn Hk Hb. destruct n as [|[|[|[|[|[|n]]]]]]; cbn in Hn; try discriminate. injection Hn as <-.
  destruct k as [|[|[|[|k]]]]; cbn in Hk, Hb; [by injection Hk as <-..|lia].
Qed.

Lemma ddr3_accepts_exactly_witness :
  admissible3 demo_timing3 (take 9 (commands 20 demo_payload3 state_init)) 21 (Mem3 REF 5 0 0 0).
Proof.
  refine (proj2 (proj2 (proj1 (ddr3_accepts_exactly demo_payload3 demo_not_nested) _)) 20%nat _ _ _ [] _).
  - exists 20%nat, (State 6 26 0 [3; 0; 3; 0; 3; 3; 1; 3]). vm_compute. reflexivity.
  - vm_compute. reflexivity.
Defined.

(** A PRE on any bank makes REF legal for the checker, although another bank
    still has an open row. *)
Example refresh_with_open_row :
  let p := @Payload ddr3lib demo_timing3
    [IMem (Mem3 ACT 1 0 0 5); IMem (Mem3 ACT 5 0 1 5); IMem (Mem3 PRE 2 0 1 0); IMem (Mem3 REF 5 0 0 0)] in
  (∃ s, main 10 p = Some (Accepted s))
  ∧ row_open (on_bank3 0 (take 3 (commands 10 p state_init))).*2 = true.
Proof. split; [eexists|]; vm_compute; reflexivity. Qed.

(** C22: The verifier terminates on every payload without nested loops: with enough
    fuel it gives one of its verdicts, and it never crashes. *)
Theorem ddr3_verifier_terminates (p : @payload ddr3lib) :
  not_nested p →
  ∃ fuel v, main fuel p = Some v ∧ ∀ e, v ≠ Crashed e.
Proof.
  intros Hn. unfold main. destruct (forallb _ _); [|by exists 0%nat, BadTiming].
  destruct (first_illegal 0 (instrs p)) as [n|] eqn:Hp; [by exists 0%nat, (IllegalInstr n)|].
  destruct (run_terminates p Hp Hn state_init (Rank_init (timing p))) as (fuel & v & Hv & Hk).
  - unfold in_payload, state_init. cbn. lia.
  - apply rank_init_wf.
  - exists fuel, v. split; [done|]. destruct Hk as [[s ->]|(n & t & ->)]; done.
Qed.

Lemma ddr3_verifier_terminates_witness :
  ∃ fuel v, main fuel demo_payload3 = Some v ∧ ∀ e, v ≠ Crashed e.
Proof.
  apply ddr3_verifier_terminates, demo_not_nested.
Defined.

(** Nested loops share the counter: the inner one resets it on every exit, and
    the outer one never ends.  The verifier accepts the instructions and then
    does not return. *)
Definition nested_payload : @payload ddr3lib := @Payload ddr3lib demo_timing3
  [INop (NopInstr NOP 1); IJmp (JmpInstr JMP 1 1); IJmp (JmpInstr JMP 2 1)].

Lemma nested_run fuel t ex r : run fuel nested_payload (State 2 t 0 ex) r = None.
Proof.
  revert t ex r. induction (lt_wf fuel) as [fuel _ IH]. intros t ex r.
  destruct fuel as [|[|[|fuel]]]; [done..|]. cbn. apply IH. lia.
Qed.

Example nested_loops_diverge fuel : main fuel nested_payload = None.
Proof.
  unfold main. change (forallb _ _) with true. change (first_illegal _ _) with (@None Z). cbv iota.
  destruct fuel as [|[|[|[|fuel]]]]; [done..|]. cbn. apply nested_run.
Qed.
