(* ===== verification/Ddr4.v ===== *)
(** * DDR4 rules of the payload verifier

    Models [src/rowhammer_tester/payload/ddr4lib.py], the [dramlib] for DDR4:
    ranks of bank groups of banks.  A bank group overwrites its next ticks
    instead of raising them, so that what an accepted payload guarantees depends
    on the ratio of the long and short delays. *)

From stdpp Require Import functions.
From S2P Require Import Prelude PayloadVerifier DramTiming.

Record timing4 := Timing4 {
  tick_ps : Z; ras : Z; rp : Z; rfc : Z; rcd : Z; ccd_l : Z; ccd_s : Z; rtp : Z;
  rrd_l : Z; rrd_s : Z; faw : Z;
}.

Record mem4 := Mem4 {
  opcode4 : opcode; timeslice4 : Z; rank : Z; stack : Z; bank_group : nat; bank : nat; addr : Z;
}.

(** MemInstr.Bits: TIMESLICE is 9, BANK_GROUP 2, BANK 2, ADDR 18. *)
Definition VerifyInstr4 (ip : Z) (i : instr mem4) : bool :=
  match i with
  | IMem m =>
      bool_decide (opcode4 m ∈ [RD; ACT; PRE; REF])
      && ((0 <? timeslice4 m) && (timeslice4 m <? Z.shiftl 1 9))
      && (rank m =? 0)
      && (stack m =? 0)
      && negb (Z.shiftl 1 2 <=? bank_group m)
      && negb (Z.shiftl 1 2 <=? bank m)
      && negb (Z.shiftl 1 18 <=? addr m)
      && negb (bool_decide (opcode4 m = RD) && negb (addr m mod 8 =? 0))
  | INop n => verify_nop n
  | IJmp j => verify_jmp ip j
  | IUnset => false
  end.

Definition bank_timing4 (t : timing4) : bank_timing := BankTiming (rtp t) (rcd t) (ras t) (rp t).

(** [Bank], the same code as for DDR3. *)
Definition Bank4_Execute (t : timing4) : Z → opcode → next_ticks → option next_ticks :=
  Bank_Execute (bank_timing4 t).

(** ** Bank group *)

(** Delays within the bank group and to the others. *)
Definition BankGroup_parameters (t : timing4) (op : opcode) : list (opcode * (Z * Z)) :=
  match op with
  | RD => [(RD, (ccd_l t, ccd_s t))]
  | ACT => [(ACT, (rrd_l t, rrd_s t))]
  | _ => []
  end.

Record bank_group4 := BankGroup { bg_next : opcode → Z; bg_banks : list next_ticks }.

Definition BankGroup_init : bank_group4 :=
  BankGroup (fun _ => 0) (replicate (Z.to_nat (Z.shiftl 1 2)) Bank_init).

Definition BankGroup_Execute (t : timing4) (tick : Z) (m : mem4) (g : bank_group4)
    : result (option bank_group4) :=
  if tick <? bg_next g (opcode4 m) then Ok None
  else
    b ← of_option IndexError (bg_banks g !! bank m);
    match Bank4_Execute t tick (opcode4 m) b with
    | None => Ok None
    | Some b' =>
        Ok (Some (BankGroup
          (foldl (fun nt e => <[e.1 := tick + e.2.1]> nt) (bg_next g) (BankGroup_parameters t (opcode4 m)))
          (<[bank m := b']> (bg_banks g))))
    end.

Definition BankGroup_Update (t : timing4) (tick : Z) (m : mem4) (g : bank_group4) : bank_group4 :=
  BankGroup
    (foldl (fun nt e => <[e.1 := tick + e.2.2]> nt) (bg_next g) (BankGroup_parameters t (opcode4 m)))
    (bg_banks g).

(** ** Rank *)
Definition Rank4_parameters (t : timing4) : params := fun op =>
  match op with
  | ACT => [(REF, Inf)]
  | PRE => [(REF, Fin (rp t))]
  | REF => [(ACT, Fin (rfc t)); (PRE, Fin (rfc t)); (REF, Fin (rfc t))]
  | _ => []
  end.

Record rank4 := Rank4 {
  r_timing : timing4;
  next_tick : next_ticks;
  prev_acts : list Z;
  bank_groups : list bank_group4;
}.

Definition Rank4_init (t : timing4) : rank4 :=
  Rank4 t (fun _ => Fin 0) [] (replicate (Z.to_nat (Z.shiftl 1 2)) BankGroup_init).

Definition Rank4_Execute (tick : Z) (m : mem4) (r : rank4) : result (option rank4) :=
  let t := r_timing r in
  if before tick (next_tick r (opcode4 m)) then Ok None
  else match faw_execute (faw t) tick (opcode4 m) (prev_acts r) with
  | None => Ok None
  | Some acts =>
      g ← of_option IndexError (bank_groups r !! bank_group m);
      o ← BankGroup_Execute t tick m g;
      match o with
      | None => Ok None
      | Some g' =>
          let updated := imap (fun i h => if decide (i = bank_group m) then g' else BankGroup_Update t tick m h)
                           (bank_groups r) in
          Ok (Some (Rank4 t (raise_ticks (Rank4_parameters t) tick (opcode4 m) (next_tick r)) acts updated))
      end
  end.

Definition opcode_number4 (op : opcode) : Z :=
  match op with NOP => 0 | RD => 2 | ACT => 8 | PRE => 5 | REF => 6 | JMP => 7 | MAX => 9 end.

Definition timing_fields4 (t : timing4) : list Z :=
  [tick_ps t; ras t; rp t; rfc t; rcd t; ccd_l t; ccd_s t; rtp t; rrd_l t; rrd_s t; faw t].

(** ** Instance *)
Lemma verify4_mem ip m :
  VerifyInstr4 ip (IMem m) = true →
  opcode4 m ∈ [RD; ACT; PRE; REF] ∧ 0 < timeslice4 m < 512 ∧ (bank_group m < 4)%nat ∧ (bank m < 4)%nat.
Proof.
  cbn -[elem_of]. change (Z.shiftl 1 9) with 512. change (Z.shiftl 1 2) with 4.
  rewrite !andb_true_iff, bool_decide_eq_true, !negb_true_iff.
  intros (((((((He & Ht) & _) & _) & Hg) & Hb) & _) & _). split; [done|]. lia.
Qed.

Definition rank4_wf (r : rank4) : Prop :=
  length (bank_groups r) = 4%nat ∧ Forall (fun g => length (bg_banks g) = 4%nat) (bank_groups r).

Lemma bank_group_execute_ok t tick m g :
  (bank m < 4)%nat → length (bg_banks g) = 4%nat →
  ∃ o, BankGroup_Execute t tick m g = Ok o ∧ (∀ g', o = Some g' → length (bg_banks g') = 4%nat).
Proof.
  intros Hb Hg. unfold BankGroup_Execute. destruct (_ <? _); [by eexists|].
  destruct (lookup_lt_is_Some_2 (bg_banks g) (bank m)) as [b ->]; [lia|].
  cbn [of_option]. rewrite ok_bind. destruct (Bank4_Execute _ _ _ _); [|by eexists].
  eexists; split; [done|]. intros g' [= <-]. cbn. by rewrite length_insert.
Qed.

Lemma rank4_execute_ok t ip m r :
  VerifyInstr4 ip (IMem m) = true → rank4_wf r →
  ∃ o, Rank4_Execute t m r = Ok o ∧ (∀ r', o = Some r' → rank4_wf r').
Proof.
  intros (_ & _ & Hbg & Hb)%verify4_mem [Hr Hg]. unfold Rank4_Execute. cbv zeta.
  destruct (before _ _); [by eexists|]. destruct (faw_execute _ _ _ _); [|by eexists].
  destruct (lookup_lt_is_Some_2 (bank_groups r) (bank_group m)) as [g Hlk]; [lia|]. rewrite Hlk.
  cbn [of_option]. rewrite ok_bind. rewrite Forall_lookup in Hg.
  destruct (bank_group_execute_ok (r_timing r) t m g Hb (Hg _ _ Hlk)) as (o & -> & Ho). rewrite ok_bind.
  destruct o as [g'|]; [|by eexists]. eexists; split; [done|]. intros r' [= <-]. split; cbn [bank_groups].
  - by rewrite length_imap.
  - apply Forall_lookup. intros i x Hx. rewrite list_lookup_imap in Hx.
    destruct (bank_groups r !! i) as [y|] eqn:Hy; [|done]. cbn in Hx. injection Hx as <-.
    case_decide; [by apply Ho|]. apply (Hg _ _ Hy).
Qed.

#[global] Program Instance ddr4lib : DramLib := {|
  Timing := timing4; Mem := mem4; Rank := rank4;
  mem_opcode := opcode4; timeslice := timeslice4; timing_fields := timing_fields4;
  opcode_number := opcode_number4; VerifyInstr := VerifyInstr4;
  Rank_init := Rank4_init; Rank_Execute := Rank4_Execute; rank_wf := rank4_wf;
  rank_execute_ok := rank4_execute_ok;
|}.
Next Obligation. intros ip m ?%verify4_mem. tauto. Qed.
Next Obligation. intros ip m ?%verify4_mem. tauto. Qed.
Next Obligation. done. Qed.
Next Obligation. done. Qed.
Next Obligation. done. Qed.
Next Obligation. intros t. split; [done|]. by repeat constructor. Qed.

(** ** What the rules are *)
Definition group_gap (t : timing4) (op : opcode) (same : bool) : Z :=
  match op with
  | RD => if same then ccd_l t else ccd_s t
  | ACT => if same then rrd_l t else rrd_s t
  | _ => 0
  end.

Definition same_group (m0 m : mem4) : bool := bool_decide (bank_group m0 = bank_group m).
Definition same_bank (m0 m : mem4) : bool := same_group m0 m && bool_decide (bank m0 = bank m).

(** Minimal distance of two commands, in ticks. *)
Definition min_gap4 (t : timing4) (m0 m : mem4) : Z :=
  let same v := if same_bank m0 m then v else 0 in
  match opcode4 m0, opcode4 m with
  | RD, RD => if same_group m0 m then ccd_l t else ccd_s t
  | ACT, ACT => if same_group m0 m then rrd_l t else rrd_s t
  | PRE, REF => rp t
  | REF, (ACT | PRE | REF) => rfc t
  | RD, PRE => same (rtp t)
  | ACT, RD => same (rcd t)
  | ACT, PRE => same (ras t)
  | PRE, ACT => same (rp t)
  | _, _ => 0
  end.

Definition on_bank4 (g b : nat) (h : list (Z * mem4)) : list (Z * opcode) :=
  (fun c => (c.1, opcode4 c.2)) <$> filter (fun c => bank_group c.2 = g ∧ bank c.2 = b) h.
Definition on_rank4 (h : list (Z * mem4)) : list (Z * opcode) := (fun c => (c.1, opcode4 c.2)) <$> h.

(** Command [m] at [tick] is legal after the commands [h]. *)
Record legal4 (t : timing4) (h : list (Z * mem4)) (tick : Z) (m : mem4) : Prop := {
  legal4_gap t0 m0 : (t0, m0) ∈ h → min_gap4 t m0 m ≤ tick - t0;
  legal4_read : opcode4 m = RD → row_open (on_bank4 (bank_group m) (bank m) h).*2 = true;
  legal4_act : opcode4 m = ACT → row_open (on_bank4 (bank_group m) (bank m) h).*2 = false;
  legal4_faw : opcode4 m = ACT → faw_ok (faw t) tick (act_ticks (on_rank4 h));
}.

(** The long delays are at most twice the short ones. *)
Record ratio_ok (t : timing4) : Prop := {
  ratio_rp : 0 ≤ rp t;
  ratio_ccd : 0 ≤ ccd_l t ≤ 2 * ccd_s t;
  ratio_rrd : 0 ≤ rrd_l t ≤ 2 * rrd_s t;
}.

Definition init_table : next_ticks := fun _ => Fin 0.

#[global] Instance Rank4_table t : 0 ≤ rp t → table_ok (Rank4_parameters t) init_table.
Proof.
  intros Hrp. split.
  - intros []; apply (bool_decide_unpack _); vm_compute; exact I.
  - intros []; try (left; split; [done|]; by intros []); right; intros [] p [] q; cbn; intros [=] [=] ?;
      subst; try done; try (left; lia). right. eexists; split; [done|]. lia.
Qed.

(** ** Invariant *)
Definition group_inv (t : timing4) (h : list (Z * mem4)) (i : nat) (g : bank_group4) : Prop :=
  (∀ t0 m0, (t0, m0) ∈ h → opcode4 m0 = RD ∨ opcode4 m0 = ACT →
     t0 + group_gap t (opcode4 m0) (bool_decide (bank_group m0 = i)) ≤ bg_next g (opcode4 m0))
  ∧ ∀ b nt, bg_banks g !! b = Some nt → Bank_inv (bank_timing4 t) (on_bank4 i b h) nt.

Definition rank4_inv (t : timing4) (h : list (Z * mem4)) (r : rank4) : Prop :=
  r_timing r = t
  ∧ table_inv (Rank4_parameters t) init_table (on_rank4 h) (next_tick r)
  ∧ prev_acts r = last4 (act_ticks (on_rank4 h))
  ∧ ∀ i g, bank_groups r !! i = Some g → group_inv t h i g.

Lemma on_bank4_snoc g b h t m :
  on_bank4 g b (h ++ [(t, m)])
  = on_bank4 g b h ++ (if decide (bank_group m = g ∧ bank m = b) then [(t, opcode4 m)] else []).
Proof.
  unfold on_bank4. rewrite filter_app, fmap_app, filter_cons, filter_nil. cbn [snd].
  by destruct (decide (bank_group m = g ∧ bank m = b)).
Qed.

Lemma on_bank4_elem g b h t m :
  (t, m) ∈ h → bank_group m = g → bank m = b → (t, opcode4 m) ∈ on_bank4 g b h.
Proof. intros Hin <- <-. apply list_elem_of_fmap. exists (t, m). split; [done|]. by apply list_elem_of_filter. Qed.

Lemma on_bank4_le g b h t : Forall (fun c => c.1 ≤ t) h → Forall (fun e => e.1 ≤ t) (on_bank4 g b h).
Proof.
  rewrite !Forall_forall. intros Hle e (c & -> & Hc)%list_elem_of_fmap.
  apply list_elem_of_filter in Hc as [_ Hc]. by apply (Hle c).
Qed.

Lemma rank4_init_inv t : rank4_inv t [] (Rank4_init t).
Proof.
  split_and!; try done; [apply table_init|]. intros i g Hg. cbn in Hg.
  apply lookup_replicate_1 in Hg as [-> _]. split; [by intros t0 m0 ?%elem_of_nil|].
  intros b nt Hb. apply lookup_replicate_1 in Hb as [-> _]. apply Bank_inv_init.
Qed.

(** The next ticks of group [i] after a command of group [bank_group m]. *)
Lemma group_next_step t h i tick m nti ntg op :
  ratio_ok t → Forall (fun c => c.1 ≤ tick) h → ntg (opcode4 m) ≤ tick →
  (∀ t0 m0, (t0, m0) ∈ h → opcode4 m0 = RD ∨ opcode4 m0 = ACT →
     t0 + group_gap t (opcode4 m0) (bool_decide (bank_group m0 = i)) ≤ nti (opcode4 m0)) →
  (∀ t0 m0, (t0, m0) ∈ h → opcode4 m0 = RD ∨ opcode4 m0 = ACT →
     t0 + group_gap t (opcode4 m0) (bool_decide (bank_group m0 = bank_group m)) ≤ ntg (opcode4 m0)) →
  let nti' op := if decide (op = opcode4 m ∧ (op = RD ∨ op = ACT))
                 then tick + group_gap t op (bool_decide (bank_group m = i)) else nti op in
  ∀ t0 m0, (t0, m0) ∈ h ++ [(tick, m)] → opcode4 m0 = op → op = RD ∨ op = ACT →
     t0 + group_gap t op (bool_decide (bank_group m0 = i)) ≤ nti' op.
Proof.
  intros [] Hle Htick Hi Hg nti' t0 m0 Hin Hop Hops. unfold nti'.
  apply elem_of_app in Hin as [Hin|Hin%list_elem_of_singleton].
  - pose proof (proj1 (Forall_forall _ _) Hle _ Hin) as Ht0. cbn in Ht0.
    destruct (decide (op = opcode4 m ∧ _)) as [[E _]|E]; [|rewrite <- Hop in *; by apply Hi].
    specialize (Hg _ _ Hin ltac:(by rewrite Hop)). rewrite Hop in Hg. rewrite <- E in Htick.
    clear Hi Hop E nti'. unfold group_gap in *.
    destruct (decide (bank_group m = i)) as [<-|Hne]; [rewrite (bool_decide_true (bank_group m = _)) by done|].
    + destruct Hops as [-> | ->]; repeat case_bool_decide; lia.
    + rewrite (bool_decide_false (bank_group m = i)) by done.
      destruct Hops as [-> | ->]; repeat case_bool_decide; subst; try done; lia.
  - injection Hin as -> ->. subst op. by rewrite decide_True.
Qed.

Lemma group_next_at t tick op (nt : opcode → Z) (same : bool) o :
  foldl (fun nt e => <[e.1 := tick + (if same then e.2.1 else e.2.2)]> nt) nt (BankGroup_parameters t op) o
  = if decide (o = op ∧ (o = RD ∨ o = ACT)) then tick + group_gap t o same else nt o.
Proof.
  destruct op; cbn [BankGroup_parameters foldl fst snd];
    try (rewrite decide_False by (intros [-> [? | ?]]; done); done).
  - destruct (decide (o = RD)) as [->|Hne].
    + rewrite fn_lookup_insert, decide_True by auto. by destruct same.
    + rewrite fn_lookup_insert_ne by congruence. rewrite decide_False by tauto. done.
  - destruct (decide (o = ACT)) as [->|Hne].
    + rewrite fn_lookup_insert, decide_True by auto. by destruct same.
    + rewrite fn_lookup_insert_ne by congruence. rewrite decide_False by tauto. done.
Qed.

Lemma min_gap4_delay t m0 m :
  min_gap4 t m0 m = delay (Rank4_parameters t) (opcode4 m0) (opcode4 m)
  ∨ same_bank m0 m = true
    ∧ min_gap4 t m0 m = delay (Bank_parameters (bank_timing4 t)) (opcode4 m0) (opcode4 m)
  ∨ opcode4 m0 = opcode4 m ∧ (opcode4 m = RD ∨ opcode4 m = ACT)
    ∧ min_gap4 t m0 m = group_gap t (opcode4 m) (same_group m0 m).
Proof.
  unfold min_gap4. destruct (opcode4 m0), (opcode4 m); try (left; reflexivity);
    try (right; right; split; [reflexivity|split; [tauto|reflexivity]]);
    destruct (same_bank m0 m); (left; reflexivity) || (right; left; split; [done|reflexivity]).
Qed.

(** What the group of a command checks and how its state changes. *)
Lemma group_execute_step t h tick m g g' :
  ratio_ok t → Forall (fun c => c.1 ≤ tick) h → group_inv t h (bank_group m) g →
  BankGroup_Execute t tick m g = Ok (Some g') →
  bg_next g (opcode4 m) ≤ tick ∧ group_inv t (h ++ [(tick, m)]) (bank_group m) g'
  ∧ (∀ t0 m0, (t0, m0) ∈ h → same_bank m0 m = true →
       t0 + delay (Bank_parameters (bank_timing4 t)) (opcode4 m0) (opcode4 m) ≤ tick)
  ∧ (opcode4 m = RD → row_open (on_bank4 (bank_group m) (bank m) h).*2 = true)
  ∧ (opcode4 m = ACT → row_open (on_bank4 (bank_group m) (bank m) h).*2 = false).
Proof.
  intros Hr Hle [Hn Hb]. unfold BankGroup_Execute. destruct (Z.ltb_spec tick (bg_next g (opcode4 m))); [done|].
  destruct (bg_banks g !! bank m) as [b|] eqn:Hbank; cbn [of_option]; [rewrite ok_bind|done].
  destruct (Bank4_Execute _ _ _ _) as [b'|] eqn:Hex; [|done]. intros [= <-].
  destruct (Bank_step _ _ _ _ _ _ (Hb _ _ Hbank) (on_bank4_le (bank_group m) (bank m) h tick Hle) Hex)
    as (Hb' & Hgap & Hrd & Hact).
  split_and!; [done|split; cbn [bg_next bg_banks]| |done|done].
  - intros t0 m0 Hin Hop. rewrite (group_next_at t tick (opcode4 m) (bg_next g) true).
    pose proof (group_next_step t h (bank_group m) tick m (bg_next g) (bg_next g) (opcode4 m0)
      Hr Hle ltac:(done) Hn Hn t0 m0 Hin eq_refl Hop) as Hs. cbn in Hs.
    rewrite (bool_decide_true (bank_group m = bank_group m)) in Hs by done. exact Hs.
  - intros b0 nt. rewrite on_bank4_snoc. destruct (decide (bank m = b0)) as [<-|Hne].
    + rewrite list_lookup_insert_eq by by eapply lookup_lt_Some. intros [= <-]. by rewrite decide_True.
    + rewrite list_lookup_insert_ne by done. rewrite decide_False by tauto. rewrite app_nil_r. apply Hb.
  - intros t0 m0 Hin Hsame. apply Hgap. unfold same_bank, same_group in Hsame.
    rewrite andb_true_iff, !bool_decide_eq_true in Hsame. destruct Hsame. by apply on_bank4_elem.
Qed.

(** The other groups are updated. *)
Lemma group_update_step t h tick m i g gm :
  ratio_ok t → Forall (fun c => c.1 ≤ tick) h → i ≠ bank_group m →
  group_inv t h (bank_group m) gm → bg_next gm (opcode4 m) ≤ tick → group_inv t h i g →
  group_inv t (h ++ [(tick, m)]) i (BankGroup_Update t tick m g).
Proof.
  intros Hr Hle Hne [Hm _] Htick [Hn Hb]. split; cbn [BankGroup_Update bg_next bg_banks].
  - intros t0 m0 Hin Hop. rewrite (group_next_at t tick (opcode4 m) (bg_next g) false).
    pose proof (group_next_step t h i tick m (bg_next g) (bg_next gm) (opcode4 m0)
      Hr Hle Htick Hn Hm t0 m0 Hin eq_refl Hop) as Hs. cbn in Hs.
    rewrite (bool_decide_false (bank_group m = i)) in Hs by congruence. exact Hs.
  - intros b nt Hlk. rewrite on_bank4_snoc, decide_False by (intros [? _]; congruence).
    rewrite app_nil_r. by apply Hb.
Qed.

Lemma rank4_step t h r tick m r' :
  ratio_ok t → rank4_inv t h r → Forall (fun c => c.1 ≤ tick) h →
  Rank4_Execute tick m r = Ok (Some r') → rank4_inv t (h ++ [(tick, m)]) r' ∧ legal4 t h tick m.
Proof.
  intros Hrat (<- & Htab & Hacts & Hgroups) Hle.
  pose proof (Rank4_table (r_timing r) (ratio_rp _ Hrat)) as Htok.
  assert (Forall (fun e => e.1 ≤ tick) (on_rank4 h)) as Hle' by by apply Forall_fmap.
  unfold Rank4_Execute. cbv zeta. destruct (before tick (next_tick r (opcode4 m))) eqn:Hb; [done|].
  destruct (faw_execute _ _ _ _) as [acts|] eqn:Hfaw; [|done]. rewrite Hacts in Hfaw.
  destruct (faw_step _ _ _ _ _ Hfaw) as [-> Hok].
  destruct (bank_groups r !! bank_group m) as [g|] eqn:Hg; cbn [of_option]; [rewrite ok_bind|done].
  destruct (BankGroup_Execute _ _ _ _) as [[g'|]|e] eqn:Hex; [rewrite ok_bind| |done]; [|done]. intros [= <-].
  pose proof (Hgroups _ _ Hg) as Hginv.
  destruct (group_execute_step _ _ _ _ _ _ Hrat Hle Hginv Hex) as (Htick & Hg' & Hbk & Hrd & Hact).
  split; [split_and!|split].
  - done.
  - unfold on_rank4. rewrite fmap_app. by apply table_step.
  - unfold on_rank4. by rewrite fmap_app.
  - intros i x. cbn [bank_groups]. rewrite list_lookup_imap.
    destruct (bank_groups r !! i) as [y|] eqn:Hy; [|done]. cbn. intros [= <-].
    case_decide as Hi; [by rewrite Hi|]. by apply (group_update_step _ h tick m i y g); auto.
  - intros t0 m0 Hin.
    pose proof (table_delay _ _ _ _ _ _ t0 (opcode4 m0) Htab Hle' Hb
      ltac:(apply list_elem_of_fmap; by exists (t0, m0))) as Hr.
    destruct (min_gap4_delay (r_timing r) m0 m) as [->|[[E ->]|(E & Hop & ->)]]; [lia| |].
    + specialize (Hbk _ _ Hin E). lia.
    + destruct Hginv as [Hn _]. specialize (Hn _ _ Hin ltac:(by rewrite E)). rewrite E in Hn.
      fold (same_group m0 m) in Hn. lia.
  - done.
  - done.
  - done.
Qed.

(** ** Exactly the legal payloads *)
Definition admissible4 (t : timing4) (h : list (Z * mem4)) (tick : Z) (m : mem4) : Prop :=
  legal4 t h tick m ∧ (opcode4 m = REF → ref_ready (on_rank4 h).*2 = true).

(** The next ticks of a group come from commands executed before. *)
Definition group_exact (t : timing4) (h : list (Z * mem4)) (i : nat) (next : opcode → Z) : Prop :=
  ∀ o, next o ≤ 0 ∨ ∃ t0 m0, (t0, m0) ∈ h ∧ opcode4 m0 = o ∧ (o = RD ∨ o = ACT)
    ∧ next o = t0 + group_gap t o (bool_decide (bank_group m0 = i)).

Record rank4_exact (t : timing4) (h : list (Z * mem4)) (r : rank4) : Prop := {
  rx_inv : rank4_inv t h r;
  rx_wf : rank4_wf r;
  rx_table : table_exact (Rank4_parameters t) (on_rank4 h) (next_tick r);
  rx_ref : next_tick r REF = Inf ↔ ref_ready (on_rank4 h).*2 = false;
  rx_groups : ∀ i g, bank_groups r !! i = Some g → group_exact t h i (bg_next g)
    ∧ ∀ b nt, bg_banks g !! b = Some nt → table_exact (Bank_parameters (bank_timing4 t)) (on_bank4 i b h) nt;
}.

Lemma rank4_exact_init t : rank4_exact t [] (Rank4_init t).
Proof.
  split; [apply rank4_init_inv|apply (@rank_init_wf ddr4lib)|by apply table_exact_init; intros ? ? [= <-]|done|].
  intros i g [-> _]%lookup_replicate_1. split; [by left|].
  intros b nt [-> _]%lookup_replicate_1. apply table_exact_init. by intros [] n [= <-].
Qed.

Lemma assoc_REF4 t op :
  assoc REF (Rank4_parameters t op) = match op with ACT => Some Inf | PRE => Some (Fin (rp t)) | REF => Some (Fin (rfc t)) | _ => None end.
Proof. by destruct op. Qed.

Lemma group_exact_step t h i tick m next same :
  same = bool_decide (bank_group m = i) → group_exact t h i next →
  group_exact t (h ++ [(tick, m)]) i
    (foldl (fun nt e => <[e.1 := tick + (if same : bool then e.2.1 else e.2.2)]> nt) next (BankGroup_parameters t (opcode4 m))).
Proof.
  intros -> Hex o. rewrite group_next_at. case_decide as E.
  - destruct E as [-> Hop]. right. exists tick, m. split_and!; [apply elem_of_app; right; by left|done|done|done].
  - destruct (Hex o) as [?|(t0 & m0 & Hin & ?)]; [by left|right]. exists t0, m0. split; [apply elem_of_app; by left|done].
Qed.

Lemma rank4_exact_step t h r tick m r' :
  ratio_ok t → rank4_exact t h r → Forall (fun c => c.1 ≤ tick) h →
  Rank4_Execute tick m r = Ok (Some r') → rank4_exact t (h ++ [(tick, m)]) r' ∧ admissible4 t h tick m.
Proof.
  intros Hrat [Hinv [Hlen Hwf] Htab Href Hgroups] Hle Hex. destruct (rank4_step t h r tick m r' Hrat Hinv Hle Hex) as [Hinv' Hlegal].
  destruct Hinv as (<- & _). pose proof (Rank4_table (r_timing r) (ratio_rp _ Hrat)) as Htok.
  unfold Rank4_Execute in Hex. cbv zeta in Hex. destruct (before tick (next_tick r (opcode4 m))) eqn:Hb; [done|].
  destruct (faw_execute _ _ _ _) as [acts|]; [|done].
  destruct (bank_groups r !! bank_group m) as [g|] eqn:Hg; cbn [of_option] in Hex; [rewrite ok_bind in Hex|done].
  unfold BankGroup_Execute in Hex. destruct (tick <? bg_next g (opcode4 m)); [done|].
  destruct (bg_banks g !! bank m) as [b|] eqn:Hbank; cbn [of_option] in Hex; [rewrite ok_bind in Hex|done].
  unfold Bank4_Execute, Bank_Execute in Hex. destruct (before tick (b (opcode4 m))); [done|]. rewrite ok_bind in Hex. injection Hex as <-.
  assert (opcode4 m = REF → ref_ready (on_rank4 h).*2 = true) as Hready.
  { intros E. rewrite E in Hb. apply not_false_is_true. rewrite <- Href. intros E'. by rewrite E' in Hb. }
  destruct (Hgroups _ _ Hg) as [Hgx Hbx]. split; [|by split]. split; [done| | | |].
  - split; cbn [bank_groups]; [by rewrite length_imap|]. apply Forall_lookup. intros i x Hx. rewrite list_lookup_imap in Hx.
    destruct (bank_groups r !! i) as [y|] eqn:Hy; [|done]. injection Hx as <-. rewrite Forall_lookup in Hwf.
    case_decide; cbn [bg_banks]; [rewrite length_insert; by apply (Hwf _ _ Hg)|by apply (Hwf _ _ Hy)].
  - cbn [next_tick]. unfold on_rank4. rewrite fmap_app. by apply table_exact_step; [apply (table_nodup _ init_table)|].
  - cbn [next_tick]. unfold on_rank4. rewrite !fmap_app. cbn [fmap list_fmap snd fst]. fold (on_rank4 h).
    rewrite ref_ready_snoc, raise_ticks_at, assoc_REF4 by apply (table_nodup _ init_table).
    destruct (opcode4 m); try exact Href; try (by destruct (next_tick r REF)).
    rewrite (Hready eq_refl) in *. by destruct (next_tick r REF).
  - intros i x. cbn [bank_groups]. rewrite list_lookup_imap. destruct (bank_groups r !! i) as [y|] eqn:Hy; [|done]. cbn. intros [= <-].
    destruct (Hgroups _ _ Hy) as [Hyx Hybx]. case_decide as Hi; cbn [bg_next bg_banks BankGroup_Update].
    + subst i. split; [by apply (group_exact_step _ h _ tick m _ true); [rewrite bool_decide_true|]|].
      intros b0 nt. rewrite on_bank4_snoc. destruct (decide (bank m = b0)) as [<-|Hne].
      * rewrite list_lookup_insert_eq by by eapply lookup_lt_Some. intros [= <-]. rewrite decide_True by done.
        by apply table_exact_step; [apply (table_nodup _ Bank_init)|apply Hbx].
      * rewrite list_lookup_insert_ne by done. rewrite decide_False by tauto. rewrite app_nil_r. apply Hbx.
    + split; [by apply (group_exact_step _ h _ tick m _ false); [rewrite bool_decide_false|]|].
      intros b0 nt. rewrite on_bank4_snoc, decide_False by (intros [? _]; congruence). rewrite app_nil_r. apply Hybx.
Qed.

Lemma min_gap4_covers t m0 m :
  Forall (fun x => 0 < x) (timing_fields4 t) →
  delay (Rank4_parameters t) (opcode4 m0) (opcode4 m) ≤ min_gap4 t m0 m
  ∧ (same_bank m0 m = true → delay (Bank_parameters (bank_timing4 t)) (opcode4 m0) (opcode4 m) ≤ min_gap4 t m0 m)
  ∧ (opcode4 m0 = opcode4 m → opcode4 m = RD ∨ opcode4 m = ACT → group_gap t (opcode4 m) (same_group m0 m) = min_gap4 t m0 m).
Proof.
  unfold timing_fields4. rewrite !Forall_cons. intros (? & ? & ? & ? & ? & ? & ? & ? & ? & ? & ? & _).
  unfold min_gap4. split_and!; [| |intros E [Ho|Ho]; rewrite E, Ho; done].
  all: destruct (opcode4 m0), (opcode4 m); intros; try done; vm_compute delay; destruct (same_bank m0 m), (same_group m0 m); try done; lia.
Qed.

Lemma rank4_go t h r tick m n :
  Forall (fun x => 0 < x) (timing_fields4 t) → rank4_exact t h r → 0 ≤ tick →
  VerifyInstr4 n (IMem m) = true → admissible4 t h tick m → ∃ r', Rank4_Execute tick m r = Ok (Some r').
Proof.
  intros Hpos [(<- & Htab & Hacts & Hinvs) [Hlen Hwf] Hexact Href Hgroups] Ht (_ & _ & Hbg & Hb)%verify4_mem [[Hgap Hrd Hact Hfaw] Hready].
  unfold Rank4_Execute. cbv zeta. rewrite (table_accepts _ _ _ _ _ Hexact Ht).
  - rewrite Hacts. destruct (faw_accepts (faw (r_timing r)) tick (opcode4 m) (on_rank4 h) Hfaw) as [acts ->].
    destruct (lookup_lt_is_Some_2 (bank_groups r) (bank_group m)) as [g Hg]; [lia|]. rewrite Hg. cbn [of_option]. rewrite ok_bind.
    destruct (Hgroups _ _ Hg) as [Hgx Hbx]. destruct (Hinvs _ _ Hg) as [_ Hbi]. rewrite Forall_lookup in Hwf.
    unfold BankGroup_Execute. destruct (Z.ltb_spec tick (bg_next g (opcode4 m))) as [Hlt|_].
    { exfalso. destruct (Hgx (opcode4 m)) as [?|(t0 & m0 & Hin & Eo & Ho & E)]; [lia|].
      destruct (min_gap4_covers (r_timing r) m0 m Hpos) as (_ & _ & Hc). specialize (Hc Eo Ho). specialize (Hgap _ _ Hin).
      unfold same_group in Hc. lia. }
    destruct (lookup_lt_is_Some_2 (bg_banks g) (bank m)) as [b Hbank]; [rewrite (Hwf _ _ Hg); lia|]. rewrite Hbank. cbn [of_option]. rewrite ok_bind.
    unfold Bank4_Execute. rewrite (Bank_accepts _ (on_bank4 (bank_group m) (bank m) h)); [by eexists|by apply Hbi|by apply Hbx|done| |done|done].
    intros t0 s ([t1 m0] & [= -> ->] & [[Hm0 Hm1] Hin]%list_elem_of_filter)%list_elem_of_fmap. cbn in Hm0, Hm1.
    destruct (min_gap4_covers (r_timing r) m0 m Hpos) as (_ & Hc & _).
    specialize (Hc ltac:(unfold same_bank, same_group; by rewrite !bool_decide_true)). specialize (Hgap _ _ Hin). lia.
  - destruct (decide (opcode4 m = REF)) as [E|Hne]; [specialize (Hready E); rewrite E, Href, Hready; done|]. apply Htab. split; [done|].
    intros []; cbn; by destruct (opcode4 m).
  - intros t0 s ([t1 m0] & [= -> ->] & Hin)%list_elem_of_fmap.
    destruct (min_gap4_covers (r_timing r) m0 m Hpos) as [Hc _]. specialize (Hgap _ _ Hin). lia.
Qed.

(** Accepted DDR4 payloads are legal, when the long delays of a bank group are at
    most twice the short ones: every memory command keeps the minimal distance
    to every earlier one (tCCD_L and tRRD_L in its bank group, tCCD_S and tRRD_S
    to the others, tRFC and tRP on the rank, tRCD, tRAS, tRTP and tRP on its
    bank), reads find their bank's row open, activations find it closed, and any
    five activations span at least tFAW. *)
Theorem ddr4_accepted_legal fuel (p : @payload ddr4lib) s :
  ccd_l (timing p) ≤ 2 * ccd_s (timing p) → rrd_l (timing p) ≤ 2 * rrd_s (timing p) →
  main fuel p = Some (Accepted s) →
  ∀ pre tick m post, commands fuel p state_init = pre ++ (tick, m) :: post →
    legal4 (timing p) pre tick m.
Proof.
  intros Hccd Hrrd Hmain.
  assert (ratio_ok (timing p)) as Hrat.
  { apply accepted_timing in Hmain. cbn in Hmain. unfold timing_fields4 in Hmain.
    rewrite !Forall_cons in Hmain. split; lia. }
  apply (@accepted_good ddr4lib (rank4_inv (timing p)) (legal4 (timing p))) with s; [| |done].
  - intros h r t m r' Hinv Hle _ Hex. by apply (rank4_step _ h r t m r').
  - apply rank4_init_inv.
Qed.

Definition demo_timing4 : timing4 := Timing4 10000 4 2 5 2 3 2 1 3 2 4.
Definition demo_payload4 : @payload ddr4lib := @Payload ddr4lib demo_timing4
  [IMem (Mem4 ACT 2 0 0 0 1 5); IMem (Mem4 ACT 3 0 0 1 1 5); IMem (Mem4 PRE 2 0 0 0 1 0);
   IMem (Mem4 ACT 4 0 0 0 1 6)].

Lemma ddr4_accepted_legal_witness :
  legal4 demo_timing4 (take 3 (commands 5 demo_payload4 state_init)) 7 (Mem4 ACT 4 0 0 0 1 6).
Proof.
  apply (ddr4_accepted_legal 5 demo_payload4 (State 4 11 0 [0; 0; 0; 0; 0; 1; 0; 0; 3])) with [];
    vm_compute; congruence.
Defined.

(** C21: The DDR4 verifier accepts exactly the legal payloads, when the long delays of a
    bank group are at most twice the short ones: a payload without nested loops is
    accepted if and only if its timings are positive, its instructions are well formed,
    and every memory command of its execution keeps the minimal distance to every
    earlier one (tCCD_L and tRRD_L in its bank group, tCCD_S and tRRD_S to the others,
    tRFC and tRP on the rank, tRCD, tRAS, tRTP and tRP on its bank), reads find their
    bank's row open, activations find it closed, any five activations span at least
    tFAW, and the last of the activations and precharges before a refresh is a
    precharge. *)
Theorem ddr4_accepts_exactly (p : @payload ddr4lib) :
  not_nested p → ccd_l (timing p) ≤ 2 * ccd_s (timing p) → rrd_l (timing p) ≤ 2 * rrd_s (timing p) →
  (∃ fuel s, main fuel p = Some (Accepted s)) ↔
  Forall (fun x => 0 < x) (timing_fields4 (timing p))
  ∧ first_illegal 0 (instrs p) = None
  ∧ ∀ fuel pre tick m post, commands fuel p state_init = pre ++ (tick, m) :: post → admissible4 (timing p) pre tick m.
Proof.
  intros Hnest Hccd Hrrd. apply (@accepts_exactly ddr4lib p Hnest (rank4_exact (timing p)) (admissible4 (timing p))).
  - apply rank4_exact_init.
  - intros Hpos h r t m r' Hinv Hle Hex. apply (rank4_exact_step _ h r t m r'); try done.
    cbn in Hpos. unfold timing_fields4 in Hpos. rewrite !Forall_cons in Hpos. split; lia.
  - intros Hpos h r t m n. by apply rank4_go.
Qed.

Lemma ddr4_accepts_exactly_witness :
  admissible4 demo_timing4 (take 3 (commands 5 demo_payload4 state_init)) 7 (Mem4 ACT 4 0 0 0 1 6).
Proof.
  refine (proj2 (proj2 (proj1 (ddr4_accepts_exactly demo_payload4 _ _ _) _)) 5%nat _ _ _ [] _).
  - intros n j k i Hn. by destruct n as [|[|[|[|n]]]].
  - vm_compute. congruence.
  - vm_compute. congruence.
  - exists 5%nat, (State 4 11 0 [0; 0; 0; 0; 0; 1; 0; 0; 3]). vm_compute. reflexivity.
  - vm_compute. reflexivity.
Defined.

(** With tRRD_L more than twice tRRD_S, two ACTs in one bank group are accepted
    closer than tRRD_L: the ACT on another group in between overwrites the limit. *)
Example bank_group_limit_lost :
  let t := Timing4 10000 4 2 5 2 5 2 1 6 2 4 in
  let p := @Payload ddr4lib t
    [IMem (Mem4 ACT 2 0 0 0 0 5); IMem (Mem4 ACT 2 0 0 1 0 5); IMem (Mem4 ACT 1 0 0 0 1 5)] in
  (∃ s, main 10 p = Some (Accepted s))
  ∧ commands 10 p state_init
    = [(0, Mem4 ACT 2 0 0 0 0 5); (2, Mem4 ACT 2 0 0 1 0 5); (4, Mem4 ACT 1 0 0 0 1 5)]
  ∧ min_gap4 t (Mem4 ACT 2 0 0 0 0 5) (Mem4 ACT 1 0 0 0 1 5) = 6.
Proof. split_and!; [eexists|..]; vm_compute; reflexivity. Qed.
