(* ===== verification/PyString.v ===== *)
(** * Python strings

    The operations on strings that the scripts use: [str.strip], [str.split],
    [str.startswith], [str.find], [str.replace] of a character, [int(s, base)] and
    the formats [{:x}].  Texts are lists of characters; [chars] converts from
    string literals.  [int] is modelled for an optional sign, the prefix [0x] in
    base 16, and digits (no underscores). *)

From Stdlib Require Export Ascii.
From stdpp Require Export strings pretty.
From S2P Require Import Prelude.
#[local] Open Scope Z_scope.

Abbreviation text := (list ascii).

Definition chars (s : string) : text := String.list_ascii_of_string s.

Lemma chars_inj s1 s2 : chars s1 = chars s2 → s1 = s2.
Proof.
  intros E. rewrite <- (String.string_of_list_ascii_of_string s1), <- (String.string_of_list_ascii_of_string s2).
  unfold chars in E. by rewrite E.
Qed.

Lemma chars_app s1 s2 : chars (s1 +:+ s2) = chars s1 ++ chars s2.
Proof. induction s1 as [|c s1 IH]; [done|]. change (chars (String c s1 +:+ s2)) with (c :: chars (s1 +:+ s2)). by rewrite IH. Qed.

(** ** Stripping and splitting *)
Definition is_space : ascii → bool := Ascii.is_space.

Fixpoint lstrip (l : text) : text :=
  match l with
  | [] => []
  | c :: l' => if is_space c then lstrip l' else l
  end.
Definition strip (l : text) : text := reverse (lstrip (reverse (lstrip l))).

Fixpoint startswith (p l : text) : bool :=
  match p, l with
  | [], _ => true
  | _, [] => false
  | c :: p', d :: l' => bool_decide (c = d) && startswith p' l'
  end.

(** [l.find(p)], from position [i] on; -1 when not found. *)
Fixpoint find_from (p l : text) (i : Z) : Z :=
  if startswith p l then i
  else match l with [] => -1 | _ :: l' => find_from p l' (i + 1) end.
Definition find (p l : text) : Z := find_from p l 0.

(** [sep.join(lines)] *)
Fixpoint join (sep : ascii) (lines : list text) : text :=
  match lines with
  | [] => []
  | [l] => l
  | l :: lines' => l ++ sep :: join sep lines'
  end.

(** [l.split(c)] *)
Fixpoint split_on (c : ascii) (l : text) : list text :=
  match l with
  | [] => [[]]
  | d :: l' =>
      if bool_decide (d = c) then [] :: split_on c l'
      else match split_on c l' with
           | [] => [[d]]
           | w :: ws => (d :: w) :: ws
           end
  end.

(** [l.split()]: [acc] is the word being read, reversed. *)
Fixpoint words_from (l : text) (acc : text) : list text :=
  match l with
  | [] => match acc with [] => [] | _ => [reverse acc] end
  | c :: l' =>
      if is_space c then match acc with [] => words_from l' [] | _ => reverse acc :: words_from l' [] end
      else words_from l' (c :: acc)
  end.
Definition split_ws (l : text) : list text := words_from l [].

(** [l.replace(c, '')] *)
Definition remove_char (c : ascii) (l : text) : text := filter (fun d => d ≠ c) l.

(** ** Numbers *)
Definition digit_value (base : Z) (c : ascii) : option Z :=
  let n := Z.of_nat (nat_of_ascii c) in
  let v := if (48 <=? n) && (n <=? 57) then n - 48
           else if (97 <=? n) && (n <=? 102) then n - 87
           else if (65 <=? n) && (n <=? 70) then n - 55 else 36 in
  if v <? base then Some v else None.

Fixpoint digits_value (base acc : Z) (l : text) : option Z :=
  match l with
  | [] => Some acc
  | c :: l' => v ← digit_value base c; digits_value base (acc * base + v) l'
  end.

Definition unsigned (base : Z) (l : text) : option Z :=
  let l' := if (base =? 16) && (startswith (chars "0x") l || startswith (chars "0X") l) then drop 2 l else l in
  match l' with [] => None | _ => digits_value base 0 l' end.

(** [int(s, base)] *)
Definition py_int (base : Z) (s : text) : result Z :=
  match strip s with
  | c :: l' =>
      if bool_decide (c = "-"%char) then Z.opp <$> of_option ValueError (unsigned base l')
      else if bool_decide (c = "+"%char) then of_option ValueError (unsigned base l')
      else of_option ValueError (unsigned base (c :: l'))
  | [] => Raise ValueError
  end.

(** [int(s, 0)]: the prefix gives the base; a decimal number has no leading zero. *)
Definition unsigned0 (l : text) : option Z :=
  let digits base := match drop 2 l with [] => None | ds => digits_value base 0 ds end in
  if startswith (chars "0x") l || startswith (chars "0X") l then digits 16
  else if startswith (chars "0b") l || startswith (chars "0B") l then digits 2
  else if startswith (chars "0o") l || startswith (chars "0O") l then digits 8
  else match l with
       | [] => None
       | c :: _ =>
           v ← digits_value 10 0 l;
           if bool_decide (c = "0"%char) && negb (v =? 0) then None else Some v
       end.
Definition py_int0 (s : text) : result Z :=
  match strip s with
  | c :: l' =>
      if bool_decide (c = "-"%char) then Z.opp <$> of_option ValueError (unsigned0 l')
      else if bool_decide (c = "+"%char) then of_option ValueError (unsigned0 l')
      else of_option ValueError (unsigned0 (c :: l'))
  | [] => Raise ValueError
  end.

(** Hexadecimal digits: [hex_digits n v] are the [n] low digits of [v]. *)
Definition hex_char (v : Z) : ascii :=
  ascii_of_nat (Z.to_nat (if v <? 10 then 48 + v else 87 + v)).

Fixpoint hex_digits (n : nat) (v : Z) : text :=
  match n with
  | O => []
  | S n' => hex_digits n' (v / 16) ++ [hex_char (v mod 16)]
  end.

(** ** Properties *)
Lemma strip_id c d l : is_space c = false → is_space d = false → strip (c :: l ++ [d]) = c :: l ++ [d].
Proof.
  intros Hc Hd. unfold strip. assert (lstrip (c :: l ++ [d]) = c :: l ++ [d]) as -> by (cbn; by rewrite Hc).
  assert (reverse (c :: l ++ [d]) = d :: reverse (c :: l)) as E.
  { change (c :: l ++ [d]) with ((c :: l) ++ [d]). by rewrite reverse_app. }
  assert (lstrip (d :: reverse (c :: l)) = d :: reverse (c :: l)) as Hl by (cbn [lstrip]; by rewrite Hd).
  by rewrite E, Hl, <- E, reverse_involutive.
Qed.

Lemma strip_singleton c : is_space c = false → strip [c] = [c].
Proof. intros Hc. unfold strip. cbn. rewrite Hc. cbn. by rewrite Hc. Qed.

(** Stripping a text without spaces changes nothing. *)
Lemma strip_no_space l : Forall (fun c => is_space c = false) l → strip l = l.
Proof.
  intros Hl. destruct l as [|c l]; [done|]. apply Forall_cons in Hl as [Hc Hl].
  destruct l as [|d l _] using rev_ind; [by apply strip_singleton|].
  apply Forall_app in Hl as [_ [Hd _]%Forall_cons]. by apply strip_id.
Qed.

Lemma digits_value_app base acc l1 l2 :
  digits_value base acc (l1 ++ l2) = acc' ← digits_value base acc l1; digits_value base acc' l2.
Proof.
  revert acc; induction l1 as [|c l1 IH]; intros acc; cbn; [done|].
  destruct (digit_value base c); cbn; [apply IH|done].
Qed.

Lemma words_from_word w l acc :
  Forall (fun c => is_space c = false) w → words_from (w ++ l) acc = words_from l (reverse w ++ acc).
Proof.
  intros Hw. revert acc. induction Hw as [|c w Hc _ IH]; intros acc; [done|].
  cbn [app words_from]. by rewrite Hc, IH, reverse_cons, <- app_assoc.
Qed.

(** A word, a space, and the rest. *)
Lemma split_ws_cons w c l :
  w ≠ [] → Forall (fun d => is_space d = false) w → is_space c = true →
  split_ws (w ++ c :: l) = w :: split_ws l.
Proof.
  intros Hne Hw Hc. unfold split_ws. rewrite words_from_word by done. rewrite app_nil_r. cbn [words_from]. rewrite Hc.
  destruct (reverse w) as [|d w'] eqn:E.
  - apply (f_equal reverse) in E. by rewrite reverse_involutive in E.
  - rewrite <- E. by rewrite reverse_involutive.
Qed.

Lemma split_ws_word w : w ≠ [] → Forall (fun d => is_space d = false) w → split_ws w = [w].
Proof.
  intros Hne Hw. unfold split_ws. rewrite <- (app_nil_r w) at 1. rewrite words_from_word by done.
  rewrite app_nil_r. cbn [words_from]. destruct (reverse w) as [|d w'] eqn:E.
  - apply (f_equal reverse) in E. by rewrite reverse_involutive in E.
  - rewrite <- E. by rewrite reverse_involutive.
Qed.

Lemma split_ws_space c l : is_space c = true → split_ws (c :: l) = split_ws l.
Proof. intros Hc. unfold split_ws. cbn. by rewrite Hc. Qed.

Lemma split_on_word c w l :
  c ∉ w → split_on c (w ++ c :: l) = w :: split_on c l.
Proof.
  induction w as [|d w IH]; cbn; intros Hw.
  - by rewrite bool_decide_true.
  - rewrite not_elem_of_cons in Hw. destruct Hw as [Hd Hw].
    rewrite bool_decide_false, IH by (done || congruence). done.
Qed.

Lemma split_on_last c w : c ∉ w → split_on c w = [w].
Proof.
  induction w as [|d w IH]; cbn; intros Hw; [done|].
  rewrite not_elem_of_cons in Hw. destruct Hw as [Hd Hw]. by rewrite bool_decide_false, IH by (done || congruence).
Qed.

(** *** Decimal numbers *)
Lemma pretty_N_digit x :
  (x < 10)%N → digit_value 10 (pretty_N_char x) = Some (Z.of_N x) ∧ is_space (pretty_N_char x) = false
    ∧ pretty_N_char x ≠ "-"%char ∧ pretty_N_char x ≠ "+"%char.
Proof.
  intros Hx. assert (x = 0 ∨ x = 1 ∨ x = 2 ∨ x = 3 ∨ x = 4 ∨ x = 5 ∨ x = 6 ∨ x = 7 ∨ x = 8 ∨ x = 9)%N as Hc by lia.
  destruct_or! Hc; subst; done.
Qed.

(** The digits before those of [s]. *)
Lemma pretty_N_go_chars x s :
  ∃ l, chars (pretty_N_go x s) = l ++ chars s ∧ Forall (fun c => is_space c = false) l
    ∧ Forall (fun c => c ≠ "-"%char ∧ c ≠ "+"%char) l
    ∧ ((0 < x)%N → l ≠ []) ∧ digits_value 10 0 l = Some (Z.of_N x).
Proof.
  revert s. induction (N.lt_wf_0 x) as [x _ IH]; intros s.
  assert (x = 0 ∨ 0 < x)%N as [-> | Hx] by lia.
  - exists []. rewrite pretty_N_go_0. split_and!; try done; constructor.
  - rewrite pretty_N_go_step by done.
    destruct (IH (x `div` 10)%N ltac:(apply N.Div0.div_lt_upper_bound; lia) (String (pretty_N_char (x `mod` 10)) s))
      as (l & E & Hs & Hc & _ & Hv).
    destruct (pretty_N_digit (x `mod` 10)) as (Hd & Hsp & Hm & Hp); [apply N.mod_lt; lia|].
    exists (l ++ [pretty_N_char (x `mod` 10)]). rewrite E. split_and!.
    + cbn. by rewrite <- app_assoc.
    + apply Forall_app. by repeat constructor.
    + apply Forall_app. by repeat constructor.
    + by destruct l.
    + rewrite digits_value_app, Hv. cbn. rewrite Hd. cbn. f_equal.
      pose proof (N.div_mod x 10 ltac:(done)). lia.
Qed.

Lemma py_int_digits l z :
  l ≠ [] → Forall (fun c => is_space c = false) l → Forall (fun c => c ≠ "-"%char ∧ c ≠ "+"%char) l →
  digits_value 10 0 l = Some z → py_int 10 l = Ok z.
Proof.
  intros Hne Hs Hc Hv. unfold py_int. rewrite strip_no_space by done. destruct l as [|c l]; [done|].
  apply Forall_cons in Hc as [[H1 H2] _]. rewrite !bool_decide_false by done. unfold unsigned. change (10 =? 16) with false. cbn [andb].
  by rewrite Hv.
Qed.

(** [int(str(n)) = n] for every non-negative [n]. *)
Lemma py_int_pretty n : 0 ≤ n → py_int 10 (chars (pretty n)) = Ok n.
Proof.
  intros Hn. destruct n as [|p|p]; [done| |lia].
  destruct (pretty_N_go_chars (Npos p) "") as (l & E & Hs & Hc & Hne & Hv).
  assert (chars (pretty (Z.pos p)) = l) as ->.
  { change (pretty (Z.pos p)) with (pretty_N_go (Npos p) ""). rewrite E. apply app_nil_r. }
  by apply py_int_digits; [apply Hne|..].
Qed.

(** *** Hexadecimal numbers *)
Lemma hex_char_spec v :
  0 ≤ v < 16 → digit_value 16 (hex_char v) = Some v ∧ is_space (hex_char v) = false
    ∧ hex_char v ≠ "-"%char ∧ hex_char v ≠ "+"%char ∧ hex_char v ≠ "x"%char ∧ hex_char v ≠ "X"%char
    ∧ hex_char v ≠ "010"%char.
Proof.
  intros Hv.
  assert (v = 0 ∨ v = 1 ∨ v = 2 ∨ v = 3 ∨ v = 4 ∨ v = 5 ∨ v = 6 ∨ v = 7 ∨ v = 8 ∨ v = 9 ∨ v = 10
          ∨ v = 11 ∨ v = 12 ∨ v = 13 ∨ v = 14 ∨ v = 15) as Hc by lia.
  destruct_or! Hc; subst; done.
Qed.

Definition hex_like (c : ascii) : Prop :=
  is_space c = false ∧ c ≠ "-"%char ∧ c ≠ "+"%char ∧ c ≠ "x"%char ∧ c ≠ "X"%char ∧ c ≠ "010"%char.

Lemma hex_digits_spec n v :
  Forall hex_like (hex_digits n v) ∧ length (hex_digits n v) = n
  ∧ digits_value 16 0 (hex_digits n v) = Some (v mod 16 ^ Z.of_nat n).
Proof.
  revert v; induction n as [|n IH]; intros v; cbn [hex_digits].
  - split_and!; [constructor|done|]. cbn. by rewrite Z.mod_1_r.
  - destruct (IH (v / 16)) as (Hl & Hn & Hv).
    destruct (hex_char_spec (v mod 16)) as (Hd & Hs); [apply Z.mod_pos_bound; lia|]. split_and!.
    + apply Forall_app. split; [done|]. by repeat constructor; apply Hs.
    + rewrite length_app, Hn. cbn. lia.
    + rewrite digits_value_app, Hv. cbn. rewrite Hd. cbn. f_equal.
      rewrite Nat2Z.inj_succ, Z.pow_succ_r, Z.rem_mul_r by (lia || apply Z.pow_pos_nonneg; lia). lia.
Qed.

Lemma unsigned_hex l : Forall hex_like l → l ≠ [] → unsigned 16 l = digits_value 16 0 l.
Proof.
  intros Hl Hne. unfold unsigned. change (16 =? 16) with true. cbn [andb].
  assert (startswith (chars "0x") l = false ∧ startswith (chars "0X") l = false) as [-> ->].
  { destruct l as [|c [|d l]]; cbn; [done|by split; rewrite andb_false_r|].
    apply Forall_cons in Hl as [_ [(_ & _ & _ & Hx & HX & _) _]%Forall_cons].
    rewrite !(bool_decide_false (_ = d)) by congruence. by rewrite !andb_false_r. }
  by destruct l.
Qed.

Lemma py_int_hex n v : (0 < n)%nat → 0 ≤ v < 16 ^ Z.of_nat n → py_int 16 (hex_digits n v) = Ok v.
Proof.
  intros Hn Hv. destruct (hex_digits_spec n v) as (Hl & Hlen & Hval).
  assert (hex_digits n v ≠ []) as Hne by (intros E; rewrite E in Hlen; cbn in Hlen; lia).
  unfold py_int. rewrite strip_no_space by (eapply Forall_impl; [done|]; by intros c [Hc _]).
  pose proof (unsigned_hex _ Hl Hne) as Hu. destruct (hex_digits n v) as [|c l]; [done|].
  apply Forall_cons in Hl as [(_ & H1 & H2 & _) _]. rewrite !bool_decide_false by done.
  rewrite Hu, Hval. cbn. by rewrite Z.mod_small.
Qed.

(** The same with the prefix [0x]. *)
Lemma py_int_0x n v : (0 < n)%nat → 0 ≤ v < 16 ^ Z.of_nat n → py_int 16 (chars "0x" ++ hex_digits n v) = Ok v.
Proof.
  intros Hn Hv. destruct (hex_digits_spec n v) as (Hl & Hlen & Hval).
  unfold py_int. rewrite strip_no_space.
  2: { apply Forall_app. split; [by repeat constructor|]. eapply Forall_impl; [done|]. by intros c [Hc _]. }
  change (chars "0x" ++ hex_digits n v) with ("0"%char :: "x"%char :: hex_digits n v).
  cbv beta iota. rewrite !bool_decide_false by done. unfold unsigned. change (16 =? 16) with true.
  change (startswith (chars "0x") ("0"%char :: "x"%char :: hex_digits n v)) with true. cbn [andb orb].
  change (drop 2 ("0"%char :: "x"%char :: hex_digits n v)) with (hex_digits n v). cbv zeta.
  destruct (hex_digits n v) as [|c l] eqn:E; [cbn in Hlen; lia|]. cbv beta iota. rewrite Hval. cbn [of_option]. by rewrite Z.mod_small.
Qed.

Lemma digits_value_digits base acc l v : digits_value base acc l = Some v → Forall (fun c => is_Some (digit_value base c)) l.
Proof.
  revert acc. induction l as [|c l IH]; intros acc E; [constructor|]. cbn in E.
  destruct (digit_value base c) eqn:Ed; [|done]. constructor; [done|by eapply IH].
Qed.

(** A number that [int(s, 0)] accepts is read as the same number by [int(s)], or
    refused: when it has a prefix. *)
Lemma unsigned0_decimal l v : unsigned0 l = Some v → unsigned 10 l = Some v ∨ unsigned 10 l = None.
Proof.
  unfold unsigned0, unsigned. change (10 =? 16) with false. cbn [andb]. destruct l as [|c [|d l]]; [by right|..].
  - assert (∀ p, startswith ["0"%char; p] [c] = false) as Hs by (intros p; cbn; by rewrite andb_false_r).
    change (chars "0x") with ["0"; "x"]%char. change (chars "0X") with ["0"; "X"]%char.
    change (chars "0b") with ["0"; "b"]%char. change (chars "0B") with ["0"; "B"]%char.
    change (chars "0o") with ["0"; "o"]%char. change (chars "0O") with ["0"; "O"]%char. rewrite !Hs. cbn [orb].
    destruct (digits_value 10 0 [c]) as [w|]; [|done]. cbn [mbind option_bind]. destruct (_ && _); [done|]. by auto.
  - assert (∀ x, digit_value 10 x = None → digits_value 10 0 (c :: x :: l) = None) as Hx
      by (intros x Hx; cbn; rewrite Hx; by destruct (digit_value 10 c)).
    destruct (digit_value 10 d) eqn:Hd; [|right; by apply Hx].
    assert (∀ p, digit_value 10 p = None → startswith ["0"%char; p] (c :: d :: l) = false) as Hs.
    { intros p Hp. cbn. rewrite (bool_decide_false (p = d)) by congruence. by rewrite andb_false_r. }
    change (chars "0x") with ["0"; "x"]%char. change (chars "0X") with ["0"; "X"]%char.
    change (chars "0b") with ["0"; "b"]%char. change (chars "0B") with ["0"; "B"]%char.
    change (chars "0o") with ["0"; "o"]%char. change (chars "0O") with ["0"; "O"]%char.
    rewrite !Hs by done. cbn [orb].
    destruct (digits_value 10 0 (c :: d :: l)) as [w|]; [|done]. cbn [mbind option_bind]. destruct (_ && _); [done|]. by auto.
Qed.

Lemma py_int0_decimal s n : py_int0 s = Ok n → py_int 10 s = Ok n ∨ py_int 10 s = Raise ValueError.
Proof.
  unfold py_int0, py_int. assert (∀ l v, of_option ValueError (unsigned0 l) = Ok v →
    of_option ValueError (unsigned 10 l) = Ok v ∨ of_option ValueError (unsigned 10 l) = Raise ValueError) as Hu.
  { intros l v. destruct (unsigned0 l) as [v'|] eqn:E; [|done]. intros [= <-].
    destruct (unsigned0_decimal l v' E) as [-> | ->]; auto. }
  destruct (strip s) as [|c l]; [done|]. case_bool_decide; [|case_bool_decide; apply Hu].
  destruct (of_option ValueError (unsigned0 l)) as [v|] eqn:E; [|done]. intros [= <-].
  destruct (Hu _ _ E) as [-> | ->]; auto.
Qed.
