(* ===== verification/Spd.v ===== *)
(** * SPD data of memory modules

    Models the parsing of memory dumps in
    [src/rowhammer_tester/scripts/spd_eeprom.py] ([parse_hexdump], and
    [add_page_to_address] of [read_spd], which makes one address range of the
    pages of a DDR5 SPD) and the decoder
    [src/rowhammer_tester/scripts/decode_ddr5_dimms.py].  A decoder that prints is
    a function that gives the printed values.  Python's floats are the class
    [PyFloat]. *)

From Stdlib Require Import QArith Qround.
From stdpp Require Import gmap.
From S2P Require Import Prelude PyString.
#[local] Open Scope Z_scope.

(** ** spd_eeprom.py *)
Definition newline : ascii := "010"%char.
Definition carriage_return : ascii := "013"%char.

Definition is_dump_line (line : text) : bool := startswith (chars "0x") (strip line).

(** The lines of the first block of dump lines. *)
Fixpoint hexdump_lines (lines : list text) (found : bool) (prev_addr : Z) : result (list Z) :=
  match lines with
  | [] => Ok []
  | line :: lines' =>
      if negb found && negb (is_dump_line line) then hexdump_lines lines' found prev_addr
      else if negb (is_dump_line line) then Ok []
      else
        let tokens := split_ws (strip line) in
        t0 ← of_option IndexError (tokens !! 0%nat);
        addr ← py_int 16 t0;
        passert (prev_addr <? addr) ;;
        bytes ← result_map (py_int 16) (take 16 (drop 1 tokens));
        rest ← hexdump_lines lines' true addr;
        Ok (bytes ++ rest)
  end.

Definition parse_hexdump (string : text) : result (list Z) :=
  hexdump_lines (split_on newline string) false (-1).

(** [dump.splitlines()], for the line ends of the console; the empty lines that
    come between a carriage return and a newline are dropped by the caller. *)
Definition splitlines (dump : text) : list text :=
  split_on newline ((fun c => if bool_decide (c = carriage_return) then newline else c) <$> dump).

(** [line[7] = f'{page:x}'] raises [IndexError] on a shorter line. *)
Definition set_page (page : Z) (line : text) : result text :=
  if (7 <? Z.of_nat (length line)) then Ok (<[7%nat := hex_char page]> line) else Raise IndexError.

Definition add_page_to_address (page : Z) (dump : text) : result text :=
  ret ← result_map (set_page page) (filter (fun l => is_dump_line l = true) (splitlines dump));
  Ok (join newline ret).

(** ** decode_ddr5_dimms.py *)
Definition get_bits (bits first_bit last_bit : Z) : Z :=
  let field_offset := first_bit in
  let field_length := last_bit - first_bit + 1 in
  let mask := Z.shiftl (Z.shiftl 1 field_length - 1) field_offset in
  Z.shiftr (Z.land bits mask) field_offset.

(** [table[code]] *)
Definition table {A} (t : list (Z * A)) (code : Z) : result A := of_option KeyError (odict_get code t).

Definition bit (byte i : Z) : bool := negb (get_bits byte i i =? 0).

(** [msb << 8 | lsb] *)
Definition word (lsb msb : Z) : Z := Z.lor (Z.shiftl msb 8) lsb.

(** Floating-point numbers of Python (IEEE 754 doubles): the rational number that
    a finite one stands for, the conversion of integers, the literal [0.997], and
    correctly rounded operations on numbers of moderate size. *)
Definition u53 : Q := 1 # (2 ^ 53).
Definition near (x exact : Q) : Prop := (exact * (1 - u53) <= x <= exact * (1 + u53))%Q.
Definition moderate (x : Q) : Prop := (1 # (2 ^ 60) <= x <= inject_Z (2 ^ 60))%Q.

Class PyFloat := {
  float : Type;
  value : float → Q;
  of_int : Z → float;
  lit_0_997 : float;
  fmul : float → float → float;
  fdiv : float → float → float;
  of_int_exact : ∀ z, 0 ≤ z < 2 ^ 53 → value (of_int z) == inject_Z z;
  lit_near : near (value lit_0_997) (997 # 1000);
  fmul_near : ∀ x y, moderate (value x * value y) → near (value (fmul x y)) (value x * value y);
  fmul_zero : ∀ x y, value x == 0 → value (fmul x y) == 0;
  fdiv_near : ∀ x y, moderate (value x / value y) → near (value (fdiv x y)) (value x / value y);
  fdiv_zero : ∀ x y, value x == 0 → ~ value y == 0 → value (fdiv x y) == 0;
}.

Section decode.
Context {F : PyFloat}.

(** [ceil(parameter_nominal * 0.997 / tck_real)]; a zero speed grade raises. *)
Definition rounding_algorithm (speedgrade parameter_nominal : Z) : result Z :=
  if speedgrade =? 0 then Raise ZeroDivisionError
  else
    let tck_real := fdiv (of_int 1000000) (fdiv (of_int speedgrade) (of_int 2)) in
    Ok (Qceiling (value (fdiv (fmul (of_int parameter_nominal) lit_0_997) tck_real))).

(** The values printed for each rank. *)
Record rank_info := RankInfo {
  density_per_die : Z;
  die_per_package : Z;
  row_address_bits : Z;
  column_address_bits : Z;
  io_width : Z;
  banks_per_group : Z;
  bank_groups : Z;
}.

(** A printed timing: value and clock cycles. *)
Record timing := Timing { t_offset : Z; t_value : Z; t_nck : Z }.

Record spd_info := SpdInfo {
  part_number : text;
  beta_level : Z;
  spd_bytes_total : option Z;            (* None: undefined *)
  spd_revision : Z * Z;                  (* major, minor *)
  base_module_type : string;
  hybrid_media : string;
  ranks : list rank_info;
  features : list (string * bool);
  sppr_granularity : string;
  dca_types : string;
  rmw_register : string;
  supported_cl : list Z;
  timings_2b : list timing;
  refresh_management : string;
  timings_3b : list timing;
}.

Context (b : list Z).

(** [b[i]] *)
Definition byte_at (i : Z) : result Z := of_option IndexError (b !! Z.to_nat i).

(** [b[first:last]] *)
Definition bytes_at (first last : Z) : list Z := take (Z.to_nat (last - first)) (drop (Z.to_nat first) b).

(** [bytes.decode("ascii")] raises [UnicodeDecodeError], a [ValueError]. *)
Definition decode_ascii (l : list Z) : result text :=
  result_map (fun x => if x <? 128 then Ok (ascii_of_nat (Z.to_nat x)) else Raise ValueError) l.

Definition decode_rank (offset : Z) : result rank_info :=
  b4 ← byte_at (4 + offset);
  density ← table [(0, 0); (1, 4); (2, 8); (3, 12); (4, 16); (5, 24); (6, 32); (7, 48); (8, 64)] (get_bits b4 0 4);
  die ← table [(0, 1); (2, 2); (3, 4); (4, 8); (5, 16)] (get_bits b4 5 7);
  b5 ← byte_at (5 + offset);
  row_bits ← table [(0, 16); (1, 17); (2, 18)] (get_bits b5 0 4);
  col_bits ← table [(0, 10); (1, 11)] (get_bits b5 5 7);
  b6 ← byte_at (6 + offset);
  io ← table [(0, 4); (1, 8); (2, 16); (3, 32)] (get_bits b6 5 7);
  b7 ← byte_at (7 + offset);
  banks ← table [(0, 1); (1, 2); (2, 4)] (get_bits b7 0 2);
  groups ← table [(0, 1); (1, 2); (2, 4); (3, 8)] (get_bits b7 5 7);
  Ok (RankInfo density die row_bits col_bits io banks groups).

(** [enumerate(range(20, 98 + 1, 2))], as far as the bits are set. *)
Definition decode_supported_cl : list Z :=
  let bits := foldr (fun x acc => x + 256 * acc) 0 (bytes_at 24 29) in
  (fun i => 20 + 2 * i) <$> filter (fun i => negb (get_bits bits i i =? 0) = true) (zrange 40).

(** Unpacking a slice of the wrong length raises [ValueError]. *)
Definition decode_timing_2b (speedgrade : Z) (entry : Z * bool) : result timing :=
  let '(offset, is_ps) := entry in
  match bytes_at offset (offset + 2) with
  | [lsb; msb] =>
      let v := word lsb msb in
      let nominal := if (is_ps : bool) then v else v * 1000 in
      target_nck ← rounding_algorithm speedgrade nominal;
      Ok (Timing offset v target_nck)
  | _ => Raise ValueError
  end.

Definition decode_timing_3b (speedgrade offset : Z) : result timing :=
  match bytes_at offset (offset + 3) with
  | [lsb; msb; min_nck] =>
      let v := word lsb msb in
      nck ← rounding_algorithm speedgrade v;
      Ok (Timing offset v (Z.max min_nck nck))
  | _ => Raise ValueError
  end.

Definition timings_2b_table (is_3ds : bool) : list (Z * bool) :=
  [(20, true); (22, true); (30, true); (32, true); (34, true); (36, true); (38, true); (40, true);
   (42, false); (44, false); (46, false)]
  ++ (if is_3ds then [(48, false); (50, false); (52, false)] else []).

Definition timings_3b_table : list Z := [70; 73; 76; 79; 82; 85; 88; 91].

Definition decode (speedgrade : Z) : result spd_info :=
  b2 ← byte_at 2;
  passert (b2 =? 18) ;;
  number ← decode_ascii (bytes_at 521 551);
  b0 ← byte_at 0;
  let beta := Z.lor (Z.shiftl (get_bits b0 7 7) 4) (get_bits b0 0 3) in
  total ← table [(0, None); (1, Some 256); (2, Some 512); (3, Some 1024); (4, Some 2048)] (get_bits b0 4 6);
  b1 ← byte_at 1;
  let revision := (get_bits b1 4 7, get_bits b1 0 3) in
  b3 ← byte_at 3;
  base_type ← table [(1, "RDIMM"); (2, "UDIMM"); (3, "SODIMM"); (4, "LRDIMM"); (10, "DDDIMM"); (11, "Solder down")]%string
                (get_bits b3 0 3);
  hybrid ← table [(0, "not hybrid"); (1, "NVDIMM-N Hybrid"); (2, "NVDIMM-P Hybrid")]%string (get_bits b3 4 6);
  b234 ← byte_at 234;
  rank_list ← result_map decode_rank (if bit b234 6 then [0; 4] else [0]);
  b12 ← byte_at 12;
  bb12 ← byte_at b12;
  sppr ← table [(0, "bank group"); (1, "bank")]%string (get_bits bb12 7 7);
  b13 ← byte_at 13;
  dca ← table [(0, "not supported"); (1, "single/2-phase internal clock(s)"); (2, "4-phase internal clock(s)")]%string
          (get_bits b13 0 1);
  b14 ← byte_at 14;
  rmw ← table [(0, "MR9"); (1, "MR15")]%string (get_bits b14 1 1);
  b16 ← byte_at 16; passert (b16 =? 0) ;;
  b17 ← byte_at 17; passert (b17 =? 0) ;;
  b18 ← byte_at 18; passert (b18 =? 0) ;;
  b19 ← byte_at 19;
  let feats := [("MBIST/mPPR", bit b12 1); ("BL32", bit b12 4); ("sPPR Undo/Lock", bit b12 5); ("PASR", bit b13 4);
                ("Bounded Fault", bit b14 0); ("x4 RMW/ECS Writeback Suppression", bit b14 2);
                ("Wide Temperature Sense", bit b14 3); ("Non standard timings", bit b19 0)]%string in
  b4 ← byte_at 4;
  is_3ds ← (if get_bits b4 5 7 =? 0 then b8 ← byte_at 8; Ok (negb (get_bits b8 5 7 =? 0)) else Ok true);
  t2 ← result_map (decode_timing_2b speedgrade) (timings_2b_table is_3ds);
  b54 ← byte_at 54;
  let refresh := if get_bits b54 0 0 =? 0 then "required" else "not required" in
  t3 ← result_map (decode_timing_3b speedgrade) timings_3b_table;
  Ok (SpdInfo (strip number) beta total revision base_type hybrid rank_list feats sppr dca rmw
        decode_supported_cl t2 refresh t3).
End decode.
