(* ===== verification/SpdFacts.v ===== *)
(** * Properties of the SPD scripts

    Parsing a memory dump gives back the dumped bytes, also for the pages of a
    DDR5 SPD; fields, CAS latencies and clock cycles are decoded exactly. *)

From Stdlib Require Import QArith Qround Lqa.
From stdpp Require Import gmap.
From S2P Require Import Prelude PyString Spd.
#[local] Open Scope Z_scope.

(** ** Stripped lines *)
Definition no_space (l : text) : Prop := Forall (fun c => is_space c = false) l.

Lemma lstrip_app a c b : is_space c = false → lstrip (a ++ c :: b) = lstrip a ++ c :: b.
Proof.
  intros Hc. induction a as [|d a IH]; cbn [app lstrip]; [by rewrite Hc|].
  destruct (is_space d); [apply IH|done].
Qed.

(** A word at the start is not stripped. *)
Lemma strip_word w r : w ≠ [] → no_space w → strip (w ++ r) = w ++ reverse (lstrip (reverse r)).
Proof.
  intros Hne Hw. unfold strip. destruct w as [|c w]; [done|]. pose proof (Forall_inv Hw) as Hc.
  assert (lstrip ((c :: w) ++ r) = (c :: w) ++ r) as -> by (cbn [app lstrip]; by rewrite Hc).
  rewrite reverse_app. destruct w as [|d w _] using rev_ind.
  - change (reverse [c]) with [c]. rewrite lstrip_app, reverse_app by done. done.
  - apply Forall_inv_tail, Forall_app in Hw as [_ Hd%Forall_inv].
    change (c :: w ++ [d]) with ((c :: w) ++ [d]). rewrite (reverse_app (c :: w)). change (reverse [d]) with [d].
    cbn [app]. rewrite lstrip_app, reverse_app by done. f_equal.
    change (d :: reverse (c :: w)) with ([d] ++ reverse (c :: w)). by rewrite reverse_app, reverse_involutive.
Qed.

Lemma words_from_spaces l : ∀ acc c, is_space c = true → words_from (l ++ [c]) acc = words_from l acc.
Proof.
  induction l as [|d l IH]; intros acc c Hc; cbn [app words_from].
  - rewrite Hc. by destruct acc.
  - destruct (is_space d); [destruct acc|]; by rewrite IH.
Qed.

Lemma split_ws_rstrip l : split_ws (reverse (lstrip (reverse l))) = split_ws l.
Proof.
  induction l as [|c l IH] using rev_ind; [done|]. rewrite reverse_app. change (reverse [c]) with [c].
  cbn [app lstrip]. destruct (is_space c) eqn:E.
  - rewrite IH. unfold split_ws. by rewrite words_from_spaces.
  - change (c :: reverse l) with ([c] ++ reverse l). by rewrite reverse_app, reverse_involutive.
Qed.

(** A word followed by nothing or by a space. *)
Lemma split_ws_app w r :
  w ≠ [] → no_space w → (∀ c r', r = c :: r' → is_space c = true) → split_ws (w ++ r) = w :: split_ws r.
Proof.
  intros Hne Hw Hr. destruct r as [|c r].
  - rewrite app_nil_r. by apply split_ws_word.
  - rewrite split_ws_cons, (split_ws_space c) by (done || by eapply Hr). done.
Qed.

Lemma split_ws_strip w r :
  w ≠ [] → no_space w → (∀ c r', r = c :: r' → is_space c = true) → split_ws (strip (w ++ r)) = w :: split_ws r.
Proof.
  intros Hne Hw Hr. rewrite strip_word by done.
  rewrite split_ws_app; [by rewrite split_ws_rstrip|done|done|].
  intros c r' E. destruct r as [|d r]; [done|]. specialize (Hr d r eq_refl).
  assert (∃ s, r = reverse (lstrip (reverse r)) ++ s) as [s Hs].
  { clear. induction r as [|x r [s IH]] using rev_ind; [by exists []|]. rewrite reverse_app. change (reverse [x]) with [x].
    cbn [app lstrip]. destruct (is_space x).
    - exists (s ++ [x]). by rewrite app_assoc, <- IH.
    - exists []. change (x :: reverse r) with ([x] ++ reverse r). by rewrite reverse_app, reverse_involutive, app_nil_r. }
  rewrite reverse_cons in E. destruct (decide (lstrip (reverse r) = [])) as [E0|E0].
  - assert (lstrip (reverse r ++ [d]) = []) as E1.
    { clear -E0 Hr. induction (reverse r) as [|x l IH]; cbn in *; [by rewrite Hr|]. destruct (is_space x); [by apply IH|done]. }
    by rewrite E1 in E.
  - assert (lstrip (reverse r ++ [d]) = lstrip (reverse r) ++ [d]) as E1.
    { clear -E0. induction (reverse r) as [|x l IH]; cbn in *; [done|]. destruct (is_space x); [by apply IH|done]. }
    rewrite E1, reverse_app in E. by injection E as <- _.
Qed.

(** ** Lines of a dump *)
Record dump_row := DumpRow { dr_addr : Z; dr_bytes : list Z; dr_tail : text }.

(** [0x00000010  00 01 ...], followed by other text. *)
Definition dump_line (r : dump_row) : text :=
  (chars "0x" ++ hex_digits 8 (dr_addr r)) ++ chars " "
  ++ (dr_bytes r ≫= fun x => " "%char :: hex_digits 2 x) ++ dr_tail r.

(** Bytes and address in range; what follows the bytes starts with a space, and is
    blank if the line has less than 16 bytes. *)
Record row_ok (r : dump_row) : Prop := {
  ro_addr : 0 ≤ dr_addr r < 2 ^ 32;
  ro_bytes : Forall (fun x => 0 ≤ x < 256) (dr_bytes r);
  ro_head : ∀ c l, dr_tail r = c :: l → is_space c = true;
  ro_tail : length (dr_bytes r) = 16%nat ∨ ((length (dr_bytes r) ≤ 16)%nat ∧ split_ws (dr_tail r) = []);
  ro_newline : newline ∉ dr_tail r;
}.

Lemma hex_no_space n v : no_space (hex_digits n v).
Proof. eapply Forall_impl; [apply hex_digits_spec|]. by intros c [Hc _]. Qed.

Lemma address_word v : (chars "0x" ++ hex_digits 8 v) ≠ [] ∧ no_space (chars "0x" ++ hex_digits 8 v).
Proof. split; [done|]. apply Forall_app. split; [by repeat constructor | apply hex_no_space]. Qed.

Lemma split_bytes bytes tail :
  (∀ c l, tail = c :: l → is_space c = true) →
  split_ws ((bytes ≫= fun x => " "%char :: hex_digits 2 x) ++ tail) = (hex_digits 2 <$> bytes) ++ split_ws tail.
Proof.
  intros Ht. induction bytes as [|x bytes IH]; [done|]. rewrite bind_cons, fmap_cons, <- app_assoc.
  cbn [app]. rewrite split_ws_space by done. rewrite split_ws_app; [by rewrite IH| |apply hex_no_space|].
  - intros E%(f_equal length). rewrite (proj1 (proj2 (hex_digits_spec 2 x))) in E. done.
  - intros c r'. destruct bytes as [|y bytes]; [apply Ht|]. rewrite bind_cons. by intros [= <- _].
Qed.

Lemma dump_line_tokens r :
  row_ok r →
  split_ws (strip (dump_line r)) = (chars "0x" ++ hex_digits 8 (dr_addr r)) :: (hex_digits 2 <$> dr_bytes r) ++ split_ws (dr_tail r).
Proof.
  intros [_ _ Hh _ _]. unfold dump_line. destruct (address_word (dr_addr r)).
  rewrite split_ws_strip; [|done|done|by intros c r' [= <- _]].
  change (chars " ") with [" "%char]. cbn [app]. rewrite split_ws_space by done. by rewrite split_bytes.
Qed.

Lemma dump_line_is_dump r : is_dump_line (dump_line r) = true.
Proof.
  unfold is_dump_line, dump_line. destruct (address_word (dr_addr r)). rewrite strip_word by done.
  rewrite <- app_assoc. by cbn.
Qed.

Lemma parse_bytes bytes : Forall (fun x => 0 ≤ x < 256) bytes → result_map (py_int 16) (hex_digits 2 <$> bytes) = Ok bytes.
Proof.
  induction 1 as [|x bytes Hx _ IH]; [done|]. rewrite fmap_cons. cbn [result_map].
  rewrite py_int_hex by (lia || done). by rewrite ok_bind, IH.
Qed.

(** Addresses increase from [prev] on. *)
Fixpoint increasing (prev : Z) (rows : list dump_row) : Prop :=
  match rows with [] => True | r :: rows' => prev < dr_addr r ∧ increasing (dr_addr r) rows' end.

Lemma hexdump_rows rows post : ∀ found prev,
  Forall row_ok rows → increasing prev rows → (∀ l ls, post = l :: ls → is_dump_line l = false) →
  (rows = [] → found = true) →
  hexdump_lines ((dump_line <$> rows) ++ post) found prev = Ok (mjoin (dr_bytes <$> rows)).
Proof.
  induction rows as [|r rows IH]; intros found prev Hok Hinc Hpost Hf.
  - rewrite Hf by done. destruct post as [|l ls]; [done|]. cbn [fmap list_fmap app hexdump_lines].
    by rewrite (Hpost l ls eq_refl).
  - apply Forall_cons in Hok as [Hr Hok]. destruct Hinc as [Hlt Hinc]. rewrite fmap_cons. cbn [app hexdump_lines].
    rewrite dump_line_is_dump, andb_false_r. cbn [negb]. rewrite (dump_line_tokens r Hr).
    cbn [lookup list_lookup of_option]. rewrite ok_bind, py_int_0x by (lia || apply Hr). rewrite ok_bind.
    rewrite (proj2 (Z.ltb_lt _ _)) by done. cbn [passert]. rewrite ok_bind, skipn_cons, drop_0.
    assert (take 16 ((hex_digits 2 <$> dr_bytes r) ++ split_ws (dr_tail r)) = hex_digits 2 <$> dr_bytes r) as ->.
    { destruct Hr as [_ _ _ [Hl|[Hl ->]] _].
      - rewrite take_app_le, take_ge by (rewrite length_fmap; lia). done.
      - rewrite app_nil_r, take_ge by (rewrite length_fmap; lia). done. }
    rewrite parse_bytes by apply Hr. rewrite ok_bind, IH by done. done.
Qed.

Lemma hexdump_skip pre lines prev :
  Forall (fun l => is_dump_line l = false) pre → hexdump_lines (pre ++ lines) false prev = hexdump_lines lines false prev.
Proof. induction 1 as [|l pre Hl _ IH]; [done|]. cbn [app hexdump_lines]. by rewrite Hl. Qed.

Lemma split_join lines :
  lines ≠ [] → Forall (fun l => newline ∉ l) lines → split_on newline (join newline lines) = lines.
Proof.
  intros Hne Hall. induction Hall as [|l lines Hl _ IH]; [done|]. destruct lines as [|l' lines].
  - by apply split_on_last.
  - change (join newline (l :: l' :: lines)) with (l ++ newline :: join newline (l' :: lines)).
    by rewrite split_on_word, IH.
Qed.

Lemma hex_not_newline n v : newline ∉ hex_digits n v.
Proof.
  pose proof (proj1 (hex_digits_spec n v)) as H. rewrite Forall_forall in H. intros Hin. by destruct (H _ Hin) as (? & _).
Qed.

Lemma dump_line_newline r : row_ok r → newline ∉ dump_line r.
Proof.
  intros [_ _ _ _ Hn]. unfold dump_line. rewrite !elem_of_app. pose proof (hex_not_newline 8 (dr_addr r)).
  assert (newline ∉ (dr_bytes r ≫= fun x => " "%char :: hex_digits 2 x)) as Hb.
  { rewrite list_elem_of_bind. intros (y & Hin & _). apply elem_of_cons in Hin as [Hin|Hin]; [done|]. by apply (hex_not_newline 2 y). }
  assert (newline ∉ chars "0x") by (apply (bool_decide_unpack _); exact I).
  assert (newline ∉ chars " ") by (apply (bool_decide_unpack _); exact I). tauto.
Qed.

(** Parsing a dump gives back its bytes.  Text without dump lines, then lines with
    increasing addresses, each with its bytes (up to 16) and any trailing text,
    then text that does not start with a dump line: [parse_hexdump] gives the
    bytes of the dump lines in order. *)
Theorem hexdump_roundtrip pre rows post :
  Forall (fun l => is_dump_line l = false) pre → Forall row_ok rows → increasing (-1) rows → rows ≠ [] →
  (∀ l ls, post = l :: ls → is_dump_line l = false) → Forall (fun l => newline ∉ l) (pre ++ post) →
  parse_hexdump (join newline (pre ++ (dump_line <$> rows) ++ post)) = Ok (mjoin (dr_bytes <$> rows)).
Proof.
  intros Hpre Hok Hinc Hne Hpost Hnl. unfold parse_hexdump. rewrite split_join.
  - rewrite hexdump_skip by done. by apply hexdump_rows.
  - destruct pre; [|done]. destruct rows; done.
  - apply Forall_app in Hnl as [Hn1 Hn2]. apply Forall_app. split; [done|]. apply Forall_app. split; [|done].
    apply Forall_forall. intros l (r & -> & Hr)%list_elem_of_fmap. rewrite Forall_forall in Hok.
    by apply dump_line_newline, Hok.
Qed.

(** Two lines, the first with text after the bytes. *)
Definition demo_dump : list dump_row :=
  [DumpRow 0 [48; 16; 18; 1; 4; 0; 32; 98; 0; 0; 0; 0; 144; 2; 0; 0] (chars "  0......b........"); DumpRow 16 [0; 255] (chars " ")].

Lemma demo_rows_ok : Forall row_ok demo_dump.
Proof.
  apply Forall_cons; split; [|apply Forall_singleton]; split; cbn; try lia; try (by intros c l [= <- _]).
  all: try (repeat constructor; lia).
  all: apply (bool_decide_unpack _); exact I.
Qed.

Lemma hexdump_roundtrip_witness :
  parse_hexdump (join newline ([chars "Memory dump:"] ++ (dump_line <$> demo_dump) ++ [chars "litex>"]))
  = Ok [48; 16; 18; 1; 4; 0; 32; 98; 0; 0; 0; 0; 144; 2; 0; 0; 0; 255].
Proof.
  refine (hexdump_roundtrip [chars "Memory dump:"] demo_dump [chars "litex>"] _ demo_rows_ok _ _ _ _).
  - by repeat constructor.
  - cbn. lia.
  - discriminate.
  - intros l ls [= <- _]. reflexivity.
  - repeat constructor; apply (bool_decide_unpack _); exact I.
Defined.

(** ** Pages of a DDR5 SPD *)

(** Character 7 of a dump line is the third digit of its address. *)
Lemma set_page_line page r :
  0 ≤ page < 16 → 0 ≤ dr_addr r < 256 →
  set_page page (dump_line r) = Ok (dump_line (DumpRow (256 * page + dr_addr r) (dr_bytes r) (dr_tail r))).
Proof.
  intros Hp Ha. set (a := dr_addr r) in *.
  assert (∀ v, hex_digits 8 v
    = [hex_char (v / 16 / 16 / 16 / 16 / 16 / 16 / 16 mod 16); hex_char (v / 16 / 16 / 16 / 16 / 16 / 16 mod 16);
       hex_char (v / 16 / 16 / 16 / 16 / 16 mod 16); hex_char (v / 16 / 16 / 16 / 16 mod 16);
       hex_char (v / 16 / 16 / 16 mod 16); hex_char (v / 16 / 16 mod 16); hex_char (v / 16 mod 16); hex_char (v mod 16)])
    as Hhex by done.
  assert (a / 16 / 16 = 0) as E2 by (rewrite Z.div_div by lia; apply Z.div_small; lia).
  assert ((256 * page + a) / 16 / 16 = page) as E3.
  { rewrite Z.div_div by lia. change (16 * 16) with 256. rewrite Z.add_comm, Z.mul_comm, Z.div_add, Z.div_small by lia. lia. }
  assert ((256 * page + a) / 16 mod 16 = a / 16 mod 16) as E1.
  { replace (256 * page + a) with (a + (16 * page) * 16) by lia. rewrite Z.div_add by lia.
    rewrite (Z.mul_comm 16 page), Z.mod_add by lia. done. }
  assert ((256 * page + a) mod 16 = a mod 16) as E0.
  { replace (256 * page + a) with (a + (16 * page) * 16) by lia. by rewrite Z.mod_add by lia. }
  unfold set_page, dump_line. cbn [dr_addr dr_bytes dr_tail]. fold a. rewrite !Hhex, E0, E1, E2, E3.
  rewrite !(Z.div_small page 16), (Z.mod_small page 16) by lia. cbn [app].
  rewrite (proj2 (Z.ltb_lt _ _)) by (cbn; lia). reflexivity.
Qed.

(** The rows of a page, moved to their place in the whole SPD. *)
Definition paged (page : Z) (r : dump_row) : dump_row := DumpRow (256 * page + dr_addr r) (dr_bytes r) (dr_tail r).

Lemma paged_ok page r : 0 ≤ page < 16 → 0 ≤ dr_addr r < 256 → row_ok r → row_ok (paged page r).
Proof. intros Hp Ha [? ? ? ? ?]. split; cbn; try done. lia. Qed.

Lemma paged_increasing page rows : ∀ prev, increasing prev rows → increasing (256 * page + prev) (paged page <$> rows).
Proof. induction rows as [|r rows IH]; intros prev; [done|]. rewrite fmap_cons. cbn. intros [? ?]. split; [lia|]. by apply IH. Qed.

Lemma increasing_app rows1 rows2 prev bound :
  increasing prev rows1 → Forall (fun r => dr_addr r ≤ bound) rows1 → prev ≤ bound → increasing bound rows2 →
  increasing prev (rows1 ++ rows2).
Proof.
  revert prev; induction rows1 as [|r rows1 IH]; intros prev; cbn [app increasing].
  - intros _ _ Hb. destruct rows2; [done|]. cbn. intros [? ?]. split; [lia|done].
  - intros [? ?] [? ?]%Forall_cons ? ?. split; [done|]. by apply IH.
Qed.

(** The rows of a page; a text shows them between other lines. *)
Definition page_rows (rows : list dump_row) : Prop :=
  rows ≠ [] ∧ increasing (-1) rows ∧ Forall (fun r => row_ok r ∧ dr_addr r < 256) rows.
Definition shows (dump : text) (rows : list dump_row) : Prop :=
  filter (fun l => is_dump_line l = true) (splitlines dump) = dump_line <$> rows.

Lemma add_page_rows dump rows page :
  0 ≤ page < 16 → page_rows rows → shows dump rows →
  add_page_to_address page dump = Ok (join newline (dump_line <$> (paged page <$> rows))).
Proof.
  intros Hp (_ & _ & Hall) Hf. unfold shows in Hf. unfold add_page_to_address. rewrite Hf.
  assert (result_map (set_page page) (dump_line <$> rows) = Ok (dump_line <$> (paged page <$> rows))) as ->; [|done].
  clear Hf. induction Hall as [|r l [Hr Ha] _ IH]; [done|]. rewrite !fmap_cons. cbn [result_map].
  pose proof (ro_addr r Hr). rewrite set_page_line, ok_bind by lia. by rewrite IH.
Qed.

Lemma join_lines_app l1 l2 : l1 ≠ [] → l2 ≠ [] → join newline (l1 ++ l2) = join newline l1 ++ newline :: join newline l2.
Proof.
  intros H1 H2. induction l1 as [|x l1 IH]; [done|]. destruct l1 as [|y l1].
  - destruct l2; done.
  - change (join newline (x :: y :: l1)) with (x ++ newline :: join newline (y :: l1)).
    change (join newline ((x :: y :: l1) ++ l2)) with (x ++ newline :: join newline ((y :: l1) ++ l2)).
    by rewrite IH, <- app_assoc.
Qed.

(** The rows of the first [n] pages. *)
Definition spd_rows (rows : Z → list dump_row) (n : nat) : list dump_row :=
  zrange n ≫= fun page => paged page <$> rows page.

Lemma spd_rows_S rows n : spd_rows rows (S n) = spd_rows rows n ++ (paged n <$> rows n).
Proof.
  unfold spd_rows. replace (Z.of_nat (S n)) with (Z.of_nat n + 1) by lia. rewrite zrange_succ, bind_app by lia.
  f_equal. cbn. apply app_nil_r.
Qed.

Lemma spd_rows_ok rows n :
  (n ≤ 16)%nat → (∀ page, 0 ≤ page < n → page_rows (rows page)) →
  increasing (-1) (spd_rows rows n) ∧ Forall (fun r => row_ok r ∧ dr_addr r ≤ 256 * n - 1) (spd_rows rows n).
Proof.
  intros Hn Hs. induction n as [|n IH]; [done|]. destruct IH as [Hi Hf]; [lia|intros page Hp; apply Hs; lia|].
  destruct (Hs n ltac:(lia)) as (_ & Hinc & Hall). rewrite spd_rows_S. split.
  - apply (increasing_app _ _ _ (256 * n - 1)); [done| |lia|by apply paged_increasing].
    eapply Forall_impl; [exact Hf|]. by intros r [_ ?].
  - apply Forall_app. split; [eapply Forall_impl; [exact Hf|]; intros r [? ?]; split; [done|lia]|].
    apply Forall_fmap. eapply Forall_impl; [exact Hall|]. intros r [Hr Ha]. pose proof (ro_addr r Hr).
    split; [apply paged_ok; (done || lia)|]. cbn. lia.
Qed.

(** The text that is collected from the first [n] pages. *)
Definition pages_text (rows : Z → list dump_row) (n : nat) : text :=
  match n with O => [] | _ => newline :: join newline (dump_line <$> spd_rows rows n) end.

Lemma spd_rows_nonempty rows n : (∀ page, 0 ≤ page < S n → page_rows (rows page)) → spd_rows rows (S n) ≠ [].
Proof.
  intros Hs. rewrite spd_rows_S. destruct (Hs n ltac:(lia)) as (Hne & _). destruct (rows n); [done|].
  intros E%(f_equal length). rewrite length_app in E. cbn in E. lia.
Qed.

Lemma pages_text_S rows n :
  (∀ page, 0 ≤ page < S n → page_rows (rows page)) →
  pages_text rows (S n) = pages_text rows n ++ newline :: join newline (dump_line <$> (paged n <$> rows n)).
Proof.
  intros Hs. unfold pages_text. rewrite spd_rows_S, fmap_app. destruct n as [|n]; [done|]. rewrite join_lines_app; [done| |].
  - pose proof (spd_rows_nonempty rows n ltac:(intros page ?; apply Hs; lia)). by destruct (spd_rows rows (S n)).
  - destruct (Hs (S n) ltac:(lia)) as (Hne & _). by destruct (rows (S n)).
Qed.

(** Parsing it gives the bytes of all pages in order; in particular the assertion
    on increasing addresses holds across pages. *)
Lemma pages_parsed rows n :
  (0 < n ≤ 16)%nat → (∀ page, 0 ≤ page < n → page_rows (rows page)) →
  parse_hexdump (pages_text rows n) = Ok (zrange n ≫= fun page => mjoin (dr_bytes <$> rows page)).
Proof.
  intros Hn Hs. destruct (spd_rows_ok rows n ltac:(lia) Hs) as [Hinc Hall].
  assert (Forall row_ok (spd_rows rows n)) as Hok by (eapply Forall_impl; [exact Hall|]; by intros r [? _]).
  destruct n as [|n]; [lia|]. pose proof (spd_rows_nonempty rows n Hs) as Hne. unfold parse_hexdump.
  assert (split_on newline (pages_text rows (S n)) = [] :: (dump_line <$> spd_rows rows (S n)) ++ []) as ->.
  { rewrite app_nil_r. unfold pages_text. cbn [split_on]. rewrite bool_decide_true, split_join; [done| | |done].
    - by destruct (spd_rows rows (S n)).
    - apply Forall_forall. intros l (r & -> & Hr)%list_elem_of_fmap. rewrite Forall_forall in Hok. by apply dump_line_newline, Hok. }
  cbn [hexdump_lines]. change (is_dump_line []) with false. cbn [negb andb].
  rewrite hexdump_rows by done. f_equal. unfold spd_rows. clear. induction (zrange (S n)) as [|page l IH]; [done|].
  rewrite !bind_cons, fmap_app, join_app, <- IH. f_equal. by rewrite <- list_fmap_compose.
Qed.

(** ** Fields *)

(** The field of a byte or word is a slice of its bits. *)
Lemma get_bits_slice bits first last :
  0 ≤ first ≤ last → get_bits bits first last = bits / 2 ^ first mod 2 ^ (last - first + 1).
Proof.
  intros H. unfold get_bits. set (k := last - first + 1).
  replace (Z.shiftl 1 k - 1) with (Z.ones k) by (unfold Z.ones; lia).
  apply Z.bits_inj'. intros i Hi. rewrite <- Z.shiftr_div_pow2, Z.shiftr_spec, Z.land_spec, Z.shiftl_spec by lia.
  replace (i + first - first) with i by lia. destruct (decide (i < k)).
  - rewrite Z.mod_pow2_bits_low, Z.shiftr_spec, Z.ones_spec_low by lia. by rewrite andb_true_r.
  - rewrite Z.mod_pow2_bits_high, Z.ones_spec_high by lia. by rewrite andb_false_r.
Qed.

Lemma get_bits_bit bits i : 0 ≤ i → negb (get_bits bits i i =? 0) = Z.testbit bits i.
Proof.
  intros Hi. rewrite get_bits_slice by lia.
  replace (i - i + 1) with 1 by lia. change (2 ^ 1) with 2. rewrite <- Z.testbit_spec' by lia. by destruct (Z.testbit bits i).
Qed.

(** The latencies printed are those whose bit is set in bytes 24 to 28. *)
Lemma testbit_le_bytes l : Forall (fun x => 0 ≤ x < 256) l → ∀ i, 0 ≤ i →
  Z.testbit (foldr (fun x acc => x + 256 * acc) 0 l) i
  = from_option (fun x => Z.testbit x (i mod 8)) false (l !! Z.to_nat (i / 8)).
Proof.
  induction 1 as [|x l Hx _ IH]; intros i Hi; [by rewrite Z.testbit_0_l|]. cbn [foldr].
  set (acc := foldr _ 0 l) in *. replace (x + 256 * acc) with (x + acc * 2 ^ 8) by lia.
  destruct (decide (i < 8)).
  - rewrite Z.div_small, Z.mod_small by lia. cbn. rewrite <- (Z.mod_pow2_bits_low _ 8), Z.mod_add, Z.mod_small by lia. done.
  - replace i with ((i - 8) + 8) at 1 by lia. rewrite <- Z.shiftr_spec, Z.shiftr_div_pow2, Z.div_add, Z.div_small by lia.
    rewrite Z.add_0_l, IH by lia. replace (i / 8) with ((i - 8) / 8 + 1) by (rewrite <- (Z.div_add (i - 8) 1 8) by lia; f_equal; lia).
    replace (i mod 8) with ((i - 8) mod 8) by (rewrite <- (Z.mod_add (i - 8) 1 8) by lia; f_equal; lia).
    replace (Z.to_nat ((i - 8) / 8 + 1)) with (S (Z.to_nat ((i - 8) / 8))) by (pose proof (Z.div_pos (i - 8) 8); lia). done.
Qed.

Lemma supported_cl_exact b cl :
  Forall (fun x => 0 ≤ x < 256) b →
  cl ∈ decode_supported_cl b ↔ ∃ i x, 0 ≤ i < 40 ∧ cl = 20 + 2 * i ∧ b !! Z.to_nat (24 + i / 8) = Some x ∧ Z.testbit x (i mod 8) = true.
Proof.
  intros Hb. unfold decode_supported_cl. rewrite list_elem_of_fmap.
  assert (∀ i, 0 ≤ i < 40 → bytes_at b 24 29 !! Z.to_nat (i / 8) = b !! Z.to_nat (24 + i / 8)) as Hl.
  { intros i Hi. pose proof (Z.div_pos i 8). pose proof (Z.div_lt_upper_bound i 8 5). unfold bytes_at.
    rewrite lookup_take_lt, lookup_drop by lia. f_equal. lia. }
  assert (∀ i, 0 ≤ i < 40 → negb (get_bits (foldr (fun x acc => x + 256 * acc) 0 (bytes_at b 24 29)) i i =? 0) = true
    ↔ ∃ x, b !! Z.to_nat (24 + i / 8) = Some x ∧ Z.testbit x (i mod 8) = true) as Hbit.
  { intros i Hi. rewrite get_bits_bit, testbit_le_bytes, Hl by (lia || by apply Forall_take, Forall_drop).
    destruct (b !! Z.to_nat (24 + i / 8)) as [x|]; cbn; naive_solver. }
  split.
  - intros (i & -> & [H Hi%elem_of_zrange]%list_elem_of_filter). apply Hbit in H as (x & ? & ?); [|done]. by exists i, x.
  - intros (i & x & Hi & -> & ? & ?). exists i. split; [done|]. apply list_elem_of_filter. rewrite elem_of_zrange.
    split; [|done]. apply Hbit; [done|]. by exists x.
Qed.

(** The granularity of sPPR is taken from byte [b[12]] of the module instead of
    byte 12: a module with bit 7 of byte 12 set is not reported as such. *)
Example sppr_of_another_byte :
  let b := replicate 12 0 ++ [128] ++ replicate 242 0 in
  (b12 ← byte_at b 12; bb12 ← byte_at b b12; Ok (get_bits b12 7 7, get_bits bb12 7 7)) = Ok (1, 0).
Proof. reflexivity. Qed.

(** ** Clock cycles *)
#[local] Open Scope Q_scope.

(** [x] is [exact] up to a relative error. *)
Definition within (err x exact : Q) : Prop := exact * (1 - err) <= x /\ x <= exact * (1 + err).

Lemma near_within x e a c y :
  0 < e → within a x e → near y x → (1 + a) * (1 + u53) <= 1 + c → 1 - c <= (1 - a) * (1 - u53) → within c y e.
Proof.
  intros He [H1 H2] [H3 H4] Hu Hl. assert (0 < 1 - u53) as Hp by (vm_compute; reflexivity).
  assert (0 < 1 + u53) as Hq by (vm_compute; reflexivity). revert Hp Hq H3 H4 Hu Hl. generalize u53. intros u Hp Hq H3 H4 Hu Hl.
  split; nra.
Qed.

Lemma within_div a b c x y e f :
  0 < e → 0 < f → within a x e → within b y f → b < 1 → 0 <= 1 - c → 0 <= 1 + c →
  1 + a <= (1 + c) * (1 - b) → (1 - c) * (1 + b) <= 1 - a → within c (x / y) (e / f).
Proof.
  intros He Hf [Hx1 Hx2] [Hy1 Hy2] Hb Hc Hc' Hu Hl.
  assert (0 < y) as Hy by nra.
  assert (0 < e / f) as Hq by (by apply Qlt_shift_div_l; [|rewrite Qmult_0_l]).
  assert (e == e / f * f) as He' by (field; lra).
  assert (∀ k, 0 <= k → 0 <= e / f * k) as Hk by (intros k ?; apply Qmult_le_0_compat; lra).
  split.
  - apply Qle_shift_div_l; [done|]. pose proof (Qmult_le_compat_r _ _ _ Hy2 (Hk _ Hc)) as H.
    pose proof (Qmult_le_compat_r _ _ e Hl ltac:(lra)) as H'. revert He' H. generalize (e / f). intros q He' H.
    assert (f * (1 + b) * (q * (1 - c)) == (1 - c) * (1 + b) * e) by (rewrite He'; ring). lra.
  - apply Qle_shift_div_r; [done|]. pose proof (Qmult_le_compat_r _ _ _ Hy1 (Hk _ Hc')) as H.
    pose proof (Qmult_le_compat_r _ _ e Hu ltac:(lra)) as H'. revert He' H. generalize (e / f). intros q He' H.
    assert (f * (1 - b) * (q * (1 + c)) == (1 + c) * (1 - b) * e) by (rewrite He'; ring). lra.
Qed.

(** The rounded-up value is known when the number lies strictly between integers. *)
Lemma Qceiling_between z v : inject_Z (z - 1) < v → v <= inject_Z z → Qceiling v = z.
Proof.
  intros H1 H2. pose proof (Qle_ceiling v). pose proof (Qceiling_lt v) as H3.
  assert (z - 1 < Qceiling v)%Z by (rewrite Zlt_Qlt; lra).
  assert (Qceiling v - 1 < z)%Z by (rewrite Zlt_Qlt; lra). lia.
Qed.

(** Numbers of the order of the cycles of a timing: the error of [8 u53] is less
    than the distance of [n/d] from the next integer. *)
Lemma ceiling_within v n :
  (0 < n ≤ 65535000 * 997 * 16000)%Z → within (8 # 2 ^ 53) v (inject_Z n / inject_Z 2000000000) →
  let q := (n / 2000000000)%Z in
  if (n mod 2000000000 =? 0)%Z then Qceiling v = q ∨ Qceiling v = (q + 1)%Z else Qceiling v = (q + 1)%Z.
Proof.
  intros Hn [H1 H2]. cbn zeta. pose proof (Z.div_mod n 2000000000 ltac:(lia)) as E. pose proof (Z.mod_pos_bound n 2000000000 ltac:(lia)).
  set (q := (n / 2000000000)%Z) in *. set (r := (n mod 2000000000)%Z) in *.
  assert (inject_Z n <= inject_Z (65535000 * 997 * 16000)) as Hb by (rewrite <- Zle_Qle; lia).
  assert (inject_Z n == 2000000000 * inject_Z q + inject_Z r) as En by (rewrite E, inject_Z_plus, inject_Z_mult; reflexivity).
  assert (0 <= inject_Z n) by (change 0 with (inject_Z 0); rewrite <- Zle_Qle; lia).
  change (inject_Z n / inject_Z 2000000000) with (inject_Z n * (1 # 2000000000)) in H1, H2.
  change (65535000 * 997 * 16000)%Z with 1045414320000000%Z in Hb. change (2 ^ 53)%positive with 9007199254740992%positive in *.
  change (inject_Z 1045414320000000) with 1045414320000000 in Hb.
  destruct (Z.eqb_spec r 0) as [Er|Er].
  - rewrite Er in En. change (inject_Z 0) with 0 in En. destruct (Qlt_le_dec (inject_Z q) v) as [Hv|Hv].
    + right. apply Qceiling_between; [rewrite Z.add_simpl_r; done|]. rewrite inject_Z_plus. change (inject_Z 1) with 1. lra.
    + left. apply Qceiling_between; [|done]. unfold Z.sub. rewrite inject_Z_plus. change (inject_Z (- (1))) with (- (1)). lra.
  - assert (1 <= inject_Z r) by (change 1 with (inject_Z 1); rewrite <- Zle_Qle; lia).
    assert (inject_Z r <= 1999999999) by (change 1999999999 with (inject_Z 1999999999); rewrite <- Zle_Qle; lia).
    apply Qceiling_between; [rewrite Z.add_simpl_r; lra|]. rewrite inject_Z_plus. change (inject_Z 1) with 1. lra.
Qed.

(** Comparisons of numerals. *)
Ltac qnum := vm_compute; (reflexivity || discriminate).

Lemma within_moderate a x e lo hi :
  within a x e → lo <= e → e <= hi → 0 <= a → a <= 1 → (1 # 2 ^ 60) <= lo * (1 - a) → hi * (1 + a) <= inject_Z (2 ^ 60) → moderate x.
Proof. intros [H1 H2] Hlo Hhi Ha0 Ha Hl Hh. split; nra. Qed.

Lemma within_exact x e : x == e → within 0 x e.
Proof. intros E. split; rewrite E; lra. Qed.

Lemma within_mul_l a k x e : 0 < k → within a x e → within a (k * x) (k * e).
Proof. intros Hk [H1 H2]. split; nra. Qed.

Lemma within_eq a x e e' : within a x e → e == e' → within a x e'.
Proof. intros [H1 H2] E. split; by rewrite <- E. Qed.

Lemma within_eq_l a x x' e : within a x e → x == x' → within a x' e.
Proof. intros [H1 H2] E. split; by rewrite <- E. Qed.

Lemma inject_bounds lo z hi : (lo ≤ z ≤ hi)%Z → inject_Z lo <= inject_Z z /\ inject_Z z <= inject_Z hi.
Proof. intros [? ?]. by rewrite <- !Zle_Qle. Qed.

Section rounding.
Context {F : PyFloat} (sg p : Z) (Hsg : (1 ≤ sg ≤ 16000)%Z) (Hp : (1 ≤ p ≤ 65535000)%Z).

(** The real clock period, and the product, each after two roundings. *)
Lemma tck_within :
  within (3 # 2 ^ 53) (value (fdiv (of_int 1000000) (fdiv (of_int sg) (of_int 2)))) (2000000 / inject_Z sg).
Proof using Hsg.
  destruct (inject_bounds 1 sg 16000 Hsg) as [Hs1 Hs2]. change (inject_Z 1) with 1 in Hs1. change (inject_Z 16000) with 16000 in Hs2.
  pose proof (of_int_exact sg ltac:(lia)) as E1. pose proof (of_int_exact 2 ltac:(lia)) as E2.
  pose proof (of_int_exact 1000000 ltac:(lia)) as E3.
  assert (within 0 (value (of_int sg) / value (of_int 2)) (inject_Z sg / 2)) as H0 by (apply within_exact; by rewrite E1, E2).
  assert (within (1 # 2 ^ 53) (value (fdiv (of_int sg) (of_int 2))) (inject_Z sg / 2)) as H1.
  { apply (near_within (value (of_int sg) / value (of_int 2)) _ 0); [|exact H0| |qnum..].
    - apply Qlt_shift_div_l; [reflexivity|lra].
    - apply fdiv_near. apply (within_moderate 0 _ _ (1 # 2) 8000 H0); [| |qnum..].
      + apply Qle_shift_div_l; [reflexivity|lra].
      + apply Qle_shift_div_r; [reflexivity|lra]. }
  set (half := fdiv (of_int sg) (of_int 2)) in *.
  assert (0 < inject_Z sg / 2) as Hhalf by (apply Qlt_shift_div_l; [reflexivity|lra]).
  assert (within (3 # 2 ^ 54) (value (of_int 1000000) / value half) (2000000 / inject_Z sg)) as H2.
  { apply (within_eq _ _ (1000000 / (inject_Z sg / 2))); [|field; lra].
    apply (within_div 0 (1 # 2 ^ 53)); [reflexivity|done|by apply within_exact|done|qnum..]. }
  apply (near_within (value (of_int 1000000) / value half) _ (3 # 2 ^ 54)); [|exact H2| |qnum..].
  - apply Qlt_shift_div_l; lra.
  - apply fdiv_near. apply (within_moderate _ _ _ 125 2000000 H2); [| |qnum..].
    + apply Qle_shift_div_l; lra.
    + apply Qle_shift_div_r; lra.
Qed.

Lemma product_within : within (3 # 2 ^ 53) (value (fmul (of_int p) lit_0_997)) (inject_Z p * (997 # 1000)).
Proof using Hp.
  destruct (inject_bounds 1 p 65535000 Hp) as [Hs1 Hs2]. change (inject_Z 1) with 1 in Hs1. change (inject_Z 65535000) with 65535000 in Hs2.
  pose proof (of_int_exact p ltac:(lia)) as E1.
  assert (within (1 # 2 ^ 53) (value (of_int p) * value lit_0_997) (inject_Z p * (997 # 1000))) as H0.
  { apply (within_eq_l _ (inject_Z p * value lit_0_997)); [|by rewrite E1]. apply within_mul_l; [lra|]. exact lit_near. }
  apply (near_within (value (of_int p) * value lit_0_997) _ (1 # 2 ^ 53)); [|exact H0| |qnum..].
  - lra.
  - apply fmul_near. apply (within_moderate _ _ _ (1 # 2) 65535000 H0); [lra|lra|qnum..].
Qed.

Lemma cycles_within :
  let tck_real := fdiv (of_int 1000000) (fdiv (of_int sg) (of_int 2)) in
  within (8 # 2 ^ 53) (value (fdiv (fmul (of_int p) lit_0_997) tck_real)) (inject_Z (p * 997 * sg) / inject_Z 2000000000).
Proof using Hsg Hp.
  destruct (inject_bounds 1 p 65535000 Hp) as [Hp1 Hp2]. change (inject_Z 1) with 1 in Hp1. change (inject_Z 65535000) with 65535000 in Hp2.
  destruct (inject_bounds 1 sg 16000 Hsg) as [Hs1 Hs2]. change (inject_Z 1) with 1 in Hs1. change (inject_Z 16000) with 16000 in Hs2.
  cbn zeta. set (tck := fdiv (of_int 1000000) _). pose proof tck_within as Ht. fold tck in Ht. pose proof product_within as Hm.
  set (prod := fmul (of_int p) lit_0_997) in *.
  assert (0 < 2000000 / inject_Z sg) by (apply Qlt_shift_div_l; lra).
  set (e := inject_Z (p * 997 * sg) / inject_Z 2000000000).
  assert (e == inject_Z p * inject_Z sg * (997 # 2000000000)) as He.
  { unfold e. rewrite !inject_Z_mult. change (inject_Z 997) with 997. change (inject_Z 2000000000) with 2000000000. field. }
  clearbody e.
  assert (within (13 # 2 ^ 54) (value prod / value tck) e) as H2.
  { apply (within_eq _ _ (inject_Z p * (997 # 1000) / (2000000 / inject_Z sg))).
    - apply (within_div (3 # 2 ^ 53) (3 # 2 ^ 53)); [lra|done|exact Hm|exact Ht|qnum..].
    - rewrite He. field. lra. }
  assert (1 <= inject_Z p * inject_Z sg) by nra. assert (inject_Z p * inject_Z sg <= 65535000 * 16000) by nra.
  apply (near_within (value prod / value tck) _ (13 # 2 ^ 54)); [|exact H2| |qnum..].
  - lra.
  - apply fdiv_near. apply (within_moderate _ _ _ (1 # 2 ^ 30) 600000 H2); [|lra|qnum..].
    rewrite He. change (2 ^ 30)%positive with 1073741824%positive. lra.
Qed.
End rounding.
#[local] Close Scope Q_scope.

Lemma rounding_aux {F : PyFloat} sg p :
  1 ≤ sg ≤ 16000 → 0 ≤ p ≤ 65535000 →
  let n := p * 997 * sg in
  ∃ nck, rounding_algorithm sg p = Ok nck
    ∧ (nck = - (- n / 2000000000) ∨ (0 < n ∧ n mod 2000000000 = 0 ∧ nck = n / 2000000000 + 1)).
Proof.
  intros Hsg Hp n. unfold rounding_algorithm. rewrite (proj2 (Z.eqb_neq sg 0)) by lia. eexists. split; [reflexivity|].
  destruct (decide (p = 0)) as [->|Hp0].
  - left. assert (value (fdiv (fmul (of_int 0) lit_0_997) (fdiv (of_int 1000000) (fdiv (of_int sg) (of_int 2)))) == 0)%Q as ->.
    { apply fdiv_zero; [apply fmul_zero; by rewrite of_int_exact|]. destruct (tck_within sg Hsg) as [H _]. intros E.
      rewrite E in H. assert (0 < 2000000 / inject_Z sg)%Q as Hpos.
      { apply Qlt_shift_div_l; [change 0%Q with (inject_Z 0); rewrite <- Zlt_Qlt; lia|reflexivity]. }
      revert H Hpos. change (2 ^ 53)%positive with 9007199254740992%positive. generalize (2000000 / inject_Z sg)%Q. intros. lra. }
    done.
  - assert (0 < n) as Hn by (unfold n; lia).
    pose proof (ceiling_within _ n ltac:(unfold n; nia) (cycles_within sg p Hsg ltac:(lia))) as H. cbn zeta in H.
    pose proof (Z.div_mod n 2000000000 ltac:(lia)). pose proof (Z.mod_pos_bound n 2000000000 ltac:(lia)).
    destruct (Z.eqb_spec (n mod 2000000000) 0) as [E|E].
    + rewrite Z.div_opp_l_z by lia. destruct H as [-> | ->]; [left; lia | by right].
    + left. rewrite H, Z.div_opp_l_nz by lia. lia.
Qed.

(** C11: Clock cycles are computed exactly although the script uses floating-point
    numbers.  For every parameter the decoder can find (a 16-bit number of ps or
    ns) and speed grades up to 16000, [rounding_algorithm] returns the exact
    [⌈p * 0.997 / tCK⌉] with [tCK = 10^6 / (speedgrade / 2)], except that it may
    be one more when the exact quotient is an integer; at the default speed
    grade this does not happen for parameters in ps. *)
Theorem rounding_exact {F : PyFloat} speedgrade p :
  1 ≤ speedgrade ≤ 16000 → 0 ≤ p ≤ 65535000 →
  let n := p * 997 * speedgrade in
  let exact := - (- n / 2000000000) in
  (∃ nck, rounding_algorithm speedgrade p = Ok nck ∧ (nck = exact ∨ (n mod 2000000000 = 0 ∧ nck = exact + 1)))
  ∧ (speedgrade = 4800 → p < 2 ^ 16 → rounding_algorithm speedgrade p = Ok exact).
Proof.
  intros Hsg Hp n exact. destruct (rounding_aux speedgrade p Hsg Hp) as (nck & E & H). fold n exact in H.
  split.
  - exists nck. split; [done|]. destruct H as [->|(Hn & Hm & ->)]; [by left|]. right. split; [done|].
    unfold exact. rewrite Z.div_opp_l_z by lia. lia.
  - intros -> Hp16. rewrite E. destruct H as [->|(Hn & Hm & _)]; [done|]. exfalso.
    unfold n in *. pose proof (Z.div_mod (p * 997 * 4800) 2000000000 ltac:(lia)). lia.
Qed.

(** Exact arithmetic satisfies the laws of the operations. *)
Lemma near_refl x : (0 <= x)%Q → near x x.
Proof. intros Hx. unfold near, u53. change (2 ^ 53)%positive with 9007199254740992%positive. split; lra. Qed.

Lemma moderate_pos x : moderate x → (0 <= x)%Q.
Proof. intros [H _]. eapply Qle_trans; [|exact H]. vm_compute. discriminate. Qed.

#[local] Program Instance exact_float : PyFloat := {
  float := Q; value := id; of_int := inject_Z; lit_0_997 := (997 # 1000); fmul := Qmult; fdiv := Qdiv }.
Next Obligation. done. Qed.
Next Obligation. apply near_refl. vm_compute. discriminate. Qed.
Next Obligation. intros x y H. by apply near_refl, moderate_pos. Qed.
Next Obligation. intros x y H. cbn in *. rewrite H. ring. Qed.
Next Obligation. intros x y H. by apply near_refl, moderate_pos. Qed.
Next Obligation. intros x y H _. cbn in *. rewrite H. unfold Qdiv. ring. Qed.

(** A parameter of 16 ns at DDR5-4800: 39 cycles. *)
Lemma rounding_exact_witness : rounding_algorithm 4800 16000 = Ok 39.
Proof. apply (rounding_exact 4800 16000); [lia|lia|reflexivity|lia]. Defined.
