(* ===== verification/Device.v ===== *)
(** * Host programs and devices

    The scripts of [src/rowhammer_tester/scripts/] drive the board through the
    registers of a [RemoteClient] ([wb.regs.<name>.read()] and [.write(v)]) and
    wait with [time.sleep].  The client and the board are a class, [Device]; a
    script is a computation of the monad [host], which passes the device along,
    ends with a value or an exception, or is still running when the fuel of one
    of its [while] loops is used up.  [triple] is total correctness: the
    program ends, with a value. *)

From stdpp Require Export strings.
From S2P Require Import Prelude.

(** A board as its client sees it: every access may change it, and so does the
    time that passes.  [has_reg] is [hasattr(wb.regs, name)]. *)
Class Device := {
  dev : Type;
  reg_read : string → dev → Z * dev;
  reg_write : string → Z → dev → dev;
  has_reg : string → bool;
  elapse : dev → dev;
}.

Inductive outcome (A : Type) :=
  | Done (a : A)
  | Failed (e : exn)
  | Running.
Arguments Done {_} _.
Arguments Failed {_} _.
Arguments Running {_}.

Section host.
Context `{Device}.

Definition host (A : Type) : Type := dev → outcome A * dev.

#[global] Instance host_ret : MRet host := fun A a d => (Done a, d).
#[global] Instance host_bind : MBind host := fun A B f m d =>
  match m d with
  | (Done a, d') => f a d'
  | (Failed e, d') => (Failed e, d')
  | (Running, d') => (Running, d')
  end.

(** Accesses to the registers and waiting. *)
Definition rd (r : string) : host Z := fun d => let '(v, d') := reg_read r d in (Done v, d').
Definition wr (r : string) (v : Z) : host unit := fun d => (Done tt, reg_write r v d).
Definition sleep : host unit := fun d => (Done tt, elapse d).

(** Exceptions. *)
Definition lift {A} (r : result A) : host A := fun d =>
  match r with Ok a => (Done a, d) | Raise e => (Failed e, d) end.
Definition hassert (b : bool) : host unit := lift (passert b).

(** [for x in l: f(x)], also with an accumulator. *)
Fixpoint for_each {A} (l : list A) (f : A → host unit) : host unit :=
  match l with
  | [] => mret tt
  | x :: l' => f x ;; for_each l' f
  end.

Fixpoint for_acc {A B} (l : list A) (acc : B) (f : B → A → host B) : host B :=
  match l with
  | [] => mret acc
  | x :: l' => acc' ← f acc x; for_acc l' acc' f
  end.

(** [while True: b = body(); if b: break], with an accumulator. *)
Fixpoint loop {B} (fuel : nat) (acc : B) (body : B → host (bool * B)) : host B :=
  match fuel with
  | O => fun d => (Running, d)
  | S fuel' =>
      '(stop, acc') ← body acc;
      if (stop : bool) then mret acc' else loop fuel' acc' body
  end.

Lemma bind_done {A B} (x : host A) (f : A → host B) d a d' : x d = (Done a, d') → (x ≫= f) d = f a d'.
Proof. intros E. unfold mbind, host_bind. by rewrite E. Qed.

(** ** Total correctness *)
Definition triple {A} (P : dev → Prop) (m : host A) (Q : A → dev → Prop) : Prop :=
  ∀ d, P d → ∃ a d', m d = (Done a, d') ∧ Q a d'.

Lemma triple_ret {A} (a : A) (P : dev → Prop) (Q : A → dev → Prop) :
  (∀ d, P d → Q a d) → triple P (mret a) Q.
Proof. intros HQ d Hd. exists a, d. auto. Qed.

Lemma triple_bind {A B} P (m : host A) R (f : A → host B) Q :
  triple P m R → (∀ a, triple (R a) (f a) Q) → triple P (m ≫= f) Q.
Proof.
  intros Hm Hf d Hd. destruct (Hm d Hd) as (a & d1 & E1 & HR).
  destruct (Hf a d1 HR) as (b & d2 & E2 & HQ). exists b, d2.
  split; [|done]. cbv [mbind host_bind]. by rewrite E1.
Qed.

Lemma triple_conseq {A} (P P' : dev → Prop) (m : host A) (Q Q' : A → dev → Prop) :
  triple P' m Q' → (∀ d, P d → P' d) → (∀ a d, Q' a d → Q a d) → triple P m Q.
Proof. intros Hm HP HQ d Hd. destruct (Hm d (HP d Hd)) as (a & d' & E & HQ'). eauto. Qed.

Lemma triple_pure {A} (φ : Prop) P (m : host A) Q :
  (φ → triple P m Q) → triple (fun d => φ ∧ P d) m Q.
Proof. intros Hm d [Hφ Hd]. by apply Hm. Qed.

Lemma triple_ex {A X} (P : X → dev → Prop) (m : host A) Q :
  (∀ x, triple (P x) m Q) → triple (fun d => ∃ x, P x d) m Q.
Proof. intros Hm d [x Hd]. by apply (Hm x). Qed.

Lemma triple_lift_ok {A} (a : A) (P : dev → Prop) : triple P (lift (Ok a)) (fun a' d => a' = a ∧ P d).
Proof. intros d Hd. by exists a, d. Qed.

Lemma triple_rd r (P : dev → Prop) (Q : Z → dev → Prop) :
  (∀ d, P d → Q (reg_read r d).1 (reg_read r d).2) → triple P (rd r) Q.
Proof.
  intros HQ d Hd. specialize (HQ d Hd). unfold rd. destruct (reg_read r d) as [v d']. eauto.
Qed.

Lemma triple_wr r v (P : dev → Prop) (Q : unit → dev → Prop) :
  (∀ d, P d → Q tt (reg_write r v d)) → triple P (wr r v) Q.
Proof. intros HQ d Hd. exists tt, (reg_write r v d). auto. Qed.

Lemma triple_sleep (P : dev → Prop) (Q : unit → dev → Prop) :
  (∀ d, P d → Q tt (elapse d)) → triple P sleep Q.
Proof. intros HQ d Hd. exists tt, (elapse d). auto. Qed.

(** An invariant of the elements that were treated. *)
Lemma triple_for_each {A} (I : list A → dev → Prop) (l : list A) (f : A → host unit) :
  (∀ pre x post, l = pre ++ x :: post → triple (I pre) (f x) (fun _ => I (pre ++ [x]))) →
  triple (I []) (for_each l f) (fun _ => I l).
Proof.
  intros Hf. enough (∀ post pre, l = pre ++ post → triple (I pre) (for_each post f) (fun _ => I l)) as Hg
    by by apply (Hg l []).
  intros post; induction post as [|x post IH]; intros pre Hl; cbn [for_each].
  - rewrite app_nil_r in Hl. subst pre. by apply triple_ret.
  - eapply triple_bind; [by eapply Hf|]. intros []. apply IH. by rewrite <- app_assoc.
Qed.

Lemma triple_for_acc {A B} (I : list A → B → dev → Prop) (l : list A) acc (f : B → A → host B) :
  (∀ pre x post acc', l = pre ++ x :: post → triple (I pre acc') (f acc' x) (I (pre ++ [x]))) →
  triple (I [] acc) (for_acc l acc f) (I l).
Proof.
  intros Hf. enough (∀ post pre acc', l = pre ++ post → triple (I pre acc') (for_acc post acc' f) (I l)) as Hg
    by by apply (Hg l []).
  intros post; induction post as [|x post IH]; intros pre acc' Hl; cbn [for_acc].
  - rewrite app_nil_r in Hl. subst pre. by apply triple_ret.
  - eapply triple_bind; [by eapply Hf|]. intros acc''. apply IH. by rewrite <- app_assoc.
Qed.

(** A loop whose variant decreases in every round that does not end it. *)
Lemma triple_loop {B} (I : nat → B → dev → Prop) (Q : B → dev → Prop) (body : B → host (bool * B)) :
  (∀ n acc, triple (I n acc) (body acc)
     (fun r d => if r.1 then Q r.2 d else ∃ m, (m < n)%nat ∧ I m r.2 d)) →
  ∀ n fuel acc, (n < fuel)%nat → triple (I n acc) (loop fuel acc body) Q.
Proof.
  intros Hb n. induction n as [n IH] using lt_wf_ind. intros [|fuel] acc Hf; [lia|]. cbn [loop].
  eapply triple_bind; [apply Hb|]. intros [[] acc']; cbn.
  - apply triple_ret. auto.
  - apply triple_ex. intros m. apply triple_pure. intros Hm. apply IH; lia.
Qed.

(** Programs that keep a property of the device. *)
Definition keeps {A} (I : dev → Prop) (m : host A) : Prop := triple I m (fun _ => I).

Lemma keeps_ret {A} I (a : A) : keeps I (mret a).
Proof. by apply triple_ret. Qed.

Lemma keeps_bind {A B} I (m : host A) (f : A → host B) :
  keeps I m → (∀ a, keeps I (f a)) → keeps I (m ≫= f).
Proof. intros Hm Hf. by eapply triple_bind. Qed.

Lemma keeps_for_each {A} I (l : list A) (f : A → host unit) :
  (∀ x, x ∈ l → keeps I (f x)) → keeps I (for_each l f).
Proof.
  intros Hf. apply (triple_for_each (fun _ => I)). intros pre x post ->. apply Hf. set_solver.
Qed.

Lemma keeps_for_acc {A B} I (l : list A) (acc : B) (f : B → A → host B) :
  (∀ b x, keeps I (f b x)) → keeps I (for_acc l acc f).
Proof. intros Hf. apply (triple_for_acc (fun _ _ => I)). intros pre x post acc' _. apply Hf. Qed.
End host.

Create HintDb device.
#[export] Hint Resolve keeps_ret keeps_bind : device.

(** A binary relation between devices that all accesses to registers other than
    [special] respect: what such a program keeps. *)
Class Framed `{Device} (R : dev → dev → Prop) (special : list string) := {
  framed_preorder :: PreOrder R;
  framed_read : ∀ r d, R d (reg_read r d).2;
  framed_write : ∀ r v d, r ∉ special → R d (reg_write r v d);
  framed_elapse : ∀ d, R d (elapse d);
}.

Section framed.
Context `{HD : Device} {R : dev → dev → Prop} {special : list string} `{HF : !Framed R special}.

Lemma keeps_rd d0 r : keeps (R d0) (rd r).
Proof using HF. apply triple_rd. intros d Hd. etrans; [done|]. apply framed_read. Qed.

Lemma keeps_wr d0 r v : r ∉ special → keeps (R d0) (wr r v).
Proof using HF. intros Hr. apply triple_wr. intros d Hd. etrans; [done|]. by apply framed_write. Qed.

Lemma keeps_sleep d0 : keeps (R d0) sleep.
Proof using HF. apply triple_sleep. intros d Hd. etrans; [done|]. apply framed_elapse. Qed.
End framed.
