(* ===== verification/ReadLevel.v ===== *)
(** * Read leveling

    Models [src/rowhammer_tester/scripts/read_level.py] and the functions
    [sdram_software_control] and [sdram_hardware_control] of
    [src/rowhammer_tester/scripts/utils.py]: DRAM commands through the DFI
    injector, the delay and bitslip settings of the PHY, the test of one setting
    and the search for the best one, and the hardcoded read and write levels.
    The constants of the generated module [sdram_init], the random numbers and
    the LiteDRAM settings are parameters. *)

From stdpp Require Import pretty.
From S2P Require Import Prelude Device.
#[local] Open Scope Z_scope.

(** Names of the generated file [sdram_init.py]. *)
Class SdramDefs := {
  dfii_control_sel : Z;
  dfii_command_cs : Z;
  dfii_command_we : Z;
  dfii_command_cas : Z;
  dfii_command_ras : Z;
  dfii_command_wrdata : Z;
  dfii_command_rddata : Z;
}.

(** [random.Random(seed)]: the successive results of [randint(a, b)], which are
    integers of [a, b], both ends included. *)
Class Random := {
  randint : Z → Z → Z → nat → Z;       (* seed, a, b, index of the call *)
  randint_range : ∀ seed a b k, a ≤ b → a ≤ randint seed a b k ≤ b;
}.

Section commands.
Context `{HD : Device} `{HS : SdramDefs}.

(** ** Control of the DFI (scripts/utils.py) *)
Definition sdram_software_control : host unit :=
  reg_value ← rd "sdram_dfii_control";
  wr "sdram_dfii_control" (Z.land reg_value (Z.lnot dfii_control_sel)) ;;
  if has_reg "ddrphy_en_vtc" then wr "ddrphy_en_vtc" 0 else mret tt.

Definition sdram_hardware_control : host unit :=
  reg_value ← rd "sdram_dfii_control";
  wr "sdram_dfii_control" (Z.lor reg_value dfii_control_sel) ;;
  if has_reg "ddrphy_en_vtc" then wr "ddrphy_en_vtc" 1 else mret tt.

(** ** DRAM commands *)
Definition sdram_cmd (a ba command : Z) (enable_software_control : bool) : host unit :=
  (if enable_software_control then sdram_software_control else mret tt) ;;
  wr "sdram_dfii_pi0_baddress" ba ;;
  wr "sdram_dfii_pi0_address" a ;;
  wr "sdram_dfii_pi0_command" command ;;
  wr "sdram_dfii_pi0_command_issue" 1.

(** The name of the register that [dfii_px] looks up. *)
Definition dfii_px (phase : Z) (signal : string) : string :=
  ("sdram_dfii_pi" +:+ pretty phase +:+ "_" +:+ signal)%string.

Definition dfii_write (phase_datas : list Z) (wrphase : Z) : host unit :=
  for_each (imap (fun p data => (Z.of_nat p, data)) phase_datas)
    (fun '(p, data) => wr (dfii_px p "wrdata") data) ;;
  wr (dfii_px wrphase "address") 0 ;;
  wr (dfii_px wrphase "baddress") 0 ;;
  wr (dfii_px wrphase "command")
    (Z.lor (Z.lor (Z.lor dfii_command_cas dfii_command_we) dfii_command_cs) dfii_command_wrdata) ;;
  wr (dfii_px wrphase "command_issue") 1.

Definition dfii_read (nphases rdphase : Z) : host (list Z) :=
  wr (dfii_px rdphase "address") 0 ;;
  wr (dfii_px rdphase "baddress") 0 ;;
  wr (dfii_px rdphase "command") (Z.lor (Z.lor dfii_command_cas dfii_command_cs) dfii_command_rddata) ;;
  wr (dfii_px rdphase "command_issue") 1 ;;
  for_acc (zrange nphases) [] (fun datas p => v ← rd (dfii_px p "rddata"); mret (datas ++ [v])).

(** ** Delay and bitslip settings of the PHY *)

(** [reduce(or_, ...)] of an empty sequence raises [TypeError]. *)
Definition select_mask (modules : list Z) : result Z :=
  match modules with
  | [] => Raise TypeError
  | m :: ms => Ok (foldl (fun acc m => Z.lor acc (Z.shiftl 1 m)) (Z.shiftl 1 m) ms)
  end.

Definition delay_select_modules (modules : list Z) : host unit :=
  sel ← lift (select_mask modules);
  wr "ddrphy_dly_sel" sel.

Definition read_bitslip_rst : host unit := wr "ddrphy_rdly_dq_bitslip_rst" 1.
Definition read_bitslip_inc : host unit := wr "ddrphy_rdly_dq_bitslip" 1.
Definition read_bitslip_set (value : Z) : host unit :=
  read_bitslip_rst ;; for_each (zrange value) (fun _ => read_bitslip_inc).

Definition read_delay_rst : host unit := wr "ddrphy_rdly_dq_rst" 1.
Definition read_delay_inc : host unit := wr "ddrphy_rdly_dq_inc" 1.
Definition read_delay_set (value : Z) : host unit :=
  read_delay_rst ;; for_each (zrange value) (fun _ => read_delay_inc).

Definition write_delay_rst : host unit :=
  wr "ddrphy_wdly_dq_rst" 1 ;;
  wr "ddrphy_wdly_dqs_rst" 1 ;;
  taps ← rd "ddrphy_half_sys8x_taps";
  for_each (zrange taps) (fun _ => wr "ddrphy_wdly_dqs_inc" 1).
Definition write_delay_inc : host unit :=
  wr "ddrphy_wdly_dq_inc" 1 ;; wr "ddrphy_wdly_dqs_inc" 1.
Definition write_delay_set (value : Z) : host unit :=
  write_delay_rst ;; for_each (zrange value) (fun _ => write_delay_inc).

Definition cdly_rst : host unit := wr "ddrphy_cdly_rst" 1.
Definition cdly_inc : host unit := wr "ddrphy_cdly_inc" 1.
Definition cdly_set (value : Z) : host unit :=
  cdly_rst ;; for_each (zrange value) (fun _ => cdly_inc).

Definition DDRX_MR1 : Z := 769.

Definition mrs_command : Z :=
  Z.lor (Z.lor (Z.lor dfii_command_ras dfii_command_cas) dfii_command_we) dfii_command_cs.

Definition write_leveling_on : host unit :=
  sdram_cmd (Z.lor DDRX_MR1 (Z.shiftl 1 7)) 1 mrs_command true ;;
  wr "ddrphy_wlevel_en" 1.
Definition write_leveling_off : host unit :=
  sdram_cmd DDRX_MR1 1 mrs_command true ;;
  wr "ddrphy_wlevel_en" 0.

(** [enumerate(l)] *)
Definition enumerate {A} (l : list A) : list (Z * A) := imap (fun i x => (Z.of_nat i, x)) l.

Definition write_level_hardcoded (cdly : Z) (delays : list Z) : host unit :=
  sdram_software_control ;;
  cdly_set cdly ;;
  for_each (enumerate delays)
    (fun '(i, delay) => delay_select_modules [i] ;; write_delay_set delay) ;;
  write_leveling_off.

Definition read_level_hardcoded (config : list (Z * Z)) : host unit :=
  for_each (enumerate config)
    (fun '(module, (bitslip, delay)) =>
       delay_select_modules [module] ;; read_bitslip_set bitslip ;; read_delay_set delay).
End commands.

(** ** Settings *)
Record Settings := MkSettings {
  nmodules : Z;
  bitslips : Z;
  delays : Z;
  nphases : Z;
  wrphase : Z;
  rdphase : Z;
}.

(** [Settings.load], from the fields of [settings.phy].  The third test names a
    variable that is not defined. *)
Definition load (phytype : string) (databits phy_nphases phy_wrphase phy_rdphase : Z) : result Settings :=
  '(bitslips, delays) ←
    (if bool_decide (phytype ∈ ["USDDRPHY"; "USPDDRPHY"]%string) then Ok (8, 512)
     else if bool_decide (phytype ∈ ["A7DDRPHY"; "K7DDRPHY"; "V7DDRPHY"]%string) then Ok (8, 32)
     else Raise NameError : result (Z * Z));
  Ok (MkSettings (databits / 8) bitslips delays phy_nphases phy_wrphase phy_rdphase).

(** ** The best setting *)

(** State of the loop over the delays of a bitslip: the windows found, the start
    of the last window, and whether it is open. *)
Record window_state := MkWindow { windows : list (Z * Z); window_start : Z; in_window : bool }.

Definition window_step (st : window_state) (score : Z * Z) : window_state :=
  let '(dly, errors) := score in
  if (errors =? 0) && negb (in_window st) then MkWindow (windows st) dly true
  else if in_window st && negb (errors =? 0)
  then MkWindow (windows st ++ [(window_start st, dly)]) (window_start st) false
  else st.

(** After the loop [dly] is the last delay. *)
Definition find_windows (dly_scores : list (Z * Z)) : list (Z * Z) :=
  let st := foldl window_step (MkWindow [] 0 false) dly_scores in
  if in_window st then windows st ++ [(window_start st, (List.last dly_scores (0, 0)).1)]
  else windows st.

(** [max(l, key=key)]: the first of the greatest elements. *)
Definition max_by {A} (key : A → Z) (l : list A) : option A :=
  match l with
  | [] => None
  | x :: l' => Some (foldl (fun best y => if key best <? key y then y else best) x l')
  end.

Definition window_length (w : Z * Z) : Z := w.2 - w.1.

Definition best_window (dly_scores : list (Z * Z)) : option (Z * Z) :=
  max_by window_length (find_windows dly_scores).

Definition cmp_bs_windows (entry : Z * option (Z * Z)) : Z :=
  match entry.2 with None => -1 | Some w => window_length w end.

Definition read_level_find_best (scores : list (Z * list (Z * Z))) : result (option (Z * Z * Z)) :=
  let bs_windows := (fun '(bs, dly_scores) => (bs, best_window dly_scores)) <$> scores in
  best ← of_option ValueError (max_by cmp_bs_windows bs_windows);
  Ok (match best with
      | (_, None) => None
      | (best_bs, Some w) => Some (best_bs, (w.1 + w.2) / 2, window_length w)
      end).

(** ** The leveling procedure *)
Definition get_byte (i data : Z) : Z := Z.shiftr (Z.land data (Z.shiftl 255 (8 * i))) (8 * i).

Section leveling.
Context `{HD : Device} `{HS : SdramDefs} `{HR : Random}.
(** Width in bits of the register [sdram_dfii_pi0_wrdata]. *)
Context (wrdata_width : Z) (settings : Settings).

Definition phase_bytes : Z := wrdata_width / 8.

(** The test pattern, and the value of each phase, most significant byte first. *)
Definition data_pattern (seed : Z) : list Z :=
  randint seed 0 256 <$> seq 0 (Z.to_nat (nphases settings * phase_bytes)).

Definition phase_value (data : list Z) (p : Z) : Z :=
  foldl (fun val b => Z.lor (Z.shiftl val 8) (nth (Z.to_nat (p * phase_bytes + b)) data 0)) 0
    (zrange phase_bytes).

Definition per_phase (data : list Z) : list Z := phase_value data <$> zrange (nphases settings).

(** Errors of one pair of phase values. *)
Definition phase_errors (module : Z) (pair : Z * Z) : Z :=
  let '(rdata, wdata) := pair in
  foldl (fun errors i =>
    let rbyte := get_byte (i * nmodules settings + module) rdata in
    let wbyte := get_byte (i * nmodules settings + module) wdata in
    if negb (rbyte =? wbyte) then errors + 1 else errors) 0 [1; 2].

Definition read_level_test (module seed : Z) : host Z :=
  let data := data_pattern seed in
  sdram_cmd 0 0 (Z.lor dfii_command_ras dfii_command_cs) false ;;
  sleep ;;
  dfii_write (per_phase data) (wrphase settings) ;;
  sleep ;;
  rdatas ← dfii_read (nphases settings) (rdphase settings);
  sleep ;;
  let errors := foldl (fun n pair => n + phase_errors module pair) 0 (zip rdatas (per_phase data)) in
  sdram_cmd 0 0 (Z.lor (Z.lor dfii_command_ras dfii_command_we) dfii_command_cs) false ;;
  sleep ;;
  mret errors.

(** The delays of one bitslip: the pairs of delay and errors. *)
Definition scan_delays (module seed delays_step : Z) : host (list (Z * Z)) :=
  for_acc (zrange (delays settings)) [] (fun dly_scores dly =>
    r ← lift (if delays_step =? 0 then Raise ZeroDivisionError else Ok (dly mod delays_step));
    dly_scores' ←
      (if r =? 0 then errors ← read_level_test module seed; mret (dly_scores ++ [(dly, errors)])
       else mret dly_scores);
    read_delay_inc ;;
    mret dly_scores').

(** A bitslip has an entry in [scores] when one of its delays was tested. *)
Definition scan (module seed delays_step : Z) : host (list (Z * list (Z * Z))) :=
  read_bitslip_rst ;;
  for_acc (zrange (bitslips settings)) [] (fun scores bs =>
    read_delay_rst ;;
    dly_scores ← scan_delays module seed delays_step;
    read_bitslip_inc ;;
    mret (match dly_scores with [] => scores | _ => scores ++ [(bs, dly_scores)] end)).

Definition read_level_module (module seed delays_step : Z) : host unit :=
  scores ← scan module seed delays_step;
  best ← lift (read_level_find_best scores);
  match best with
  | None => mret tt
  | Some (best_bs, best_dly, _) => read_bitslip_set best_bs ;; read_delay_set best_dly
  end.

Definition read_level (seed delays_step : Z) : host unit :=
  sdram_software_control ;;
  for_each (zrange (nmodules settings)) (fun module =>
    delay_select_modules [module] ;;
    read_level_module module seed delays_step).
End leveling.
