(* ===== verification/ReadLevelFacts.v ===== *)
(** * Properties of read leveling

    The search for the best setting is exact up to one tap, and the procedure
    leaves every module of the PHY at a setting that passed its test.  The PHY of
    LiteDRAM is the class [LevelPhy]: taps per module that are reset and
    incremented for the selected modules. *)

From stdpp Require Import pretty.
From S2P Require Import Prelude Device ReadLevel.
#[local] Open Scope Z_scope.

(** ** The greatest element of a list *)
Section max_by.
Context {A : Type} (key : A → Z).

Lemma max_by_fold x l :
  let y := foldl (fun best y => if key best <? key y then y else best) x l in
  y ∈ x :: l ∧ ∀ z, z ∈ x :: l → key z ≤ key y.
Proof.
  revert x; induction l as [|a l IH]; intros x; cbn [foldl].
  - split; [apply list_elem_of_here|]. intros z Hz%list_elem_of_singleton. by subst.
  - specialize (IH (if key x <? key a then a else x)). cbv zeta in IH. destruct IH as [Hin Hmax]. split.
    + apply elem_of_cons in Hin as [-> |Hin]; [destruct (key x <? key a)|]; rewrite !elem_of_cons; auto.
    + intros z [->|[->|Hz]%elem_of_cons]%elem_of_cons; [| |by apply Hmax, list_elem_of_further].
      * etransitivity; [|apply Hmax, list_elem_of_here]. destruct (Z.ltb_spec (key x) (key a)); lia.
      * etransitivity; [|apply Hmax, list_elem_of_here]. destruct (Z.ltb_spec (key x) (key a)); lia.
Qed.

Lemma max_by_some l x : max_by key l = Some x → x ∈ l ∧ ∀ y, y ∈ l → key y ≤ key x.
Proof. destruct l as [|a l]; [done|]. cbn. intros [= <-]. apply max_by_fold. Qed.

Lemma max_by_none l : max_by key l = None → l = [].
Proof. by destruct l. Qed.
End max_by.

(** ** Windows of delays without errors *)
Section windows.
Context (e : Z → Z).

(** All delays from [a] below [b] pass. *)
Definition passes (a b : Z) : Prop := ∀ d, a ≤ d < b → e d = 0.

Definition scores_of (n : Z) : list (Z * Z) := (fun d => (d, e d)) <$> zrange n.

Record window_inv (k : Z) (st : window_state) : Prop := {
  wi_open : in_window st = true → 0 ≤ window_start st < k ∧ passes (window_start st) k;
  wi_closed : ∀ w, w ∈ windows st → 0 ≤ w.1 < w.2 ∧ w.2 < k ∧ passes w.1 w.2 ∧ e w.2 ≠ 0;
  wi_cover : ∀ d, 0 ≤ d < k → e d = 0 →
    (in_window st = true ∧ window_start st ≤ d) ∨ ∃ w, w ∈ windows st ∧ w.1 ≤ d < w.2;
}.

Lemma passes_snoc a k : passes a k → e k = 0 → passes a (k + 1).
Proof. intros Hp He d Hd. destruct (decide (d = k)) as [->|]; [done|]. apply Hp. lia. Qed.

Lemma window_inv_step k st : 0 ≤ k → window_inv k st → window_inv (k + 1) (window_step st (k, e k)).
Proof.
  intros Hk [Hopen Hclosed Hcover]. unfold window_step.
  assert (∀ w, w ∈ windows st → 0 ≤ w.1 < w.2 ∧ w.2 < k + 1 ∧ passes w.1 w.2 ∧ e w.2 ≠ 0) as Hold.
  { intros w Hw. destruct (Hclosed w Hw) as (? & ? & ? & ?). split_and!; try done; lia. }
  destruct (Z.eqb_spec (e k) 0) as [He|He], (in_window st) eqn:Hin; cbn [andb negb].
  - destruct (Hopen eq_refl). split; [|exact Hold|].
    + intros _. split; [lia|]. by apply passes_snoc.
    + intros d Hd Hz. destruct (decide (d = k)) as [->|]; [left; split; [done|lia]|].
      rewrite Hin. apply Hcover; [lia|done].
  - split; cbn; [|exact Hold|].
    + intros _. split; [lia|]. intros d Hd. by replace d with k by lia.
    + intros d Hd Hz. destruct (decide (d = k)) as [->|]; [left; split; [done|lia]|].
      destruct (Hcover d) as [[? _]|?]; [lia|done|done|by right].
  - destruct (Hopen eq_refl). split; cbn; [done| |].
    + intros w [Hw| ->%list_elem_of_singleton]%elem_of_app; [by apply Hold|]. cbn. split_and!; [lia..|done|done].
    + intros d Hd Hz. destruct (decide (d = k)) as [->|]; [done|].
      right. destruct (Hcover d) as [[_ ?]|(w & Hw & ?)]; [lia|done| |].
      * exists (window_start st, k). split; [apply elem_of_app; right; by apply list_elem_of_singleton|]. cbn. lia.
      * exists w. split; [by apply elem_of_app; left|done].
  - split; [congruence|exact Hold|].
    intros d Hd Hz. destruct (decide (d = k)) as [->|]; [done|]. rewrite Hin. apply Hcover; [lia|done].
Qed.

Lemma window_inv_run n : window_inv (Z.of_nat n) (foldl window_step (MkWindow [] 0 false) (scores_of n)).
Proof.
  induction n as [|n IH].
  - split; cbn; [done| |lia]. intros w Hw. by apply elem_of_nil in Hw.
  - unfold scores_of in *. replace (Z.of_nat (S n)) with (Z.of_nat n + 1) by lia.
    rewrite zrange_succ, fmap_app, foldl_app by lia. cbn [fmap list_fmap foldl].
    apply window_inv_step; [lia|done].
Qed.

Lemma last_score n : 0 < n → List.last (scores_of n) (0, 0) = (n - 1, e (n - 1)).
Proof.
  intros Hn. unfold scores_of. replace n with (n - 1 + 1) at 1 by lia.
  rewrite zrange_succ, fmap_app by lia. apply List.last_last.
Qed.

(** What the windows found are: they pass up to their end, and every run of
    delays that pass lies in one of them; a window that reaches the last delay ends
    there, and not behind it as the others. *)
Lemma find_windows_sound n w :
  0 < n → w ∈ find_windows (scores_of n) → 0 ≤ w.1 ≤ w.2 ∧ w.2 < n ∧ passes w.1 w.2 ∧ e w.1 = 0.
Proof.
  intros Hn. pose proof (window_inv_run (Z.to_nat n)) as [Hopen Hclosed _]. rewrite Z2Nat.id in * by lia.
  assert (∀ w, w ∈ windows (foldl window_step (MkWindow [] 0 false) (scores_of n)) →
    0 ≤ w.1 ≤ w.2 ∧ w.2 < n ∧ passes w.1 w.2 ∧ e w.1 = 0) as Hold.
  { intros v Hv. destruct (Hclosed v Hv) as (? & ? & Hp & _). split_and!; [lia..|done|]. apply Hp. lia. }
  unfold find_windows. destruct (in_window _) eqn:Hin; [|apply Hold].
  intros [Hw| ->%list_elem_of_singleton]%elem_of_app; [by apply Hold|].
  rewrite last_score by done. cbn [fst snd]. destruct (Hopen eq_refl) as [Hs Hp].
  split_and!; [lia..| |]; [|apply Hp; lia]. intros d Hd. apply Hp. lia.
Qed.

Lemma find_windows_complete n a b :
  0 < n → 0 ≤ a < b → b ≤ n → passes a b →
  ∃ w, w ∈ find_windows (scores_of n) ∧ w.1 ≤ a ∧ Z.min b (n - 1) ≤ w.2.
Proof.
  intros Hn Ha Hb Hrun. pose proof (window_inv_run (Z.to_nat n)) as [Hopen Hclosed Hcover].
  rewrite Z2Nat.id in * by lia. unfold find_windows.
  destruct (Hcover a) as [[Hin Hs]|(w & Hw & Hwa)]; [lia|apply Hrun; lia| |].
  - rewrite Hin, last_score by done. eexists. split; [apply elem_of_app; right; by apply list_elem_of_singleton|].
    cbn. lia.
  - exists w. split; [destruct (in_window _); [apply elem_of_app; by left|done]|]. destruct (Hclosed w Hw) as (? & ? & _ & Hend).
    split; [lia|]. destruct (decide (w.2 < b)); [|lia]. destruct Hend. apply Hrun. lia.
Qed.
End windows.

Lemma best_window_none e n :
  0 < n → best_window (scores_of e n) = None → ∀ d, 0 ≤ d < n → e d ≠ 0.
Proof.
  intros Hn Hb%max_by_none d Hd He.
  destruct (find_windows_complete e n d (d + 1)) as (w & Hw & _); [lia..| |].
  - intros x Hx. by replace x with d by lia.
  - rewrite Hb in Hw. by apply elem_of_nil in Hw.
Qed.

Lemma best_window_longest e n w a b :
  0 < n → best_window (scores_of e n) = Some w → 0 ≤ a < b → b ≤ n → passes e a b →
  Z.min b (n - 1) - a ≤ window_length w.
Proof.
  intros Hn [_ Hmax]%max_by_some Ha Hb Hrun.
  destruct (find_windows_complete e n a b) as (v & Hv & ? & ?); [done..|].
  specialize (Hmax v Hv). unfold window_length in *. lia.
Qed.

(** The scores of all settings. *)
Definition all_scores (e : Z → Z → Z) (nb nd : Z) : list (Z * list (Z * Z)) :=
  (fun bs => (bs, scores_of (e bs) nd)) <$> zrange nb.

(** The outcome of the search over settings with [e bs d] errors. *)
Definition best_setting (e : Z → Z → Z) (nb nd : Z) (best : option (Z * Z * Z)) : Prop :=
  match best with
  | None => ∀ bs d, 0 ≤ bs < nb → 0 ≤ d < nd → e bs d ≠ 0
  | Some (bs, dly, len) =>
      0 ≤ bs < nb ∧ 0 ≤ dly < nd ∧ 0 ≤ len ∧ e bs dly = 0
      ∧ 0 ≤ dly - len / 2 ∧ dly - len / 2 + len < nd
      ∧ passes (e bs) (dly - len / 2) (dly - len / 2 + len)
      ∧ ∀ bs' a b, 0 ≤ bs' < nb → 0 ≤ a < b → b ≤ nd → passes (e bs') a b → Z.min b (nd - 1) - a ≤ len
  end.

Lemma find_best_optimal_aux (e : Z → Z → Z) nb nd :
  0 < nb → 0 < nd →
  ∃ best, read_level_find_best (all_scores e nb nd) = Ok best ∧ best_setting e nb nd best.
Proof.
  intros Hnb Hnd. unfold read_level_find_best, all_scores. rewrite <- list_fmap_compose. unfold compose, best_setting.
  destruct (max_by _ _) as [[bs ow]|] eqn:Hmax.
  2: { apply max_by_none, fmap_nil_inv in Hmax. apply (f_equal length) in Hmax.
       pose proof (length_zrange nb). cbn in Hmax. lia. }
  apply max_by_some in Hmax as [Hin Hmax]. apply list_elem_of_fmap in Hin as (bs0 & [= -> ->] & Hbs%elem_of_zrange).
  assert (∀ bs', 0 ≤ bs' < nb →
    cmp_bs_windows (bs', best_window (scores_of (e bs') nd)) ≤ cmp_bs_windows (bs0, best_window (scores_of (e bs0) nd)))
    as Hall.
  { intros bs' Hbs'. apply Hmax, list_elem_of_fmap. exists bs'. split; [done|]. by apply elem_of_zrange. }
  clear Hmax. eexists. split; [reflexivity|]. unfold cmp_bs_windows in Hall. cbn [snd] in Hall.
  destruct (best_window (scores_of (e bs0) nd)) as [w|] eqn:Hw.
  - pose proof (max_by_some _ _ _ Hw) as [Hin _]. apply find_windows_sound in Hin as (? & ? & Hp & He); [|done].
    unfold window_length in *. remember (w.2 - w.1) as len eqn:Hlen.
    assert ((w.1 + w.2) / 2 = w.1 + len / 2) as ->
      by (replace (w.1 + w.2) with (len + w.1 * 2) by lia; rewrite Z.div_add by lia; lia).
    assert (0 ≤ len / 2 ∧ (len / 2 < len ∨ len / 2 = 0)) as [Hl1 Hl2] by (Z.to_euclidean_division_equations; lia).
    split_and!; [lia|lia|lia|lia|lia| |lia|lia| |].
    + destruct Hl2 as [Hl2|Hl2]; [apply Hp; lia|]. by rewrite Hl2, Z.add_0_r.
    + intros d Hd. apply Hp. lia.
    + intros bs' a b Hbs' Ha Hb Hrun. specialize (Hall bs' Hbs').
      destruct (best_window (scores_of (e bs') nd)) as [v|] eqn:Hv.
      * pose proof (best_window_longest _ _ _ _ _ Hnd Hv Ha Hb Hrun). unfold window_length in *. lia.
      * destruct (best_window_none _ _ Hnd Hv a); [lia|]. apply Hrun. lia.
  - intros bs' d Hbs' Hd. specialize (Hall bs' Hbs').
    destruct (best_window (scores_of (e bs') nd)) as [v|] eqn:Hv; [|by eapply best_window_none].
    apply max_by_some in Hv as [Hv _]. apply find_windows_sound in Hv as (? & _); [|done].
    unfold window_length in Hall. lia.
Qed.

(** C14: The setting that [read_level_find_best] selects.  When every delay of every
    bitslip was tested, with [e bs d] errors: nothing is selected only when no
    setting passes; otherwise the selected setting passes, it is the middle of a
    window of [len] consecutive delays that pass on its bitslip, and no run of passing
    delays of any bitslip is longer than [len], where a run that reaches the last delay
    counts one less than its length. *)
Theorem find_best_optimal (e : Z → Z → Z) nb nd :
  0 < nb → 0 < nd →
  ∃ best, read_level_find_best (all_scores e nb nd) = Ok best ∧ best_setting e nb nd best.
Proof. apply find_best_optimal_aux. Qed.

Lemma find_best_optimal_witness :
  let e bs d := if (bs =? 1) && (2 <=? d) && (d <=? 6) then 0 else 3 in
  read_level_find_best (all_scores e 2 10) = Ok (Some (1, 4, 5))
  ∧ e 1 4 = 0.
Proof.
  intros e. destruct (find_best_optimal e 2 10) as (best & Hb & H); [lia|lia|].
  vm_compute in Hb. injection Hb as <-. split; [vm_compute; reflexivity|].
  destruct H as (_ & _ & _ & H & _). exact H.
Defined.

(** ** The PHY *)

(** The two settings of a module, and the registers that change them. *)
Inductive tap := Bitslip | Delay.

#[global] Instance tap_eq_dec : EqDecision tap.
Proof. solve_decision. Defined.

Definition rst_reg (t : tap) : string :=
  match t with Bitslip => "ddrphy_rdly_dq_bitslip_rst" | Delay => "ddrphy_rdly_dq_rst" end.
Definition inc_reg (t : tap) : string :=
  match t with Bitslip => "ddrphy_rdly_dq_bitslip" | Delay => "ddrphy_rdly_dq_inc" end.
Definition limit (s : Settings) (t : tap) : Z := match t with Bitslip => bitslips s | Delay => delays s end.

Definition level_regs : list string :=
  ["ddrphy_dly_sel"; rst_reg Bitslip; inc_reg Bitslip; rst_reg Delay; inc_reg Delay]%string.

(** The documented behaviour of the PHY: [dly_sel] selects modules, a reset sets
    the tap of the selected modules to 0, an increment adds 1 (nothing is assumed
    at the limit), and all other accesses leave selection and taps alone. *)
Class LevelPhy `{Device} (s : Settings) := {
  selected : dev → Z → bool;
  tap_value : tap → dev → Z → Z;
  phy_read : ∀ r d m, selected (reg_read r d).2 m = selected d m
    ∧ ∀ t, tap_value t (reg_read r d).2 m = tap_value t d m;
  phy_write : ∀ r v d m, r ∉ level_regs → selected (reg_write r v d) m = selected d m
    ∧ ∀ t, tap_value t (reg_write r v d) m = tap_value t d m;
  phy_elapse : ∀ d m, selected (elapse d) m = selected d m
    ∧ ∀ t, tap_value t (elapse d) m = tap_value t d m;
  phy_select : ∀ v d m, 0 ≤ m < nmodules s →
    selected (reg_write "ddrphy_dly_sel" v d) m = Z.testbit v m
    ∧ ∀ t, tap_value t (reg_write "ddrphy_dly_sel" v d) m = tap_value t d m;
  phy_rst : ∀ t d m, selected (reg_write (rst_reg t) 1 d) m = selected d m
    ∧ ∀ t', tap_value t' (reg_write (rst_reg t) 1 d) m
            = if bool_decide (t' = t) && selected d m then 0 else tap_value t' d m;
  phy_inc : ∀ t d m, selected (reg_write (inc_reg t) 1 d) m = selected d m
    ∧ ∀ t', (t' = t → selected d m = true → tap_value t d m + 1 < limit s t) →
            tap_value t' (reg_write (inc_reg t) 1 d) m
            = if bool_decide (t' = t) && selected d m then tap_value t' d m + 1 else tap_value t' d m;
}.

Section phy.
Context `{HD : Device} `{HS : SdramDefs} `{HR : Random} (width : Z) (settings : Settings).
Context `{HP : !LevelPhy settings}.

Definition same_phy (d d' : dev) : Prop :=
  ∀ m, selected d' m = selected d m ∧ ∀ t, tap_value t d' m = tap_value t d m.

#[global] Instance same_phy_framed : Framed same_phy level_regs.
Proof.
  split.
  - split; [by intros d m|]. intros d1 d2 d3 H12 H23 m. destruct (H12 m) as [E1 H1], (H23 m) as [E2 H2].
    split; [congruence|]. intros t. by rewrite H2.
  - intros r d m. apply phy_read.
  - intros r v d Hr m. by apply phy_write.
  - intros d m. apply phy_elapse.
Qed.

Lemma dfii_px_not_level p signal : dfii_px p signal ∉ level_regs.
Proof. unfold dfii_px, level_regs. cbn. rewrite !elem_of_cons, elem_of_nil. intros [|[|[|[|[|]]]]]; done. Qed.

Ltac keep_phy :=
  repeat first
    [ apply keeps_bind; [|intros ?]
    | apply keeps_ret | apply keeps_rd | apply keeps_sleep
    | apply keeps_wr; first [apply dfii_px_not_level | refine (bool_decide_unpack _ _); exact I]
    | apply keeps_for_each; intros ? ?
    | apply keeps_for_acc; intros ? ?
    | case_match ].

Lemma keeps_software_control d0 : keeps (same_phy d0) sdram_software_control.
Proof using HP. unfold sdram_software_control. keep_phy. Qed.

Lemma keeps_sdram_cmd d0 a ba c b : keeps (same_phy d0) (sdram_cmd a ba c b).
Proof using HP. unfold sdram_cmd, sdram_software_control. keep_phy. Qed.

(** The test of a setting leaves the setting alone. *)
Lemma keeps_read_level_test d0 module seed : keeps (same_phy d0) (read_level_test width settings module seed).
Proof using HP.
  unfold read_level_test, dfii_write, dfii_read. cbv zeta.
  repeat first [apply keeps_sdram_cmd | progress keep_phy].
Qed.

(** ** One module *)
Section module.
Context (seed m : Z) (Hm : 0 ≤ m < nmodules settings) (d0 : dev).

(** Only module [m] is selected, and the other modules are as in [d0]. *)
Definition only (d : dev) : Prop :=
  ∀ m', 0 ≤ m' < nmodules settings →
    selected d m' = bool_decide (m' = m) ∧ (m' ≠ m → ∀ t, tap_value t d m' = tap_value t d0 m').

Definition at_tap (t : tap) (v : Z) (d : dev) : Prop := tap_value t d m = v.

Lemma only_selected d : only d → selected d m = true.
Proof using Hm. intros Ho. destruct (Ho m Hm) as [-> _]. by rewrite bool_decide_true. Qed.

Lemma only_same d d' : same_phy d d' → only d → only d'.
Proof using HP.
  intros Hs Ho m' Hm'. destruct (Hs m') as [-> Ht], (Ho m' Hm') as [-> Hother]. split; [done|].
  intros Hne t. by rewrite Ht, Hother.
Qed.

Lemma at_tap_same t v d d' : same_phy d d' → at_tap t v d → at_tap t v d'.
Proof using HP. intros Hs Ha. unfold at_tap. by rewrite (proj2 (Hs m)). Qed.

(** Reset and increment, with the other tap kept. *)
Lemma rst_tap t t' v :
  t' ≠ t →
  triple (fun d => only d ∧ at_tap t' v d) (wr (rst_reg t) 1)
    (fun _ d => only d ∧ at_tap t' v d ∧ at_tap t 0 d).
Proof using HP Hm.
  intros Hne. apply triple_wr. intros d [Ho Ha]. unfold at_tap in *. split_and!.
  - intros m' Hm'. destruct (phy_rst t d m') as [-> Ht]. destruct (Ho m' Hm') as [Hsel Hother].
    split; [done|]. intros Hne' t2. rewrite Ht, Hsel, (bool_decide_false _ Hne'), andb_false_r. by apply Hother.
  - rewrite (proj2 (phy_rst t d m)). by rewrite bool_decide_false by done.
  - rewrite (proj2 (phy_rst t d m)), only_selected by done. by rewrite bool_decide_true.
Qed.

Lemma rst_only t : triple only (wr (rst_reg t) 1) (fun _ d => only d ∧ at_tap t 0 d).
Proof using HP Hm.
  intros d Ho. assert (∃ t', t' ≠ t) as [t' Ht'] by (destruct t; [by exists Delay | by exists Bitslip]).
  destruct (rst_tap t t' (tap_value t' d m) Ht' d) as (a & d' & E & H1 & _ & H2); [done|].
  exists a, d'. done.
Qed.

Lemma inc_tap t t' v k :
  t' ≠ t →
  triple (fun d => only d ∧ at_tap t' v d ∧ (k < limit settings t → at_tap t k d)) (wr (inc_reg t) 1)
    (fun _ d => only d ∧ at_tap t' v d ∧ (k + 1 < limit settings t → at_tap t (k + 1) d)).
Proof using HP Hm.
  intros Hne. apply triple_wr. intros d (Ho & Ha & Hk). unfold at_tap in *. split_and!.
  - intros m' Hm'. destruct (phy_inc t d m') as [-> Ht]. destruct (Ho m' Hm') as [Hsel Hother].
    split; [done|]. intros Hne' t2. rewrite Hsel, (bool_decide_false _ Hne') in Ht.
    rewrite Ht, andb_false_r by done. by apply Hother.
  - rewrite (proj2 (phy_inc t d m)) by done. by rewrite bool_decide_false by done.
  - intros Hlt. rewrite (proj2 (phy_inc t d m)) by (intros _ _; rewrite Hk; lia).
    by rewrite only_selected, bool_decide_true, Hk by (done || lia).
Qed.

(** [read_bitslip_set] and [read_delay_set]. *)
Lemma set_tap t t' v k :
  t' ≠ t → 0 ≤ k < limit settings t →
  triple (fun d => only d ∧ at_tap t' v d)
    (wr (rst_reg t) 1 ;; for_each (zrange k) (fun _ => wr (inc_reg t) 1))
    (fun _ d => only d ∧ at_tap t' v d ∧ at_tap t k d).
Proof using HP Hm.
  intros Hne Hk. eapply triple_bind; [by apply (rst_tap t t' v)|]. intros [].
  eapply triple_conseq with (P' := fun d => only d ∧ at_tap t' v d ∧ (0 < limit settings t → at_tap t 0 d)).
  - apply (triple_for_each (fun pre d => only d ∧ at_tap t' v d
      ∧ (length pre < limit settings t → at_tap t (length pre) d))).
    intros pre x post _. eapply triple_conseq; [by apply (inc_tap t t' v (length pre))|done|].
    intros [] d. rewrite length_app. cbn. by replace (Z.of_nat (length pre + 1)) with (length pre + 1) by lia.
  - intros d (? & ? & ?). done.
  - intros [] d (? & ? & Hl). rewrite length_zrange in Hl by lia. split_and!; [done..|]. apply Hl. lia.
Qed.

(** The setting [(bs, dly)] of module [m] was tested, with [errors]. *)
Definition tested (bs dly errors : Z) : Prop :=
  ∃ d1 d2, at_tap Bitslip bs d1 ∧ at_tap Delay dly d1 ∧ selected d1 m = true
    ∧ read_level_test width settings m seed d1 = (Done errors, d2).

Lemma test_setting bs dly :
  triple (fun d => only d ∧ at_tap Bitslip bs d ∧ at_tap Delay dly d)
    (read_level_test width settings m seed)
    (fun errors d => tested bs dly errors ∧ only d ∧ at_tap Bitslip bs d ∧ at_tap Delay dly d).
Proof using HP Hm.
  intros d (Ho & Hb & Hd).
  destruct (keeps_read_level_test d m seed d) as (errors & d' & E & Hs); [by intros m'|].
  exists errors, d'. split; [done|]. split_and!.
  - exists d, d'. split_and!; [done..|by apply only_selected|done].
  - by apply (only_same d).
  - by apply (at_tap_same _ _ d).
  - by apply (at_tap_same _ _ d).
Qed.

(** The scores of a bitslip, and of all of them. *)
Lemma scores_of_snoc e k errors :
  0 ≤ k → scores_of e k ++ [(k, errors)] = scores_of (fun d => if d =? k then errors else e d) (k + 1).
Proof.
  intros Hk. unfold scores_of. rewrite zrange_succ, fmap_app by done. cbn. rewrite Z.eqb_refl. f_equal.
  apply list_fmap_ext. intros i d Hd%list_elem_of_lookup_2%elem_of_zrange.
  by rewrite (proj2 (Z.eqb_neq _ _)) by lia.
Qed.

Lemma zrange_prefix n pre x post : zrange n = pre ++ x :: post → x = length pre ∧ Z.of_nat (length pre) < n.
Proof.
  intros E. assert (zrange n !! length pre = Some x) as Hx by by rewrite E, list_lookup_middle.
  unfold zrange in Hx. rewrite list_lookup_fmap in Hx. apply fmap_Some in Hx as (k & Hk%lookup_seq & ->). lia.
Qed.

Definition scanned (bs k : Z) (dly_scores : list (Z * Z)) : Prop :=
  ∃ e, dly_scores = scores_of e k ∧ ∀ d, 0 ≤ d < k → tested bs d (e d).

Lemma scan_delays_spec bs :
  0 < delays settings →
  triple (fun d => only d ∧ at_tap Bitslip bs d ∧ at_tap Delay 0 d)
    (scan_delays width settings m seed 1)
    (fun dly_scores d => scanned bs (delays settings) dly_scores ∧ only d ∧ at_tap Bitslip bs d).
Proof using HP Hm.
  intros Hnd.
  eapply triple_conseq; [apply (triple_for_acc (fun pre dly_scores d =>
    scanned bs (length pre) dly_scores ∧ only d ∧ at_tap Bitslip bs d
    ∧ (length pre < delays settings → at_tap Delay (length pre) d)))| |].
  - intros pre dly post acc [-> Hlt]%zrange_prefix. apply triple_pure. intros (e & -> & He).
    eapply triple_bind with (R := fun r d => r = 0 ∧ only d ∧ at_tap Bitslip bs d ∧ at_tap Delay (length pre) d).
    { intros d (Ho & Hb & Hd). exists 0, d. rewrite Z.mod_1_r. naive_solver. }
    intros r. apply triple_pure. intros ->. cbn [Z.eqb].
    eapply triple_bind with (R := fun acc d => scanned bs (length pre + 1) acc ∧ only d ∧ at_tap Bitslip bs d
      ∧ (length pre < delays settings → at_tap Delay (length pre) d)).
    { eapply triple_bind; [apply test_setting|]. intros errors. apply triple_ret.
      intros d (Ht & Ho & Hb & Hd). split_and!; [|done..].
      eexists. split; [apply scores_of_snoc; lia|]. intros x Hx. cbn.
      destruct (Z.eqb_spec x (length pre)) as [->|]; [done|]. apply He. lia. }
    intros acc. apply triple_pure. intros Hacc.
    eapply triple_bind; [apply (inc_tap Delay Bitslip bs (length pre)); done|]. intros [].
    apply triple_ret. intros d. rewrite length_app. cbn [length]. rewrite Nat2Z.inj_add. done.
  - intros d (Ho & Hb & Hd). split_and!; [|done..]. exists (fun _ => 0). split; [done|]. cbn. lia.
  - intros acc d (Hs & Ho & Hb & _). rewrite length_zrange in Hs by lia. done.
Qed.

Definition all_scanned (k : Z) (scores : list (Z * list (Z * Z))) : Prop :=
  ∃ e, scores = all_scores e k (delays settings)
    ∧ ∀ bs d, 0 ≤ bs < k → 0 ≤ d < delays settings → tested bs d (e bs d).

Lemma all_scanned_snoc k scores dly_scores :
  0 ≤ k → all_scanned k scores → scanned k (delays settings) dly_scores →
  all_scanned (k + 1) (scores ++ [(k, dly_scores)]).
Proof.
  intros Hk (e & -> & He) (f & -> & Hf). exists (fun bs => if bs =? k then f else e bs). split.
  - unfold all_scores. rewrite zrange_succ, fmap_app by done. cbn. rewrite Z.eqb_refl. f_equal.
    apply list_fmap_ext. intros i bs Hbs%list_elem_of_lookup_2%elem_of_zrange.
    by rewrite (proj2 (Z.eqb_neq _ _)) by lia.
  - intros bs d Hbs Hd. destruct (Z.eqb_spec bs k) as [->|]; [by apply Hf|]. apply He; lia.
Qed.

Lemma scan_spec :
  0 < bitslips settings → 0 < delays settings →
  triple only (scan width settings m seed 1)
    (fun scores d => all_scanned (bitslips settings) scores ∧ only d).
Proof using HP Hm.
  intros Hnb Hnd. unfold scan. eapply triple_bind; [apply (rst_only Bitslip)|]. intros [].
  eapply triple_conseq; [apply (triple_for_acc (fun pre scores d =>
    all_scanned (length pre) scores ∧ only d
    ∧ (length pre < bitslips settings → at_tap Bitslip (length pre) d)))| |].
  - intros pre bs post acc [-> Hlt]%zrange_prefix. apply triple_pure. intros Hacc.
    eapply triple_bind with (R := fun _ d => only d ∧ at_tap Bitslip (length pre) d ∧ at_tap Delay 0 d).
    { eapply triple_conseq; [apply (rst_tap Delay Bitslip (length pre)); done| |done]. naive_solver. }
    intros []. eapply triple_bind; [by apply scan_delays_spec|]. intros dly_scores.
    apply triple_pure. intros Hs.
    eapply triple_bind with (R := fun _ d => only d
      ∧ (length pre + 1 < bitslips settings → at_tap Bitslip (length pre + 1) d)).
    { intros d [Ho Hb]. destruct (inc_tap Bitslip Delay (tap_value Delay d m) (length pre) ltac:(done) d)
        as (a & d' & E & ? & _ & ?); [naive_solver|]. exists a, d'. naive_solver. }
    intros []. apply triple_ret. intros d [Ho Hb]. rewrite length_app. cbn [length]. rewrite Nat2Z.inj_add.
    split_and!; [|done..]. destruct dly_scores as [|x l] eqn:E; [|rewrite <- E in *; apply all_scanned_snoc; [lia|done..]].
    destruct Hs as (e & He & _). apply (f_equal length) in He. unfold scores_of in He. rewrite length_fmap in He.
    pose proof (length_zrange (delays settings)). cbn in He. lia.
  - intros d [Ho Hb]. split_and!; [|done..]. exists (fun _ _ => 0). split; [done|]. cbn. lia.
  - intros acc d (Hs & Ho & _). rewrite length_zrange in Hs by lia. done.
Qed.

(** What leveling achieves for module [m]: all settings were tested, and the module is
    at the best one, if there is any. *)
Definition leveled (d : dev) : Prop :=
  ∃ e best, (∀ bs dly, 0 ≤ bs < bitslips settings → 0 ≤ dly < delays settings → tested bs dly (e bs dly))
    ∧ best_setting e (bitslips settings) (delays settings) best
    ∧ ∀ bs dly len, best = Some (bs, dly, len) → tap_value Bitslip d m = bs ∧ tap_value Delay d m = dly.

Lemma read_level_module_spec :
  0 < bitslips settings → 0 < delays settings →
  triple only (read_level_module width settings m seed 1) (fun _ d => only d ∧ leveled d).
Proof using HP Hm.
  intros Hnb Hnd. unfold read_level_module. eapply triple_bind; [by apply scan_spec|]. intros scores.
  apply triple_pure. intros (e & -> & He). destruct (find_best_optimal_aux e _ _ Hnb Hnd) as (best & Hbest & Hspec).
  rewrite Hbest. eapply triple_bind with (R := fun b d => b = best ∧ only d).
  { intros d Ho. exists best, d. done. }
  intros b. apply triple_pure. intros ->. destruct best as [[[bs dly] len]|].
  - pose proof Hspec as (Hbs & Hdly & _).
    eapply triple_bind with (R := fun _ d => only d ∧ at_tap Bitslip bs d).
    { intros d Ho. destruct (set_tap Bitslip Delay (tap_value Delay d m) bs ltac:(done) Hbs d)
        as (a & d' & E & ? & _ & ?); [done|]. exists a, d'. done. }
    intros []. eapply triple_conseq; [by apply (set_tap Delay Bitslip bs dly)|done|].
    intros [] d (Ho & Hb & Hd). split; [done|]. exists e, (Some (bs, dly, len)). split_and!; [exact He|exact Hspec|].
    intros ? ? ? [= <- <- _]. done.
  - apply triple_ret. intros d Ho. split; [done|]. exists e, None. split_and!; [exact He|exact Hspec|done].
Qed.
End module.

(** ** All modules *)
Lemma leveled_taps seed m d d' :
  (∀ t, tap_value t d' m = tap_value t d m) → leveled seed m d → leveled seed m d'.
Proof using. intros Ht (e & best & He & Hb & Hd). exists e, best. split_and!; [done|done|]. intros bs dly len E. rewrite !Ht. by eapply Hd. Qed.

Lemma select_module m d :
  0 ≤ m < nmodules settings →
  triple (same_phy d) (delay_select_modules [m])
    (fun _ d' => only m d d').
Proof using HP.
  intros Hm d1 Hs. exists tt, (reg_write "ddrphy_dly_sel" (Z.shiftl 1 m) d1). split; [done|].
  intros m' Hm'. destruct (phy_select (Z.shiftl 1 m) d1 m' Hm') as [-> Ht]. split.
  - rewrite Z.shiftl_1_l, Z.pow2_bits_eqb by lia. destruct (Z.eqb_spec m m').
    + by rewrite bool_decide_true.
    + by rewrite bool_decide_false by congruence.
  - intros _ t. rewrite Ht. apply (Hs m').
Qed.
End phy.

(** From any state of the board, for the default step, [read_level] returns, and every
    module of the PHY is leveled. *)
Lemma read_level_levels `{HD : Device} `{HS : SdramDefs} `{HR : Random} width settings
    `{HP : !LevelPhy settings} seed d0 :
  0 < bitslips settings → 0 < delays settings →
  ∃ d, read_level width settings seed 1 d0 = (Done tt, d)
    ∧ ∀ m, 0 ≤ m < nmodules settings → leveled width settings seed m d.
Proof.
  intros Hnb Hnd.
  assert (triple (same_phy settings d0) (read_level width settings seed 1)
    (fun _ d => ∀ m, 0 ≤ m < nmodules settings → leveled width settings seed m d)) as Ht.
  { eapply triple_bind with (R := fun _ _ => True).
    { eapply triple_conseq; [apply (keeps_software_control settings d0)|done|done]. }
    intros []. eapply triple_conseq; [apply (triple_for_each
      (fun pre d => ∀ m, 0 ≤ m < length pre → leveled width settings seed m d))| |].
    - intros pre m post [-> Hlt]%zrange_prefix d Hd.
      destruct (select_module settings (length pre) d ltac:(lia) d) as (u & d1 & E1 & Ho); [by intros m'|].
      destruct (read_level_module_spec width settings seed (length pre) ltac:(lia) d Hnb Hnd d1 Ho)
        as ([] & d2 & E2 & Ho2 & Hl).
      exists tt, d2. split; [cbv [mbind host_bind]; by rewrite E1|]. rewrite length_app. cbn [length].
      intros m' Hm'. destruct (decide (m' = length pre)) as [->|Hne]; [done|].
      apply (leveled_taps _ _ _ _ d); [|apply Hd; lia]. apply Ho2; lia.
    - intros d _ m Hm. cbn in Hm. lia.
    - intros [] d Hd m Hm. apply Hd. rewrite length_zrange by lia. done. }
  destruct (Ht d0) as ([] & d & E & Hd); [by intros m|]. by exists d.
Qed.

Lemma best_setting_ext e f nb nd best :
  (∀ bs d, 0 ≤ bs < nb → 0 ≤ d < nd → e bs d = f bs d) → best_setting e nb nd best → best_setting f nb nd best.
Proof.
  intros Hef. assert (∀ bs a b, 0 ≤ bs < nb → 0 ≤ a → b ≤ nd → passes (f bs) a b ↔ passes (e bs) a b) as Hp.
  { intros bs a b Hbs Ha Hb. split; intros H d Hd; specialize (H d Hd); [rewrite Hef|rewrite <- Hef]; (done || lia). }
  destruct best as [[[bs dly] len]|]; cbn.
  - intros (Hbs & Hdly & Hlen & H0 & Ha & Hb & Hw & Hall). rewrite <- Hef, Hp by (done || lia). split_and!; [lia..|done|].
    intros bs' a b Hbs' Ha' Hb' Hrun. apply (Hall bs'); [done..|]. apply Hp; (done || lia).
  - intros Hall bs d Hbs Hd. rewrite <- Hef by done. by apply Hall.
Qed.

(** C9: Read leveling selects the middle of a longest window of settings that pass the
    test.  On a PHY for which the number of errors that [read_level_test] counts for a
    module is a function [eye] of the module's bitslip and delay, [read_level] returns
    from any state, for the default step, and leaves every module for which some
    setting passes at a setting that passes, which is the middle of a window of passing
    delays of its bitslip; no run of passing delays of any bitslip is longer, where a
    run that reaches the last delay counts one less than its length.  (What the test
    compares is another matter, see [low_lanes_untested].) *)
Theorem read_level_selects `{HD : Device} `{HS : SdramDefs} `{HR : Random} width settings
    `{HP : !LevelPhy settings} seed (eye : Z → Z → Z → Z) d0 :
  0 < bitslips settings → 0 < delays settings →
  (∀ m d errors d', 0 ≤ m < nmodules settings → selected d m = true → read_level_test width settings m seed d = (Done errors, d') →
     errors = eye m (tap_value Bitslip d m) (tap_value Delay d m)) →
  ∃ d, read_level width settings seed 1 d0 = (Done tt, d)
    ∧ ∀ m, 0 ≤ m < nmodules settings →
      (∃ len, best_setting (eye m) (bitslips settings) (delays settings) (Some (tap_value Bitslip d m, tap_value Delay d m, len)))
      ∨ ∀ bs dly, 0 ≤ bs < bitslips settings → 0 ≤ dly < delays settings → eye m bs dly ≠ 0.
Proof.
  intros Hnb Hnd Heye. destruct (read_level_levels width settings seed d0 Hnb Hnd) as (d & E & Hl). exists d. split; [done|].
  intros m Hm. destruct (Hl m Hm) as (e & best & He & Hb & Ht).
  apply (best_setting_ext e (eye m)) in Hb.
  - destruct best as [[[bs dly] len]|]; [left|by right]. exists len. by destruct (Ht bs dly len eq_refl) as [-> ->].
  - intros bs dly Hbs Hdly. destruct (He bs dly Hbs Hdly) as (d1 & d2 & Hb1 & Hd1 & Hsel & Htest).
    rewrite (Heye m d1 _ d2 Hm Hsel Htest). by rewrite Hb1, Hd1.
Qed.

(** ** A board with one module, two bitslips and four delays

    Data is read correctly at bitslip 1 with delay 1 or 2, otherwise byte 1 is
    wrong. *)
Record demo_board := DemoBoard { demo_sel : bool; demo_taps : tap → Z; demo_data : Z }.

Definition demo_settings : Settings := MkSettings 1 2 4 1 0 0.

Definition demo_eye (d : demo_board) : bool :=
  (demo_taps d Bitslip =? 1) && ((demo_taps d Delay =? 1) || (demo_taps d Delay =? 2)).

Definition set_demo_tap (t : tap) (v : Z) (d : demo_board) : demo_board :=
  DemoBoard (demo_sel d)
    (fun t' => if bool_decide (t' = t) && demo_sel d then v else demo_taps d t') (demo_data d).

Definition demo_write (r : string) (v : Z) (d : demo_board) : demo_board :=
  if bool_decide (r = "ddrphy_dly_sel"%string) then DemoBoard (Z.testbit v 0) (demo_taps d) (demo_data d)
  else if bool_decide (r = rst_reg Bitslip) then set_demo_tap Bitslip 0 d
  else if bool_decide (r = rst_reg Delay) then set_demo_tap Delay 0 d
  else if bool_decide (r = inc_reg Bitslip) then set_demo_tap Bitslip (demo_taps d Bitslip + 1) d
  else if bool_decide (r = inc_reg Delay) then set_demo_tap Delay (demo_taps d Delay + 1) d
  else if bool_decide (r = "sdram_dfii_pi0_wrdata"%string) then DemoBoard (demo_sel d) (demo_taps d) (trunc 16 v)
  else d.

#[local] Instance demo_device : Device := {|
  dev := demo_board;
  reg_read r d := (if demo_eye d then demo_data d else Z.lxor (demo_data d) 65280, d);
  reg_write := demo_write;
  has_reg _ := false;
  elapse d := d;
|}.

#[local] Instance demo_defs : SdramDefs := {|
  dfii_control_sel := 1; dfii_command_cs := 1; dfii_command_we := 2; dfii_command_cas := 4;
  dfii_command_ras := 8; dfii_command_wrdata := 16; dfii_command_rddata := 32 |}.

#[local, refine] Instance demo_random : Random := {| randint _ a b k := Z.min b (a + 17 * Z.of_nat k) |}.
Proof. lia. Defined.

#[local, refine] Instance demo_phy : LevelPhy demo_settings := {|
  selected d m := demo_sel d;
  tap_value t d m := demo_taps d t;
|}.
Proof.
  - done.
  - intros r v d m Hr. unfold level_regs in Hr. rewrite !not_elem_of_cons in Hr. cbn [reg_write demo_device]. unfold demo_write.
    destruct Hr as (? & ? & ? & ? & ? & _). rewrite !bool_decide_false by done. by case_bool_decide.
  - done.
  - intros v d m Hm. cbn in *. by replace m with 0 by lia.
  - intros t d m. by destruct t.
  - intros t d m. split; [by destruct t|]. intros t' _.
    destruct t, t'; cbn; try done; by case_bool_decide.
Defined.

(** The errors counted at a setting. *)
Definition demo_errors (bs dly : Z) : Z :=
  match (read_level_test (HD := demo_device) 16 demo_settings 0 42
           (DemoBoard true (fun t => match t with Bitslip => bs | Delay => dly end) 0)).1 with
  | Done errors => errors
  | _ => 0
  end.

Lemma demo_test taps data :
  ∃ d', read_level_test (HD := demo_device) 16 demo_settings 0 42 (DemoBoard true taps data)
    = (Done (if demo_eye (DemoBoard true taps 0) then 0 else 1), d').
Proof.
  eexists. lazy -[demo_eye get_byte].
  change (demo_eye (DemoBoard true taps 17)) with (demo_eye (DemoBoard true taps 0)).
  destruct (demo_eye _); vm_compute; reflexivity.
Qed.

Lemma read_level_selects_witness :
  ∃ d len, read_level (HD := demo_device) 16 demo_settings 42 1 (DemoBoard false (fun _ => 0) 0) = (Done tt, d)
    ∧ demo_taps d Bitslip = 1 ∧ demo_taps d Delay = 2
    ∧ best_setting demo_errors 2 4 (Some (demo_taps d Bitslip, demo_taps d Delay, len)).
Proof.
  destruct (read_level_selects (HD := demo_device) 16 demo_settings 42 (fun _ => demo_errors) (DemoBoard false (fun _ => 0) 0)) as (d & Hd & Hl).
  - done.
  - done.
  - intros m [sel taps data] errors d' Hm Hsel H. cbn in Hm, Hsel. assert (m = 0) as -> by lia. subst sel.
    destruct (demo_test taps data) as (d1 & E). rewrite E in H. injection H as <- _.
    unfold demo_errors. destruct (demo_test (fun t => match t with Bitslip => taps Bitslip | Delay => taps Delay end) 0) as (d2 & E2).
    cbn [tap_value demo_phy demo_taps]. rewrite E2. done.
  - destruct (Hl 0) as [[len Hb]|Hf]; [cbn; lia| |].
    + exists d, len. split_and!; [exact Hd| | |exact Hb]; vm_compute in Hd; injection Hd as <-; vm_compute; reflexivity.
    + exfalso. apply (Hf 1 2); [cbn; lia|cbn; lia|]. vm_compute. reflexivity.
Defined.

(** ** What the test does not see

    The bytes of a phase are numbered from 0, two per module; the comparison
    uses the numbers [nmodules + module] and [2 * nmodules + module].  So the
    lower half of a phase is never compared. *)
Lemma get_byte_div i data : 0 ≤ i → get_byte i data = (data / 256 ^ i) mod 256.
Proof.
  intros Hi. unfold get_byte. rewrite Z.shiftr_land, Z.shiftr_shiftl_l, Z.sub_diag, Z.shiftl_0_r by lia.
  change 255 with (Z.ones 8). rewrite Z.land_ones, Z.shiftr_div_pow2 by lia.
  rewrite (Z.pow_mul_r 2 8 i) by lia. done.
Qed.

Lemma get_byte_upper n i data data' :
  0 ≤ n ≤ i → data / 256 ^ n = data' / 256 ^ n → get_byte i data = get_byte i data'.
Proof.
  intros Hi E. rewrite !get_byte_div by lia. replace i with (n + (i - n)) by lia.
  rewrite Z.pow_add_r, <- !Z.div_div by (lia || apply Z.pow_pos_nonneg; lia). by rewrite E.
Qed.

Theorem low_lanes_untested s module rdata rdata' wdata :
  0 ≤ module < nmodules s → rdata / 256 ^ nmodules s = rdata' / 256 ^ nmodules s →
  phase_errors s module (rdata, wdata) = phase_errors s module (rdata', wdata).
Proof.
  intros Hm E. unfold phase_errors. cbn [foldl].
  rewrite !(get_byte_upper (nmodules s) _ rdata rdata') by (lia || done). done.
Qed.

Example low_byte_flip_unseen : phase_errors demo_settings 0 (4660, 4863) = 0.
Proof. reflexivity. Qed.

(** [randint(0, 256)] can give 256: the written value does not fit the phase, and a
    perfect memory is reported as wrong. *)
Example pattern_256_false_error :
  let wdata := phase_value 16 [256; 7] 0 in
  wdata = 65543 ∧ phase_errors demo_settings 0 (trunc 16 wdata, wdata) = 1.
Proof. split; reflexivity. Qed.
