(* ===== verification/HostMem.v ===== *)
(** * Memory access from the host

    Models the memory functions of [src/rowhammer_tester/scripts/utils.py]:
    [memwrite], [memread], [memfill], [memcheck], [word2byte] and [chunks].  The
    remote client [wb] is LiteX's
    ([litex.RemoteClient]): it is the class [WishboneOps], with the documented
    behaviour of its burst accesses on RAM as the laws of [Wishbone]. *)

From S2P Require Import Prelude Bist.

(** ** The remote client *)

(** Its operations. *)
Class WishboneOps := {
  bus : Type;
  wb_write : Z → list Z → bus → bus;
  wb_read : Z → nat → bus → list Z;
}.

(** A bus whose memory keeps what is written to it. *)
Class Wishbone := {
  wb_ops :: WishboneOps;
  (** content of the 32-bit word at a byte address *)
  word : bus → Z → Z;
  word_written a ds s i v : ds !! i = Some v → word (wb_write a ds s) (a + 4 * Z.of_nat i) = trunc 32 v;
  word_other a ds s b :
    (∀ i, (i < length ds)%nat → b ≠ a + 4 * Z.of_nat i) → word (wb_write a ds s) b = word s b;
  read_words a n s : wb_read a n s = (fun i : nat => word s (a + 4 * Z.of_nat i)) <$> seq 0 n;
}.

(** [range(0, n, step)] *)
Definition py_range (n step : Z) : result (list Z) :=
  if step =? 0 then Raise ValueError
  else if step <? 0 then Ok []
  else Ok ((fun k => Z.of_nat k * step) <$> seq 0 (Z.to_nat ((n + step - 1) / step))).

(** [l[i:j]] for non-negative bounds *)
Definition py_slice {A} (i j : Z) (l : list A) : list A := take (Z.to_nat (j - i)) (drop (Z.to_nat i) l).

Section host.
Context `{WishboneOps}.

Definition memwrite (data : list Z) (base burst : Z) (s : bus) : result bus :=
  is_ ← py_range (length data) burst;
  Ok (foldl (fun s i => wb_write (base + 4 * i) (py_slice i (Z.min (i + burst) (length data)) data) s) s is_).

Definition memread (n base burst : Z) (s : bus) : result (list Z) :=
  is_ ← py_range n burst;
  Ok (foldl (fun data i => data ++ wb_read (base + 4 * i) (Z.to_nat (Z.min burst (n - i))) s) [] is_).

(** [[pattern] * n] is empty for a negative [n]. *)
Definition memfill (n pattern base burst : Z) (s : bus) : result bus :=
  memwrite (replicate (Z.to_nat n) pattern) base burst s.

Definition memcheck (n pattern base burst : Z) (s : bus) : result (list (Z * Z)) :=
  data ← memread n base burst s;
  Ok (filter (fun e => e.2 ≠ pattern) (imap (fun i w => (Z.of_nat i, w)) data)).
End host.

(** [word2byte(words)] with the default [word_size = 4] *)
Definition word2byte (words : list Z) : list Z :=
  words ≫= fun w => (fun i : nat => Z.shiftr (Z.land w (Z.shiftl 255 (8 * Z.of_nat i))) (8 * Z.of_nat i)) <$> seq 0 4.

Definition chunks {A} (lst : list A) (n : Z) : result (list (list A)) :=
  is_ ← py_range (length lst) n;
  Ok ((fun i => py_slice i (i + n) lst) <$> (is_ : list Z)).

(** ** Loops over a range *)
Lemma py_range_pos n step :
  0 < step → py_range n step = Ok ((fun k => Z.of_nat k * step) <$> seq 0 (Z.to_nat ((n + step - 1) / step))).
Proof. intros Hs. unfold py_range. rewrite (proj2 (Z.eqb_neq _ _)), (proj2 (Z.ltb_ge _ _)) by lia. done. Qed.

(** The number of turns covers [n]. *)
Lemma py_range_covers n step : 0 ≤ n → 0 < step → n ≤ Z.of_nat (Z.to_nat ((n + step - 1) / step)) * step.
Proof. intros Hn Hs. rewrite Z2Nat.id by (apply Z.div_pos; lia). 
  pose proof (Z.div_mod (n + step - 1) step). pose proof (Z.mod_pos_bound (n + step - 1) step). lia.
Qed.

Lemma py_range_inside n step k :
  0 ≤ n → 0 < step → (k < Z.to_nat ((n + step - 1) / step))%nat → Z.of_nat k * step < n.
Proof.
  intros Hn Hs Hk. assert (Z.of_nat k + 1 ≤ (n + step - 1) / step) as Hk' by lia.
  pose proof (Z.mul_div_le (n + step - 1) step Hs).
  assert (step * (Z.of_nat k + 1) ≤ step * ((n + step - 1) / step)) by (apply Z.mul_le_mono_nonneg_l; lia). lia.
Qed.

(** ** Reading *)
Section reading.
(** What a read of a word gives. *)
Context `{WishboneOps} (sense : bus → Z → Z).
Context (reads : ∀ a n s, wb_read a n s = (fun i : nat => sense s (a + 4 * Z.of_nat i)) <$> seq 0 n).

Definition sensed (base : Z) (n : nat) (s : bus) : list Z := (fun i : nat => sense s (base + 4 * Z.of_nat i)) <$> seq 0 n.

Lemma sensed_app base n m s : sensed base (n + m) s = sensed base n s ++ sensed (base + 4 * n) m s.
Proof using.
  unfold sensed. rewrite seq_app, fmap_app. apply (f_equal2 app); [done|].
  pose proof (fmap_add_seq n 0 m) as E. rewrite Nat.add_0_r in E. rewrite Nat.add_0_l, <- E, <- list_fmap_compose.
  apply list_fmap_ext. intros i j _. cbn. f_equal. lia.
Qed.

Lemma memread_loop n base burst s k :
  0 ≤ n → 0 < burst → (k ≤ Z.to_nat ((n + burst - 1) / burst))%nat →
  foldl (fun data i => data ++ wb_read (base + 4 * i) (Z.to_nat (Z.min burst (n - i))) s) []
    ((fun k => Z.of_nat k * burst) <$> seq 0 k)
  = sensed base (Z.to_nat (Z.min n (Z.of_nat k * burst))) s.
Proof using reads.
  intros Hn Hb. induction k as [|k IH]; intros Hk; [by rewrite Z.min_r by lia|].
  rewrite seq_S, fmap_app, foldl_app, IH by lia. cbn [fmap list_fmap foldl]. rewrite Nat.add_0_l.
  pose proof (py_range_inside n burst k Hn Hb ltac:(lia)) as Hin. rewrite reads.
  change (_ <$> seq 0 (Z.to_nat (Z.min burst (n - Z.of_nat k * burst)))) with
    (sensed (base + 4 * (Z.of_nat k * burst)) (Z.to_nat (Z.min burst (n - Z.of_nat k * burst))) s).
  replace (Z.to_nat (Z.min n (Z.of_nat (S k) * burst))) with
    (Z.to_nat (Z.of_nat k * burst) + Z.to_nat (Z.min burst (n - Z.of_nat k * burst)))%nat by lia.
  rewrite sensed_app. f_equal; f_equal; lia.
Qed.

Lemma memread_sensed n base burst s :
  0 ≤ n → 0 < burst → memread n base burst s = Ok (sensed base (Z.to_nat n) s).
Proof using reads.
  intros Hn Hb. unfold memread. rewrite py_range_pos by done. rewrite ok_bind, memread_loop by (done || lia).
  pose proof (py_range_covers n burst Hn Hb). by rewrite Z.min_l by lia.
Qed.
End reading.

Section host_facts.
Context `{Wishbone}.

(** What writing [data] at [base] does. *)
Definition stored (base : Z) (data : list Z) (s s' : bus) : Prop :=
  (∀ i v, data !! i = Some v → word s' (base + 4 * Z.of_nat i) = trunc 32 v)
  ∧ (∀ b, (∀ i, (i < length data)%nat → b ≠ base + 4 * Z.of_nat i) → word s' b = word s b).

Lemma stored_nil base s : stored base [] s s.
Proof. done. Qed.

Lemma stored_write base d1 d2 s s1 :
  stored base d1 s s1 → stored base (d1 ++ d2) s (wb_write (base + 4 * length d1) d2 s1).
Proof.
  intros [Hin Hout]. split.
  - intros i v Hi. apply lookup_app_Some in Hi as [Hi|[Hlen Hi]].
    + rewrite word_other; [by apply Hin|]. intros j _. apply lookup_lt_Some in Hi. lia.
    + replace (base + 4 * Z.of_nat i) with (base + 4 * length d1 + 4 * Z.of_nat (i - length d1)) by lia.
      by apply word_written.
  - intros b Hb. rewrite length_app in Hb. rewrite word_other.
    + apply Hout. intros i Hi. apply Hb. lia.
    + intros i Hi. specialize (Hb (length d1 + i)%nat ltac:(lia)). lia.
Qed.

Lemma memwrite_loop data base burst s k :
  0 < burst → (k ≤ Z.to_nat ((length data + burst - 1) / burst))%nat →
  stored base (take (Z.to_nat (Z.of_nat k * burst)) data) s
    (foldl (fun s i => wb_write (base + 4 * i) (py_slice i (Z.min (i + burst) (length data)) data) s) s
       ((fun k => Z.of_nat k * burst) <$> seq 0 k)).
Proof.
  intros Hb. induction k as [|k IH]; intros Hk; [done|].
  rewrite seq_S, fmap_app, foldl_app. cbn [fmap list_fmap foldl]. rewrite Nat.add_0_l.
  pose proof (py_range_inside (length data) burst k ltac:(lia) Hb ltac:(lia)) as Hin.
  specialize (IH ltac:(lia)). eapply (stored_write _ _ (py_slice (Z.of_nat k * burst) (Z.min (Z.of_nat k * burst + burst) (length data)) data)) in IH.
  rewrite length_take_le in IH by lia. rewrite Z2Nat.id in IH by lia.
  replace (take (Z.to_nat (Z.of_nat (S k) * burst)) data) with
    (take (Z.to_nat (Z.of_nat k * burst)) data
     ++ py_slice (Z.of_nat k * burst) (Z.min (Z.of_nat k * burst + burst) (length data)) data); [exact IH|].
  unfold py_slice. rewrite take_take_drop.
  destruct (Z.le_gt_cases (length data) (Z.of_nat k * burst + burst)).
  - rewrite !take_ge by lia. done.
  - f_equal. lia.
Qed.

Lemma memwrite_stored data base burst s :
  0 < burst → ∃ s', memwrite data base burst s = Ok s' ∧ stored base data s s'.
Proof.
  intros Hb. unfold memwrite. rewrite py_range_pos by done. rewrite ok_bind. eexists; split; [done|].
  set (k := Z.to_nat ((length data + burst - 1) / burst)).
  rewrite <- (take_ge data (Z.to_nat (Z.of_nat k * burst))) at 1; [by apply memwrite_loop|].
  pose proof (py_range_covers (length data) burst ltac:(lia) Hb). lia.
Qed.

(** The words of the bus from an address on. *)
Definition words (base : Z) (n : nat) (s : bus) : list Z :=
  (fun i : nat => word s (base + 4 * Z.of_nat i)) <$> seq 0 n.

Lemma words_app base n m s : words base (n + m) s = words base n s ++ words (base + 4 * n) m s.
Proof. apply (sensed_app word). Qed.

Lemma memread_words n base burst s :
  0 ≤ n → 0 < burst → memread n base burst s = Ok (words base (Z.to_nat n) s).
Proof. apply (memread_sensed word), read_words. Qed.

Lemma stored_words base data s s' :
  stored base data s s' → words base (length data) s' = trunc 32 <$> data.
Proof.
  intros [Hin _]. apply list_eq. intros i. unfold words. rewrite !list_lookup_fmap.
  destruct (data !! i) as [v|] eqn:E; cbn.
  - pose proof (lookup_lt_Some _ _ _ E). rewrite lookup_seq_lt by done. cbn. f_equal. by apply Hin.
  - apply lookup_ge_None in E. by rewrite lookup_seq_ge by done.
Qed.
End host_facts.

(** ** Properties of the bus functions *)
Lemma fmap_trunc_small w data : Forall (fun v => 0 ≤ v < 2 ^ w) data → trunc w <$> data = data.
Proof. induction 1 as [|v data Hv _ IH]; [done|]. cbn. by rewrite trunc_small, IH. Qed.

(** The indices and contents of the words that differ from the pattern. *)
Definition wrong_words `{Wishbone} (n pattern base : Z) (s : bus) : list (Z * Z) :=
  (fun i => (i, word s (base + 4 * i)))
    <$> filter (fun i => word s (base + 4 * i) ≠ pattern) (Z.of_nat <$> seq 0 (Z.to_nat n)).

Lemma filter_imap_fmap (P : Z → Prop) `{∀ x, Decision (P x)} (f : Z → Z) l k :
  filter (fun e : Z * Z => P e.2) (imap (fun i w => (Z.of_nat (k + i), w)) (f <$> (Z.of_nat <$> seq k l)))
  = (fun i => (i, f i)) <$> filter (fun i => P (f i)) (Z.of_nat <$> seq k l).
Proof.
  revert k; induction l as [|l IH]; intros k; [done|].
  rewrite <- cons_seq, !fmap_cons, imap_cons, !filter_cons, Nat.add_0_r. cbn [snd].
  assert (imap ((fun i w => (Z.of_nat (k + i), w)) ∘ S) (f <$> (Z.of_nat <$> seq (S k) l))
    = imap (fun i w => (Z.of_nat (S k + i), w)) (f <$> (Z.of_nat <$> seq (S k) l))) as ->.
  { apply imap_ext. intros i x _. unfold compose. f_equal. lia. }
  destruct (decide (P (f (Z.of_nat k)))); rewrite ?fmap_cons, IH; done.
Qed.

Lemma memcheck_wrong_words `{Wishbone} n pattern base burst s :
  0 ≤ n → 0 < burst → memcheck n pattern base burst s = Ok (wrong_words n pattern base s).
Proof.
  intros Hn Hb. unfold memcheck. rewrite memread_words by done. rewrite ok_bind. f_equal.
  unfold words, wrong_words.
  etransitivity;
    [|exact (filter_imap_fmap (fun w => w ≠ pattern) (fun i => word s (base + 4 * i)) (Z.to_nat n) 0)].
  rewrite <- list_fmap_compose. done.
Qed.

Lemma wrong_words_nil `{Wishbone} n pattern base s :
  (∀ i, 0 ≤ i < n → word s (base + 4 * i) = pattern) → wrong_words n pattern base s = [].
Proof.
  intros Hw. unfold wrong_words. assert (filter (fun i => word s (base + 4 * i) ≠ pattern)
    (Z.of_nat <$> seq 0 (Z.to_nat n)) = []) as ->; [|done].
  apply elem_of_nil_inv. intros i [Hne (k & -> & Hk%elem_of_seq)%list_elem_of_fmap]%list_elem_of_filter.
  apply Hne, Hw. lia.
Qed.

(** What is written is what is read.  For any burst sizes, [memwrite] succeeds,
    [memread] of as many words at the same base returns the data, and no word
    outside the written range changes. *)
Theorem memwrite_memread `{Wishbone} data base wburst rburst s :
  0 < wburst → 0 < rburst → Forall (fun v => 0 ≤ v < 2 ^ 32) data →
  ∃ s', memwrite data base wburst s = Ok s'
    ∧ memread (length data) base rburst s' = Ok data
    ∧ (∀ b, (∀ i, (i < length data)%nat → b ≠ base + 4 * Z.of_nat i) → word s' b = word s b).
Proof.
  intros Hw Hr Hd. destruct (memwrite_stored data base wburst s Hw) as (s' & Hs' & Hst).
  exists s'. split_and!; [done| |apply Hst].
  rewrite memread_words, Nat2Z.id by lia. rewrite (stored_words _ _ _ _ Hst). f_equal.
  by apply fmap_trunc_small.
Qed.

(** A bus that is a RAM. *)
#[local] Instance ram_bus_ops : WishboneOps := {|
  bus := Z → Z;
  wb_write a ds s b :=
    if decide (0 ≤ b - a ∧ (b - a) mod 4 = 0) then
      match ds !! Z.to_nat ((b - a) / 4) with Some v => trunc 32 v | None => s b end
    else s b;
  wb_read a n s := (fun i : nat => s (a + 4 * Z.of_nat i)) <$> seq 0 n;
|}.
#[local, refine] Instance ram_bus : Wishbone := {| wb_ops := ram_bus_ops; word s a := s a |}.
Proof.
  - intros a ds s i v Hi. cbn. replace (a + 4 * Z.of_nat i - a) with (Z.of_nat i * 4) by lia.
    rewrite decide_True by (split; [lia|]; apply Z.mod_mul; lia). rewrite Z.div_mul, Nat2Z.id by lia. by rewrite Hi.
  - intros a ds s b Hb. cbn. case_decide as Hd; [|done].
    destruct (ds !! Z.to_nat ((b - a) / 4)) as [v|] eqn:E; [|done]. exfalso.
    apply (Hb _ (lookup_lt_Some _ _ _ E)). pose proof (Z.div_mod (b - a) 4 ltac:(lia)).
    rewrite Z2Nat.id by (apply Z.div_pos; lia). lia.
  - done.
Defined.

Lemma memwrite_memread_witness :
  ∃ s', memwrite [1; 2; 3; 4; 5] 64 2 (fun _ => 0) = Ok s' ∧ memread 5 64 3 s' = Ok [1; 2; 3; 4; 5].
Proof.
  destruct (memwrite_memread (H := ram_bus) [1; 2; 3; 4; 5] 64 2 3 (fun _ => 0)) as (s' & H1 & H2 & _).
  - lia.
  - lia.
  - repeat constructor; lia.
  - exists s'. split; [exact H1 | exact H2].
Defined.

(** [memcheck] reports exactly the wrong words: the pairs of index and content of
    the words that differ from the pattern, in increasing order; directly after
    [memfill] there are none. *)
Theorem memcheck_exact `{Wishbone} n pattern base wburst rburst s :
  0 ≤ n → 0 < wburst → 0 < rburst → 0 ≤ pattern < 2 ^ 32 →
  memcheck n pattern base rburst s = Ok (wrong_words n pattern base s)
  ∧ ∃ s', memfill n pattern base wburst s = Ok s' ∧ memcheck n pattern base rburst s' = Ok [].
Proof.
  intros Hn Hw Hr Hp. split; [by apply memcheck_wrong_words|].
  destruct (memwrite_stored (replicate (Z.to_nat n) pattern) base wburst s Hw) as (s' & Hs' & [Hst _]).
  exists s'. split; [done|]. rewrite memcheck_wrong_words by done. f_equal. apply wrong_words_nil.
  intros i Hi. rewrite <- (Z2Nat.id i) by lia. rewrite <- (trunc_small 32 pattern) by done.
  apply Hst, lookup_replicate_2. lia.
Qed.

Lemma memcheck_exact_witness :
  memcheck 3 7 0 2 (fun a => if a =? 4 then 6 else 7) = Ok [(1, 6)].
Proof.
  destruct (memcheck_exact (H := ram_bus) 3 7 0 2 2 (fun a => if a =? 4 then 6 else 7)) as [H _];
    [lia..|]. etransitivity; [exact H|]. vm_compute. reflexivity.
Defined.

(** Little-endian value of bytes. *)
Fixpoint of_bytes (l : list Z) : Z := match l with [] => 0 | b :: l' => b + 256 * of_bytes l' end.

Lemma word2byte_shift w i :
  0 ≤ i → Z.shiftr (Z.land w (Z.shiftl 255 (8 * i))) (8 * i) = (w / 256 ^ i) mod 256.
Proof.
  intros Hi. rewrite Z.shiftr_land, Z.shiftr_shiftl_l, Z.sub_diag, Z.shiftl_0_r by lia.
  change 255 with (Z.ones 8). rewrite Z.land_ones, Z.shiftr_div_pow2 by lia.
  rewrite (Z.pow_mul_r 2 8 i) by lia. done.
Qed.

Lemma four_bytes w :
  0 ≤ w < 2 ^ 32 →
  w mod 256 + 256 * ((w / 256) mod 256
    + 256 * ((w / 65536) mod 256 + 256 * ((w / 16777216) mod 256 + 256 * 0))) = w.
Proof.
  intros Hw. change 16777216 with (256 * 256 * 256). change 65536 with (256 * 256).
  rewrite <- !Z.div_div by lia. Z.to_euclidean_division_equations. lia.
Qed.

(** The bytes of [word2byte] are the words' bytes, lowest first: four per word, each
    below 256, and their little-endian value is the word. *)
Theorem word2byte_bytes ws :
  Forall (fun w => 0 ≤ w < 2 ^ 32) ws →
  length (word2byte ws) = (4 * length ws)%nat
  ∧ Forall (fun b => 0 ≤ b < 256) (word2byte ws)
  ∧ ∀ k w, ws !! k = Some w → of_bytes (take 4 (drop (4 * k) (word2byte ws))) = w.
Proof.
  induction 1 as [|w ws Hw _ (IHl & IHb & IHv)]; [done|].
  unfold word2byte. rewrite bind_cons. fold (word2byte ws). cbn [seq fmap list_fmap].
  rewrite !word2byte_shift by lia.
  change (256 ^ Z.of_nat 0) with 1. change (256 ^ Z.of_nat 1) with 256.
  change (256 ^ Z.of_nat 2) with 65536. change (256 ^ Z.of_nat 3) with 16777216. rewrite Z.div_1_r.
  split_and!.
  - cbn. rewrite IHl. cbn. lia.
  - repeat constructor; try done; apply Z.mod_pos_bound; lia.
  - intros [|k] v Hk; cbn in Hk.
    + injection Hk as <-. cbn [Nat.mul drop app take of_bytes]. by apply four_bytes.
    + replace (4 * S k)%nat with (S (S (S (S (4 * k))))) by lia. cbn [app drop]. by apply IHv.
Qed.

Lemma word2byte_bytes_witness : of_bytes (take 4 (drop 4 (word2byte [1; 305419896]))) = 305419896.
Proof.
  destruct (word2byte_bytes [1; 305419896]) as (_ & _ & H); [repeat constructor; lia|].
  by apply (H 1%nat).
Defined.
