(* ===== verification/HostBist.v ===== *)
(** * Programming the self test from the host

    Models [setup_inverters], [hw_memset] and the setup of [hw_memtest] of
    [src/rowhammer_tester/scripts/utils.py]: which registers and pattern memories
    of the BIST modules they write, on which conditions they stop, and that the
    resulting configuration makes the gateware of [Bist] cover the memory range
    asked for.  The complete programs, which also poll the busy hardware, are in
    [BistHost]. *)

From S2P Require Import Prelude Bist BistFacts.

(** ** State of a BIST module as the host sees it *)
Record module := Module_ {
  csr : bist_csr;
  pattern_data : Z → Z;      (* pattern memories *)
  pattern_addr : Z → Z;
}.
Record bist := Bist_ { writer : module; reader : module }.

(** [settings.phy], as far as used. *)
Record phy_settings := PhySettings { dfi_databits : Z; nphases : Z }.

(** The value of a pattern memory entry after [n] words of 32 bits with the same
    value were written to it. *)
Fixpoint repeat_word (n : nat) (w : Z) : Z :=
  match n with O => 0 | S n' => w + 2 ^ 32 * repeat_word n' w end.

Definition set_entry0 (v : Z) (m : Z → Z) : Z → Z := fun a => if a =? 0 then v else m a.

Definition set_pattern (pattern nbytes offset : Z) (m : module) : module :=
  Module_ (csr m)
    (set_entry0 (repeat_word (Z.to_nat (nbytes / 4)) pattern) (pattern_data m))
    (set_entry0 (offset / nbytes) (pattern_addr m)).

(** [mem_mask], [data_mask] and [count] (32-bit registers). *)
Definition set_range (count : Z) (m : module) : module :=
  let c := csr m in
  Module_ (BistCsr (modulo c) (trunc 32 count) 4294967295 0 (data_div c) (divisor_mask c) (selection_mask c))
    (pattern_data m) (pattern_addr m).

(** Registers [divisor_mask] ([rowbits] wide) and [selection_mask] (one bit per
    value of the row bits). *)
Definition set_inverter (rowbits divisor mask : Z) (m : module) : module :=
  let c := csr m in
  Module_ (BistCsr (modulo c) (count c) (mem_mask c) (data_mask c) (data_div c)
             (trunc rowbits (divisor - 1)) (trunc (2 ^ rowbits) mask))
    (pattern_data m) (pattern_addr m).

Definition setup_inverters (rowbits divisor mask : Z) (b : bist) : result bist :=
  passert (Z.land divisor (divisor - 1) =? 0) ;;
  Ok (Bist_ (set_inverter rowbits divisor mask (writer b)) (set_inverter rowbits divisor mask (reader b))).

(** The common start of [hw_memset] and [hw_memtest]: number of bytes of a DMA
    word and the 32-bit pattern. *)
Definition check_args (phy : phy_settings) (size : Z) (patterns : list Z) : result (Z * Z) :=
  let nbytes := dfi_databits phy * nphases phy / 8 in
  if nbytes =? 0 then Raise ZeroDivisionError
  else
    passert (size mod nbytes =? 0) ;;
    passert (length patterns =? 1) ;;
    p ← of_option IndexError (patterns !! 0%nat);
    Ok (nbytes, Z.land p 4294967295).

(** [hw_memset] up to the start of the writer; [ready] is [writer_ready]. *)
Definition hw_memset (phy : phy_settings) (offset size : Z) (patterns : list Z) (ready : Z) (b : bist)
    : result bist :=
  a ← check_args phy size patterns;
  let '(nbytes, pattern) := a in
  passert (ready =? 1) ;;
  Ok (Bist_ (set_range (size / nbytes) (set_pattern pattern nbytes offset (writer b)))
        (set_pattern pattern nbytes offset (reader b))).

(** [hw_memtest] up to the start of the reader; [ready] is [reader_ready]. *)
Definition hw_memtest (phy : phy_settings) (offset size : Z) (patterns : list Z) (ready : Z) (b : bist)
    : result bist :=
  a ← check_args phy size patterns;
  let '(nbytes, pattern) := a in
  passert (ready =? 1) ;;
  Ok (Bist_ (set_pattern pattern nbytes offset (writer b))
        (set_range (size / nbytes) (set_pattern pattern nbytes offset (reader b)))).

(** ** The configured transfers *)
Lemma check_args_ok phy size p nbytes pattern :
  check_args phy size [p] = Ok (nbytes, pattern) →
  nbytes = dfi_databits phy * nphases phy / 8 ∧ size mod nbytes = 0 ∧ pattern = p mod 2 ^ 32.
Proof.
  unfold check_args. destruct (Z.eqb_spec (dfi_databits phy * nphases phy / 8) 0); [done|].
  intros (u & Hu & H)%bind_ok_inv. apply passert_ok_inv in Hu.
  change (passert (length [p] =? 1)) with (Ok tt) in H. rewrite ok_bind in H.
  change (of_option IndexError ([p] !! 0%nat)) with (Ok p) in H. rewrite ok_bind in H.
  injection H as <- <-. split_and!; [done|lia|]. change 4294967295 with (Z.ones 32). by rewrite Z.land_ones.
Qed.

(** A module that is set to one pattern word, from DMA address [start] on. *)
Record single_pattern (cfg : bist_cfg) (start n v : Z) (m : module) : Prop := {
  sp_modulo : modulo (csr m) = false;
  sp_count : count (csr m) = n;
  sp_mem_mask : mem_mask (csr m) = 4294967295;
  sp_data_mask : data_mask (csr m) = 0;
  sp_data : pattern_data m 0 = v;
  sp_addr : pattern_addr m 0 = start;
}.

Section single.
Context {M : Migen} (cfg : bist_cfg) (start n v : Z) (m : module).
Context (Hsp : single_pattern cfg start n v m).
Context (Hn : 0 ≤ n < 2 ^ 32) (Hs : 0 ≤ start) (Hw : start + n ≤ 2 ^ addr_width cfg).

Lemma single_index k : pattern_index cfg (csr m) k = 0.
Proof using Hsp. unfold pattern_index. rewrite (sp_modulo _ _ _ _ _ Hsp), (sp_data_mask _ _ _ _ _ Hsp). apply Z.land_0_r. Qed.

Lemma single_address k : 0 ≤ k < n → transfer_address cfg (csr m) (pattern_addr m) k = start + k.
Proof using Hsp Hn Hs Hw.
  intros Hk. unfold transfer_address. rewrite single_index, (sp_addr _ _ _ _ _ Hsp), (sp_mem_mask _ _ _ _ _ Hsp).
  change 4294967295 with (2 ^ 32 - 1). rewrite land_mask_small by lia. apply trunc_small. lia.
Qed.

(** The addresses written or read, in order. *)
Definition range_addresses : list Z := (fun k : nat => start + Z.of_nat k) <$> seq 0 (Z.to_nat n).

Lemma single_addresses : addresses cfg (csr m) (pattern_addr m) n = range_addresses.
Proof using Hsp Hn Hs Hw.
  unfold addresses, range_addresses. apply list_fmap_ext. intros i k Hk%lookup_seq.
  cbn. apply single_address. lia.
Qed.

Lemma single_transfers :
  transfers cfg (csr m) (pattern_data m) (pattern_addr m) n
  = (fun a => (a, inverted cfg (csr m) a v)) <$> range_addresses.
Proof using Hsp Hn Hs Hw.
  unfold transfers, range_addresses. rewrite <- list_fmap_compose. apply list_fmap_ext. intros i k Hk%lookup_seq.
  unfold compose, transfer. by rewrite single_index, single_address, (sp_data _ _ _ _ _ Hsp) by lia.
Qed.
End single.

Lemma range_addresses_nodup start n : NoDup (range_addresses start n).
Proof. apply NoDup_fmap_2; [|apply NoDup_seq]. intros i j. lia. Qed.

Lemma setup_inverters_ok rowbits divisor mask b b' :
  setup_inverters rowbits divisor mask b = Ok b' →
  b' = Bist_ (set_inverter rowbits divisor mask (writer b)) (set_inverter rowbits divisor mask (reader b)).
Proof. intros (u & _ & H)%bind_ok_inv. by injection H as <-. Qed.

Lemma hw_memset_ok phy offset size p b b' :
  let nbytes := dfi_databits phy * nphases phy / 8 in
  hw_memset phy offset size [p] 1 b = Ok b' →
  b' = Bist_ (set_range (size / nbytes) (set_pattern (p mod 2 ^ 32) nbytes offset (writer b)))
         (set_pattern (p mod 2 ^ 32) nbytes offset (reader b)).
Proof.
  intros nbytes ([n pat] & Ha & H)%bind_ok_inv. apply check_args_ok in Ha as (-> & _ & ->).
  change (passert (1 =? 1)) with (Ok tt) in H. rewrite ok_bind in H. by injection H as <-.
Qed.

Lemma hw_memtest_ok phy offset size p b b' :
  let nbytes := dfi_databits phy * nphases phy / 8 in
  hw_memtest phy offset size [p] 1 b = Ok b' →
  b' = Bist_ (set_pattern (p mod 2 ^ 32) nbytes offset (writer b))
         (set_range (size / nbytes) (set_pattern (p mod 2 ^ 32) nbytes offset (reader b))).
Proof.
  intros nbytes ([n pat] & Ha & H)%bind_ok_inv. apply check_args_ok in Ha as (-> & _ & ->).
  change (passert (1 =? 1)) with (Ok tt) in H. rewrite ok_bind in H. by injection H as <-.
Qed.

(** The configuration after the three functions. *)
Lemma host_setup cfg phy offset size p divisor mask b0 b1 b2 b3 :
  let nbytes := dfi_databits phy * nphases phy / 8 in
  let v := repeat_word (Z.to_nat (nbytes / 4)) (p mod 2 ^ 32) in
  0 ≤ size / nbytes < 2 ^ 32 → 0 ≤ rowbits cfg →
  modulo (csr (writer b0)) = false → modulo (csr (reader b0)) = false →
  0 ≤ data_div (csr (writer b0)) < 2 ^ mask_bits cfg → 0 ≤ data_div (csr (reader b0)) < 2 ^ mask_bits cfg →
  setup_inverters (rowbits cfg) divisor mask b0 = Ok b1 →
  hw_memset phy offset size [p] 1 b1 = Ok b2 →
  hw_memtest phy offset size [p] 1 b2 = Ok b3 →
  single_pattern cfg (offset / nbytes) (size / nbytes) v (writer b2) ∧ csr_ok cfg (csr (writer b2))
  ∧ single_pattern cfg (offset / nbytes) (size / nbytes) v (reader b3) ∧ csr_ok cfg (csr (reader b3))
  ∧ divisor_mask (csr (writer b2)) = divisor_mask (csr (reader b3))
  ∧ selection_mask (csr (writer b2)) = selection_mask (csr (reader b3)).
Proof.
  intros nbytes v Hn Hrb Hmw Hmr Hdw Hdr ->%setup_inverters_ok ->%hw_memset_ok ->%hw_memtest_ok.
  fold nbytes. pose proof (trunc_bound (rowbits cfg) (divisor - 1) Hrb).
  split_and!; [split|split|split|split|done|done]; cbn; try done; rewrite ?(trunc_small 32) by done; try done; lia.
Qed.

Lemma inverted_ext {M : Migen} cfg c1 c2 a v :
  divisor_mask c1 = divisor_mask c2 → selection_mask c1 = selection_mask c2 →
  inverted cfg c1 a v = inverted cfg c2 a v.
Proof. intros Hd Hs. unfold inverted, row_selected. by rewrite Hd, Hs. Qed.

(** Memory set by [hw_memset] and tested by [hw_memtest].  With the inverters set up
    by [setup_inverters], the writer fills exactly the DMA words of the range
    with the pattern (inverted in the selected rows), and a test of the same
    range and pattern, after any change of the memory, reports exactly the words
    of the range that changed. *)
Theorem memset_memtest_detects {M : Migen} cfg phy offset size p divisor mask b0 b1 b2 b3
    ws sr wins m0 m rs i0 rins :
  let nbytes := dfi_databits phy * nphases phy / 8 in
  let n := size / nbytes in
  let start := offset / nbytes in
  0 ≤ offset → 0 < nbytes → 0 ≤ n < 2 ^ 32 → start + n ≤ 2 ^ addr_width cfg → 0 ≤ rowbits cfg →
  modulo (csr (writer b0)) = false → modulo (csr (reader b0)) = false →
  0 ≤ data_div (csr (writer b0)) < 2 ^ mask_bits cfg → 0 ≤ data_div (csr (reader b0)) < 2 ^ mask_bits cfg →
  setup_inverters (rowbits cfg) divisor mask b0 = Ok b1 →
  hw_memset phy offset size [p] 1 b1 = Ok b2 →
  hw_memtest phy offset size [p] 1 b2 = Ok b3 →
  let W := writer b2 in let R := reader b3 in
  w_fsm ws = W_READY → no_start wins → r_fsm rs = R_READY → r_start i0 = true →
  inputs_ok cfg (csr R) (pattern_data R) (transfer_address cfg (csr R) (pattern_addr R))
    (fun k => m (transfer_address cfg (csr R) (pattern_addr R) k)) rins
    (reader_cycle cfg (csr R) (pattern_data R) i0 rs).2 →
  let w := writer_run cfg (csr W) (pattern_data W) (pattern_addr W) (WriterIn true sr :: wins) ws in
  let r := reader_run cfg (csr R) (pattern_data R) (i0 :: rins) rs in
  w_fsm w.2 = W_READY → r_fsm r.2 = R_READY →
  let m1 := fill w.1 m0 in
  w.1 = ((fun a => (a, inverted cfg (csr W) a (repeat_word (Z.to_nat (nbytes / 4)) (p mod 2 ^ 32))))
           <$> range_addresses start n)
  ∧ r.1 = ((fun a => (a, m a, m1 a)) <$> filter (fun a => m a ≠ m1 a) (range_addresses start n))
  ∧ error_count r.2 = length r.1.
Proof.
  intros nbytes n start Hoff Hnb Hn Hw Hrb Hmw Hmr Hdw Hdr Hinv Hset Htest W R Hws Hns Hrs Hi0 Hin w r Hwr Hrr m1.
  destruct (host_setup cfg phy offset size p divisor mask b0 b1 b2 b3 Hn Hrb Hmw Hmr Hdw Hdr Hinv Hset Htest)
    as (HW & HokW & HR & HokR & Hdm & Hsm).
  fold nbytes n start W R in HW, HokW, HR, HokR, Hdm, Hsm.
  assert (0 ≤ start) as Hst by (apply Z.div_pos; lia).
  assert (w.1 = transfers cfg (csr W) (pattern_data W) (pattern_addr W) n) as Hwt.
  { unfold w in *. rewrite writer_ready_transfers by done. by rewrite (sp_count _ _ _ _ _ HW). }
  rewrite (single_transfers _ _ _ _ _ HW Hn Hst Hw) in Hwt.
  destruct (reader_ready_errors cfg (csr R) (pattern_data R) (transfer_address cfg (csr R) (pattern_addr R))
    (fun k => m (transfer_address cfg (csr R) (pattern_addr R) k)) rs i0 rins HokR Hrs Hi0 Hin Hrr) as [He Hc].
  fold r in He, Hc. split_and!; [done| |done]. rewrite He.
  pose proof (single_addresses _ _ _ _ _ HR Hn Hst Hw) as HRa. rewrite <- (sp_count _ _ _ _ _ HR) in HRa.
  rewrite (errors_differences cfg (csr R) (pattern_data R) (pattern_addr R) HokR (sp_modulo _ _ _ _ _ HR)
    ltac:(rewrite (sp_data_mask _ _ _ _ _ HR); pose proof (signal_max_bits_pos (mem_depth cfg));
          unfold mask_bits; split; [lia|]; split; [done|]; apply pow2_pos; lia) m0 m
    ltac:(rewrite HRa; apply range_addresses_nodup)).
  unfold differences. cbv zeta. rewrite HRa, (sp_count _ _ _ _ _ HR).
  rewrite (single_transfers _ _ _ _ _ HR Hn Hst Hw). unfold m1. rewrite Hwt.
  assert ((fun a => (a, inverted cfg (csr R) a (repeat_word (Z.to_nat (nbytes / 4)) (p mod 2 ^ 32))))
            <$> range_addresses start n
          = (fun a => (a, inverted cfg (csr W) a (repeat_word (Z.to_nat (nbytes / 4)) (p mod 2 ^ 32))))
            <$> range_addresses start n) as ->; [|by rewrite ?(sp_count _ _ _ _ _ HR)].
  apply list_fmap_ext. intros _ a _. by rewrite (inverted_ext cfg (csr R) (csr W)).
Qed.

(** Three words from byte 32 on, in a selected row; the second one changes. *)
Definition demo_cfg : bist_cfg := BistCfg 4 24 32 5 3.
Definition demo_phy : phy_settings := PhySettings 16 2.
Definition demo_module : module := Module_ (BistCsr false 0 0 0 0 0 0) (fun a => 17 + a) (fun a => a).
Definition demo_bist0 : bist := Bist_ demo_module demo_module.
Definition demo_changed (a : Z) : Z := if a =? 9 then 7 else 1431655765.
Definition demo_in (k : Z) : reader_in := ReaderIn false true (8 + k) true (demo_changed (8 + k)) true false.
Definition demo_ins : list reader_in :=
  replicate 6 (demo_in 0) ++ replicate 6 (demo_in 1) ++ replicate 7 (demo_in 2).

Definition ok_or {A} (d : A) (r : result A) : A := match r with Ok a => a | Raise _ => d end.
Definition demo_bist1 : bist := ok_or demo_bist0 (setup_inverters 5 2 2 demo_bist0).
Definition demo_bist2 : bist := ok_or demo_bist0 (hw_memset demo_phy 32 12 [2863311530] 1 demo_bist1).
Definition demo_bist3 : bist := ok_or demo_bist0 (hw_memtest demo_phy 32 12 [2863311530] 1 demo_bist2).

Lemma memset_memtest_detects_witness :
  (reader_run demo_cfg (csr (reader demo_bist3)) (pattern_data (reader demo_bist3))
     (demo_reader_start :: demo_ins ++ [demo_in 3]) demo_reader).1 = [(9, 7, 1431655765)].
Proof.
  pose proof (memset_memtest_detects demo_cfg demo_phy 32 12 2863311530 2 2 demo_bist0 demo_bist1
    demo_bist2 demo_bist3 demo_writer true (replicate 22 (WriterIn false true)) (fun _ => 0) demo_changed
    demo_reader demo_reader_start (demo_ins ++ [demo_in 3])) as H.
  cbv zeta in H. destruct H as (_ & H & _).
  - vm_compute; congruence.
  - vm_compute; congruence.
  - vm_compute; intuition congruence.
  - vm_compute; congruence.
  - vm_compute; congruence.
  - reflexivity.
  - reflexivity.
  - vm_compute; intuition congruence.
  - vm_compute; intuition congruence.
  - reflexivity.
  - reflexivity.
  - reflexivity.
  - reflexivity.
  - by apply Forall_replicate.
  - reflexivity.
  - reflexivity.
  - vm_compute. intuition congruence.
  - vm_compute. reflexivity.
  - vm_compute. reflexivity.
  - etransitivity; [exact H|]. vm_compute. reflexivity.
Defined.
