(* ===== verification/BistBoard.v ===== *)
(** * The self test as a device

    Puts the gateware of [Bist] (writer, reader, error registers) together with
    the DRAM and LiteX's error FIFO to a board that the host reaches through
    registers: an instance of [Device].  The FIFO, the times at which the DRAM's
    DMA engines accept and deliver words, and the number of cycles that an access
    of the host or a sleep takes are parameters.  The stream of addresses that
    the reader's address FSM requests is given by [transfer_address] (see
    [BistFacts.reader_requests_pattern]). *)

From S2P Require Import Prelude Bist BistFacts HostBist Device.
#[local] Open Scope Z_scope.

(** LiteX's [SyncFIFO]: what is in it comes out in order, an empty FIFO accepts
    a word, and a word that is inside is presented after a bounded number of
    cycles. *)
Class Fifo (A : Type) := {
  fifo : Type;
  f_ready : fifo → bool;                          (* sink.ready *)
  f_head : fifo → option A;                       (* source.valid and payload *)
  f_step : option A → bool → fifo → fifo;         (* sink.valid and payload, source.ready *)
  content : fifo → list A;
  f_wait : fifo → nat;                            (* cycles until the head is presented *)
  fifo_depth : nat;
  fifo_latency : nat;
  head_content : ∀ f e, f_head f = Some e → ∃ l, content f = e :: l;
  step_content : ∀ push pop f,
    content (f_step push pop f)
    = (if pop && bool_decide (is_Some (f_head f)) then tail (content f) else content f)
      ++ (if f_ready f then option_list push else []);
  empty_ready : ∀ f, content f = [] → f_ready f = true;
  wait_step : ∀ push pop f, f_head f = None → content f ≠ [] → (f_wait (f_step push pop f) < f_wait f)%nat;
  wait_bound : ∀ f, (f_wait f ≤ fifo_latency)%nat;
  depth_bound : ∀ f, (length (content f) ≤ fifo_depth)%nat;
}.

(** Cycles in which a DMA engine is ready (accepts or delivers a word): never more
    than [bound] cycles apart. *)
Record supply := Supply {
  avail : nat → bool;
  wait : nat → nat;
  bound : nat;
  wait_le : ∀ t, (wait t ≤ bound)%nat;
  wait_dec : ∀ t, avail t = false → (wait (S t) < wait t)%nat;
}.

(** The DMA engines, and the cycles that pass for the host. *)
Class Timing_ := {
  write_ready : supply;          (* writer's DMA *)
  address_valid : supply;        (* reader's address FIFO *)
  data_valid : supply;           (* reader's DMA *)
  access_cycles : nat;
  sleep_cycles : nat;
}.

(** Writes to a pattern memory; [wb.write(wb.mems.<name>.base, words)]. *)
Class MemWrite `{Device} := mem_write : string → list Z → host unit.

(** ** The board *)
Section board.
Context {M : Migen} (cfg : bist_cfg) {F : Fifo (Z * Z * Z)} {T : Timing_}.

Record board := Board {
  bd_time : nat;
  bd_bist : bist;                (* registers and pattern memories *)
  bd_skip : bool;
  bd_mem : Z → Z;                (* DRAM, by DMA address *)
  bd_w : writer_regs;
  bd_r : reader_regs;
  bd_fifo : fifo;
  bd_err : error_regs;
}.

(** Address of word [k] of the reader. *)
Definition read_address (b : board) (k : Z) : Z :=
  transfer_address cfg (csr (reader (bd_bist b))) (pattern_addr (reader (bd_bist b))) k.

(** The address FIFO holds its head until the word is taken. *)
Definition reader_input (start : bool) (b : board) : reader_in :=
  let a := read_address b (counter_gen (bd_r b)) in
  ReaderIn start
    (bool_decide (r_fsm (bd_r b) = R_INVERT_COMPUTE) || bool_decide (r_fsm (bd_r b) = R_RD_DATA)
     || avail address_valid (bd_time b))
    a (avail data_valid (bd_time b)) (bd_mem b a) (f_ready (bd_fifo b)) (bd_skip b).

Definition error_input (cont : bool) (b : board) : error_in :=
  ErrorIn (bool_decide (is_Some (f_head (bd_fifo b)))) (default (0, 0, 0)%Z (f_head (bd_fifo b))) cont (bd_skip b).

Definition board_cycle (w_start r_start cont : bool) (b : board) : board :=
  let W := writer (bd_bist b) in let R := reader (bd_bist b) in
  let '(x, w') := writer_cycle cfg (csr W) (pattern_data W) (pattern_addr W)
                    (WriterIn w_start (avail write_ready (bd_time b))) (bd_w b) in
  let '(o, r') := reader_cycle cfg (csr R) (pattern_data R) (reader_input r_start b) (bd_r b) in
  let '(pop, e') := error_cycle (error_input cont b) (bd_err b) in
  Board (S (bd_time b)) (bd_bist b) (bd_skip b)
    (match x with Some (a, v) => fun a' => if a' =? a then v else bd_mem b a' | None => bd_mem b end)
    w' r' (f_step (r_error o) pop (bd_fifo b)) e'.

Fixpoint idle (n : nat) (b : board) : board :=
  match n with O => b | S n' => idle n' (board_cycle false false false b) end.

(** ** Registers *)
Definition b2z (b : bool) : Z := if b then 1 else 0.

(** [error_offset] is 32 bits wide as [mem_mask]. *)
Definition sample (r : string) (b : board) : Z :=
  let '(offset, data, expected) := error_reg (bd_err b) in
  if decide (r = "writer_ready"%string) then b2z (bool_decide (w_fsm (bd_w b) = W_READY))
  else if decide (r = "writer_done"%string) then cmd_counter (bd_w b)
  else if decide (r = "reader_ready"%string) then b2z (bool_decide (r_fsm (bd_r b) = R_READY))
  else if decide (r = "reader_done"%string) then counter_gen (bd_r b)
  else if decide (r = "reader_error_ready"%string) then b2z (e_valid (bd_err b))
  else if decide (r = "reader_error_offset"%string) then offset
  else if decide (r = "reader_error_data"%string) then data
  else if decide (r = "reader_error_expected"%string) then expected
  else 0.

Definition set_csr (f : bist_csr → bist_csr) (m : module) : module := Module_ (f (csr m)) (pattern_data m) (pattern_addr m).
Definition set_count (v : Z) (c : bist_csr) : bist_csr :=
  BistCsr (modulo c) (trunc 32 v) (mem_mask c) (data_mask c) (data_div c) (divisor_mask c) (selection_mask c).
Definition set_mem_mask (v : Z) (c : bist_csr) : bist_csr :=
  BistCsr (modulo c) (count c) (trunc 32 v) (data_mask c) (data_div c) (divisor_mask c) (selection_mask c).
Definition set_data_mask (v : Z) (c : bist_csr) : bist_csr :=
  BistCsr (modulo c) (count c) (mem_mask c) (trunc (mask_bits cfg) v) (data_div c) (divisor_mask c) (selection_mask c).

Definition set_modulo (v : bool) (c : bist_csr) : bist_csr :=
  BistCsr v (count c) (mem_mask c) (data_mask c) (data_div c) (divisor_mask c) (selection_mask c).
Definition set_data_div (v : Z) (c : bist_csr) : bist_csr :=
  BistCsr (modulo c) (count c) (mem_mask c) (data_mask c) (trunc (mask_bits cfg) v) (divisor_mask c) (selection_mask c).
Definition set_divisor_mask (v : Z) (c : bist_csr) : bist_csr :=
  BistCsr (modulo c) (count c) (mem_mask c) (data_mask c) (data_div c) (trunc (rowbits cfg) v) (selection_mask c).
Definition set_selection_mask (v : Z) (c : bist_csr) : bist_csr :=
  BistCsr (modulo c) (count c) (mem_mask c) (data_mask c) (data_div c) (divisor_mask c) (trunc (2 ^ rowbits cfg) v).

Definition on_writer (f : module → module) (b : bist) : bist := Bist_ (f (writer b)) (reader b).
Definition on_reader (f : module → module) (b : bist) : bist := Bist_ (writer b) (f (reader b)).

Definition set_bist (f : bist → bist) (b : board) : board :=
  Board (bd_time b) (f (bd_bist b)) (bd_skip b) (bd_mem b) (bd_w b) (bd_r b) (bd_fifo b) (bd_err b).
Definition set_skip (v : bool) (b : board) : board :=
  Board (bd_time b) (bd_bist b) v (bd_mem b) (bd_w b) (bd_r b) (bd_fifo b) (bd_err b).

(** Damage to the memory, as by an attack. *)
Definition set_mem (m : Z → Z) (b : board) : board :=
  Board (bd_time b) (bd_bist b) (bd_skip b) m (bd_w b) (bd_r b) (bd_fifo b) (bd_err b).

(** [start] and [error_continue] act for one cycle. *)
Definition poke (r : string) (v : Z) (b : board) : board :=
  if decide (r = "writer_start"%string) then board_cycle true false false b
  else if decide (r = "reader_start"%string) then board_cycle false true false b
  else if decide (r = "reader_error_continue"%string) then board_cycle false false true b
  else if decide (r = "reader_skip_fifo"%string) then set_skip (Z.odd v) b
  else if decide (r = "writer_count"%string) then set_bist (on_writer (set_csr (set_count v))) b
  else if decide (r = "writer_mem_mask"%string) then set_bist (on_writer (set_csr (set_mem_mask v))) b
  else if decide (r = "writer_data_mask"%string) then set_bist (on_writer (set_csr (set_data_mask v))) b
  else if decide (r = "reader_count"%string) then set_bist (on_reader (set_csr (set_count v))) b
  else if decide (r = "reader_mem_mask"%string) then set_bist (on_reader (set_csr (set_mem_mask v))) b
  else if decide (r = "reader_data_mask"%string) then set_bist (on_reader (set_csr (set_data_mask v))) b
  else if decide (r = "reader_modulo"%string) then set_bist (on_reader (set_csr (set_modulo (Z.odd v)))) b
  else if decide (r = "reader_data_div"%string) then set_bist (on_reader (set_csr (set_data_div v))) b
  else if decide (r = "writer_inverter_divisor_mask"%string) then set_bist (on_writer (set_csr (set_divisor_mask v))) b
  else if decide (r = "reader_inverter_divisor_mask"%string) then set_bist (on_reader (set_csr (set_divisor_mask v))) b
  else if decide (r = "writer_inverter_selection_mask"%string) then set_bist (on_writer (set_csr (set_selection_mask v))) b
  else if decide (r = "reader_inverter_selection_mask"%string) then set_bist (on_reader (set_csr (set_selection_mask v))) b
  else b.

#[local] Instance bist_device : Device := {|
  dev := board;
  reg_read r b := (sample r b, idle access_cycles b);
  reg_write r v b := idle access_cycles (poke r v b);
  has_reg _ := true;
  elapse := idle sleep_cycles;
|}.

(** A number from 32-bit words, and writing words to a memory whose entries have [w]
    words each. *)
Definition of_words (l : list Z) : Z := foldr (fun w acc => w mod 2 ^ 32 + 2 ^ 32 * acc) 0 l.
Definition write_words (w : nat) (l : list Z) (m : Z → Z) : Z → Z := fun a =>
  if (0 <=? a) && (a * Z.of_nat w <? Z.of_nat (length l)) then
    of_words ((fun i => default (m a / 2 ^ (32 * Z.of_nat i) mod 2 ^ 32) (l !! (Z.to_nat a * w + i)%nat)) <$> seq 0 w)
  else m a.

(** Words of a pattern; an address is one word. *)
Definition data_words : nat := Z.to_nat (data_width cfg / 32).
Definition set_data (l : list Z) (m : module) : module := Module_ (csr m) (write_words data_words l (pattern_data m)) (pattern_addr m).
Definition set_addr (l : list Z) (m : module) : module := Module_ (csr m) (pattern_data m) (write_words 1 l (pattern_addr m)).

Definition poke_mem (r : string) (l : list Z) (b : board) : board :=
  if decide (r = "writer_pattern_data"%string) then set_bist (on_writer (set_data l)) b
  else if decide (r = "writer_pattern_addr"%string) then set_bist (on_writer (set_addr l)) b
  else if decide (r = "reader_pattern_data"%string) then set_bist (on_reader (set_data l)) b
  else if decide (r = "reader_pattern_addr"%string) then set_bist (on_reader (set_addr l)) b
  else b.

#[local] Instance bist_mem_write : MemWrite := fun r l b => (Done tt, idle access_cycles (poke_mem r l b)).
End board.

Lemma seq_lookups {A} (l : list A) (f : nat → A) : (fun i => default (f i) (l !! i)) <$> seq 0 (length l) = l.
Proof.
  apply list_eq. intros i. rewrite list_lookup_fmap. destruct (decide (i < length l)%nat) as [Hi|Hi].
  - rewrite lookup_seq_lt by done. cbn. destruct (lookup_lt_is_Some_2 l i Hi) as [x ->]. done.
  - rewrite lookup_seq_ge, lookup_ge_None_2 by lia. done.
Qed.

(** One whole entry. *)
Lemma write_words_0 l m : l ≠ [] → write_words (length l) l m 0 = of_words l.
Proof.
  intros Hne. unfold write_words. rewrite (proj2 (Z.ltb_lt _ _)) by (destruct l; cbn; [done|lia]).
  change (Z.to_nat 0 * length l)%nat with 0%nat. cbn [Z.leb Z.compare andb Nat.add]. by rewrite seq_lookups.
Qed.
