(* ===== verification/BistBoardFacts.v ===== *)
(** * The self test as a device: invariants and progress

    A scan of the reader that is observed by the host: no error is lost between
    the comparison and the registers, every cycle makes progress unless the
    error FIFO is full, and an error that waits in the FIFO is presented after a
    few cycles. *)

From S2P Require Import Prelude Bist BistFacts HostBist Device BistBoard.
#[local] Open Scope Z_scope.

Section facts.
Context {M : Migen} (cfg : bist_cfg) {F : Fifo (Z * Z * Z)} {T : Timing_}.
Abbreviation cycle := (board_cycle cfg).
Abbreviation idle := (idle cfg).

Lemma idle_add a n b : idle (a + n) b = idle n (idle a b).
Proof. revert b; induction a as [|a IH]; intros b; [done|]. apply IH. Qed.

(** The errors that were compared but not yet acknowledged by the host. *)
Definition waiting (b : board) : list (Z * Z * Z) :=
  (if e_valid (bd_err b) then [error_reg (bd_err b)] else []) ++ content (bd_fifo b).

(** ** The error registers *)

(** A cycle of FIFO and registers without skipping: errors move on, and an
    acknowledged error leaves. *)
Lemma error_step cont b push :
  bd_skip b = false →
  let '(pop, e') := error_cycle (error_input cont b) (bd_err b) in
  let f' := f_step push pop (bd_fifo b) in
  waiting b ++ (if f_ready (bd_fifo b) then option_list push else [])
  = (if cont && e_valid (bd_err b) then [error_reg (bd_err b)] else [])
    ++ (if e_valid e' then [error_reg e'] else []) ++ content f'.
Proof.
  intros Hskip. unfold error_cycle, error_input, waiting. cbn [es_valid es_error e_ready e_skip]. rewrite Hskip. cbn [negb].
  destruct (f_head (bd_fifo b)) as [e|] eqn:Eh; cbn [default].
  - destruct (head_content _ _ Eh) as [l El].
    rewrite bool_decide_true by eauto. destruct (e_valid (bd_err b)) eqn:Ev, cont; cbn [negb andb e_valid error_reg];
      rewrite step_content, Eh, ?Ev, ?bool_decide_true by eauto; rewrite El; cbn [andb tail app]; by rewrite <- ?app_assoc.
  - rewrite bool_decide_false by (intros [? ?]; done).
    destruct (e_valid (bd_err b)) eqn:Ev, cont; cbn [negb andb e_valid error_reg];
      rewrite step_content, Eh, ?Ev, ?(bool_decide_false (is_Some None)) by (intros [? ?]; done); cbn [andb app]; by rewrite ?andb_false_r, <- ?app_assoc.
Qed.

(** A presented error stays until it is acknowledged. *)
Lemma error_stable b :
  e_valid (bd_err b) = true → bd_err (cycle false false false b) = bd_err b.
Proof.
  intros Ev. unfold board_cycle. destruct (writer_cycle _ _ _ _ _ _). destruct (reader_cycle _ _ _ _ _).
  unfold error_cycle, error_input. rewrite Ev. cbn. by destruct (bd_err b).
Qed.

Lemma error_stable_idle n b : e_valid (bd_err b) = true → bd_err (idle n b) = bd_err b.
Proof.
  revert b; induction n as [|n IH]; intros b Ev; [done|]. cbn [BistBoard.idle].
  rewrite IH by by rewrite error_stable. by apply error_stable.
Qed.
End facts.

(** ** A scan *)
Section scan.
Context {M : Migen} (cfg : bist_cfg) {F : Fifo (Z * Z * Z)} {T : Timing_}.
Context (B : bist) (m : Z → Z) (Hok : csr_ok cfg (csr (reader B))).
Abbreviation cycle := (board_cycle cfg).
Abbreviation idle := (idle cfg).
Abbreviation R := (reader B).
Abbreviation addrs := (transfer_address cfg (csr R) (pattern_addr R)).
Abbreviation datas := (fun k => m (addrs k)).
Abbreviation rinv := (reader_inv cfg (csr R) (pattern_data R) addrs datas).
Abbreviation rep := (reported cfg (csr R) (pattern_data R) addrs datas).

(** The errors of the memory, in the order of the scan. *)
Definition scan_errors : list (Z * Z * Z) := errors cfg (csr R) (pattern_data R) addrs datas (count (csr R)).

Record scanning (errs : list (Z * Z * Z)) (b : board) : Prop := {
  sc_bist : bd_bist b = B;
  sc_mem : bd_mem b = m;
  sc_skip : bd_skip b = false;
  sc_writer : w_fsm (bd_w b) = W_READY;
  sc_reader : rinv (bd_r b);
  sc_errors : errs ++ waiting b = rep (bd_r b);
}.

Definition ready (b : board) : Prop := r_fsm (bd_r b) = R_READY.

(** The reader's remaining states, and cycles to wait for a word. *)
Definition reader_work (s : reader_regs) : Z :=
  let n := 7 * (count (csr R) - counter_gen s) in
  match r_fsm s with
  | R_READY => 0
  | R_COMPUTE_MEM_ADDR => n + 1
  | R_WAIT_FOR_DRAM_ADDR => n
  | R_INVERT_COMPUTE => n - 1 - r_wait s
  | R_RD_DATA => n - 4
  | R_WR_ERR => n + 2
  end.

Definition max_wait : Z := Z.max (bound address_valid) (bound data_valid).
Definition word_wait (b : board) : Z :=
  match r_fsm (bd_r b) with
  | R_WAIT_FOR_DRAM_ADDR => wait address_valid (bd_time b)
  | R_RD_DATA => wait data_valid (bd_time b)
  | _ => 0
  end.
Definition remaining (b : board) : Z := reader_work (bd_r b) * (max_wait + 1) + word_wait b.

(** The reader waits for the error FIFO. *)
Definition stalled (b : board) : Prop := r_fsm (bd_r b) = R_WR_ERR ∧ f_ready (bd_fifo b) = false.

Lemma writer_idle cfg' c dm am sr w :
  w_fsm w = W_READY →
  (writer_cycle cfg' c dm am (WriterIn false sr) w).1 = None
  ∧ w_fsm (writer_cycle cfg' c dm am (WriterIn false sr) w).2 = W_READY.
Proof. intros E. unfold writer_cycle, writer_next, writer_transfer. rewrite E. done. Qed.

Lemma scan_input_ok b : bd_bist b = B → bd_mem b = m → bd_skip b = false →
  input_ok addrs datas (bd_r b) (reader_input cfg false b).
Proof.
  intros HB Hm Hs. unfold input_ok, reader_input, read_address. cbn. rewrite HB, Hm. split_and!; try done.
  intros [E|E]; rewrite E; done.
Qed.

Lemma scanning_step cont errs b :
  scanning errs b →
  scanning (errs ++ (if cont && e_valid (bd_err b) then [error_reg (bd_err b)] else [])) (cycle false false cont b)
  ∧ bd_r (cycle false false cont b) = (reader_cycle cfg (csr R) (pattern_data R) (reader_input cfg false b) (bd_r b)).2
  ∧ bd_time (cycle false false cont b) = S (bd_time b).
Proof using Hok.
  intros [HB Hm Hs Hw Hr He]. unfold board_cycle. rewrite HB.
  destruct (writer_idle cfg (csr (writer B)) (pattern_data (writer B)) (pattern_addr (writer B)) (avail write_ready (bd_time b)) (bd_w b) Hw) as [W1 W2].
  destruct (writer_cycle _ _ _ _ _ _) as [x w']. cbn [fst snd] in W1, W2. subst x.
  pose proof (reader_inv_step cfg (csr R) (pattern_data R) Hok addrs datas _ _ Hr (scan_input_ok b HB Hm Hs)) as Hstep.
  assert (r_error (reader_cycle cfg (csr R) (pattern_data R) (reader_input cfg false b) (bd_r b)).1
    = if f_ready (bd_fifo b) then r_error (reader_cycle cfg (csr R) (pattern_data R) (reader_input cfg false b) (bd_r b)).1 else None) as Epush.
  { unfold reader_cycle. destruct (r_fsm (bd_r b)); try (destruct (f_ready (bd_fifo b)); done).
    - destruct (rd_valid (reader_input cfg false b)); by destruct (f_ready (bd_fifo b)).
    - cbn. by destruct (f_ready (bd_fifo b)). }
  destruct (reader_cycle _ _ _ _ _) as [o r']. cbn [fst snd] in Epush |- *.
  pose proof (error_step cont b (r_error o) Hs) as Herr. destruct (error_cycle _ _) as [pop e'].
  destruct Hstep as [Hinv Hrep]. split_and!; [|done|done]. split; cbn; try done.
  rewrite <- Hrep, <- He, <- !app_assoc. f_equal. unfold waiting at 1. cbn. rewrite <- Herr. f_equal.
  destruct (f_ready (bd_fifo b)); [done|]. by rewrite Epush.
Qed.

Lemma reader_work_bound s : rinv s → 0 ≤ reader_work s ∧ (r_fsm s ≠ R_READY → 1 ≤ reader_work s).
Proof.
  intros (Hk & _ & _ & Hs). unfold reader_work. destruct (r_fsm s); try done; try (split; [lia|intros; lia]).
Qed.

Lemma reader_work_step b errs cont :
  scanning errs b → ¬ ready b → ¬ stalled b →
  let b' := cycle false false cont b in
  reader_work (bd_r b') < reader_work (bd_r b)
  ∨ (reader_work (bd_r b') = reader_work (bd_r b) ∧ word_wait b' < word_wait b).
Proof using Hok.
  intros Hsc Hnr Hns b'. destruct (scanning_step cont errs b Hsc) as (_ & Hr & Ht). fold b' in Hr, Ht.
  destruct Hsc as [HB Hm Hs Hw (Hk & _ & _ & Hf) _]. unfold ready, stalled in *. destruct Hok.
  unfold word_wait, reader_work. rewrite Hr, Ht. unfold reader_cycle. cbn zeta.
  destruct (r_fsm (bd_r b)) eqn:E; [done| | | | |].
  - destruct (Z.leb_spec (count (csr R)) (counter_gen (bd_r b))); cbn [snd r_fsm counter_gen]; lia.
  - unfold reader_input. cbn [af_valid]. rewrite E.
    rewrite !(bool_decide_false (R_WAIT_FOR_DRAM_ADDR = _)) by done. cbn [orb].
    destruct (avail address_valid (bd_time b)) eqn:Ea; cbn -[Z.mul]; [left; lia|right].
    pose proof (wait_dec _ _ Ea). lia.
  - destruct Hf as (? & _ & _ & [Hwt|([Hwt|Hwt] & _)]); rewrite Hwt; cbn -[Z.mul trunc];
      change (trunc 2 (0 + 1)) with 1; change (trunc 2 (1 + 1)) with 2; lia.
  - change (rd_valid (reader_input cfg false b)) with (avail data_valid (bd_time b)).
    change (skip_fifo (reader_input cfg false b)) with (bd_skip b). destruct (avail data_valid (bd_time b)) eqn:Ea.
    + left. destruct Hf as [Hlt _]. rewrite Hs. destruct (negb _); cbn [r_fsm snd counter_gen]; rewrite trunc_small by lia; lia.
    + right. cbn -[Z.mul]. pose proof (wait_dec _ _ Ea). lia.
  - unfold reader_input. cbn [ef_ready skip_fifo]. destruct (f_ready (bd_fifo b)) eqn:Er; [cbn -[Z.mul]; lia|]. exfalso. by apply Hns.
Qed.

Lemma word_wait_bound b : 0 ≤ word_wait b ≤ max_wait.
Proof.
  unfold word_wait, max_wait. pose proof (wait_le address_valid (bd_time b)). pose proof (wait_le data_valid (bd_time b)).
  destruct (r_fsm (bd_r b)); lia.
Qed.

(** A cycle brings the end of the scan nearer, unless the reader is stalled. *)
Lemma remaining_step errs cont b :
  scanning errs b →
  let b' := cycle false false cont b in
  remaining b' ≤ remaining b ∧ (¬ ready b → ¬ stalled b → remaining b' < remaining b) ∧ (ready b → ready b').
Proof using Hok.
  intros Hsc b'. destruct (scanning_step cont errs b Hsc) as (Hsc' & Hr & _). fold b' in Hsc', Hr.
  pose proof (word_wait_bound b). pose proof (word_wait_bound b').
  assert (ready b → ready b') as Hrdy.
  { unfold ready. intros E. rewrite Hr. unfold reader_cycle. by rewrite E. }
  assert (stalled b → reader_work (bd_r b') = reader_work (bd_r b) ∧ word_wait b' = 0) as Hst.
  { intros [E Er]. unfold word_wait, reader_work. rewrite Hr. unfold reader_cycle. rewrite E.
    change (ef_ready (reader_input cfg false b)) with (f_ready (bd_fifo b)). change (skip_fifo (reader_input cfg false b)) with (bd_skip b).
    rewrite Er, (sc_skip _ _ Hsc). done. }
  assert (¬ ready b → ¬ stalled b → remaining b' < remaining b) as Hlt.
  { intros H1 H2. unfold remaining. pose proof (reader_work_step b errs cont Hsc H1 H2) as Hw. fold b' in Hw.
    destruct Hw as [?|[E ?]]; [nia|]. rewrite E. lia. }
  split_and!; [|done|done].
  destruct (decide (r_fsm (bd_r b) = R_READY)) as [E|E].
  - specialize (Hrdy E). unfold remaining, word_wait, reader_work. unfold ready in Hrdy. rewrite E, Hrdy. lia.
  - destruct (decide (r_fsm (bd_r b) = R_WR_ERR ∧ f_ready (bd_fifo b) = false)) as [Es|Es].
    + destruct (Hst Es) as [E1 E2]. unfold remaining. rewrite E1, E2. lia.
    + specialize (Hlt E Es). lia.
Qed.

Lemma remaining_bound errs b : scanning errs b → 0 ≤ remaining b ∧ (¬ ready b → 1 ≤ remaining b).
Proof.
  intros Hsc. destruct (reader_work_bound _ (sc_reader _ _ Hsc)) as [H1 H2]. pose proof (word_wait_bound b).
  unfold remaining. split; [nia|]. intros Hn. specialize (H2 Hn). nia.
Qed.

Lemma scanning_idle errs n b :
  scanning errs b →
  scanning errs (idle n b) ∧ remaining (idle n b) ≤ remaining b ∧ (ready b → ready (idle n b))
  ∧ (¬ ready b → ¬ stalled b → (0 < n)%nat → remaining (idle n b) < remaining b).
Proof using Hok.
  revert b; induction n as [|n IH]; intros b Hsc; [split_and!; (done || lia)|]. cbn [BistBoard.idle].
  destruct (scanning_step false errs b Hsc) as (Hsc' & _ & _). cbn [andb] in Hsc'. rewrite app_nil_r in Hsc'.
  destruct (remaining_step errs false b Hsc) as (H1 & H2 & H3). destruct (IH _ Hsc') as (H4 & H5 & H6 & _).
  split_and!; [done|lia|auto|]. intros Hn Hs _. specialize (H2 Hn Hs). lia.
Qed.

(** An error that waits in the FIFO is presented. *)
Lemma presented_step b :
  bd_skip b = false → e_valid (bd_err b) = false → content (bd_fifo b) ≠ [] →
  let b' := cycle false false false b in
  e_valid (bd_err b') = true
  ∨ (content (bd_fifo b') ≠ [] ∧ (f_wait (bd_fifo b') < f_wait (bd_fifo b))%nat).
Proof.
  intros Hs Ev Hc. unfold board_cycle. destruct (writer_cycle _ _ _ _ _ _) as [x w']. destruct (reader_cycle _ _ _ _ _) as [o r'].
  unfold error_cycle, error_input. rewrite Ev, Hs. cbn [negb es_valid es_error e_skip].
  destruct (f_head (bd_fifo b)) as [e|] eqn:Eh.
  - rewrite bool_decide_true by eauto. by left.
  - rewrite bool_decide_false by (intros [? ?]; done). right. cbn [bd_fifo]. split; [|by apply wait_step].
    rewrite step_content. cbn [andb]. intros [? _]%app_eq_nil. done.
Qed.

Lemma presented errs n b :
  scanning errs b → e_valid (bd_err b) = true ∨ content (bd_fifo b) ≠ [] → (f_wait (bd_fifo b) < n)%nat →
  e_valid (bd_err (idle n b)) = true.
Proof using Hok.
  revert b; induction n as [|n IH]; intros b Hsc Hw Hn; [lia|].
  destruct (e_valid (bd_err b)) eqn:Ev; [by rewrite error_stable_idle|]. destruct Hw as [|Hc]; [done|]. cbn [BistBoard.idle].
  destruct (scanning_step false errs b Hsc) as (Hsc' & _ & _). cbn [andb] in Hsc'. rewrite app_nil_r in Hsc'.
  destruct (presented_step b (sc_skip _ _ Hsc) Ev Hc) as [Ev'|[Hc' Hw']].
  - by rewrite error_stable_idle.
  - apply IH; [done|by right|lia].
Qed.

(** After the reader has finished, an error that is not presented does not exist. *)
Definition settled (b : board) : Prop := e_valid (bd_err b) = true ∨ waiting b = [].

Lemma waiting_nil b : waiting b = [] → e_valid (bd_err b) = false ∧ content (bd_fifo b) = [].
Proof. unfold waiting. destruct (e_valid (bd_err b)); [done|]. done. Qed.

Lemma ready_all errs b : scanning errs b → ready b → errs ++ waiting b = scan_errors.
Proof.
  intros [_ _ _ _ (_ & _ & _ & Hf) He] Hr. unfold ready in Hr. rewrite He. unfold reported, scan_errors.
  rewrite Hr in *. by rewrite Z.sub_0_r, Hf.
Qed.

Lemma ready_settled errs n b :
  scanning errs b → ready b → (fifo_latency < n)%nat → settled (idle n b).
Proof using Hok.
  intros Hsc Hr Hn. destruct (decide (waiting b = [])) as [E|E].
  - right. destruct (scanning_idle errs n b Hsc) as (Hsc' & _ & Hr' & _).
    pose proof (ready_all _ _ Hsc Hr) as H1. pose proof (ready_all _ _ Hsc' (Hr' Hr)) as H2.
    rewrite <- H1, E in H2. by apply app_inv_head in H2.
  - left. apply (presented errs); [done| |pose proof (wait_bound (bd_fifo b)); lia].
    unfold waiting in E. destruct (e_valid (bd_err b)); [by left|by right].
Qed.

(** A while without acknowledgement: progress, or an error to read, or the end. *)
Lemma idle_progress errs n b :
  scanning errs b → (fifo_latency < n)%nat →
  remaining (idle n b) < remaining b ∨ e_valid (bd_err (idle n b)) = true ∨ ready b.
Proof using Hok.
  intros Hsc Hn. destruct (decide (r_fsm (bd_r b) = R_READY)) as [E|E]; [by do 2 right|].
  destruct (decide (r_fsm (bd_r b) = R_WR_ERR ∧ f_ready (bd_fifo b) = false)) as [[E1 E2]|Es].
  - right; left. apply (presented errs); [done| |pose proof (wait_bound (bd_fifo b)); lia].
    right. intros Hc%empty_ready. congruence.
  - left. apply (scanning_idle errs n b Hsc); [done|done|lia].
Qed.
End scan.

(** ** The board between operations *)
Section rest.
Context {M : Migen} (cfg : bist_cfg) {F : Fifo (Z * Z * Z)} {T : Timing_}.
Abbreviation cycle := (board_cycle cfg).
Abbreviation idle := (idle cfg).

Record quiet (B : bist) (m : Z → Z) (b : board) : Prop := {
  q_bist : bd_bist b = B;
  q_mem : bd_mem b = m;
  q_writer : w_fsm (bd_w b) = W_READY;
  q_reader : r_fsm (bd_r b) = R_READY;
}.

Definition at_rest (B : bist) (m : Z → Z) (b : board) : Prop :=
  quiet B m b ∧ bd_skip b = false ∧ waiting b = [].

Lemma quiet_step B m b :
  quiet B m b →
  let b' := cycle false false false b in
  let '(pop, e') := error_cycle (error_input false b) (bd_err b) in
  quiet B m b' ∧ bd_skip b' = bd_skip b ∧ bd_fifo b' = f_step None pop (bd_fifo b) ∧ bd_err b' = e'.
Proof.
  intros [HB Hm Hw Hr]. cbv zeta. unfold board_cycle.
  destruct (writer_idle cfg (csr (writer (bd_bist b))) (pattern_data (writer (bd_bist b))) (pattern_addr (writer (bd_bist b)))
    (avail write_ready (bd_time b)) (bd_w b) Hw) as [W1 W2].
  destruct (writer_cycle _ _ _ _ _ _) as [x w']. cbn [fst snd] in W1, W2. subst x.
  unfold reader_cycle. rewrite Hr. change (r_start (reader_input cfg false b)) with false.
  destruct (error_cycle _ _) as [pop e']. cbn. split_and!; done.
Qed.

Lemma at_rest_idle B m n b : at_rest B m b → at_rest B m (idle n b).
Proof.
  revert b; induction n as [|n IH]; intros b Hb; [done|]. apply IH. destruct Hb as (Hq & Hs & Hw).
  pose proof (quiet_step B m b Hq) as H. pose proof (error_step false b None Hs) as He. cbv zeta in H.
  destruct (error_cycle _ _) as [pop e']. destruct H as (Hq' & Hs' & Hf & Hr). split_and!; [done|by rewrite Hs'|].
  unfold waiting. rewrite Hf, Hr. cbn [andb app] in He. rewrite <- He, Hw. by destruct (f_ready (bd_fifo b)).
Qed.

(** *** Flushing the errors of an earlier scan *)
Definition drain (f : fifo) : nat :=
  match content f with [] => O | l => (length l * S fifo_latency + f_wait f)%nat end.

Lemma flush_step B m b :
  quiet B m b → bd_skip b = true → e_valid (bd_err b) = false →
  let b' := cycle false false false b in
  quiet B m b' ∧ bd_skip b' = true ∧ e_valid (bd_err b') = false
  ∧ (drain (bd_fifo b') ≤ drain (bd_fifo b) - 1)%nat.
Proof.
  intros Hq Hs Ev b'. pose proof (quiet_step B m b Hq) as H. cbv zeta in H. fold b' in H.
  destruct (error_cycle (error_input false b) (bd_err b)) as [pop e'] eqn:Ec.
  destruct H as (Hq' & Hs' & Hf & He). rewrite Hs', He, Hf. unfold error_cycle, error_input in Ec. rewrite Ev, Hs in Ec.
  cbn [negb es_valid e_skip] in Ec. unfold drain. rewrite step_content.
  assert ((if f_ready (bd_fifo b) then option_list None else []) = @nil (Z * Z * Z)) as -> by by destruct (f_ready (bd_fifo b)).
  rewrite app_nil_r. destruct (f_head (bd_fifo b)) as [e|] eqn:Eh.
  - rewrite bool_decide_true in Ec |- * by eauto. injection Ec as <- <-. split_and!; [done|done|done|].
    destruct (head_content _ _ Eh) as [l ->]. cbn [andb tail]. pose proof (wait_bound (f_step None true (bd_fifo b))).
    destruct l; cbn [length]; lia.
  - rewrite (bool_decide_false (is_Some None)) in Ec |- * by (intros [? ?]; done). injection Ec as <- <-.
    split_and!; [done|done|done|]. cbn [andb]. destruct (content (bd_fifo b)) as [|x l] eqn:El; [done|].
    pose proof (wait_step None false (bd_fifo b) Eh ltac:(by rewrite El)). lia.
Qed.

Lemma flush_idle B m n b :
  quiet B m b → bd_skip b = true → e_valid (bd_err b) = false →
  let b' := idle n b in
  quiet B m b' ∧ bd_skip b' = true ∧ e_valid (bd_err b') = false
  ∧ (drain (bd_fifo b') ≤ drain (bd_fifo b) - n)%nat.
Proof.
  revert b; induction n as [|n IH]; intros b Hq Hs Ev; [cbn [BistBoard.idle]; split_and!; (done || lia)|].
  destruct (flush_step B m b Hq Hs Ev) as (Hq' & Hs' & Ev' & Hd). cbn [BistBoard.idle].
  destruct (IH _ Hq' Hs' Ev') as (? & ? & ? & ?). split_and!; try done. lia.
Qed.

Lemma drain_bound f : (drain f ≤ fifo_depth * S fifo_latency + fifo_latency)%nat.
Proof. unfold drain. pose proof (depth_bound f). pose proof (wait_bound f). destruct (content f); [lia|]. nia. Qed.

Lemma drain_0 f : drain f = 0%nat → content f = [].
Proof. unfold drain. destruct (content f); [done|]. cbn. lia. Qed.

(** *** Starting the reader *)
Lemma start_scan B m b :
  csr_ok cfg (csr (reader B)) → at_rest B m b → scanning cfg B m [] (cycle false true false b).
Proof.
  intros Hok ([HB Hm Hw Hr] & Hs & Hwt). unfold board_cycle.
  destruct (writer_idle cfg (csr (writer (bd_bist b))) (pattern_data (writer (bd_bist b))) (pattern_addr (writer (bd_bist b)))
    (avail write_ready (bd_time b)) (bd_w b) Hw) as [W1 W2].
  destruct (writer_cycle _ _ _ _ _ _) as [x w']. cbn [fst snd] in W1, W2. subst x.
  unfold reader_cycle. rewrite Hr. change (r_start (reader_input cfg true b)) with true. cbn [r_error].
  pose proof (error_step false b None Hs) as He. destruct (error_cycle _ _) as [pop e']. cbn [andb app] in He.
  split; cbn; try done.
  - destruct Hok. unfold reader_inv. cbn. split_and!; auto; lia.
  - unfold waiting, reported. cbn. rewrite <- He, Hwt. by destruct (f_ready (bd_fifo b)).
Qed.

(** ** Writing *)
Section write.
Context (B : bist) (m0 : Z → Z) (Hok : csr_ok cfg (csr (writer B))).
Abbreviation W := (writer B).

Record writing (b : board) : Prop := {
  wr_bist : bd_bist b = B;
  wr_mem : bd_mem b = fill (transfers cfg (csr W) (pattern_data W) (pattern_addr W) (cmd_counter (bd_w b))) m0;
  wr_writer : writer_inv cfg (csr W) (pattern_data W) (pattern_addr W) (bd_w b);
  wr_reader : r_fsm (bd_r b) = R_READY;
  wr_skip : bd_skip b = false;
  wr_waiting : waiting b = [];
}.

Definition write_left (b : board) : Z :=
  writer_work (csr W) (bd_w b) * (bound write_ready + 1) + wait write_ready (bd_time b).

(** FIFO and error registers stay empty while the reader is idle. *)
Lemma waiting_idle_reader ws b :
  r_fsm (bd_r b) = R_READY → bd_skip b = false → waiting b = [] →
  let b' := cycle ws false false b in
  r_fsm (bd_r b') = R_READY ∧ bd_skip b' = false ∧ waiting b' = [] ∧ bd_bist b' = bd_bist b
  ∧ bd_time b' = S (bd_time b)
  ∧ bd_w b' = (writer_cycle cfg (csr (writer (bd_bist b))) (pattern_data (writer (bd_bist b))) (pattern_addr (writer (bd_bist b)))
                 (WriterIn ws (avail write_ready (bd_time b))) (bd_w b)).2.
Proof.
  intros Hr Hs Hw. cbv zeta. unfold board_cycle. destruct (writer_cycle _ _ _ _ _ _) as [x w'].
  unfold reader_cycle. rewrite Hr. change (r_start (reader_input cfg false b)) with false.
  pose proof (error_step false b None Hs) as He. destruct (error_cycle _ _) as [pop e']. cbn [andb app] in He.
  cbn. split_and!; try done. unfold waiting. cbn. rewrite <- He, Hw. by destruct (f_ready (bd_fifo b)).
Qed.

Lemma writing_step b :
  writing b →
  let b' := cycle false false false b in
  writing b' ∧ (w_fsm (bd_w b) ≠ W_READY → write_left b' < write_left b) ∧ (w_fsm (bd_w b) = W_READY → w_fsm (bd_w b') = W_READY).
Proof using Hok.
  intros [HB Hm Hw Hr Hs Hwt] b'. pose proof (waiting_idle_reader false b Hr Hs Hwt) as H. fold b' in H.
  destruct H as (Hr' & Hs' & Hwt' & HB' & Ht & Ew).
  rewrite HB in Ew, HB'.
  set (i := WriterIn false (avail write_ready (bd_time b))) in *.
  pose proof (writer_inv_step cfg (csr W) (pattern_data W) (pattern_addr W) Hok i (bd_w b) Hw eq_refl) as Hstep.
  destruct (writer_work_step cfg (csr W) (pattern_data W) (pattern_addr W) Hok i (bd_w b) Hw eq_refl) as (W1 & W2 & W3).
  rewrite <- Ew in W1, W2, W3.
  assert (bd_mem b' = match (writer_cycle cfg (csr W) (pattern_data W) (pattern_addr W) i (bd_w b)).1 with
    | Some (a, v) => fun a' => if a' =? a then v else bd_mem b a' | None => bd_mem b end) as Hmem.
  { unfold b', board_cycle. rewrite HB. fold i. destruct (writer_cycle _ _ _ _ _ _) as [x w'].
    destruct (reader_cycle _ _ _ _ _), (error_cycle _ _). done. }
  destruct (writer_cycle cfg (csr W) _ _ i (bd_w b)) as [x w'] eqn:Ecyc. cbn [fst snd] in *. destruct Hstep as [Hinv Hx].
  pose proof (wait_le write_ready (bd_time b)). pose proof (wait_le write_ready (bd_time b')). split.
  - split; try done; [|by rewrite Ew]. rewrite Hmem, Ew. destruct x as [[a v]|]; [|by rewrite Hx, Hm].
    destruct Hx as [Ex Ec]. rewrite Ec. destruct Hw as [Hk _]. rewrite xfers_succ, fill_app by lia. rewrite <- Hm, <- Ex. done.
  - split.
    + intros E. unfold write_left. rewrite Ht in *. unfold i in W3. cbn [sink_ready] in W3.
      destruct (avail write_ready (bd_time b)) eqn:Ea.
      * specialize (W3 eq_refl E). nia.
      * pose proof (wait_dec _ _ Ea). nia.
    + intros E. destruct (writer_idle cfg (csr W) (pattern_data W) (pattern_addr W) (avail write_ready (bd_time b)) (bd_w b) E) as [_ E'].
      fold i in E'. by rewrite Ew, Ecyc in *.
Qed.

Lemma writing_idle n b :
  writing b →
  let b' := idle n b in
  writing b' ∧ (w_fsm (bd_w b) = W_READY → w_fsm (bd_w b') = W_READY)
  ∧ ((0 < n)%nat → w_fsm (bd_w b') = W_READY ∨ write_left b' < write_left b).
Proof using Hok.
  revert b; induction n as [|n IH]; intros b Hb; cbn [BistBoard.idle]; [split_and!; (done || lia)|].
  destruct (writing_step b Hb) as (Hb' & H1 & H2). destruct (IH _ Hb') as (Hb'' & H3 & H4).
  split_and!; [done|auto|]. intros _. destruct (decide (w_fsm (bd_w b) = W_READY)) as [E|E]; [left; auto|].
  specialize (H1 E). destruct n as [|n]; [by right|]. destruct (H4 ltac:(lia)) as [?|?]; [by left|right; lia].
Qed.

Lemma write_left_bound b : writing b → 0 ≤ write_left b.
Proof.
  intros [_ _ [Hk Hw] _ _ _]. unfold write_left, writer_work. destruct (w_fsm (bd_w b)); nia.
Qed.

Lemma start_write b : at_rest B m0 b → writing (cycle true false false b).
Proof using Hok.
  intros ([HB Hm Hw Hr] & Hs & Hwt). destruct (waiting_idle_reader true b Hr Hs Hwt) as (Hr' & Hs' & Hwt' & HB' & _ & Ew).
  rewrite HB in Ew, HB'.
  assert (bd_mem (cycle true false false b) = bd_mem b) as Hmem.
  { unfold board_cycle, writer_cycle, writer_next, writer_transfer. rewrite Hw. cbn.
    destruct (reader_cycle _ _ _ _ _), (error_cycle _ _). done. }
  unfold writer_cycle, writer_next, writer_transfer in Ew. rewrite Hw in Ew. cbn in Ew.
  split; try done; rewrite Ew; cbn [cmd_counter w_fsm mem_addr].
  - by rewrite Hmem, Hm.
  - destruct Hok. unfold writer_inv. cbn. split; [lia|]. intros Hmod. unfold pattern_index. by rewrite Hmod.
Qed.

Lemma write_done b :
  writing b → w_fsm (bd_w b) = W_READY →
  at_rest B (fill (transfers cfg (csr W) (pattern_data W) (pattern_addr W) (count (csr W))) m0) b.
Proof.
  intros [HB Hm [_ Hw] Hr Hs Hwt] E. rewrite E in Hw. split_and!; [split|..]; try done. by rewrite Hm, Hw.
Qed.
End write.
End rest.
