(* ===== verification/BistHost.v ===== *)
(** * Self test from the host

    [hw_memset] and [hw_memtest] of [src/rowhammer_tester/scripts/utils.py] as
    programs for a [Device], with their polling loops.  On the board of
    [BistBoard] both always end (the fuel of their loops is bounded by the work of
    the hardware), the memory holds the pattern, and the errors returned are
    exactly the words that changed. *)

From S2P Require Import Prelude Bist BistFacts HostBist Device BistBoard BistBoardFacts.
#[local] Open Scope Z_scope.

(** ** Programs *)
Section programs.
Context `{D : Device} {W : MemWrite} (fuel : nat).

(** [_progress(wb.regs.<r>.read(), max)] divides by the maximum. *)
Definition progress (r : string) (max : Z) : host unit :=
  _ ← rd r; lift (if max =? 0 then Raise ZeroDivisionError else Ok tt).

(** The pattern and start address for both modules. *)
Definition write_patterns (nbytes pattern offset : Z) : host unit :=
  mem_write "writer_pattern_data" (replicate (Z.to_nat (nbytes / 4)) pattern) ;;
  mem_write "writer_pattern_addr" [offset / nbytes] ;;
  mem_write "reader_pattern_data" (replicate (Z.to_nat (nbytes / 4)) pattern) ;;
  mem_write "reader_pattern_addr" [offset / nbytes].

Definition wait_writer (count : Z) : host unit :=
  loop fuel tt (fun _ =>
    v ← rd "writer_ready";
    if negb (v =? 0) then mret (true, tt)
    else progress "writer_done" count ;; sleep ;; mret (false, tt)).

Definition hw_memset (phy : phy_settings) (offset size : Z) (patterns : list Z) : host unit :=
  '(nbytes, pattern) ← lift (check_args phy size patterns);
  v ← rd "writer_ready"; hassert (v =? 1) ;;
  wr "writer_mem_mask" 4294967295 ;;
  write_patterns nbytes pattern offset ;;
  wr "writer_data_mask" 0 ;;
  let count := size / nbytes in
  wr "writer_count" count ;;
  wr "writer_start" 1 ;;
  wait_writer count ;;
  progress "writer_done" count.

(** A [BISTError]: offset, data, expected. *)
Definition append_errors (count : Z) (err : list (Z * Z * Z)) : host (list (Z * Z * Z)) :=
  loop fuel err (fun err =>
    v ← rd "reader_error_ready";
    if v =? 0 then mret (true, err)
    else
      offset ← rd "reader_error_offset";
      data ← rd "reader_error_data";
      expected ← rd "reader_error_expected";
      wr "reader_error_continue" 1 ;;
      progress "reader_done" count ;;
      mret (false, err ++ [(offset, data, expected)])).

Definition poll_reader (count : Z) : host (list (Z * Z * Z)) :=
  loop fuel [] (fun errors =>
    v ← rd "reader_ready";
    if negb (v =? 0) then mret (true, errors)
    else
      errors' ← append_errors count errors;
      progress "reader_done" count ;; progress "reader_done" count ;;
      sleep ;; mret (false, errors')).

(** All errors of a scan: also those found after the last round. *)
Definition read_errors (count : Z) : host (list (Z * Z * Z)) :=
  errors ← poll_reader count;
  progress "reader_done" count ;;
  append_errors count errors.

Definition flush_errors : host unit :=
  wr "reader_skip_fifo" 1 ;;
  sleep ;;
  wr "reader_skip_fifo" 0.

Definition hw_memtest (phy : phy_settings) (offset size : Z) (patterns : list Z) : host (list (Z * Z * Z)) :=
  '(nbytes, pattern) ← lift (check_args phy size patterns);
  flush_errors ;;
  v ← rd "reader_ready"; hassert (v =? 1) ;;
  wr "reader_mem_mask" 4294967295 ;;
  write_patterns nbytes pattern offset ;;
  wr "reader_data_mask" 0 ;;
  let count := size / nbytes in
  wr "reader_count" count ;;
  wr "reader_start" 1 ;;
  errors ← read_errors count;
  r ← rd "reader_ready"; hassert (r =? 1) ;;
  e ← rd "reader_error_ready"; hassert (e =? 0) ;;
  mret errors.
End programs.

(** ** The programs on the board *)
Section host.
Context {M : Migen} (cfg : bist_cfg) {F : Fifo (Z * Z * Z)} {T : Timing_}.
Context (Hacc : (fifo_latency < access_cycles)%nat).
#[local] Instance dev_inst : Device := bist_device cfg.
#[local] Instance mem_inst : MemWrite := bist_mem_write cfg.
Abbreviation idle := (idle cfg).

(** *** Reading a scan *)
Section scan.
Context (B : bist) (m : Z → Z) (Hok : csr_ok cfg (csr (reader B))) (Hcount : 0 < count (csr (reader B))).
Abbreviation E := (scan_errors cfg B m).
Abbreviation scanning := (scanning cfg B m).
Abbreviation remaining := (remaining B).

Lemma errors_length_mono c dm addrs datas n k :
  0 ≤ n ≤ k → (length (errors cfg c dm addrs datas n) ≤ length (errors cfg c dm addrs datas k))%nat.
Proof.
  intros Hn. replace k with (n + (k - n)) by lia. generalize (Z.to_nat (k - n)) (Z2Nat.id (k - n) ltac:(lia)). intros j <-.
  induction j as [|j IH]; [by rewrite Z.add_0_r|]. replace (n + Z.of_nat (S j)) with ((n + j) + 1) by lia.
  rewrite errors_succ, length_app by lia. lia.
Qed.

Lemma scanning_length errs b : scanning errs b → (length errs + length (waiting b) ≤ length E)%nat.
Proof.
  intros [_ _ _ _ (Hk & _ & _ & Hf) He]. rewrite <- length_app, He. unfold reported, scan_errors.
  apply errors_length_mono. destruct (r_fsm (bd_r b)); lia.
Qed.

Lemma sample_error_ready (d : board) : sample "reader_error_ready" d = b2z (e_valid (bd_err d)).
Proof. unfold sample. by destruct (error_reg (bd_err d)) as [[? ?] ?]. Qed.

Lemma sample_ready (d : board) : sample "reader_ready" d = b2z (bool_decide (r_fsm (bd_r d) = R_READY)).
Proof. unfold sample. by destruct (error_reg (bd_err d)) as [[? ?] ?]. Qed.

Lemma sample_error (d1 d2 d3 : board) e :
  error_reg (bd_err d1) = e → error_reg (bd_err d2) = e → error_reg (bd_err d3) = e →
  (sample "reader_error_offset" d1, sample "reader_error_data" d2, sample "reader_error_expected" d3) = e.
Proof. unfold sample. intros -> -> ->. by destruct e as [[? ?] ?]. Qed.

(** Reading one presented error. *)
Lemma read_error errs d :
  scanning errs d → e_valid (bd_err d) = true →
  ∃ d', ((v ← rd "reader_error_ready";
          if v =? 0 then mret (true, errs)
          else
            offset ← rd "reader_error_offset";
            data ← rd "reader_error_data";
            expected ← rd "reader_error_expected";
            wr "reader_error_continue" 1 ;;
            progress "reader_done" (count (csr (reader B))) ;;
            mret (false, errs ++ [(offset, data, expected)])) : host (bool * list (Z * Z * Z))) d
         = (Done (false, errs ++ [error_reg (bd_err d)]), d')
    ∧ scanning (errs ++ [error_reg (bd_err d)]) d' ∧ remaining d' ≤ remaining d
    ∧ (ready d → ready d' ∧ settled d').
Proof using Hok Hacc Hcount.
  intros Hsc Ev. set (N := access_cycles) in *.
  set (d1 := idle N (idle N (idle N (idle N d)))).
  assert (d1 = idle (N + (N + (N + N))) d) as Ed1 by by rewrite !idle_add.
  assert (bd_err d1 = bd_err d) as Eerr by (rewrite Ed1; by apply error_stable_idle).
  destruct (scanning_idle cfg B m Hok errs (N + (N + (N + N))) d Hsc) as (Hs1 & Hr1 & Hy1 & _). rewrite <- Ed1 in *.
  destruct (scanning_step cfg B m Hok true errs d1 Hs1) as (Hs2 & _ & _).
  destruct (remaining_step cfg B m Hok errs true d1 Hs1) as (Hr2 & _ & Hy2).
  rewrite Eerr, Ev in Hs2. cbn [andb] in Hs2. set (d2 := board_cycle cfg false false true d1) in *.
  destruct (scanning_idle cfg B m Hok _ N d2 Hs2) as (Hs3 & Hr3 & Hy3 & _).
  destruct (scanning_idle cfg B m Hok _ N _ Hs3) as (Hs4 & Hr4 & Hy4 & _).
  exists (idle N (idle N d2)). split_and!; [|done|lia|].
  - assert ((count (csr (reader B)) =? 0) = false) as Ec by lia.
    cbv [mbind host_bind mret host_ret rd wr progress lift reg_read reg_write dev_inst bist_device]. fold N.
    rewrite Ec, sample_error_ready, Ev. cbn [b2z Z.eqb].
    rewrite (sample_error (idle N d) (idle N (idle N d)) (idle N (idle N (idle N d))) (error_reg (bd_err d)));
      [reflexivity|..]; by rewrite <- ?idle_add, error_stable_idle.
  - intros Hr. split; [auto|]. apply (ready_settled cfg B m Hok (errs ++ [error_reg (bd_err d)])); auto.
Qed.

Lemma append_errors_ok fuel errs d :
  scanning errs d → (length E - length errs < fuel)%nat →
  ∃ errs' d', append_errors fuel (count (csr (reader B))) errs d = (Done errs', d')
    ∧ scanning errs' d' ∧ remaining d' ≤ remaining d
    ∧ ((length errs < length errs')%nat ∨ (errs' = errs ∧ e_valid (bd_err d) = false ∧ d' = idle access_cycles d))
    ∧ (ready d → settled d → errs' = E ∧ ready d' ∧ waiting d' = []).
Proof using Hok Hacc Hcount.
  revert errs d; induction fuel as [|fuel IH]; intros errs d Hsc Hf; [lia|].
  unfold append_errors. cbn [loop]. destruct (e_valid (bd_err d)) eqn:Ev.
  - destruct (read_error errs d Hsc Ev) as (d1 & E1 & Hs1 & Hr1 & Hy1).
    assert (length errs + 1 ≤ length E)%nat as Hlen.
    { pose proof (scanning_length _ _ Hs1) as H. rewrite length_app in H. cbn in H. lia. }
    destruct (IH _ d1 Hs1) as (errs' & d' & E2 & Hs2 & Hr2 & Hor & Hend); [rewrite length_app; cbn; lia|].
    exists errs', d'. split_and!; [|done|lia| |].
    + unfold mbind at 1, host_bind at 1. rewrite E1. exact E2.
    + left. destruct Hor as [Hlt|[-> _]]; [rewrite length_app in Hlt; cbn in Hlt; lia|rewrite length_app; cbn; lia].
    + intros Hr _. destruct (Hy1 Hr) as [Hr' Hset]. by apply Hend.
  - destruct (scanning_idle cfg B m Hok errs access_cycles d Hsc) as (Hs1 & Hr1 & Hy1 & _).
    exists errs, (idle access_cycles d). split_and!; [|done|done|by right|].
    + cbv [mbind host_bind rd reg_read dev_inst bist_device]. rewrite sample_error_ready, Ev. reflexivity.
    + intros Hr [?|Hw]; [congruence|]. pose proof (ready_all cfg B m _ _ Hsc Hr) as Hall.
      pose proof (ready_all cfg B m _ _ Hs1 (Hy1 Hr)) as Hall1. rewrite Hw, app_nil_r in Hall.
      split_and!; [done|auto|]. rewrite <- Hall in Hall1. rewrite <- (app_nil_r errs) in Hall1 at 2. by apply app_inv_head in Hall1.
Qed.

(** Rounds of the main loop that are left. *)
Definition rounds (errs : list (Z * Z * Z)) (d : board) : Z :=
  2 * remaining d + 2 * (Z.of_nat (length E) - Z.of_nat (length errs)) + (if e_valid (bd_err d) then 0 else 1).

Lemma progress_ok r n (d : board) : n ≠ 0 → progress r n d = (Done tt, idle access_cycles d).
Proof.
  intros Hn. cbv [progress mbind host_bind rd lift reg_read dev_inst bist_device].
  by rewrite (proj2 (Z.eqb_neq n 0)).
Qed.

Lemma poll_round fuel errs d :
  scanning errs d → ¬ ready d → (length E < fuel)%nat → (fifo_latency < sleep_cycles)%nat →
  ∃ errs' d1, append_errors fuel (count (csr (reader B))) errs (idle access_cycles d) = (Done errs', d1)
    ∧ let d' := idle sleep_cycles (idle access_cycles (idle access_cycles d1)) in
      scanning errs' d' ∧ rounds errs' d' < rounds errs d.
Proof using Hok Hacc Hcount.
  intros Hsc Hnr Hf Hsl. set (N := access_cycles) in *. set (d0 := idle N d).
  destruct (scanning_idle cfg B m Hok errs N d Hsc) as (Hs0 & Hr0 & _). fold d0 in Hs0, Hr0.
  destruct (append_errors_ok fuel errs d0 Hs0 ltac:(lia)) as (errs' & d1 & E1 & Hs1 & Hr1 & Hor & _).
  exists errs', d1. split; [done|]. cbv zeta.
  assert (idle sleep_cycles (idle N (idle N d1)) = idle (N + N + sleep_cycles) d1) as -> by by rewrite !idle_add.
  destruct (scanning_idle cfg B m Hok errs' (N + N + sleep_cycles) d1 Hs1) as (Hs2 & Hr2 & _).
  split; [done|]. pose proof (scanning_length _ _ Hsc) as L1. pose proof (scanning_length _ _ Hs2) as L2.
  assert (e_valid (bd_err d0) = false → e_valid (bd_err d) = false) as Hev.
  { intros Ev. destruct (e_valid (bd_err d)) eqn:Ev0; [|done]. unfold d0 in Ev. rewrite error_stable_idle in Ev by done. congruence. }
  unfold rounds. destruct Hor as [Hlt|(-> & Ev0%Hev & ->)].
  - destruct (e_valid (bd_err d)), (e_valid (bd_err (idle _ d1))); lia.
  - clear Hs2 Hr2 L2. rewrite <- idle_add. fold N. clearbody N d0.
    rewrite Ev0. destruct (idle_progress cfg B m Hok errs (N + (N + N + sleep_cycles)) d0 Hs0 ltac:(lia)) as [Hp|[Hp|Hp]].
    + case_match; lia.
    + rewrite Hp. destruct (scanning_idle cfg B m Hok errs (N + (N + N + sleep_cycles)) d0 Hs0) as (_ & ? & _). lia.
    + destruct (remaining_bound cfg B m errs d Hsc) as [_ Hb]. specialize (Hb Hnr).
      assert (ready (idle (N + (N + N + sleep_cycles)) d0)) as Hy by (apply (scanning_idle cfg B m Hok errs _ d0 Hs0); done).
      assert (remaining (idle (N + (N + N + sleep_cycles)) d0) = 0) as ->
        by (unfold BistBoardFacts.remaining, reader_work, word_wait; unfold ready in Hy; rewrite Hy; lia).
      case_match; lia.
Qed.

Lemma rounds_nonneg errs d : scanning errs d → 0 ≤ rounds errs d.
Proof.
  intros Hsc. pose proof (scanning_length _ _ Hsc). destruct (remaining_bound cfg B m errs d Hsc). unfold rounds. case_match; lia.
Qed.

Lemma poll_loop_ok fuel (n : nat) errs (d : board) :
  scanning errs d → (length E < fuel)%nat → (fifo_latency < sleep_cycles)%nat → rounds errs d < n →
  ∃ errs' d', loop n errs (fun errors =>
      v ← rd "reader_ready";
      if negb (v =? 0) then mret (true, errors)
      else
        errors' ← append_errors fuel (count (csr (reader B))) errors;
        progress "reader_done" (count (csr (reader B))) ;; progress "reader_done" (count (csr (reader B))) ;;
        sleep ;; mret (false, errors')) d = (Done errs', d')
    ∧ scanning errs' d' ∧ ready d' ∧ settled d'.
Proof using Hok Hacc Hcount.
  intros Hsc Hf Hsl. revert errs d Hsc. induction n as [|n IH]; intros errs d Hsc Hn;
    [pose proof (rounds_nonneg _ _ Hsc); lia|].
  cbn [loop]. destruct (decide (r_fsm (bd_r d) = R_READY)) as [Hr|Hr].
  - destruct (scanning_idle cfg B m Hok errs access_cycles d Hsc) as (Hs1 & _ & Hy1 & _).
    exists errs, (idle access_cycles d). split_and!; [|done|by apply Hy1|by apply (ready_settled cfg B m Hok errs)].
    cbv [mbind host_bind rd reg_read dev_inst bist_device]. by rewrite sample_ready, bool_decide_true.
  - destruct (poll_round fuel errs d Hsc Hr Hf Hsl) as (errs1 & d1 & E1 & Hs1 & Hlt). cbv zeta in Hs1, Hlt.
    set (d2 := idle sleep_cycles (idle access_cycles (idle access_cycles d1))) in *.
    destruct (IH errs1 d2 Hs1 ltac:(lia)) as (errs' & d' & E2 & H). exists errs', d'. split; [|exact H].
    cbv [mbind host_bind rd reg_read dev_inst bist_device] in E1, E2 |- *. rewrite sample_ready, bool_decide_false by done.
    cbn [b2z Z.eqb negb]. rewrite E1, !progress_ok by lia. exact E2.
Qed.
End scan.

(** *** Writing the registers *)
Context (Hsleep : (fifo_depth * S fifo_latency + fifo_latency < sleep_cycles)%nat).

Lemma triple_cfg B m r v f :
  (∀ b, poke cfg r v b = set_bist f b) → triple (at_rest B m) (wr r v) (fun _ => at_rest (f B) m).
Proof.
  intros Hp. apply triple_wr. intros b ([HB Hm Hw Hr] & Hs & Hwt). cbn. apply at_rest_idle. rewrite Hp.
  split_and!; [split|..]; cbn; try done. by rewrite HB.
Qed.

Lemma triple_mem B m r l f :
  (∀ b, poke_mem cfg r l b = set_bist f b) → triple (at_rest B m) (mem_write r l) (fun _ => at_rest (f B) m).
Proof.
  intros Hp b ([HB Hm Hw Hr] & Hs & Hwt). eexists tt, _. split; [reflexivity|]. apply at_rest_idle. rewrite Hp.
  split_and!; [split|..]; cbn; try done. by rewrite HB.
Qed.

Lemma triple_rest_rd B m r (v : Z) :
  (∀ b, at_rest B m b → sample r b = v) → triple (at_rest B m) (rd r) (fun v' d => v' = v ∧ at_rest B m d).
Proof. intros Hv. apply triple_rd. intros d Hd. split; [by apply Hv|]. by apply at_rest_idle. Qed.

Lemma triple_progress B m r n : n ≠ 0 → triple (at_rest B m) (progress r n) (fun _ => at_rest B m).
Proof. intros Hn d Hd. exists tt, (idle access_cycles d). split; [by apply progress_ok|by apply at_rest_idle]. Qed.

Lemma rest_writer_ready B m b : at_rest B m b → sample "writer_ready" b = 1.
Proof. intros ([_ _ Hw _] & _). unfold sample. destruct (error_reg (bd_err b)) as [[? ?] ?]. cbn. by rewrite Hw. Qed.

Lemma rest_reader_ready B m b : at_rest B m b → sample "reader_ready" b = 1.
Proof. intros ([_ _ _ Hr] & _). rewrite sample_ready. by rewrite Hr. Qed.

(** Pattern and start address in both modules. *)
Definition with_patterns (nbytes pattern offset : Z) (B : bist) : bist :=
  let data := replicate (Z.to_nat (nbytes / 4)) pattern in let addr := [offset / nbytes] in
  on_reader (set_addr addr) (on_reader (set_data cfg data) (on_writer (set_addr addr) (on_writer (set_data cfg data) B))).

Lemma triple_patterns B m nbytes pattern offset :
  triple (at_rest B m) (write_patterns nbytes pattern offset) (fun _ => at_rest (with_patterns nbytes pattern offset B) m).
Proof.
  unfold write_patterns, with_patterns. set (data := replicate _ _). set (addr := [offset / nbytes]).
  eapply triple_bind; [by apply (triple_mem B m _ _ (on_writer (set_data cfg data)))|]. intros [].
  eapply triple_bind; [by apply (triple_mem _ m _ _ (on_writer (set_addr addr)))|]. intros [].
  eapply triple_bind; [by apply (triple_mem _ m _ _ (on_reader (set_data cfg data)))|]. intros [].
  by apply (triple_mem _ m _ _ (on_reader (set_addr addr))).
Qed.

Definition memset_bist (nbytes pattern offset count : Z) (B : bist) : bist :=
  on_writer (set_csr (set_count count)) (on_writer (set_csr (set_data_mask cfg 0))
    (with_patterns nbytes pattern offset (on_writer (set_csr (set_mem_mask 4294967295)) B))).
Definition memtest_bist (nbytes pattern offset count : Z) (B : bist) : bist :=
  on_reader (set_csr (set_count count)) (on_reader (set_csr (set_data_mask cfg 0))
    (with_patterns nbytes pattern offset (on_reader (set_csr (set_mem_mask 4294967295)) B))).

(** Waiting for the writer. *)
Definition writer_rounds (B : bist) (b : board) : Z :=
  if bool_decide (w_fsm (bd_w b) = W_READY) then 0 else 1 + write_left B b.

Lemma triple_wait_writer fuel count B m0 :
  csr_ok cfg (csr (writer B)) → count ≠ 0 → ∀ k : nat, (k < fuel)%nat →
  triple (fun b => writing cfg B m0 b ∧ writer_rounds B b ≤ k) (wait_writer fuel count)
    (fun _ => at_rest B (fill (transfers cfg (csr (writer B)) (pattern_data (writer B)) (pattern_addr (writer B))
                                 (Bist.count (csr (writer B)))) m0)).
Proof using Hacc Hsleep.
  intros Hok Hc k Hk. unfold wait_writer.
  refine (@triple_loop dev_inst _ (fun k (_ : unit) (b : board) => writing cfg B m0 b ∧ writer_rounds B b ≤ k) _ _ _ k fuel tt Hk).
  intros n [] b [Hb Hn]. set (N := access_cycles) in *.
  assert (sample "writer_ready" b = b2z (bool_decide (w_fsm (bd_w b) = W_READY))) as Hs
    by (unfold sample; by destruct (error_reg (bd_err b)) as [[? ?] ?]).
  destruct (decide (w_fsm (bd_w b) = W_READY)) as [E|E].
  - exists (true, tt), (idle N b). split.
    + cbv [mbind host_bind rd reg_read dev_inst bist_device]. by rewrite Hs, bool_decide_true.
    + cbn. apply at_rest_idle. by apply write_done.
  - set (b' := idle sleep_cycles (idle N (idle N b))). exists (false, tt), b'. split.
    + cbv [mbind host_bind rd reg_read dev_inst bist_device]. rewrite Hs, bool_decide_false by done. cbn [b2z Z.eqb negb].
      rewrite progress_ok by done. reflexivity.
    + assert (b' = idle (N + (N + sleep_cycles)) b) as Eb by (unfold b'; by rewrite !idle_add).
      destruct (writing_idle cfg B m0 Hok (N + (N + sleep_cycles)) b Hb) as (Hb' & _ & Hor). rewrite <- Eb in *. cbn [fst snd].
      pose proof (write_left_bound cfg B m0 b' Hb'). pose proof (write_left_bound cfg B m0 b Hb).
      unfold writer_rounds in Hn. rewrite bool_decide_false in Hn by done.
      exists (Z.to_nat (writer_rounds B b')). unfold writer_rounds. destruct (Hor ltac:(lia)) as [E'|Hlt].
      * rewrite bool_decide_true by done. split; [lia|]. split; [done|]. lia.
      * clear Hs. split; [case_bool_decide; lia|]. split; [done|]. case_bool_decide; lia.
Qed.

Lemma check_args_eq phy size p :
  let nbytes := dfi_databits phy * nphases phy / 8 in
  0 < nbytes → size mod nbytes = 0 → check_args phy size [p] = Ok (nbytes, p mod 2 ^ 32).
Proof.
  intros nbytes Hn Hs. unfold check_args. fold nbytes. rewrite (proj2 (Z.eqb_neq nbytes 0)) by lia.
  rewrite (proj2 (Z.eqb_eq _ _) Hs). cbn. do 2 f_equal. change 4294967295 with (Z.ones 32). by rewrite Z.land_ones.
Qed.

Lemma write_left_max B m0 b :
  csr_ok cfg (csr (writer B)) → writing cfg B m0 b →
  write_left B b ≤ (7 * count (csr (writer B)) + 1) * (bound write_ready + 1) + bound write_ready.
Proof.
  intros Hok [_ _ [Hk Hw] _ _ _]. unfold write_left. pose proof (wait_le write_ready (bd_time b)).
  assert (writer_work (csr (writer B)) (bd_w b) ≤ 7 * count (csr (writer B)) + 1); [|nia].
  unfold writer_work. destruct (w_fsm (bd_w b)); lia.
Qed.

(** Rounds of polling that are enough for [n] words. *)
Definition write_fuel (n : Z) : Z := (7 * n + 1) * (bound write_ready + 1) + bound write_ready + 2.
Definition read_fuel (n : Z) : Z := 2 * ((7 * n + 2) * (max_wait + 1) + max_wait) + 2 * n + 2.

Lemma hw_memset_triple (fuel : nat) phy offset size p B m :
  let nbytes := dfi_databits phy * nphases phy / 8 in
  let n := size / nbytes in
  let B' := memset_bist nbytes (p mod 2 ^ 32) offset n B in
  0 < nbytes → size mod nbytes = 0 → 0 < n < 2 ^ 32 → csr_ok cfg (csr (writer B')) → write_fuel n ≤ fuel →
  triple (at_rest B m) (hw_memset fuel phy offset size [p])
    (fun _ => at_rest B' (fill (transfers cfg (csr (writer B')) (pattern_data (writer B')) (pattern_addr (writer B')) n) m)).
Proof using Hacc Hsleep.
  intros nbytes n B' Hnb Hsz Hn Hok Hf. unfold hw_memset. rewrite check_args_eq by done. fold nbytes.
  eapply triple_bind; [apply triple_lift_ok|]. intros [nb pat]. apply triple_pure. intros [= -> ->].
  eapply triple_bind; [apply triple_rest_rd, rest_writer_ready|]. intros v. apply triple_pure. intros ->.
  eapply triple_bind; [apply triple_lift_ok|]. intros []. apply triple_pure. intros _.
  eapply triple_bind; [by apply (triple_cfg B m _ _ (on_writer (set_csr (set_mem_mask 4294967295))))|]. intros [].
  eapply triple_bind; [apply triple_patterns|]. intros [].
  eapply triple_bind; [by apply (triple_cfg _ m _ _ (on_writer (set_csr (set_data_mask cfg 0))))|]. intros []. fold n.
  eapply triple_bind; [by apply (triple_cfg _ m _ _ (on_writer (set_csr (set_count n))))|]. intros [].
  fold (memset_bist nbytes (p mod 2 ^ 32) offset n B). fold B'.
  assert (count (csr (writer B')) = n) as Hcount by (apply trunc_small; lia).
  eapply triple_bind with (R := fun _ b => writing cfg B' m b ∧ writer_rounds B' b ≤ (fuel - 1)%nat).
  - apply triple_wr. intros b Hb. cbn.
    assert (writing cfg B' m (idle access_cycles (poke cfg "writer_start" 1 b))) as Hw
      by (apply (writing_idle cfg B' m Hok), (start_write cfg B' m Hok); exact Hb).
    split; [exact Hw|]. pose proof (write_left_max B' m _ Hok Hw) as Hmax. rewrite Hcount in Hmax. unfold writer_rounds, write_fuel in *.
    case_bool_decide; lia.
  - intros []. eapply triple_bind; [apply (triple_wait_writer fuel n B' m Hok); unfold write_fuel in *; lia|].
    intros []. rewrite Hcount. apply triple_progress. lia.
Qed.

Lemma remaining_max B m errs b :
  csr_ok cfg (csr (reader B)) → scanning cfg B m errs b →
  remaining B b ≤ (7 * count (csr (reader B)) + 2) * (max_wait + 1) + max_wait.
Proof.
  intros Hok [_ _ _ _ (Hk & _ & _ & Hw) _]. unfold remaining. pose proof (word_wait_bound b).
  assert (reader_work B (bd_r b) ≤ 7 * count (csr (reader B)) + 2); [|nia].
  unfold reader_work. destruct (r_fsm (bd_r b)); lia.
Qed.

Lemma length_scan_errors B m : 0 ≤ count (csr (reader B)) → Z.of_nat (length (scan_errors cfg B m)) ≤ count (csr (reader B)).
Proof. intros H. by apply length_errors. Qed.

(** After the flush nothing is left of earlier scans. *)
Lemma triple_flush B m :
  triple (fun b => quiet B m b ∧ e_valid (bd_err b) = false)
    flush_errors (fun _ => at_rest B m).
Proof using Hacc Hsleep.
  intros b [Hq Ev]. eexists tt, _. split; [reflexivity|]. apply at_rest_idle.
  set (b1 := idle access_cycles (set_skip true b)).
  assert (quiet B m b1 ∧ bd_skip b1 = true ∧ e_valid (bd_err b1) = false) as (Hq1 & Hs1 & Ev1).
  { destruct Hq as [? ? ? ?].
    destruct (flush_idle cfg B m access_cycles (set_skip true b)) as (? & ? & ? & _); [by split|done|done|]. done. }
  destruct (flush_idle cfg B m sleep_cycles b1 Hq1 Hs1 Ev1) as (Hq2 & Hs2 & Ev2 & Hd).
  pose proof (drain_bound (bd_fifo b1)).
  change (at_rest B m (set_skip false (idle sleep_cycles b1))). set (b2 := idle sleep_cycles b1) in *.
  assert (content (bd_fifo b2) = []) as Hc by (apply drain_0; lia).
  destruct Hq2 as [? ? ? ?]. split_and!; [split|..]; cbn; try done. unfold waiting. cbn. by rewrite Ev2, Hc.
Qed.

(** The registers after a scan, all errors read. *)
Lemma scan_rest B m d : scanning cfg B m (scan_errors cfg B m) d → ready d → waiting d = [] → at_rest B m d.
Proof. intros [? ? ? ? _ _] ? ?. split_and!; [split|..]; done. Qed.

Lemma triple_read_scan (fuel : nat) B m :
  csr_ok cfg (csr (reader B)) → 0 < count (csr (reader B)) → read_fuel (count (csr (reader B))) ≤ fuel →
  triple (scanning cfg B m [])
    (read_errors fuel (count (csr (reader B))))
    (fun errs d => errs = scan_errors cfg B m ∧ at_rest B m d).
Proof using Hacc Hsleep.
  intros Hok Hc Hf d Hsc. pose proof (length_scan_errors B m ltac:(lia)). pose proof (remaining_max B m [] d Hok Hsc).
  set (n := count (csr (reader B))) in *. pose proof (word_wait_bound d). unfold read_fuel in Hf.
  assert (length (scan_errors cfg B m) < fuel)%nat as Hlen by nia.
  destruct (poll_loop_ok B m Hok Hc fuel fuel [] d Hsc Hlen ltac:(lia)) as (errs & d1 & E1 & Hs1 & Hr1 & _).
  { unfold rounds. cbn [length]. case_match; lia. }
  destruct (scanning_idle cfg B m Hok errs access_cycles d1 Hs1) as (Hs2 & _ & Hr2 & _). specialize (Hr2 Hr1).
  pose proof (ready_settled cfg B m Hok errs access_cycles d1 Hs1 Hr1 Hacc) as Hset.
  destruct (append_errors_ok B m Hok Hc fuel errs _ Hs2 ltac:(lia)) as (errs' & d' & E2 & Hs' & _ & _ & Hend).
  destruct (Hend Hr2 Hset) as (-> & Hr' & Hw'). exists (scan_errors cfg B m), d'.
  split; [|split; [done|by apply scan_rest]].
  unfold read_errors, poll_reader. unfold mbind at 1, host_bind at 1. fold n in E1. rewrite E1.
  unfold mbind, host_bind. rewrite progress_ok by lia. exact E2.
Qed.

Lemma rest_error_ready B m b : at_rest B m b → sample "reader_error_ready" b = 0.
Proof. intros (_ & _ & [Ev _]%waiting_nil). by rewrite sample_error_ready, Ev. Qed.

Lemma hw_memtest_triple (fuel : nat) phy offset size p B m :
  let nbytes := dfi_databits phy * nphases phy / 8 in
  let n := size / nbytes in
  let B' := memtest_bist nbytes (p mod 2 ^ 32) offset n B in
  0 < nbytes → size mod nbytes = 0 → 0 < n < 2 ^ 32 → csr_ok cfg (csr (reader B')) → read_fuel n ≤ fuel →
  triple (fun b => quiet B m b ∧ e_valid (bd_err b) = false) (hw_memtest fuel phy offset size [p])
    (fun errs b => errs = scan_errors cfg B' m ∧ at_rest B' m b).
Proof using Hacc Hsleep.
  intros nbytes n B' Hnb Hsz Hn Hok Hf. unfold hw_memtest. rewrite check_args_eq by done. fold nbytes.
  eapply triple_bind; [apply triple_lift_ok|]. intros [nb pat]. apply triple_pure. intros [= -> ->].
  eapply triple_bind; [apply triple_flush|].
  intros []. eapply triple_bind; [apply triple_rest_rd, rest_reader_ready|]. intros v. apply triple_pure. intros ->.
  eapply triple_bind; [apply triple_lift_ok|]. intros []. apply triple_pure. intros _.
  eapply triple_bind; [by apply (triple_cfg B m _ _ (on_reader (set_csr (set_mem_mask 4294967295))))|]. intros [].
  eapply triple_bind; [apply triple_patterns|]. intros [].
  eapply triple_bind; [by apply (triple_cfg _ m _ _ (on_reader (set_csr (set_data_mask cfg 0))))|]. intros []. fold n.
  eapply triple_bind; [by apply (triple_cfg _ m _ _ (on_reader (set_csr (set_count n))))|]. intros [].
  fold (memtest_bist nbytes (p mod 2 ^ 32) offset n B). fold B'.
  assert (count (csr (reader B')) = n) as Hcount by (apply trunc_small; lia).
  eapply triple_bind with (R := fun _ b => scanning cfg B' m [] b).
  { apply triple_wr. intros b Hb. cbn. apply (scanning_idle cfg B' m Hok), start_scan; done. }
  intros []. rewrite <- Hcount at 1. eapply triple_bind; [apply triple_read_scan; rewrite ?Hcount; (done || lia)|].
  intros errs. apply triple_pure. intros ->.
  eapply triple_bind; [apply triple_rest_rd, rest_reader_ready|]. intros v. apply triple_pure. intros ->.
  eapply triple_bind; [apply triple_lift_ok|]. intros []. apply triple_pure. intros _.
  eapply triple_bind; [apply triple_rest_rd, rest_error_ready|]. intros v. apply triple_pure. intros ->.
  eapply triple_bind; [apply triple_lift_ok|]. intros []. apply triple_pure. intros _.
  by apply triple_ret.
Qed.
End host.

(** ** What the two programs do together *)
Lemma of_words_replicate k w : 0 ≤ w < 2 ^ 32 → of_words (replicate k w) = repeat_word k w.
Proof. intros Hw. induction k as [|k IH]; [done|]. cbn [replicate of_words foldr repeat_word]. unfold of_words in IH. rewrite IH, Z.mod_small; done. Qed.

(** Registers that the programs do not write. *)
Record bist_ready (cfg : bist_cfg) (B : bist) : Prop := {
  br_modulo_w : modulo (csr (writer B)) = false;
  br_modulo_r : modulo (csr (reader B)) = false;
  br_div_w : 0 ≤ data_div (csr (writer B)) < 2 ^ mask_bits cfg;
  br_div_r : 0 ≤ data_div (csr (reader B)) < 2 ^ mask_bits cfg;
  br_mask : 0 ≤ divisor_mask (csr (writer B));
  br_rowbits : 0 ≤ rowbits cfg;
  br_divisor : divisor_mask (csr (writer B)) = divisor_mask (csr (reader B));
  br_selection : selection_mask (csr (writer B)) = selection_mask (csr (reader B));
}.

(** The BIST moves words of the PHY, of at least one bus word. *)
Record port_ok (cfg : bist_cfg) (phy : phy_settings) : Prop := {
  po_width : data_width cfg = dfi_databits phy * nphases phy;
  po_word : 32 ≤ data_width cfg;
}.

Lemma port_words cfg phy :
  let nbytes := dfi_databits phy * nphases phy / 8 in
  port_ok cfg phy → 4 ≤ nbytes ∧ Z.to_nat (nbytes / 4) = data_words cfg.
Proof.
  intros nbytes [Hw H32]. unfold nbytes, data_words. rewrite <- Hw. split; [apply Z.div_le_lower_bound; lia|].
  by rewrite Z.div_div by lia.
Qed.

Lemma elem_of_range s k a : a ∈ range_addresses s k ↔ s ≤ a < s + k.
Proof.
  unfold range_addresses. rewrite list_elem_of_fmap. split.
  - intros (i & -> & Hi%elem_of_seq). lia.
  - intros Ha. exists (Z.to_nat (a - s)). rewrite elem_of_seq. lia.
Qed.

Section together.
Context {M : Migen} (cfg : bist_cfg) (B : bist) (HB : bist_ready cfg B).
Context (nbytes p offset n : Z) (Hn : 0 < n < 2 ^ 32) (Hs : 0 ≤ offset / nbytes).
Context (Hw : offset / nbytes + n ≤ 2 ^ addr_width cfg) (H32 : offset / nbytes < 2 ^ 32).
Context (H4 : 4 ≤ nbytes) (Hdw : Z.to_nat (nbytes / 4) = data_words cfg).
Abbreviation start := (offset / nbytes).
Abbreviation B1 := (memset_bist cfg nbytes (p mod 2 ^ 32) offset n B).
Abbreviation B2 := (memtest_bist cfg nbytes (p mod 2 ^ 32) offset n B).
Abbreviation v := (repeat_word (Z.to_nat (nbytes / 4)) (p mod 2 ^ 32)).

Lemma pattern_entries f g :
  write_words (data_words cfg) (replicate (Z.to_nat (nbytes / 4)) (p mod 2 ^ 32)) f 0 = v
  ∧ write_words 1 [start] g 0 = start.
Proof using Hdw H4 Hs H32.
  split.
  - assert (1 ≤ nbytes / 4) by (apply Z.div_le_lower_bound; lia).
    set (l := replicate _ _). assert (data_words cfg = length l) as -> by (unfold l; rewrite length_replicate; by symmetry).
    rewrite write_words_0.
    + apply of_words_replicate, Z.mod_pos_bound. lia.
    + unfold l. destruct (Z.to_nat (nbytes / 4)) eqn:E; [lia|done].
  - change 1%nat with (length [start]). rewrite write_words_0 by done. cbn -[Z.pow Z.modulo Z.div]. rewrite Z.mod_small; lia.
Qed.

Lemma memset_config : single_pattern cfg start n v (writer B1) ∧ csr_ok cfg (csr (writer B1)).
Proof using HB Hn Hs H32 H4 Hdw.
  destruct HB. split; split; cbn -[Z.pow write_words trunc]; rewrite ?(trunc_small 32) by lia; try done; try lia; by apply pattern_entries.
Qed.

Lemma memtest_config : single_pattern cfg start n v (reader B2) ∧ csr_ok cfg (csr (reader B2)).
Proof using HB Hn Hs H32 H4 Hdw.
  destruct HB. split; split; cbn -[Z.pow write_words trunc]; rewrite ?(trunc_small 32) by lia; try done; try lia; by apply pattern_entries.
Qed.

(** The pattern is in the memory. *)
Definition pattern_at (a : Z) : Z := inverted cfg (csr (writer B)) a v.

Lemma fill_pattern f m0 a :
  fill ((fun a => (a, f a)) <$> range_addresses start n) m0 a = if decide (start ≤ a < start + n) then f a else m0 a.
Proof.
  assert (((fun a => (a, f a)) <$> range_addresses start n).*1 = range_addresses start n) as E
    by (rewrite <- list_fmap_compose; unfold compose; cbn; by rewrite list_fmap_id).
  case_decide as Ha.
  - apply fill_written; [rewrite E; apply range_addresses_nodup|]. apply list_elem_of_fmap. exists a. by rewrite elem_of_range.
  - apply fill_other. rewrite E, elem_of_range. done.
Qed.

Lemma memset_memory m0 a :
  fill (transfers cfg (csr (writer B1)) (pattern_data (writer B1)) (pattern_addr (writer B1)) n) m0 a
  = if decide (start ≤ a < start + n) then pattern_at a else m0 a.
Proof using M HB Hn Hs H32 Hw H4 Hdw.
  destruct memset_config as (HW & _). rewrite (single_transfers cfg start n v _ HW ltac:(lia) Hs Hw), fill_pattern.
  case_decide; [|done]. by apply inverted_ext.
Qed.

(** What a scan of memory [m] finds when [m1] has the pattern. *)
Lemma memtest_errors m1 m :
  (∀ a, start ≤ a < start + n → m1 a = pattern_at a) →
  scan_errors cfg B2 m = ((fun a => (a, m a, m1 a)) <$> filter (fun a => m a ≠ m1 a) (range_addresses start n)).
Proof using M HB Hn Hs H32 Hw H4 Hdw.
  intros Hm1. destruct memtest_config as (HR & HokR). unfold scan_errors.
  assert (∀ a, start ≤ a < start + n → inverted cfg (csr (reader B2)) a v = m1 a) as Hinv.
  { intros a Ha. rewrite Hm1 by done. apply inverted_ext; cbn; symmetry; apply HB. }
  set (R := reader B2) in *. clearbody R. pose proof (sp_count _ _ _ _ _ HR) as Hc.
  pose proof (single_addresses cfg start n v _ HR ltac:(lia) Hs Hw) as HRa.
  rewrite (errors_differences cfg (csr R) (pattern_data R) (pattern_addr R) HokR (sp_modulo _ _ _ _ _ HR)
    ltac:(rewrite (sp_data_mask _ _ _ _ _ HR); pose proof (signal_max_bits_pos (mem_depth cfg));
          unfold mask_bits; split; [lia|]; split; [done|]; apply pow2_pos; lia) m1 m
    ltac:(rewrite Hc, HRa; apply range_addresses_nodup)).
  unfold differences. cbv zeta. rewrite Hc, HRa, (single_transfers cfg start n v _ HR ltac:(lia) Hs Hw).
  set (m1' := fill _ m1).
  assert (∀ a, a ∈ range_addresses start n → m1' a = m1 a) as Em.
  { intros a Ha%elem_of_range. unfold m1'. rewrite fill_pattern, decide_True by done. by apply Hinv. }
  rewrite (filter_agree (fun a => m a ≠ m1' a) (fun a => m a ≠ m1 a)) by (intros a Ha; by rewrite Em).
  apply list_fmap_ext. intros i a Ha. rewrite Em; [done|]. eapply list_elem_of_filter, list_elem_of_lookup_2, Ha.
Qed.
End together.

Lemma ready_memset cfg nbytes p offset n B : bist_ready cfg B → bist_ready cfg (memset_bist cfg nbytes p offset n B).
Proof. intros [? ? ? ? ? ? ? ?]. split; done. Qed.
Lemma ready_memtest cfg nbytes p offset n B : bist_ready cfg B → bist_ready cfg (memtest_bist cfg nbytes p offset n B).
Proof. intros [? ? ? ? ? ? ? ?]. split; done. Qed.

(** The two programs by their effect on the memory. *)
Section effects.
Context {M : Migen} (cfg : bist_cfg) {F : Fifo (Z * Z * Z)} {T : Timing_} (phy : phy_settings) (offset size : Z).
Abbreviation nbytes := (dfi_databits phy * nphases phy / 8).
Abbreviation n := (size / nbytes).
Abbreviation start := (offset / nbytes).
Context (Hacc : (fifo_latency < access_cycles)%nat).
Context (Hsleep : (fifo_depth * S fifo_latency + fifo_latency < sleep_cycles)%nat).
Context (Hport : port_ok cfg phy) (Hsize : size mod nbytes = 0) (Hn : 0 < n < 2 ^ 32).
Context (Hs : 0 ≤ start < 2 ^ 32) (Hw : start + n ≤ 2 ^ addr_width cfg).
#[local] Instance effects_dev : Device := bist_device cfg.
#[local] Instance effects_mem : MemWrite := bist_mem_write cfg.

Lemma hw_memset_fills (fuel : nat) p B m0 :
  bist_ready cfg B → write_fuel n ≤ fuel →
  triple (at_rest B m0) (hw_memset fuel phy offset size [p])
    (fun _ (b : board) => ∃ m1, at_rest (memset_bist cfg nbytes (p mod 2 ^ 32) offset n B) m1 b
       ∧ ∀ a, m1 a = if decide (start ≤ a < start + n) then pattern_at cfg B nbytes p a else m0 a).
Proof using All.
  intros HB Hf. destruct (port_words cfg phy Hport) as [H4 Hdw].
  destruct (memset_config cfg B HB nbytes p offset n Hn ltac:(lia) ltac:(lia) H4 Hdw) as (_ & Hok).
  eapply triple_conseq; [apply (hw_memset_triple cfg Hacc Hsleep); (done || lia)|done|].
  intros [] b Hb. eexists. split; [exact Hb|]. intros a. apply memset_memory; (done || lia).
Qed.

Lemma hw_memtest_finds (fuel : nat) p B m1 m :
  bist_ready cfg B → read_fuel n ≤ fuel →
  (∀ a, start ≤ a < start + n → m1 a = pattern_at cfg B nbytes p a) →
  triple (fun b => quiet B m b ∧ e_valid (bd_err b) = false) (hw_memtest fuel phy offset size [p])
    (fun errs (b : board) => errs = ((fun a => (a, m a, m1 a)) <$> filter (fun a => m a ≠ m1 a) (range_addresses start n))
       ∧ at_rest (memtest_bist cfg nbytes (p mod 2 ^ 32) offset n B) m b).
Proof using All.
  intros HB Hf Hm1. destruct (port_words cfg phy Hport) as [H4 Hdw].
  destruct (memtest_config cfg B HB nbytes p offset n Hn ltac:(lia) ltac:(lia) H4 Hdw) as (_ & Hok).
  rewrite <- (memtest_errors cfg B HB nbytes p offset n Hn ltac:(lia) Hw ltac:(lia) H4 Hdw m1 m Hm1).
  apply (hw_memtest_triple cfg Hacc Hsleep); (done || lia).
Qed.
End effects.

Lemma at_rest_quiet `{F : Fifo (Z * Z * Z)} B m (b : board) : at_rest B m b → quiet B m b ∧ e_valid (bd_err b) = false.
Proof. intros (Hq & _ & Hw%waiting_nil). split; [done|apply Hw]. Qed.

Lemma at_rest_set_mem `{F : Fifo (Z * Z * Z)} B m m' (b : board) : at_rest B m b → at_rest B m' (set_mem m' b).
Proof. intros ([? ? ? ?] & ? & ?). split_and!; [split|..]; done. Qed.

(** C2: Setting and testing memory from the host always ends and finds exactly the
    changed words.  On a board at rest, [hw_memset] returns once the writer has
    finished, with the pattern (inverted in the selected rows) in the DMA words of
    the range and no other word changed; after any change of the memory,
    [hw_memtest] flushes, scans and returns the words of the range that changed,
    in order, each once, with its address, content and expected content, however
    long the DMA engines take and although the error FIFO stalls the reader; the
    board is at rest again.  Rounds of the polling loops: at most [write_fuel] and
    [read_fuel]. *)
Theorem memset_memtest_complete {M : Migen} cfg {F : Fifo (Z * Z * Z)} {T : Timing_} phy offset size p B m0 b damage (fuel : nat) :
  let nbytes := dfi_databits phy * nphases phy / 8 in
  let n := size / nbytes in
  let start := offset / nbytes in
  (fifo_latency < access_cycles)%nat → (fifo_depth * S fifo_latency + fifo_latency < sleep_cycles)%nat →
  port_ok cfg phy → size mod nbytes = 0 → 0 < n < 2 ^ 32 → 0 ≤ start < 2 ^ 32 → start + n ≤ 2 ^ addr_width cfg →
  bist_ready cfg B → at_rest B m0 b → write_fuel n ≤ fuel → read_fuel n ≤ fuel →
  let D := bist_device cfg in let W := bist_mem_write cfg in
  ∃ b1 b2 B2,
    let m1 := bd_mem b1 in let m := damage m1 in
    hw_memset fuel phy offset size [p] b = (Done tt, b1)
    ∧ hw_memtest fuel phy offset size [p] (set_mem m b1)
      = (Done ((fun a => (a, m a, m1 a)) <$> filter (fun a => m a ≠ m1 a) (range_addresses start n)), b2)
    ∧ (∀ a, m1 a = if decide (start ≤ a < start + n)
                   then inverted cfg (csr (writer B)) a (repeat_word (Z.to_nat (nbytes / 4)) (p mod 2 ^ 32)) else m0 a)
    ∧ at_rest B2 m b2.
Proof.
  intros nbytes n start Hacc Hsl Hport Hsz Hn Hst Hw HB Hb Hf1 Hf2 D W.
  destruct (hw_memset_fills cfg phy offset size Hacc Hsl Hport Hsz Hn Hst Hw fuel p B m0 HB Hf1 b Hb) as ([] & b1 & E1 & m1 & H1 & Hm1).
  assert (bd_mem b1 = m1) as Em by apply H1. subst m1.
  destruct (hw_memtest_finds cfg phy offset size Hacc Hsl Hport Hsz Hn Hst Hw fuel p _ (bd_mem b1) (damage (bd_mem b1))
    (ready_memset cfg nbytes (p mod 2 ^ 32) offset n B HB) Hf2) with (d := set_mem (damage (bd_mem b1)) b1) as (errs & b2 & E2 & -> & H2).
  { intros a Ha. rewrite Hm1, decide_True by done. by apply inverted_ext. }
  { by eapply at_rest_quiet, at_rest_set_mem. }
  exists b1, b2. eexists. cbv zeta. split_and!; [exact E1|exact E2|exact Hm1|exact H2].
Qed.

(** *** A concrete board *)

(** A FIFO of two entries with an output register. *)
Inductive queue2 (A : Type) := Q0 | Q1 (a : A) | Q2 (a b : A).
Arguments Q0 {_}.
Arguments Q1 {_} _.
Arguments Q2 {_} _ _.
Definition queue_list {A} (q : queue2 A) : list A := match q with Q0 => [] | Q1 a => [a] | Q2 a b => [a; b] end.
Definition queue_of {A} (l : list A) : queue2 A := match l with [] => Q0 | [a] => Q1 a | a :: b :: _ => Q2 a b end.
Record buffered (A : Type) := Buffered { buf_queue : queue2 A; buf_out : option A }.
Arguments Buffered {_} _ _.
Arguments buf_queue {_} _.
Arguments buf_out {_} _.
Definition buf_ready {A} (f : buffered A) : bool := match buf_queue f with Q2 _ _ => false | _ => true end.
Definition buf_step {A} (push : option A) (pop : bool) (f : buffered A) : buffered A :=
  let q := queue_list (buf_queue f) in
  let input := if buf_ready f then option_list push else [] in
  if pop || bool_decide (buf_out f = None) then Buffered (queue_of (tail q ++ input)) (head q)
  else Buffered (queue_of (q ++ input)) (buf_out f).

#[local] Program Instance error_fifo : Fifo (Z * Z * Z) := {|
  fifo := buffered (Z * Z * Z);
  f_ready := buf_ready;
  f_head := buf_out;
  f_step := buf_step;
  content f := option_list (buf_out f) ++ queue_list (buf_queue f);
  f_wait f := match buf_out f with None => 1%nat | Some _ => 0%nat end;
  fifo_depth := 3;
  fifo_latency := 1;
|}.
Next Obligation. intros [q [e|]] e' [= ->]. by eexists. Qed.
Next Obligation. intros [e|] [] [[|a|a b] [x|]]; reflexivity. Qed.
Next Obligation. intros [[|a|a b] [x|]]; done. Qed.
Next Obligation. intros push pop [[|a|a b] [x|]] Hh Hc; try done; unfold buf_step; cbn; rewrite orb_true_r; cbn; lia. Qed.
Next Obligation. intros [[|a|a b] [x|]]; cbn; lia. Qed.
Next Obligation. intros [[|a|a b] [x|]]; cbn; lia. Qed.

(** A DMA engine that is ready every third cycle. *)
#[local] Program Definition every3 : supply := Supply (fun t => (t mod 3 =? 2)%nat) (fun t => 2 - t mod 3)%nat 2 _ _.
Next Obligation. intros t. cbn. lia. Qed.
Next Obligation.
  intros t H. cbn beta. apply Nat.eqb_neq in H. pose proof (Nat.mod_upper_bound t 3 ltac:(lia)).
  pose proof (Nat.div_mod_eq t 3). pose proof (Nat.div_mod_eq (S t) 3). pose proof (Nat.mod_upper_bound (S t) 3 ltac:(lia)). lia.
Qed.

#[local] Instance demo_timing : Timing_ := {|
  write_ready := every3; address_valid := every3; data_valid := every3; access_cycles := 3; sleep_cycles := 20 |}.

(** Three words from byte 32 on; word 9 is damaged. *)
Definition demo_board : board :=
  Board 0 demo_bist1 false (fun _ => 0) demo_writer demo_reader (Buffered Q0 None) (ErrorRegs false (0, 0, 0)).
Definition damage9 (m : Z → Z) : Z → Z := fun a => if a =? 9 then 7 else m a.

Lemma memset_memtest_complete_witness :
  let D := bist_device demo_cfg in let W := bist_mem_write demo_cfg in
  ∃ b1 b2,
    hw_memset 400 demo_phy 32 12 [2863311530] demo_board = (Done tt, b1)
    ∧ hw_memtest 400 demo_phy 32 12 [2863311530] (set_mem (damage9 (bd_mem b1)) b1) = (Done [(9, 7, 1431655765)], b2).
Proof.
  destruct (memset_memtest_complete demo_cfg demo_phy 32 12 2863311530 demo_bist1 (fun _ => 0) demo_board damage9 400)
    as (b1 & b2 & B2 & E1 & E2 & Hm & _).
  1, 2: vm_compute; lia.
  { split; vm_compute; congruence. }
  1-4: vm_compute; repeat split; congruence.
  - split; vm_compute; try split; congruence.
  - split; [by split|by split].
  - vm_compute; congruence.
  - vm_compute; congruence.
  - exists b1, b2. split; [exact E1|]. etransitivity; [exact E2|]. do 2 f_equal.
    assert (range_addresses (32 / (dfi_databits demo_phy * nphases demo_phy / 8)) (12 / (dfi_databits demo_phy * nphases demo_phy / 8)) = [8; 9; 10])
      as -> by reflexivity.
    assert (bd_mem b1 9 = 1431655765) as H9 by (rewrite Hm; reflexivity).
    rewrite filter_cons_False by (cbn; tauto). rewrite filter_cons_True by (rewrite H9; done).
    rewrite filter_cons_False by (cbn; tauto). cbn. by rewrite H9.
Defined.

(** The same programs, executed: three damaged words stall the reader. *)
Example memtest_runs :
  let D := bist_device demo_cfg in let W := bist_mem_write demo_cfg in
  let b1 := (hw_memset 400 demo_phy 32 24 [2863311530] demo_board).2 in
  (hw_memtest 400 demo_phy 32 24 [2863311530] (set_mem (fun a => if 9 <=? a then a else bd_mem b1 a) b1)).1
  = Done [(9, 9, 1431655765); (10, 10, 1431655765); (11, 11, 1431655765); (12, 12, 1431655765); (13, 13, 1431655765)].
Proof. vm_compute. reflexivity. Qed.

(** A size of 0 starts the writer and then divides by zero in the progress bar. *)
Example memset_empty :
  let D := bist_device demo_cfg in let W := bist_mem_write demo_cfg in
  (hw_memset 400 demo_phy 32 0 [1] demo_board).1 = Failed ZeroDivisionError.
Proof. vm_compute. reflexivity. Qed.

(** Flushing does not clear an error that is already presented: it is reported
    again by the next test, here of undamaged memory. *)
Example stale_error_reported :
  let D := bist_device demo_cfg in let W := bist_mem_write demo_cfg in
  let b1 := (hw_memset 400 demo_phy 32 12 [2863311530] demo_board).2 in
  let b2 := Board (bd_time b1) (bd_bist b1) (bd_skip b1) (bd_mem b1) (bd_w b1) (bd_r b1) (bd_fifo b1) (ErrorRegs true (5, 6, 7)) in
  (hw_memtest 400 demo_phy 32 12 [2863311530] b2).1 = Done [(5, 6, 7)].
Proof. vm_compute. reflexivity. Qed.
