(* ===== verification/MemBist.v ===== *)
(** * The self test of the self test

    Models [src/rowhammer_tester/scripts/mem_bist.py]: [--test-modules] fills the
    memory through the BIST, flips a bit in randomly chosen words through the bus and
    checks that the BIST reports exactly these words, in order; [--test-memory] fills
    and checks the memory with twenty patterns.  Also [run_bist] of
    [src/rowhammer_tester/scripts/benchmark.py], which runs the same operations for
    time measurements.  Random numbers are a parameter; printing is left out.  The
    theorems are about the board of [BistBoard], whose memory is also on the bus:
    what is written there reaches the DRAM. *)

From stdpp Require Import sorting.
From S2P Require Import Prelude Bist BistFacts HostBist Device BistBoard BistBoardFacts BistHost.
#[local] Open Scope Z_scope.

(** [wb.read(address)] and [wb.write(address, value)] of one word. *)
Class WordAccess `{Device} := {
  read_word : Z → host Z;
  write_word : Z → Z → host unit;
}.

Section programs.
Context `{D : Device} {W : MemWrite} {A : WordAccess} (fuel : nat).

(** One round of the injection: a word that was not chosen before is damaged. *)
Definition inject (mem_base nbytes : Z) (offsets : list Z) (random : Z) : host (list Z) :=
  let offset := Z.land random (Z.lnot 3) in
  if bool_decide (offset / nbytes ∈ offsets) then mret offsets
  else
    v ← read_word (mem_base + offset);
    write_word (mem_base + offset) (Z.lxor v 65536) ;;
    mret (offsets ++ [offset / nbytes]).

(** [for off, err in zip(sorted(offsets), errors): assert off == err.offset] *)
Definition check_offsets (offsets : list Z) (errors : list (Z * Z * Z)) : result unit :=
  passert (length errors =? length offsets) ;;
  result_fold (fun _ oe => passert (oe.1 =? oe.2.1.1)) tt (zip (merge_sort Z.le offsets) errors).

Definition test_modules (phy : phy_settings) (mem_base mem_range : Z) (randoms : list Z) : host (list Z) :=
  let nbytes := dfi_databits phy * nphases phy / 8 in
  hw_memset fuel phy 0 mem_range [4294967295] ;;
  offsets ← for_acc randoms [] (inject mem_base nbytes);
  errors ← hw_memtest fuel phy 0 mem_range [4294967295];
  lift (check_offsets offsets errors) ;;
  mret offsets.

Definition test_patterns : list Z :=
  [4294967295; 2863311530; 0; 1431655765; 286331153; 572662306; 858993459; 1145324612; 1431655765; 1717986918;
   2004318071; 2290649224; 2576980377; 2863311530; 3149642683; 3435973836; 3722304989; 4008636142; 4294967295; 0].

(** The result: the errors of every pattern; failing words are read again. *)
Definition test_pattern (phy : phy_settings) (mem_base mem_range nbytes : Z) (results : list (Z * list (Z * Z * Z))) (p : Z)
    : host (list (Z * list (Z * Z * Z))) :=
  hw_memset fuel phy 0 mem_range [p] ;;
  errors ← hw_memtest fuel phy 0 mem_range [p];
  for_each errors (fun e => read_word (mem_base + e.1.1 * nbytes) ;; mret tt) ;;
  mret (results ++ [(p, errors)]).
Definition test_memory (phy : phy_settings) (mem_base mem_range : Z) : host (list (Z * list (Z * Z * Z))) :=
  let nbytes := dfi_databits phy * nphases phy / 8 in
  for_acc test_patterns [] (test_pattern phy mem_base mem_range nbytes).

(** benchmark.py: the memory is filled before reading is measured. *)
Definition run_bist (phy : phy_settings) (size : Z) (is_write : bool) (pattern : Z) : host unit :=
  (if is_write then mret tt else hw_memset fuel phy 0 size [pattern]) ;;
  (if is_write then hw_memset fuel phy 0 size [pattern] else hw_memtest fuel phy 0 size [pattern] ;; mret tt).
End programs.

(** ** The memory of the board on the bus

    A DMA word has several 32-bit words. *)
Definition lane (v k : Z) : Z := (v / 2 ^ (32 * k)) mod 2 ^ 32.
Definition set_lane (v k w : Z) : Z := v + (w mod 2 ^ 32 - lane v k) * 2 ^ (32 * k).

Lemma lane_set_lane v k w : 0 ≤ k → lane (set_lane v k w) k = w mod 2 ^ 32.
Proof.
  intros Hk. unfold set_lane. unfold lane at 1. rewrite Z.div_add by (apply Z.pow_nonzero; lia).
  unfold lane. set (q := v / 2 ^ (32 * k)). rewrite Z.add_sub_assoc, Zminus_mod_idemp_r.
  replace (q + w mod 2 ^ 32 - q) with (w mod 2 ^ 32) by lia. by rewrite Z.mod_mod by lia.
Qed.

(** Flipping bit 16 of a 32-bit word changes the DMA word. *)
Lemma flip_changes v k : 0 ≤ k → set_lane v k (Z.lxor (lane v k) 65536) ≠ v.
Proof.
  intros Hk E. pose proof (lane_set_lane v k (Z.lxor (lane v k) 65536) Hk) as H. rewrite E in H.
  assert (Z.testbit (lane v k) 16 = negb (Z.testbit (lane v k) 16)) as Hb; [|by destruct (Z.testbit (lane v k) 16)].
  rewrite H at 1. rewrite Z.mod_pow2_bits_low by lia. rewrite Z.lxor_spec. change (Z.testbit 65536 16) with true.
  apply xorb_true_r.
Qed.

(** ** Chosen words *)
Definition damaged (nbytes random : Z) (m : Z → Z) : Z → Z :=
  let offset := Z.land random (Z.lnot 3) in
  let k := offset mod nbytes / 4 in
  let w := Z.lxor (lane (m (offset / nbytes)) k) 65536 in
  fun a => if a =? offset / nbytes then set_lane (m a) k w else m a.

(** The words chosen so far are distinct, in the range, and the only ones that
    differ from what was written. *)
Record injected (n : Z) (m1 : Z → Z) (offsets : list Z) (m : Z → Z) : Prop := {
  in_nodup : NoDup offsets;
  in_range : ∀ a, a ∈ offsets → 0 ≤ a < n;
  in_exact : ∀ a, m a ≠ m1 a ↔ a ∈ offsets;
}.

Lemma aligned_offset x : 0 ≤ x → Z.land x (Z.lnot 3) = 4 * (x / 4).
Proof.
  intros Hx. change (Z.lnot 3) with (Z.lnot (Z.ones 2)). rewrite <- Z.ldiff_land, Z.ldiff_ones_r by lia.
  rewrite Z.shiftl_mul_pow2, Z.shiftr_div_pow2 by lia. change (2 ^ 2) with 4. lia.
Qed.

Lemma injected_step n m1 nbytes size offsets m random :
  0 < nbytes → size = n * nbytes → 0 ≤ random < size → injected n m1 offsets m →
  let a := Z.land random (Z.lnot 3) / nbytes in
  a ∉ offsets → injected n m1 (offsets ++ [a]) (damaged nbytes random m).
Proof.
  intros Hnb Hsz Hr [Hnd Hrange Hex] a Ha. pose proof (aligned_offset random ltac:(lia)) as Ho.
  assert (0 ≤ 4 * (random / 4) ≤ random) as Hal by (split; [pose proof (Z.div_pos random 4); lia|apply Z.mul_div_le; lia]).
  assert (0 ≤ a < n) as Han.
  { unfold a. rewrite Ho. split; [apply Z.div_pos; lia|]. apply Z.div_lt_upper_bound; nia. }
  split.
  - apply NoDup_app. split_and!; [done|intros x Hx ->%list_elem_of_singleton; done|apply NoDup_singleton].
  - intros x [Hx|Hx%list_elem_of_singleton]%elem_of_app; [by apply Hrange|by subst].
  - intros x. rewrite elem_of_app, list_elem_of_singleton. unfold damaged. fold a. destruct (Z.eqb_spec x a) as [->|Hne].
    + split; [by right|]. intros _. assert (m a = m1 a) as <- by (destruct (decide (m a = m1 a)); [done|by apply Hex in n0]).
      apply flip_changes. apply Z.div_pos; [|lia]. apply Z.mod_pos_bound. lia.
    + rewrite Hex. split; [by left|]. by intros [?|?].
Qed.

Lemma range_addresses_sorted s n : StronglySorted Z.le (range_addresses s n).
Proof.
  unfold range_addresses. generalize 0%nat. induction (Z.to_nat n) as [|j IH]; intros i; [constructor|].
  cbn [seq fmap list_fmap]. constructor; [apply IH|]. apply Forall_fmap, Forall_forall. intros k Hk%elem_of_seq. cbn. lia.
Qed.

Lemma filter_sorted (P : Z → Prop) `{!∀ x, Decision (P x)} l : StronglySorted Z.le l → StronglySorted Z.le (filter P l).
Proof.
  induction 1 as [|x l Hl IH Hx]; [constructor|]. rewrite filter_cons. case_decide; [|done]. constructor; [done|].
  apply Forall_forall. intros y [_ Hy]%list_elem_of_filter. rewrite Forall_forall in Hx. by apply Hx.
Qed.

(** The chosen words in order are the words of the range that differ. *)
Lemma sorted_offsets n m1 offsets m :
  0 ≤ n → injected n m1 offsets m → merge_sort Z.le offsets = filter (fun a => m a ≠ m1 a) (range_addresses 0 n).
Proof.
  intros Hn [Hnd Hr Hex]. apply (StronglySorted_unique Z.le).
  - apply Sorted_StronglySorted; [intros x y z; lia|]. apply (Sorted_merge_sort Z.le).
  - apply filter_sorted, range_addresses_sorted.
  - rewrite merge_sort_Permutation. apply NoDup_Permutation; [done|apply NoDup_filter, range_addresses_nodup|].
    intros a. rewrite list_elem_of_filter, Hex. split; [|tauto]. intros Ha. split; [done|]. apply list_elem_of_fmap.
    exists (Z.to_nat a). specialize (Hr a Ha). split; [lia|]. apply elem_of_seq. lia.
Qed.

Lemma check_offsets_ok offsets l (f : Z → Z * Z) :
  merge_sort Z.le offsets = l → check_offsets offsets ((fun a => (a, (f a).1, (f a).2)) <$> l) = Ok tt.
Proof.
  intros E. unfold check_offsets. rewrite E, length_fmap. assert (length l = length offsets) as -> by
    (rewrite <- E; apply Permutation_length, merge_sort_Permutation).
  rewrite Z.eqb_refl. cbn [mbind result_bind passert]. clear E. induction l as [|a l IH]; [done|].
  cbn. by rewrite Z.eqb_refl.
Qed.

Section board.
Context {M : Migen} (cfg : bist_cfg) {F : Fifo (Z * Z * Z)} {T : Timing_} (mem_base : Z) (phy : phy_settings).
Abbreviation nbytes := (dfi_databits phy * nphases phy / 8).
#[local] Instance membist_dev : Device := bist_device cfg.
#[local] Instance membist_mem : MemWrite := bist_mem_write cfg.

(** Word [address - mem_base] of the memory. *)
Definition bus_read (address : Z) (b : board) : Z :=
  let o := address - mem_base in lane (bd_mem b (o / nbytes)) (o mod nbytes / 4).
Definition bus_write (address w : Z) (b : board) : board :=
  let o := address - mem_base in
  set_mem (fun a => if a =? o / nbytes then set_lane (bd_mem b a) (o mod nbytes / 4) w else bd_mem b a) b.
#[local] Instance membist_word : WordAccess := {|
  read_word a b := (Done (bus_read a b), idle cfg access_cycles b);
  write_word a w b := (Done tt, idle cfg access_cycles (bus_write a w b));
|}.

(** Injecting the words of [randoms]: all of them are chosen. *)
Definition chosen (randoms offsets : list Z) : Prop := ∀ r, r ∈ randoms → Z.land r (Z.lnot 3) / nbytes ∈ offsets.

Lemma chosen_snoc pre r offsets offsets' :
  chosen pre offsets → (∀ a, a ∈ offsets → a ∈ offsets') → Z.land r (Z.lnot 3) / nbytes ∈ offsets' →
  chosen (pre ++ [r]) offsets'.
Proof. intros Hp Hs Hr x [Hx|Hx%list_elem_of_singleton]%elem_of_app; [by apply Hs, Hp|by subst]. Qed.

Lemma triple_inject k size randoms B m1 :
  0 < nbytes → size = k * nbytes → Forall (fun r => 0 ≤ r < size) randoms →
  triple (at_rest B m1) (for_acc randoms [] (inject mem_base nbytes))
    (fun offsets (b : board) => ∃ m, at_rest B m b ∧ injected k m1 offsets m ∧ chosen randoms offsets).
Proof.
  intros Hnb Hsz Hr. eapply triple_conseq.
  - apply (@triple_for_acc membist_dev _ _ (fun pre offsets (b : board) => ∃ m, at_rest B m b ∧ injected k m1 offsets m ∧ chosen pre offsets)).
    intros pre x post offsets ->. apply Forall_app in Hr as [_ [Hx _]%Forall_cons]. intros b (m & Hb & Hi & Hc).
    unfold inject. case_bool_decide as Hin.
    { exists offsets, b. split; [done|]. exists m. split_and!; [done|done|by eapply chosen_snoc]. }
    set (o := Z.land x (Z.lnot 3)) in *. set (b1 := idle cfg access_cycles b).
    assert (at_rest B m b1) as Hb1 by by apply at_rest_idle.
    exists (offsets ++ [o / nbytes]), (idle cfg access_cycles (bus_write (mem_base + o) (Z.lxor (bus_read (mem_base + o) b) 65536) b1)).
    split; [reflexivity|]. exists (damaged nbytes x m).
    split_and!; [|by eapply injected_step|apply (chosen_snoc _ _ offsets); [done| |]]; [|by intros; apply elem_of_app; left|apply elem_of_app; right; by left].
    apply at_rest_idle. unfold bus_write. assert (bd_mem b1 = m) as -> by apply Hb1.
    assert (bus_read (mem_base + o) b = lane (m (o / nbytes)) (o mod nbytes / 4)) as Er.
    { unfold bus_read. replace (mem_base + o - mem_base) with o by lia. f_equal. assert (bd_mem b = m) as -> by apply Hb. done. }
    rewrite Er. replace (mem_base + o - mem_base) with o by lia. by eapply at_rest_set_mem.
  - intros b Hb. exists m1. split_and!; [done| |by intros r ?%elem_of_nil].
    split; [apply NoDup_nil_2|by intros a ?%elem_of_nil|]. intros a. by rewrite elem_of_nil.
  - done.
Qed.

Context (Hacc : (fifo_latency < access_cycles)%nat).
Context (Hsleep : (fifo_depth * S fifo_latency + fifo_latency < sleep_cycles)%nat).
Context (Hport : port_ok cfg phy).
Context (size : Z) (Hsize : size mod nbytes = 0) (Hn : 0 < size / nbytes < 2 ^ 32) (Hmem : size / nbytes ≤ 2 ^ addr_width cfg).

Abbreviation n := (size / nbytes).

Lemma nbytes_pos : 0 < nbytes.
Proof using Hport. destruct (port_words cfg phy Hport) as [H _]. clear -H. lia. Qed.

Lemma start_0 : 0 / nbytes = 0.
Proof using Hport. apply Z.div_0_l. pose proof nbytes_pos as H. clear -H. lia. Qed.

(** Filling the memory with pattern [p], and checking a memory that was filled and then
    changed. *)
Lemma triple_fill (fuel : nat) p B m0 :
  bist_ready cfg B → write_fuel n ≤ fuel →
  triple (at_rest B m0) (hw_memset fuel phy 0 size [p])
    (fun _ (b : board) => ∃ m1, at_rest (memset_bist cfg nbytes (p mod 2 ^ 32) 0 n B) m1 b
       ∧ ∀ a, 0 ≤ a < n → m1 a = pattern_at cfg B nbytes p a).
Proof using All.
  intros HB Hf. pose proof start_0 as H0.
  eapply triple_conseq; [apply hw_memset_fills; rewrite ?H0; (done || lia)|done|].
  intros [] b (m1 & Hb & Hm1). exists m1. split; [done|]. intros a Ha. by rewrite Hm1, H0, decide_True by lia.
Qed.

Lemma triple_check (fuel : nat) p B m1 m :
  bist_ready cfg B → read_fuel n ≤ fuel → (∀ a, 0 ≤ a < n → m1 a = pattern_at cfg B nbytes p a) →
  let B1 := memset_bist cfg nbytes (p mod 2 ^ 32) 0 n B in
  triple (at_rest B1 m) (hw_memtest fuel phy 0 size [p])
    (fun errs (b : board) => errs = ((fun a => (a, m a, m1 a)) <$> filter (fun a => m a ≠ m1 a) (range_addresses 0 n))
       ∧ at_rest (memtest_bist cfg nbytes (p mod 2 ^ 32) 0 n B1) m b).
Proof using All.
  intros HB Hf Hm1 B1. pose proof start_0 as H0.
  pose proof (hw_memtest_finds cfg phy 0 size Hacc Hsleep Hport Hsize Hn ltac:(lia) ltac:(lia) fuel p B1 m1 m
    (ready_memset cfg nbytes (p mod 2 ^ 32) 0 n B HB) Hf) as Ht. rewrite H0 in Ht.
  eapply triple_conseq; [apply Ht|intros b Hb; by apply at_rest_quiet|done].
  intros a Ha. rewrite Hm1 by lia. by apply inverted_ext.
Qed.

(** C17: The self test of the BIST passes on a board that works.  Whatever words the
    random numbers choose, the run fills the memory, damages each chosen word once,
    gets exactly the damaged words back in order, and none of its assertions fails:
    it ends, with the list of chosen words. *)
Theorem test_modules_passes (fuel : nat) B m0 b randoms :
  bist_ready cfg B → at_rest B m0 b → write_fuel n ≤ fuel → read_fuel n ≤ fuel →
  Forall (fun r => 0 ≤ r < size - 4) randoms →
  ∃ offsets b', test_modules fuel phy mem_base size randoms b = (Done offsets, b') ∧ NoDup offsets ∧ chosen randoms offsets.
Proof using All.
  intros HB Hb Hf1 Hf2 Hr. destruct (triple_fill fuel 4294967295 B m0 HB Hf1 b Hb) as ([] & b1 & E1 & m1 & H1 & Hm1).
  pose proof nbytes_pos as Hnb. set (B1 := memset_bist _ _ _ _ _ B) in H1.
  destruct (triple_inject n size randoms B1 m1 Hnb) with b1 as (offsets & b2 & E2 & m & H2 & Hi & Hc); [|eapply Forall_impl; [done|]; cbn; intros; lia|done|].
  { rewrite Z.mul_comm. by apply Z_div_exact_full_2; [lia|]. }
  destruct (triple_check fuel 4294967295 B m1 m HB Hf2 Hm1 b2 H2) as (errs & b3 & E3 & He & H3).
  exists offsets, b3. split_and!; [|apply Hi|done]. unfold test_modules. rewrite (bind_done _ _ _ _ _ E1), (bind_done _ _ _ _ _ E2), (bind_done _ _ _ _ _ E3).
  pose proof (sorted_offsets n m1 offsets m ltac:(lia) Hi) as Hsort.
  assert (check_offsets offsets errs = Ok tt) as Hk by (rewrite He; by apply (check_offsets_ok offsets _ (fun a => (m a, m1 a)))).
  rewrite Hk. reflexivity.
Qed.

(** On a memory that keeps its contents, every pattern of the memory test passes. *)
Theorem test_memory_passes (fuel : nat) B m0 b :
  bist_ready cfg B → at_rest B m0 b → write_fuel n ≤ fuel → read_fuel n ≤ fuel →
  ∃ b', test_memory fuel phy mem_base size b = (Done ((fun p => (p, [])) <$> test_patterns), b').
Proof using All.
  intros HB Hb Hf1 Hf2. unfold test_memory.
  destruct (@triple_for_acc membist_dev _ _ (fun pre results (b : board) =>
    results = ((fun p => (p, [])) <$> pre) ∧ ∃ B m, bist_ready cfg B ∧ at_rest B m b) test_patterns []
    (test_pattern fuel phy mem_base size nbytes)) with b as (results & b' & E & -> & _); [|eauto|by exists b'].
  intros pre p post results _ b1 (-> & B1 & m1 & HB1 & Hb1). unfold test_pattern.
  destruct (triple_fill fuel p B1 m1 HB1 Hf1 b1 Hb1) as ([] & b2 & E2 & m2 & H2 & Hm2).
  destruct (triple_check fuel p B1 m2 m2 HB1 Hf2 Hm2 b2 H2) as (errs & b3 & E3 & He & H3).
  assert (errs = []) as ->. { rewrite He. generalize (range_addresses 0 n). intros l. induction l as [|a l IH]; [done|].
    by rewrite filter_cons_False by (intros Hne; by apply Hne). }
  eexists _, b3. split; [rewrite (bind_done _ _ _ _ _ E2), (bind_done _ _ _ _ _ E3); reflexivity|].
  split; [by rewrite fmap_app|]. eexists _, _. split; [|exact H3]. by apply ready_memtest, ready_memset.
Qed.
End board.

(** *** A concrete board *)

#[local] Existing Instance error_fifo.
#[local] Existing Instance demo_timing.

(** The board of [BistHost] with its first three words, two of them chosen. *)
Lemma test_modules_passes_witness :
  let D := bist_device demo_cfg in let W := bist_mem_write demo_cfg in
  let A := membist_word demo_cfg 1073741824 demo_phy in
  ∃ offsets b', test_modules 400 demo_phy 1073741824 12 [5; 6; 1] demo_board = (Done offsets, b') ∧ NoDup offsets.
Proof.
  assert (fifo_latency < access_cycles)%nat as H1 by (vm_compute; lia).
  assert (fifo_depth * S fifo_latency + fifo_latency < sleep_cycles)%nat as H2 by (vm_compute; lia).
  assert (port_ok demo_cfg demo_phy) as H3 by (split; vm_compute; congruence).
  assert (0 < 12 / (dfi_databits demo_phy * nphases demo_phy / 8) < 2 ^ 32) as H4 by (vm_compute; split; done).
  assert (12 / (dfi_databits demo_phy * nphases demo_phy / 8) ≤ 2 ^ addr_width demo_cfg) as H5 by (by vm_compute).
  destruct (test_modules_passes demo_cfg 1073741824 demo_phy H1 H2 H3 12 eq_refl H4 H5 400 demo_bist1 (fun _ => 0) demo_board [5; 6; 1])
    as (offsets & b' & E & Hnd & _).
  - split; vm_compute; try split; congruence.
  - split; [by split|by split].
  - vm_compute; congruence.
  - vm_compute; congruence.
  - repeat constructor; lia.
  - exists offsets, b'. exact (conj E Hnd).
Defined.

Lemma test_memory_passes_witness :
  let D := bist_device demo_cfg in let W := bist_mem_write demo_cfg in
  let A := membist_word demo_cfg 1073741824 demo_phy in
  ∃ b', test_memory 400 demo_phy 1073741824 12 demo_board = (Done ((fun p => (p, [])) <$> test_patterns), b').
Proof.
  assert (fifo_latency < access_cycles)%nat as H1 by (vm_compute; lia).
  assert (fifo_depth * S fifo_latency + fifo_latency < sleep_cycles)%nat as H2 by (vm_compute; lia).
  assert (port_ok demo_cfg demo_phy) as H3 by (split; vm_compute; congruence).
  assert (0 < 12 / (dfi_databits demo_phy * nphases demo_phy / 8) < 2 ^ 32) as H4 by (vm_compute; split; done).
  assert (12 / (dfi_databits demo_phy * nphases demo_phy / 8) ≤ 2 ^ addr_width demo_cfg) as H5 by (by vm_compute).
  apply (test_memory_passes demo_cfg 1073741824 demo_phy H1 H2 H3 12 eq_refl H4 H5 400 demo_bist1 (fun _ => 0) demo_board).
  - split; vm_compute; try split; congruence.
  - split; [by split|by split].
  - vm_compute; congruence.
  - vm_compute; congruence.
Defined.
