(* ===== verification/ExecHost.v ===== *)
(** * Payload execution from the host

    [execute_payload] of [src/rowhammer_tester/scripts/utils.py] as a program for
    a [Device]: the payload is written in bursts, the executor started and its
    status polled.  The board is the gateware of [System] with its payload
    memory; the memory controller's commands are a stream with a refresh every
    now and then.  The program always ends, and then the bus has carried the
    activations asked for. *)

From S2P Require Import Prelude Isa Executor ExecutorSpec Generator GeneratorFacts Payloads Hammer Dfi DfiFacts System.
From S2P Require Import Device HostMem BistBoard.
#[local] Open Scope Z_scope.

(** ** The program *)

(** [memwrite(wb, payload, base=wb.mems.payload.base)] *)
Class PayloadWrite `{Device} := write_payload : list Z → host unit.

Section program.
Context `{D : Device} {W : PayloadWrite} (fuel : nat).

Definition executor_ready : host bool :=
  status ← rd "payload_executor_status"; mret (negb (Z.land status 1 =? 0)).

(** With [force] it only prints more. *)
Definition check_refresh_at : host bool :=
  at_ ← rd "dfi_switch_at_refresh";
  if negb (at_ =? 0) then
    wr "dfi_switch_refresh_update" 1 ;;
    now ← rd "dfi_switch_refresh_count";
    mret (at_ <? now)
  else mret false.

(** The progress of waiting for the refresh at which the DFI changes hands. *)
Definition track_refresh (prev : bool) : host bool :=
  transitioned ← check_refresh_at;
  (if negb prev && transitioned then _ ← check_refresh_at; mret tt else mret tt) ;;
  mret transitioned.

Definition execute_payload (payload : list Z) : host unit :=
  write_payload payload ;;
  refresh_enabled ← (if has_reg "controller_settings_refresh"
                     then v ← rd "controller_settings_refresh"; mret (negb (v =? 0))
                     else mret false);
  ready ← executor_ready;
  hassert ready ;;
  wr "payload_executor_start" 1 ;;
  _ ← loop fuel false (fun transitioned =>
    ready ← executor_ready;
    if (ready : bool) then mret (true, transitioned)
    else
      transitioned' ← (if (refresh_enabled : bool) then track_refresh transitioned else mret transitioned);
      sleep ;; mret (false, transitioned'));
  mret tt.
End program.

(** ** Generated words *)

(** An instruction of 32 bits. *)
Definition word_spec (s : Encoder.spec) : Prop :=
  widths_nonneg (Encoder.sp_parts s) ∧ parts_width (Encoder.sp_parts s) = 32.

Lemma word_spec_noop ts : word_spec (noop_spec ts).
Proof. split; [|done]. repeat (apply Forall_cons_2; [vm_compute; congruence|]). constructor. Qed.
Lemma word_spec_loop c j : word_spec (loop_spec c j).
Proof. split; [|done]. repeat (apply Forall_cons_2; [vm_compute; congruence|]). constructor. Qed.
Lemma word_spec_dfi op ts a : word_spec (dfi_spec op ts a).
Proof. split; [|done]. repeat (apply Forall_cons_2; [vm_compute; congruence|]). constructor. Qed.
#[local] Hint Resolve word_spec_noop word_spec_loop word_spec_dfi : core.

Lemma word_spec_bound s : word_spec s → 0 ≤ Encoder.encode_spec s < 2 ^ 32.
Proof. intros [Hw E]. rewrite encode_spec_pack by done. rewrite <- E. by apply pack_bound. Qed.

Section words.
Context {M : Migen} {cfg : pe_cfg} {t : timings} {bank rank : Z} {refresh : bool}.

Lemma word_spec_ref ts : word_spec (ref_spec refresh ts).
Proof. unfold ref_spec. destruct refresh; auto. Qed.

Lemma word_specs_body u rows : Forall word_spec (loop_body cfg t bank rank refresh u rows).
Proof.
  apply Forall_cons_2; [apply word_spec_ref|]. generalize (tRFC t + 1). induction (mjoin _) as [|r l IH]; intros accum; [constructor|].
  apply Forall_app. split; [|apply IH]. apply Forall_app. split.
  - destruct (row_over t accum); [|constructor]. apply Forall_singleton, word_spec_ref.
  - repeat (apply Forall_cons_2; [apply word_spec_dfi|]). constructor.
Qed.

Lemma word_specs_long u rolled rows : Forall word_spec (long_code cfg t bank rank refresh u rolled rows).
Proof.
  unfold long_code. induction (seq 0 _) as [|i l IH]; [constructor|]. rewrite bind_cons. apply Forall_app. split; [|done].
  apply Forall_app. split; [apply word_specs_body|]. by apply Forall_singleton.
Qed.

Lemma generated_words {read_count rows payload_mem_size verbose words mem} :
  hammer_setup cfg t bank rank refresh read_count rows payload_mem_size verbose words mem →
  Forall (fun w => 0 ≤ w < 2 ^ 32) words.
Proof.
  intros H. rewrite (proj1 (setup_inv H)). unfold Encoder.encode_payload. apply Forall_fmap.
  assert (Forall word_spec (Payloads.payload cfg t bank rank refresh read_count rows)) as Hp.
  { apply Forall_cons_2; [auto|]. apply Forall_app. split; [apply word_specs_long|]. apply Forall_app. split; [apply word_specs_long|].
    apply Forall_cons_2; [apply word_spec_ref|]. by apply Forall_singleton. }
  eapply Forall_impl; [exact Hp|]. intros s Hs. by apply word_spec_bound.
Qed.
End words.

(** ** The board *)
Section board.
Context {M : Migen} {DF : Dfii} (cfg : pe_cfg) (ddr5 : bool).
(** The controller's commands, cycle by cycle; the status bit of the scratchpad and
    the controller's refresh setting; cycles of an access and of a sleep; address
    of the payload memory. *)
Context (mc : nat → dfi_phase) (overflow : nat → bool) (refresh_setting : Z) (access sleeping : nat) (base : Z).

Record xboard := XBoard {
  x_time : nat;
  x_ram : Z → Z;               (* payload memory, by byte address *)
  x_at : Z;                    (* dfi_switch_at_refresh *)
  x_sys : sys_regs;
  x_bus : list sys_out;        (* history *)
}.

Definition payload_mem (b : xboard) (i : Z) : Z := x_ram b (base + 4 * i).

(** The refresh of the controller is on, as after its reset ([with_refresh] of the switch),
    so that the switch waits for a refresh before it hands the DFI over. *)
Definition xcycle (start update : bool) (b : xboard) : xboard :=
  let '(o, s) := sys_cycle cfg (payload_mem b) true ddr5 (SysIn start (mc (x_time b)) (x_at b) update) (x_sys b) in
  XBoard (S (x_time b)) (x_ram b) (x_at b) s (x_bus b ++ [o]).

Fixpoint xidle (n : nat) (b : xboard) : xboard :=
  match n with O => b | S n' => xidle n' (xcycle false false b) end.

Definition xsample (r : string) (b : xboard) : Z :=
  if decide (r = "payload_executor_status"%string) then
    b2z (bool_decide (fsm (s_pe (x_sys b)) = READY)) + 2 * b2z (overflow (x_time b))
  else if decide (r = "dfi_switch_at_refresh"%string) then x_at b
  else if decide (r = "dfi_switch_refresh_count"%string) then refresh_count (s_sw (x_sys b))
  else if decide (r = "controller_settings_refresh"%string) then refresh_setting
  else 0.

Definition xpoke (r : string) (v : Z) (b : xboard) : xboard :=
  if decide (r = "payload_executor_start"%string) then xcycle true false b
  else if decide (r = "dfi_switch_refresh_update"%string) then xcycle false true b
  else if decide (r = "dfi_switch_at_refresh"%string) then XBoard (x_time b) (x_ram b) (trunc 32 v) (x_sys b) (x_bus b)
  else b.

#[local] Instance exec_device : Device := {|
  dev := xboard;
  reg_read r b := (xsample r b, xidle access b);
  reg_write r v b := xidle access (xpoke r v b);
  has_reg _ := true;
  elapse := xidle sleeping;
|}.

Definition set_ram (f : (Z → Z) → Z → Z) (b : xboard) : xboard :=
  XBoard (x_time b) (f (x_ram b)) (x_at b) (x_sys b) (x_bus b).

Lemma xidle_ram n b : x_ram (xidle n b) = x_ram b.
Proof.
  revert b; induction n as [|n IH]; intros b; [done|]. cbn [xidle]. rewrite IH. unfold xcycle. by destruct (sys_cycle _ _ _ _ _ _).
Qed.

(** Bus accesses to the payload memory take time as well. *)
#[local] Instance exec_bus_ops : WishboneOps := {|
  bus := xboard;
  wb_write a ds b := xidle access (set_ram (fun ram => @wb_write ram_bus_ops a ds ram) b);
  wb_read a n b := (fun i : nat => x_ram b (a + 4 * Z.of_nat i)) <$> seq 0 n;
|}.
#[local, refine] Instance exec_bus : Wishbone := {| wb_ops := exec_bus_ops; word b a := x_ram b a |}.
Proof.
  - intros a ds b i v Hi. cbn [wb_write exec_bus_ops]. rewrite xidle_ram. exact (@word_written ram_bus a ds (x_ram b) i v Hi).
  - intros a ds b b' Hb. cbn [wb_write exec_bus_ops]. rewrite xidle_ram. exact (@word_other ram_bus a ds (x_ram b) b' Hb).
  - done.
Defined.

#[local] Instance exec_write : PayloadWrite := fun payload b =>
  match memwrite payload base 255 b with Ok b' => (Done tt, b') | Raise e => (Failed e, b) end.

(** ** Runs *)
Definition inputs (t n : nat) : list sys_in := (fun k => SysIn false (mc (t + k)) 0 false) <$> seq 0 n.

Lemma inputs_S t n : inputs t (S n) = SysIn false (mc t) 0 false :: inputs (S t) n.
Proof.
  unfold inputs. rewrite <- cons_seq, fmap_cons, <- fmap_S_seq, <- list_fmap_compose. rewrite Nat.add_0_r. f_equal.
  apply list_fmap_ext. intros _ k _. unfold compose. by rewrite Nat.add_succ_r.
Qed.

Lemma inputs_app t a n : inputs t (a + n) = inputs t a ++ inputs (t + a) n.
Proof.
  revert t; induction a as [|a IH]; intros t; [by rewrite Nat.add_0_r|]. cbn [Nat.add]. rewrite !inputs_S, IH.
  by rewrite Nat.add_succ_comm.
Qed.

Lemma length_inputs t n : length (inputs t n) = n.
Proof. unfold inputs. by rewrite length_fmap, length_seq. Qed.

Lemma xidle_run n b :
  x_at b = 0 →
  let r := sys_run cfg (payload_mem b) true ddr5 (inputs (x_time b) n) (x_sys b) in
  xidle n b = XBoard (x_time b + n) (x_ram b) 0 r.2 (x_bus b ++ r.1).
Proof.
  revert b; induction n as [|n IH]; intros b Hat.
  - cbn. rewrite Nat.add_0_r, app_nil_r. destruct b. cbn in *. by subst.
  - rewrite inputs_S. cbn [xidle]. cbv zeta. rewrite sys_run_cons. rewrite IH.
    + unfold xcycle. rewrite Hat. destruct (sys_cycle cfg (payload_mem b) true ddr5 _ (x_sys b)) as [o s]. cbn.
      rewrite <- app_assoc. cbn. unfold payload_mem. cbn. f_equal. lia.
    + unfold xcycle. by destruct (sys_cycle _ _ _ _ _ _).
Qed.

Lemma xidle_add a n b : xidle (a + n) b = xidle n (xidle a b).
Proof. revert b; induction a as [|a IH]; intros b; [done|]. apply IH. Qed.

(** *** Between executions *)
Record xrest (b : xboard) : Prop := {
  xr_ready : fsm (s_pe (x_sys b)) = READY;
  xr_wants : wants_dfi (s_pe (x_sys b)) = false;
  xr_loop : loop_counter (s_pe (x_sys b)) = 0;
  xr_switch : sw_fsm (s_sw (x_sys b)) = MEMORY_CONTROLLER;
  xr_at : x_at b = 0;
}.

Lemma ready_step mem s i :
  fsm (s_pe s) = READY → i_start i = false →
  let s' := (sys_cycle cfg mem true ddr5 i s).2 in
  fsm (s_pe s') = READY ∧ wants_dfi (s_pe s') = wants_dfi (s_pe s) ∧ loop_counter (s_pe s') = loop_counter (s_pe s)
  ∧ issued (o_pe (sys_cycle cfg mem true ddr5 i s).1) = None.
Proof.
  intros Hf Hi. destruct (sys_cycle_split cfg mem true ddr5 i s) as (Hpe & Ho & _). cbv zeta. rewrite Hpe, Ho.
  unfold pe_cycle. rewrite Hf. unfold act_READY. cbn [start]. rewrite Hi. done.
Qed.

Lemma xrest_idle n b : xrest b → xrest (xidle n b).
Proof.
  revert b; induction n as [|n IH]; intros b Hb; [done|]. apply IH. destruct Hb as [Hf Hw Hl Hsw Hat].
  set (i := SysIn false (mc (x_time b)) (x_at b) false).
  destruct (ready_step (payload_mem b) (x_sys b) i Hf eq_refl) as (H1 & H2 & H3 & _).
  destruct (sys_cycle_split cfg (payload_mem b) true ddr5 i (x_sys b)) as (_ & _ & _ & Hs & _).
  assert (sw_fsm (s_sw (sys_cycle cfg (payload_mem b) true ddr5 i (x_sys b)).2) = MEMORY_CONTROLLER) as Hsw'.
  { rewrite Hs. unfold DFISwitch_cycle, DFISwitch_fsm. rewrite Hsw. destruct (add_csrs _ _). cbn [switch_inputs sw_wants]. by rewrite Hw. }
  unfold xcycle. fold i. destruct (sys_cycle _ _ _ _ _ _) as [o s]. cbn in *. split; cbn; congruence.
Qed.

(** *** One execution *)
Section execution.
Context {t : timings} {bank rank : Z} {refresh : bool} {read_count : Z} {rows : list Z} {payload_mem_size : Z}
  {verbose : bool} {words : list Z} (mem : Z → Z).
Context (H : hammer_setup cfg t bank rank refresh read_count rows payload_mem_size verbose words mem).
Context (Hlast : last_word_ok cfg mem).
Context (sup : supply) (Hsup : ∀ k, avail sup k = ref_detected ddr5 (mc k)).

(** The first refresh of the controller. *)
Lemma first_refresh k :
  ∃ w : nat, (w ≤ bound sup)%nat ∧ avail sup (k + w) = true ∧ ∀ j : nat, (j < w)%nat → avail sup (k + j) = false.
Proof using.
  enough (∀ n k, (wait sup k ≤ n)%nat → ∃ w : nat, (w ≤ n)%nat ∧ avail sup (k + w) = true
    ∧ ∀ j : nat, (j < w)%nat → avail sup (k + j) = false) as Hn by (apply (Hn (bound sup) k), wait_le).
  clear k. intros n. induction n as [|n IH]; intros k Hk.
  - exists 0%nat. rewrite Nat.add_0_r. split_and!; [lia| |lia]. destruct (avail sup k) eqn:E; [done|]. pose proof (wait_dec sup k E). lia.
  - destruct (avail sup k) eqn:E; [exists 0%nat; rewrite Nat.add_0_r; split_and!; [lia|done|lia]|].
    pose proof (wait_dec sup k E). destruct (IH (S k) ltac:(lia)) as (w & Hw & Ha & Hj). exists (S w).
    rewrite Nat.add_succ_r. split_and!; [lia|done|]. intros [|j] Hlt; [by rewrite Nat.add_0_r|]. rewrite Nat.add_succ_r. apply Hj. lia.
Qed.

(** Cycles from the start request to READY. *)
Definition run_bound : nat := bound sup + 2 + S (length (program_trace (blocks cfg t bank rank refresh read_count rows))).

(** The run from a start request in state [s] at time [k]. *)
Definition started (k : nat) (s : sys_regs) (n : nat) : list sys_out * sys_regs :=
  sys_run cfg mem true ddr5 (SysIn true (mc k) 0 false :: inputs (S k) n) s.

Definition acts (row : Z) (os : list sys_out) : nat := countb (act_on rank bank row) (issued <$> (o_pe <$> os)).

Lemma sys_run_app ins1 ins2 s :
  sys_run cfg mem true ddr5 (ins1 ++ ins2) s
  = ((sys_run cfg mem true ddr5 ins1 s).1 ++ (sys_run cfg mem true ddr5 ins2 (sys_run cfg mem true ddr5 ins1 s).2).1,
     (sys_run cfg mem true ddr5 ins2 (sys_run cfg mem true ddr5 ins1 s).2).2).
Proof using.
  revert s; induction ins1 as [|i ins1 IH]; intros s.
  - cbn. by destruct (sys_run _ _ _ _ _ _).
  - cbn [app]. rewrite !sys_run_cons, IH. done.
Qed.

Lemma started_add k s n j :
  started k s (n + j)
  = ((started k s n).1 ++ (sys_run cfg mem true ddr5 (inputs (S k + n) j) (started k s n).2).1,
     (sys_run cfg mem true ddr5 (inputs (S k + n) j) (started k s n).2).2).
Proof using. unfold started. rewrite inputs_app, app_comm_cons. apply sys_run_app. Qed.

(** A ready executor stays ready and issues nothing. *)
Lemma ready_run k n s :
  fsm (s_pe s) = READY →
  fsm (s_pe (sys_run cfg mem true ddr5 (inputs k n) s).2) = READY
  ∧ ∀ row, acts row (sys_run cfg mem true ddr5 (inputs k n) s).1 = 0%nat.
Proof using.
  revert k s; induction n as [|n IH]; intros k s Hf; [done|]. rewrite inputs_S, sys_run_cons. cbn [fst snd].
  destruct (ready_step mem s (SysIn false (mc k) 0 false) Hf eq_refl) as (Hf' & _ & _ & Hi).
  destruct (IH (S k) _ Hf') as [IH1 IH2]. split; [done|]. intros row. unfold acts. rewrite !fmap_cons. cbn [countb].
  rewrite Hi. apply IH2.
Qed.

Section from_rest.
Context (k : nat) (s : sys_regs) (Hf : fsm (s_pe s) = READY) (Hw : wants_dfi (s_pe s) = false)
  (Hl : loop_counter (s_pe s) = 0) (Hsw : sw_fsm (s_sw s) = MEMORY_CONTROLLER).

Lemma started_done n row :
  (run_bound ≤ n)%nat →
  fsm (s_pe (started k s n).2) = READY ∧ Z.of_nat (acts row (started k s n).1) = read_count * countb (Z.eqb row) rows.
Proof using H Hlast Hsup Hf Hw Hl Hsw.
  intros Hn. destruct (first_refresh (S k)) as (w & Hwb & Ha & Hj).
  set (body := inputs (S k + w + 2) (S (length (program_trace (blocks cfg t bank rank refresh read_count rows))))).
  set (e := (w + 2 + S (length (program_trace (blocks cfg t bank rank refresh read_count rows))))%nat).
  assert (SysIn true (mc k) 0 false :: inputs (S k) e
    = SysIn true (mc k) 0 false :: inputs (S k) w ++ SysIn false (mc (S k + w)) 0 false :: SysIn false (mc (S (S k + w))) 0 false :: body) as Eins.
  { unfold e. rewrite inputs_app. rewrite (inputs_app _ w 2). rewrite <- app_assoc. f_equal. f_equal.
    rewrite (inputs_S _ 1), (inputs_S _ 0). cbn [app]. unfold body. do 3 f_equal. by rewrite Nat.add_assoc. }
  assert (sys_execution ddr5 (inputs (S k) w) body (SysIn true (mc k) 0 false :: inputs (S k) e)) as Hex.
  { rewrite Eins. do 3 eexists. split_and!; [reflexivity|done| |by cbn; rewrite <- Hsup|done].
    apply Forall_forall. intros i (j & -> & Hin%elem_of_seq)%list_elem_of_fmap. cbn. rewrite <- Hsup. apply Hj. lia. }
  destruct (sys_execution_inputs cfg mem true ddr5 _ _ _ s eq_refl Hf Hw Hsw Hex) as (wait' & body' & Hin & _ & Hb').
  unfold body in Hb'. rewrite length_inputs in Hb'.
  destruct (setup_runs H (s_pe s) wait' body' _ Hf Hl Hin Hb') as (Hr & _ & _ & _).
  pose proof (setup_act_count H row (s_pe s) wait' body' _ Hf Hl Hin Hb') as Hcount.
  destruct (sys_run_pe cfg mem true ddr5 (SysIn true (mc k) 0 false :: inputs (S k) e) s) as [Hos Hs'].
  rewrite <- Hos in Hcount. rewrite <- Hs' in Hr.
  change (fsm (s_pe (started k s e).2) = READY) in Hr. change (Z.of_nat (acts row (started k s e).1) = read_count * countb (Z.eqb row) rows) in Hcount.
  replace n with (e + (n - e))%nat by (unfold e, run_bound in *; lia). rewrite started_add. cbn [fst snd].
  destruct (ready_run (S k + e) (n - e) _ Hr) as [Hr' H0]. split; [done|]. rewrite <- Hcount.
  unfold acts in *. rewrite !fmap_app, countb_app. rewrite H0. lia.
Qed.

(** The activations are complete as soon as the executor is ready. *)
Lemma started_ready n row :
  fsm (s_pe (started k s n).2) = READY →
  Z.of_nat (acts row (started k s n).1) = read_count * countb (Z.eqb row) rows.
Proof using H Hlast Hsup Hf Hw Hl Hsw.
  intros Hr. destruct (started_done (n + run_bound) row ltac:(lia)) as [_ Ht]. rewrite started_add in Ht. cbn [fst] in Ht.
  destruct (ready_run (S k + n) run_bound _ Hr) as [_ H0]. unfold acts in *. rewrite !fmap_app, countb_app, H0 in Ht. lia.
Qed.

(** One cycle later all of them were on the bus. *)
Lemma started_bus n row :
  fsm (s_pe (started k s n).2) = READY →
  Z.of_nat (countb (on_bus rank bank row) (started k s (S n)).1) = read_count * countb (Z.eqb row) rows.
Proof using H Hlast Hsup Hf Hw Hl Hsw.
  intros Hr. pose proof (hs_params _ _ _ _ _ _ _ _ _ _ _ H) as [Hrb Hnr _ _ _ _ Hrank _ _ _ _ _].
  assert (sys_inv s) as Hinv by (split_and!; [by rewrite Hf, Hw | rewrite Hf; by intros [|] | by rewrite Hf]).
  assert (acts row (started k s (S n)).1 = acts row (started k s n).1
    ∧ last (issued <$> (o_pe <$> (started k s (S n)).1)) = Some None) as [Hacts Hlst].
  { replace (S n) with (n + 1)%nat by lia. rewrite started_add, inputs_S, sys_run_cons. cbn [fst snd].
    destruct (ready_step mem (started k s n).2 (SysIn false (mc (S k + n)) 0 false) Hr eq_refl) as (_ & _ & _ & Hi).
    set (o := (sys_cycle cfg mem true ddr5 _ (started k s n).2).1) in *. change (sys_run _ _ _ _ (inputs _ 0) _).1 with (@nil sys_out).
    unfold acts. rewrite !fmap_app, countb_app, !fmap_cons, Hi. split; [cbn; lia|]. apply last_snoc. }
  pose proof (on_bus_run cfg mem true ddr5 Hrb Hnr rank bank row (SysIn true (mc k) 0 false :: inputs (S k) (S n)) s Hlast Hrank Hinv) as Hbus.
  rewrite (pending_last cfg mem true ddr5 Hrb Hnr rank bank row _ s None Hlast Hrank Hinv Hlst) in Hbus.
  change (sys_run cfg mem true ddr5 (SysIn true (mc k) 0 false :: inputs (S k) (S n)) s) with (started k s (S n)) in Hbus.
  change (countb (act_on rank bank row) (issued <$> (o_pe <$> (started k s (S n)).1))) with (acts row (started k s (S n)).1) in Hbus.
  rewrite Hacts in Hbus. pose proof (started_ready n row Hr) as Ht.
  change (act_on rank bank row None) with false in Hbus.
  assert (pending rank bank row s = 0%nat) as Hp by (unfold pending, granted; by rewrite Hsw).
  rewrite Hp in Hbus. lia.
Qed.
End from_rest.
End execution.

(** *** The bus before the start *)
Definition bus_acts (rank bank row : Z) (b : xboard) : nat := countb (on_bus rank bank row) (x_bus b).

Lemma rest_cycle_bus rank bank row b : xrest b → bus_acts rank bank row (xcycle false false b) = bus_acts rank bank row b.
Proof.
  intros [_ _ _ Hsw _]. unfold bus_acts, xcycle.
  pose proof (on_bus_cycle cfg (payload_mem b) true ddr5 rank bank row (SysIn false (mc (x_time b)) (x_at b) false) (x_sys b)) as Hb.
  destruct (sys_cycle _ _ _ _ _ _) as [o s]. cbn [x_bus fst] in *. unfold pending, granted in Hb. rewrite Hsw in Hb. cbn in Hb.
  rewrite countb_app. cbn [countb]. destruct (on_bus rank bank row o); [done|lia].
Qed.

Lemma rest_idle_bus rank bank row n b : xrest b → bus_acts rank bank row (xidle n b) = bus_acts rank bank row b.
Proof.
  revert b; induction n as [|n IH]; intros b Hb; [done|]. cbn [xidle]. rewrite IH by (by apply (xrest_idle 1)). by apply rest_cycle_bus.
Qed.

(** *** Writing the payload *)
Lemma memwrite_rest payload b b' :
  xrest b → memwrite payload base 255 b = Ok b' →
  xrest b' ∧ ∀ rank bank row, bus_acts rank bank row b' = bus_acts rank bank row b.
Proof.
  intros Hb (l & _ & [= <-])%bind_ok_inv. revert b Hb. induction l as [|i l IH]; intros b Hb; [done|]. cbn [foldl].
  set (b1 := set_ram _ b). assert (xrest b1) as Hb1 by by destruct Hb.
  destruct (IH (xidle access b1) (xrest_idle access b1 Hb1)) as [H1 H2]. split; [done|].
  intros rank bank row. rewrite H2, rest_idle_bus by done. done.
Qed.

Lemma executor_ready_eq b :
  executor_ready b = (Done (bool_decide (fsm (s_pe (x_sys b)) = READY)), xidle access b).
Proof.
  unfold executor_ready, rd, mbind, host_bind, mret, host_ret, reg_read, exec_device, xsample. cbn [decide].
  destruct (decide _) as [_|]; [|done]. destruct (bool_decide _), (overflow (x_time b)); reflexivity.
Qed.

Lemma track_refresh_eq prev b : x_at b = 0 → track_refresh prev b = (Done false, xidle access b).
Proof.
  intros Hat. assert (xsample "dfi_switch_at_refresh" b = 0) as E by (unfold xsample; by rewrite <- Hat).
  unfold track_refresh, check_refresh_at, rd, mbind, host_bind, mret, host_ret, reg_read, exec_device.
  rewrite E. cbn [Z.eqb negb]. by rewrite andb_false_r.
Qed.

Section polling.
Context {t : timings} {bank rank : Z} {refresh : bool} {read_count : Z} {rows : list Z} {payload_mem_size : Z}
  {verbose : bool} {words : list Z}.
Context (sup : supply) (Hsup : ∀ k, avail sup k = ref_detected ddr5 (mc k)).
Context (Hacc : (0 < access)%nat) (Hsleep : (0 < sleeping)%nat).
Context (b1 : xboard) (Hrest : xrest b1) (Hlast : last_word_ok cfg (payload_mem b1)).
Context (H : hammer_setup cfg t bank rank refresh read_count rows payload_mem_size verbose words (payload_mem b1)).

(** The board [n] cycles after the start request. *)
Definition at_run (n : nat) : xboard :=
  let r := started (payload_mem b1) (x_time b1) (x_sys b1) n in
  XBoard (S (x_time b1) + n) (x_ram b1) 0 r.2 (x_bus b1 ++ r.1).

Lemma at_run_start : xcycle true false b1 = at_run 0.
Proof using Hrest.
  unfold xcycle, at_run, started. change (inputs (S (x_time b1)) 0) with (@nil sys_in). rewrite sys_run_cons. cbn [sys_run fst snd].
  rewrite (xr_at _ Hrest). destruct (sys_cycle _ _ _ _ _ _) as [o s]. cbn. by rewrite Nat.add_0_r.
Qed.

Lemma at_run_idle j n : xidle j (at_run n) = at_run (n + j).
Proof using.
  rewrite xidle_run by done. unfold at_run. rewrite started_add. cbn [x_time x_ram x_sys x_bus fst snd].
  change (payload_mem (XBoard (S (x_time b1) + n) (x_ram b1) 0 (started (payload_mem b1) (x_time b1) (x_sys b1) n).2
    (x_bus b1 ++ (started (payload_mem b1) (x_time b1) (x_sys b1) n).1))) with (payload_mem b1).
  rewrite <- app_assoc. by rewrite <- Nat.add_assoc.
Qed.

Abbreviation bound_ := (run_bound (t := t) (bank := bank) (rank := rank) (refresh := refresh) (read_count := read_count) (rows := rows) sup).

(** Polling ends, one access after the executor is ready. *)
Lemma poll_executor (enabled : bool) fuel : ∀ n acc,
  (bound_ - n < fuel)%nat →
  ∃ acc' m, loop fuel acc (fun transitioned =>
      ready ← executor_ready;
      if (ready : bool) then mret (true, transitioned)
      else
        transitioned' ← (if enabled then track_refresh transitioned else mret transitioned);
        sleep ;; mret (false, transitioned')) (at_run n) = (Done acc', at_run (m + access))
    ∧ fsm (s_pe (started (payload_mem b1) (x_time b1) (x_sys b1) m).2) = READY.
Proof using Hsup Hacc Hsleep Hrest Hlast H.
  induction fuel as [|fuel IH]; intros n acc Hf; [lia|]. cbn [loop]. destruct Hrest as [Hr Hw Hl Hsw Hat].
  unfold mbind at 1, host_bind at 1. unfold mbind at 1, host_bind at 1. rewrite executor_ready_eq, at_run_idle.
  destruct (decide (fsm (s_pe (started (payload_mem b1) (x_time b1) (x_sys b1) n).2) = READY)) as [E|E].
  - rewrite bool_decide_true by done. by exists acc, n.
  - rewrite bool_decide_false by done.
    assert (n < bound_)%nat as Hn.
    { destruct (decide (n < bound_)%nat) as [|Hge]; [done|]. exfalso. apply E.
      apply (started_done (payload_mem b1) H Hlast sup Hsup (x_time b1) (x_sys b1) Hr Hw Hl Hsw n 0). lia. }
    destruct enabled.
    + destruct (IH (n + access + access + sleeping)%nat false ltac:(lia)) as (acc' & m & E1 & E2). exists acc', m. split; [|done].
      rewrite <- E1. unfold mbind at 1, host_bind at 1. rewrite track_refresh_eq by done. rewrite at_run_idle, <- (at_run_idle sleeping). reflexivity.
    + destruct (IH (n + access + sleeping)%nat acc ltac:(lia)) as (acc' & m & E1 & E2). exists acc', m. split; [|done].
      rewrite <- E1. rewrite <- (at_run_idle sleeping). reflexivity.
Qed.

(** All activations were on the bus when polling ends. *)
Lemma at_run_bus m row :
  fsm (s_pe (started (payload_mem b1) (x_time b1) (x_sys b1) m).2) = READY →
  fsm (s_pe (x_sys (at_run (m + access)))) = READY
  ∧ Z.of_nat (bus_acts rank bank row (at_run (m + access)))
    = Z.of_nat (bus_acts rank bank row b1) + read_count * countb (Z.eqb row) rows.
Proof using Hsup Hacc Hsleep Hrest Hlast H.
  intros Hr. destruct Hrest as [Hf Hw Hl Hsw _]. set (s := x_sys b1) in *. set (k := x_time b1) in *.
  assert (∀ j, fsm (s_pe (started (payload_mem b1) k s (m + j)).2) = READY) as Hall.
  { intros j. rewrite started_add. cbn [snd]. by apply (ready_run (bank := bank) (rank := rank)). }
  split; [apply Hall|]. unfold bus_acts, at_run. fold s k. cbn [x_bus]. rewrite countb_app.
  replace (m + access)%nat with (S (m + (access - 1))) by lia.
  pose proof (started_bus (payload_mem b1) H Hlast sup Hsup k s Hf Hw Hl Hsw (m + (access - 1)) row (Hall _)). lia.
Qed.
End polling.

Lemma setup_mem {t bank rank refresh read_count rows payload_mem_size verbose words mem} {mem' : Z → Z} :
  hammer_setup cfg t bank rank refresh read_count rows payload_mem_size verbose words mem →
  (∀ (i : nat) w, words !! i = Some w → mem' i = w) →
  hammer_setup cfg t bank rank refresh read_count rows payload_mem_size verbose words mem'.
Proof. intros [? ? ? ? ? ? ? ?] ?. by split. Qed.
End board.

(** C1: Executing a generated payload from the host.  On a board whose executor is
    ready, [execute_payload] with the words generated for [rows] returns: polling
    ends as the controller issues a refresh at least every [bound sup] cycles and
    the payload runs for a known number of cycles.  The executor is then ready
    again, and between call and return every row was activated on the DFI, while
    the executor held it, exactly [read_count] times its number of occurrences. *)
Theorem execute_payload_complete {M : Migen} {DF : Dfii} cfg ddr5 mc overflow setting access sleeping base sup
    t bank rank refresh read_count rows payload_mem_size verbose words (fuel : nat) b :
  (∀ k, avail sup k = ref_detected ddr5 (mc k)) → (0 < access)%nat → (0 < sleeping)%nat →
  hammer_setup cfg t bank rank refresh read_count rows payload_mem_size verbose words (mem_of words) →
  Z.of_nat (length words) < depth cfg → last_word_ok cfg (payload_mem base b) → xrest b →
  (run_bound cfg (t := t) (bank := bank) (rank := rank) (refresh := refresh) (read_count := read_count) (rows := rows) sup < fuel)%nat →
  let D := exec_device cfg ddr5 mc overflow setting access sleeping base in
  let W := exec_write cfg ddr5 mc overflow setting access sleeping base in
  ∃ b', execute_payload fuel words b = (Done tt, b')
    ∧ fsm (s_pe (x_sys b')) = READY
    ∧ ∀ row, Z.of_nat (bus_acts rank bank row b')
             = Z.of_nat (bus_acts rank bank row b) + read_count * countb (Z.eqb row) rows.
Proof.
  intros Hsup Hacc Hsl Hset Hlen Hlast Hb Hf D W.
  destruct (@memwrite_stored (exec_bus cfg ddr5 mc access base) words base 255 b ltac:(lia)) as (b1 & Ew & Hst & Hoth).
  change (@memwrite (exec_bus_ops cfg ddr5 mc access base) words base 255 b = Ok b1) in Ew.
  destruct (memwrite_rest cfg ddr5 mc access base words b b1 Hb Ew) as [Hr1 Hbus1].
  pose proof (generated_words Hset) as Hwords. rewrite Forall_lookup in Hwords.
  set (b2 := xidle cfg ddr5 mc base access (xidle cfg ddr5 mc base access b1)).
  assert (x_ram b2 = x_ram b1) as Eram by (unfold b2; by rewrite !xidle_ram).
  assert (xrest b2) as Hr2 by by apply xrest_idle, xrest_idle.
  assert (∀ row, bus_acts rank bank row b2 = bus_acts rank bank row b) as Hbus2.
  { intros row. unfold b2. rewrite !rest_idle_bus by (done || by apply xrest_idle). apply Hbus1. }
  assert (hammer_setup cfg t bank rank refresh read_count rows payload_mem_size verbose words (payload_mem base b2)) as H2.
  { eapply setup_mem; [exact Hset|]. intros i w Hi. unfold payload_mem. rewrite Eram. change (x_ram b1 (base + 4 * i)) with (@word (exec_bus cfg ddr5 mc access base) b1 (base + 4 * i)).
    rewrite (Hst i w Hi). apply trunc_small, (Hwords i w Hi). }
  assert (last_word_ok cfg (payload_mem base b2)) as Hlast2.
  { unfold last_word_ok, payload_mem in *. rewrite Eram. change (x_ram b1 ?a) with (@word (exec_bus cfg ddr5 mc access base) b1 a). rewrite Hoth; [exact Hlast|]. intros i Hi. lia. }
  destruct (poll_executor cfg ddr5 mc overflow setting access sleeping base sup Hsup Hacc Hsl b2 Hr2 Hlast2 H2
    (negb (setting =? 0)) fuel access false ltac:(lia)) as (acc' & m & Ep & Em).
  exists (at_run cfg ddr5 mc base b2 (m + access)). split; [|split].
  - unfold execute_payload.
    eapply eq_trans; [eapply bind_done; unfold write_payload, W, exec_write; rewrite Ew; reflexivity|].
    eapply eq_trans; [eapply bind_done; reflexivity|].
    eapply eq_trans; [eapply bind_done; apply executor_ready_eq|].
    rewrite bool_decide_true by apply (xrest_idle cfg ddr5 mc base access b1 Hr1).
    eapply eq_trans; [eapply bind_done; reflexivity|].
    eapply eq_trans; [eapply bind_done; reflexivity|].
    eapply eq_trans; [eapply bind_done|reflexivity]. etransitivity; [|exact Ep]. f_equal.
    change (xidle cfg ddr5 mc base access (xcycle cfg ddr5 mc base true false b2) = at_run cfg ddr5 mc base b2 access).
    rewrite at_run_start by done. apply at_run_idle.
  - by apply (at_run_bus cfg ddr5 mc access sleeping base sup Hsup Hacc Hsl b2 Hr2 Hlast2 H2 m 0).
  - intros row. rewrite <- Hbus2. by apply (at_run_bus cfg ddr5 mc access sleeping base sup Hsup Hacc Hsl b2 Hr2 Hlast2 H2 m row).
Qed.

(** A refresh every fifth cycle. *)
Definition demo_mc (k : nat) : dfi_phase := if (k mod 5 =? 4)%nat then ref_phase else idle_phase.
#[local] Program Definition demo_refreshes : supply :=
  Supply (fun k => ref_detected false (demo_mc k)) (fun k => 4 - k mod 5)%nat 4 _ _.
Next Obligation. intros k. cbn. lia. Qed.
Next Obligation.
  intros k Hk. cbn beta. unfold demo_mc in Hk. destruct (Nat.eqb_spec (k mod 5) 4) as [E|E]; [by vm_compute in Hk|].
  pose proof (Nat.mod_upper_bound k 5 ltac:(lia)). pose proof (Nat.div_mod_eq k 5). pose proof (Nat.div_mod_eq (S k) 5).
  pose proof (Nat.mod_upper_bound (S k) 5 ltac:(lia)). lia.
Qed.

Definition demo_xboard : xboard := XBoard 0 (fun _ => 0) 0 demo_sys [].

Lemma execute_payload_complete_witness :
  let D := exec_device demo_cfg false demo_mc (fun _ => false) 1 2 20 64 in
  let W := exec_write demo_cfg false demo_mc (fun _ => false) 1 2 20 64 in
  ∃ b', execute_payload 5000 (demo_words 5 [3; 9; 3]) demo_xboard = (Done tt, b')
    ∧ Z.of_nat (bus_acts 0 1 3 b') = 10 ∧ Z.of_nat (bus_acts 0 1 9 b') = 5 ∧ Z.of_nat (bus_acts 0 1 4 b') = 0.
Proof.
  destruct (execute_payload_complete demo_cfg false demo_mc (fun _ => false) 1 2 20 64 demo_refreshes
    demo_t 1 0 true 5 [3; 9; 3] 256 true (demo_words 5 [3; 9; 3]) 5000 demo_xboard) as (b' & E & _ & Hb').
  - reflexivity.
  - lia.
  - lia.
  - apply demo_setup; vm_compute; congruence.
  - vm_compute. reflexivity.
  - right. left. vm_compute. reflexivity.
  - split; reflexivity.
  - vm_compute. lia.
  - exists b'. split; [exact E|]. rewrite !Hb'. split_and!; reflexivity.
Defined.

(** The same program, executed. *)
Example execute_payload_runs :
  let D := exec_device demo_cfg false demo_mc (fun _ => false) 1 2 20 64 in
  let W := exec_write demo_cfg false demo_mc (fun _ => false) 1 2 20 64 in
  let '(r, b') := execute_payload 100 (demo_words 5 [3; 9; 3]) demo_xboard in
  (r, bus_acts 0 1 3 b', bus_acts 0 1 9 b') = (Done tt, 10%nat, 5%nat).
Proof. vm_compute. reflexivity. Qed.
