(* ===== verification/RowHammerHost.v ===== *)
(** * Row hammer script

    Models the class [RowHammer] of [src/rowhammer_tester/scripts/rowhammer.py]:
    the rows under attack, the words of a row that are filled and checked over the
    bus of [HostMem], the error counts, the patterns, and the attack with the DMA
    attacker of [Bist]. *)

From stdpp Require Import gmap.
From S2P Require Import Prelude Isa Generator Bist BistFacts HostMem AddressConverter.
From S2P Require Import RowGenerators HalfDouble PayloadGenerators.
#[local] Open Scope Z_scope.

(** The attributes that the methods use. *)
Record RowHammer := MkRowHammer {
  rh_conv : DRAMAddressConverter;
  rh_colbits : Z;               (* settings.geom.colbits *)
  rh_bank : Z;
  rh_column : Z;
  rows_start : Z;
  nrows : Z;
}.

(** ** Rows *)
Definition rows (r : RowHammer) : list Z := (fun i => rows_start r + i) <$> zrange (nrows r).

Section rowhammer.
Context {M : Migen} (r : RowHammer).

(** One element of [row_access_iterator]: row, number of words, first address.
    The cache of [addresses_per_row] holds what is computed here, as the bank
    is fixed. *)
Definition row_access (row : Z) : result (Z * Z * Z) :=
  addresses ← row_addresses (rh_conv r) (rh_colbits r) (rh_bank r) row;
  hi ← py_max addresses;
  lo ← py_min addresses;
  base_addr ← of_option IndexError (addresses !! 0%nat);
  Ok (row, (hi - lo) / 4, base_addr).

Definition row_access_iterator : result (list (Z * Z * Z)) := result_map row_access (rows r).

Context `{WishboneOps}.

Definition check_row (row_patterns : gmap Z Z) (s : bus) (access : Z * Z * Z)
    : result (Z * list (Z * Z * Z)) :=
  let '(row, n, base) := access in
  pattern ← of_option KeyError (row_patterns !! row);
  errors ← memcheck n pattern base 255 s;
  Ok (row, (fun '(addr, data) => (addr, data, pattern)) <$> (errors : list (Z * Z))).

Definition check_errors (row_patterns : gmap Z Z) (s : bus) : result (list (Z * list (Z * Z * Z))) :=
  accesses ← row_access_iterator;
  result_map (check_row row_patterns s) accesses.
End rowhammer.

(** Number of rows with errors, and of wrong bits. *)
Definition errors_count (row_errors : list (Z * list (Z * Z * Z))) : Z :=
  foldr (fun e acc => (if bool_decide (e.2 = []) then 0 else 1) + acc) 0 row_errors.
Definition errors_bitcount (row_errors : list (Z * list (Z * Z * Z))) : Z :=
  foldr (fun e acc => sum_bitflips e.2 + acc) 0 row_errors.

(** ** Patterns *)
Definition patterns_const (rows : list Z) (value : Z) : gmap Z Z :=
  list_to_map ((fun row => (row, value)) <$> rows).
Definition patterns_alternating_per_row (rows : list Z) : gmap Z Z :=
  list_to_map ((fun row => (row, if row mod 2 =? 0 then 4294967295 else 0)) <$> rows).

(** ** Attack *)

(** The two addresses given to the DMA attacker. *)
Definition attack_addresses (r : RowHammer) (row_tuple : list Z) : result (Z * Z) :=
  passert (length row_tuple =? 2) ;;
  addresses ← result_map (fun row => encode_dma (rh_conv r) (rh_bank r) row (rh_column r)) row_tuple;
  a1 ← of_option IndexError (addresses !! 0%nat);
  a2 ← of_option IndexError (addresses !! 1%nat);
  Ok (a1, a2).

(** The attack on a DMA that is ready as in [readys] while the module is enabled:
    the module is cleared first (disabled, count read), then enabled; the
    addresses read and the final count. *)
Definition attack (r : RowHammer) (row_tuple : list Z) (readys : list bool) (counter : Z)
    : result (list Z * Z) :=
  let cleared := RowHammerDMA.cycle (RowHammerDMA.Csrs false 0 0 true) false counter in
  '(a1, a2) ← attack_addresses r row_tuple;
  Ok (RowHammerDMA.run a1 a2 readys cleared).

(** [payload_executor_attack] generates the payload for rank 0, then executes it. *)
Definition payload_executor_attack {M : Migen} (r : RowHammer) (t : timings) (geom_bankbits nranks payload_mem_size : Z)
    (no_refresh verbose : bool) (read_count : Z) (row_tuple : list Z) : result (list Z) :=
  generate_payload_from_row_list read_count row_tuple t geom_bankbits (rh_bank r) (Some nranks) (Some 0)
    payload_mem_size (negb no_refresh) verbose.

(** [prepare_memory] starts with a call of [pattern_generator], which is not a
    name of the method or the module. *)
Definition prepare_memory : result unit := Raise NameError.

(** [run] up to that call. *)
Definition run (data_inversion : bool) : result unit :=
  if data_inversion then Raise NotImplementedError else prepare_memory.

(** ** Row pairs of the command line *)
Inductive pairs_mode := Sequential | Const | Random.

Record pair_args := PairArgs {
  hammer_only : list Z;                 (* empty when not given *)
  all_rows : bool;
  row_pairs_mode : option pairs_mode;
  const_rows_pair : option (Z * Z);
  no_attack : option Z;
  start_row : Z;
  arg_nrows : Z;
  row_pair_distance : Z;
  row_jump : Z;
}.

(** [range(start, stop, step)] *)
Definition range3 (start stop step : Z) : result (list Z) :=
  if step =? 0 then Raise ValueError
  else
    let n := if 0 <? step then (stop - start + step - 1) / step else (start - stop - step - 1) / - step in
    Ok ((fun k => start + k * step) <$> zrange n).

(** The row tuples to hammer; [parser.error] exits with status 2.  [rng] gives the
    successive results of [rng.randint]; without an attack the variable is not
    set, and the result is empty. *)
Definition row_pairs (rng : nat → Z) (a : pair_args) : result (list (list Z)) :=
  let exit := Raise (SystemExit 2) in
  if negb (bool_decide (hammer_only a = [])) then Ok [hammer_only a]
  else if all_rows a then
    if row_pair_distance a <? 0 then exit
    else
      is_ ← range3 (start_row a) (arg_nrows a - row_pair_distance a) (row_jump a);
      Ok ((fun i => [i; i + row_pair_distance a]) <$> (is_ : list Z))
  else match row_pairs_mode a with
  | Some Sequential =>
      if arg_nrows a <=? 0 then exit
      else Ok ((fun i => [start_row a; start_row a + i]) <$> zrange (arg_nrows a))
  | Some Const => match const_rows_pair a with None => exit | Some (x, y) => Ok [[x; y]] end
  | Some Random =>
      if arg_nrows a <=? 0 then exit
      else Ok ((fun k : nat => [rng (2 * k)%nat; rng (2 * k + 1)%nat]) <$> seq 0 (Z.to_nat (arg_nrows a)))
  | None =>
      match no_attack a with
      | Some t => if t <? 0 then exit else Ok []
      | None => exit
      end
  end.

Lemma elem_of_range3 start stop step l i :
  0 < step → range3 start stop step = Ok l → i ∈ l → start ≤ i < stop.
Proof.
  intros Hs. unfold range3. rewrite (proj2 (Z.eqb_neq _ _)), (proj2 (Z.ltb_lt _ _)) by lia. cbv zeta.
  intros [= <-] (k & -> & Hk%elem_of_zrange)%list_elem_of_fmap.
  pose proof (Z.mul_div_le (stop - start + step - 1) step Hs).
  assert (step * (k + 1) ≤ step * ((stop - start + step - 1) / step)) by (apply Z.mul_le_mono_nonneg_l; lia).
  assert (0 ≤ k * step) by (apply Z.mul_nonneg_nonneg; lia). lia.
Qed.

(** With [--all-rows] every pair has the distance asked for and lies between the
    start row and row [nrows]. *)
Lemma all_rows_pairs rng a pairs pair :
  hammer_only a = [] → all_rows a = true → 0 < row_jump a → 0 ≤ row_pair_distance a →
  row_pairs rng a = Ok pairs → pair ∈ pairs →
  ∃ i, pair = [i; i + row_pair_distance a] ∧ start_row a ≤ i ∧ i + row_pair_distance a < arg_nrows a.
Proof.
  intros Hh Hall Hj Hd. unfold row_pairs. rewrite Hh, Hall. cbn [negb bool_decide].
  rewrite (proj2 (Z.ltb_ge _ _)) by done. intros (l & Hl & [= <-])%bind_ok_inv (i & -> & Hi)%list_elem_of_fmap.
  pose proof (elem_of_range3 _ _ _ _ _ Hj Hl Hi). exists i. split; [done|]. lia.
Qed.

(** ** Properties *)
Record rh_ok {M : Migen} (r : RowHammer) (shift : Z) : Prop := {
  ro_geometry : geometry_ok (rh_conv r);
  ro_shift : _get_bus_shift (rh_conv r) default_bus_width = Ok shift;
  ro_shift_pos : 0 ≤ shift;
  ro_cols : rh_colbits r = colbits (rh_conv r);
  ro_bank : 0 ≤ rh_bank r < 2 ^ bankbits (rh_conv r);
}.

Section row.
Context {M : Migen} (r : RowHammer) (shift : Z) (Hok : rh_ok r shift).

Definition column_address (row col : Z) : Z :=
  default_base + row * row_bytes (rh_conv r) shift
  + (col + rh_bank r * 2 ^ colbits (rh_conv r)) * 2 ^ shift.

Lemma column_address_encode row col :
  0 ≤ row < 2 ^ rowbits (rh_conv r) → 0 ≤ col < 2 ^ colbits (rh_conv r) →
  encode_bus (rh_conv r) (rh_bank r) row col default_base default_bus_width = Ok (column_address row col).
Proof using Hok. intros Hr Hc. destruct Hok. by apply encode_bus_row. Qed.

(** The addresses of a row: the least and the greatest are those of the first and
    of the last column. *)
Lemma row_addresses_ends row :
  0 ≤ row < 2 ^ rowbits (rh_conv r) →
  ∃ addresses, row_addresses (rh_conv r) (rh_colbits r) (rh_bank r) row = Ok addresses
    ∧ py_min addresses = Ok (column_address row 0)
    ∧ py_max addresses = Ok (column_address row (2 ^ colbits (rh_conv r) - 1))
    ∧ addresses !! 0%nat = Some (column_address row 0).
Proof using Hok.
  intros Hr. pose proof Hok as []. unfold row_addresses. rewrite ro_cols0.
  set (C := 2 ^ colbits (rh_conv r)).
  assert (0 < C) as HC by (apply pow2_pos, ro_geometry0). pose proof (pow2_pos shift ro_shift_pos0) as Hs.
  exists (column_address row <$> zrange C). split.
  { apply result_map_ok, Forall_forall. intros col Hcol%elem_of_zrange. by apply column_address_encode. }
  assert (∀ a b, a ≤ b → column_address row a ≤ column_address row b) as Hmono.
  { intros a b Hab. unfold column_address. apply Z.add_le_mono_l, Z.mul_le_mono_nonneg_r; lia. }
  assert (∀ c, 0 ≤ c < C → column_address row c ∈ column_address row <$> zrange C) as Hin.
  { intros c Hc. apply list_elem_of_fmap. exists c. split; [done|]. by apply elem_of_zrange. }
  destruct (py_min_max (column_address row <$> zrange C)) as (lo & hi & -> & -> & Hlo & Hhi & Hall).
  { intros E. specialize (Hin 0 ltac:(lia)). rewrite E in Hin. by apply elem_of_nil in Hin. }
  rewrite Forall_forall in Hall.
  apply list_elem_of_fmap in Hlo as (a & -> & Ha%elem_of_zrange), Hhi as (b & -> & Hb%elem_of_zrange).
  split_and!; [f_equal..|].
  - pose proof (Hall _ (Hin 0 ltac:(lia))). pose proof (Hmono 0 a). lia.
  - pose proof (Hall _ (Hin (C - 1) ltac:(lia))). pose proof (Hmono b (C - 1)). lia.
  - unfold zrange. destruct (Z.to_nat C) eqn:E; [lia|done].
Qed.

(** The words that are accessed: all below the address of the last column. *)
Lemma row_access_words row :
  0 ≤ row < 2 ^ rowbits (rh_conv r) →
  row_access r row
  = Ok (row, (2 ^ colbits (rh_conv r) - 1) * 2 ^ shift / 4, column_address row 0).
Proof using Hok.
  intros Hr. destruct (row_addresses_ends row Hr) as (addresses & Ha & Hlo & Hhi & H0).
  unfold row_access. rewrite Ha, ok_bind, Hhi, ok_bind, Hlo, ok_bind, H0. cbn [of_option].
  rewrite ok_bind. repeat f_equal. unfold column_address. lia.
Qed.

(** The location of a word of a row. *)
Lemma word_location row i :
  0 ≤ row < 2 ^ rowbits (rh_conv r) → 0 ≤ i → 4 * i < 2 ^ (colbits (rh_conv r) + shift) →
  decode_bus (rh_conv r) (column_address row 0 + 4 * i) default_base default_bus_width
  = Ok (rh_bank r, row, 4 * i / 2 ^ shift).
Proof using Hok.
  intros Hr H0 Hi. pose proof Hok as []. pose proof ro_geometry0 as (Hc & _ & Hb & _).
  pose proof (pow2_pos shift ro_shift_pos0) as Hs. rewrite Z.pow_add_r in Hi by lia.
  assert (location_ok (rh_conv r) (rh_bank r) row (4 * i / 2 ^ shift)) as Hl.
  { split_and!; try lia; [apply Z.div_pos; lia|]. apply Z.div_lt_upper_bound; lia. }
  unfold decode_bus. rewrite ro_shift0, ok_bind. destruct (Z.ltb_spec 0 (-1 * shift)); [lia|].
  rewrite <- (decode_flat _ _ _ _ ro_geometry0 Hl). do 2 f_equal.
  rewrite Z.shiftr_div_pow2 by lia. replace (- (-1 * shift)) with shift by lia.
  unfold column_address, row_bytes, flat. rewrite !Z.pow_add_r by lia.
  replace (_ - default_base)
    with (4 * i + (row * (2 ^ bankbits (rh_conv r) * 2 ^ colbits (rh_conv r)) + rh_bank r * 2 ^ colbits (rh_conv r)) * 2 ^ shift)
    by lia.
  rewrite Z.div_add by lia. lia.
Qed.
End row.

(** C31: Checking finds the wrong words of the attacked rows.  [check_errors] gives, for
    every row of [rows] in order, exactly the words that differ from the row's
    pattern, with their index, content and the pattern, among the words that lie
    below the address of the row's last column: the words of the last column are
    neither filled nor checked. *)
Theorem check_errors_exact {M : Migen} `{Wishbone} r shift (row_patterns : gmap Z Z) f s :
  rh_ok r shift → 0 ≤ rows_start r → rows_start r + nrows r ≤ 2 ^ rowbits (rh_conv r) →
  (∀ row, row ∈ rows r → row_patterns !! row = Some (f row)) →
  let n := (2 ^ colbits (rh_conv r) - 1) * 2 ^ shift / 4 in
  check_errors r row_patterns s
  = Ok ((fun row => (row, (fun e => (e.1, e.2, f row))
                           <$> wrong_words n (f row) (column_address r shift row 0) s)) <$> rows r)
  ∧ ∀ row, row ∈ rows r →
      column_address r shift row 0 + 4 * n ≤ column_address r shift row (2 ^ colbits (rh_conv r) - 1).
Proof.
  intros Hok H0 Hn Hpat n. pose proof Hok as [].
  assert (0 < 2 ^ colbits (rh_conv r)) as HC by (apply pow2_pos, ro_geometry0).
  pose proof (pow2_pos shift ro_shift_pos0) as Hs.
  assert (0 ≤ n) as Hn0 by (apply Z.div_pos; [apply Z.mul_nonneg_nonneg|]; lia).
  split.
  - unfold check_errors, row_access_iterator.
    rewrite (result_map_ok _ (fun row => (row, n, column_address r shift row 0))).
    2: { apply Forall_forall. intros row (i & -> & Hi%elem_of_zrange)%list_elem_of_fmap.
         apply row_access_words; [done|lia]. }
    rewrite ok_bind.
    rewrite (result_map_ok _ (fun a => (a.1.1, (fun e => (e.1, e.2, f a.1.1)) <$> wrong_words n (f a.1.1) a.2 s))).
    { by rewrite <- list_fmap_compose. }
    apply Forall_forall. intros a (row & -> & Hrow)%list_elem_of_fmap. unfold check_row.
    rewrite (Hpat row Hrow). cbn [of_option]. rewrite ok_bind, memcheck_wrong_words by done. rewrite ok_bind.
    do 2 f_equal. apply list_fmap_ext. by intros _ [i w] _.
  - intros row _. unfold column_address. pose proof (Z.mul_div_le ((2 ^ colbits (rh_conv r) - 1) * 2 ^ shift) 4).
    unfold n. lia.
Qed.

(** A memory of four columns of two bytes: of the two words of a row only the
    first one is looked at. *)
Definition demo_rh : RowHammer := MkRowHammer (MkConverter 2 3 1 3 128) 2 0 0 1 2.

Lemma check_errors_exact_witness :
  check_errors (H := ram_bus_ops) demo_rh (patterns_const (rows demo_rh) 7) (fun _ => 3)
  = Ok [(1, [(0, 3, 7)]); (2, [(0, 3, 7)])].
Proof.
  destruct (check_errors_exact (H := ram_bus) demo_rh 1 (patterns_const (rows demo_rh) 7) (fun _ => 7) (fun _ => 3))
    as [H _].
  - split; vm_compute; intuition congruence.
  - vm_compute. congruence.
  - vm_compute. congruence.
  - intros row (i & -> & Hi%elem_of_zrange)%list_elem_of_fmap. cbn in Hi.
    assert (i = 0 ∨ i = 1) as [-> | ->] by lia; reflexivity.
  - etransitivity; [exact H|]. vm_compute. reflexivity.
Defined.

(** ** How often an attack reads each row *)
Lemma count_hammer_addresses (f : Z → bool) b a1 a2 n c :
  f a1 = b → f a2 = negb b →
  countb f (hammer_addresses a1 a2 c n) = (if eqb (Z.even c) b then (n + 1) / 2 else n / 2)%nat.
Proof.
  intros H1 H2. revert c. induction n as [|n IH]; intros c; [by destruct (eqb _ _)|].
  rewrite hammer_addresses_S. cbn [countb]. rewrite IH.
  assert (Z.even (trunc 32 (c + 1)) = negb (Z.even c)) as ->.
  { unfold trunc. rewrite <- !Z.negb_odd, <- !Z.bit0_odd, Z.mod_pow2_bits_low by lia.
    rewrite !Z.bit0_odd, Z.odd_add. by destruct (Z.odd c). }
  unfold hammer_address.
  replace (S n + 1)%nat with (n + 1 * 2)%nat by lia. rewrite Nat.div_add by done.
  replace (S n / 2)%nat with ((n + 1) / 2)%nat by (f_equal; lia).
  destruct (Z.even c), b; cbn [negb eqb] in *; rewrite ?H1, ?H2; lia.
Qed.

Lemma dma_location c bank row col a :
  geometry_ok c → location_ok c bank row col → address_align c ≤ colbits c →
  (2 ^ address_align c | col) → encode_dma c bank row col = Ok a → decode_dma c a = (bank, row, col).
Proof.
  intros Hg Hl Ha Hcol He. destruct (dma_roundtrip_aux c bank row col) as (a' & He' & Hd); [done..|].
  rewrite He in He'. by injection He' as ->.
Qed.

(** An attack reads both rows often enough.  When the count that the host polls has
    reached [read_count] and has not wrapped around, whatever the timing of the
    DMA: all reads were to the two rows, in alternation, and each of them was
    read at least [read_count / 2] times. *)
Theorem attack_reads_both_rows r row1 row2 readys counter read_count xs count :
  geometry_ok (rh_conv r) → address_align (rh_conv r) ≤ colbits (rh_conv r) →
  (2 ^ address_align (rh_conv r) | rh_column r) → row1 ≠ row2 →
  location_ok (rh_conv r) (rh_bank r) row1 (rh_column r) →
  location_ok (rh_conv r) (rh_bank r) row2 (rh_column r) →
  (countb id readys < 2 ^ 32)%Z → attack r [row1; row2] readys counter = Ok (xs, count) →
  read_count ≤ count →
  let reads row := countb (fun a => bool_decide (decode_dma (rh_conv r) a = (rh_bank r, row, rh_column r))) xs in
  count = length xs ∧ count = reads row1 + reads row2
  ∧ read_count / 2 ≤ reads row1 ∧ read_count / 2 ≤ reads row2.
Proof.
  intros Hg Ha Hcol Hne Hl1 Hl2 Hn. unfold attack, attack_addresses. cbv zeta.
  change (passert (length [row1; row2] =? 2)) with (Ok tt). rewrite ok_bind. cbn [result_map].
  destruct (encode_dma _ _ row1 _) as [a1|] eqn:E1; [rewrite ok_bind|done].
  destruct (encode_dma _ _ row2 _) as [a2|] eqn:E2; [rewrite !ok_bind|done].
  cbn [lookup list_lookup of_option]. rewrite !ok_bind.
  pose proof (dma_location _ _ _ _ _ Hg Hl1 Ha Hcol E1) as D1.
  pose proof (dma_location _ _ _ _ _ Hg Hl2 Ha Hcol E2) as D2.
  change (RowHammerDMA.cycle _ false counter) with 0. rewrite RowHammerDMA_run by lia. intros [= <- <-] Hr.
  rewrite trunc_small in * by lia. rewrite Z.add_0_l in *.
  set (n := countb id readys) in *.
  rewrite (count_hammer_addresses _ true a1 a2 n 0), (count_hammer_addresses _ false a1 a2 n 0).
  2-5: rewrite ?D1, ?D2; case_bool_decide; congruence || done.
  unfold hammer_addresses. rewrite length_fmap, length_seq. change (Z.even 0) with true. cbn [eqb].
  pose proof (Nat.div_mod_eq n 2). pose proof (Nat.div_mod_eq (n + 1) 2).
  pose proof (Nat.mod_upper_bound n 2). pose proof (Nat.mod_upper_bound (n + 1) 2).
  pose proof (Z.div_mod read_count 2). pose proof (Z.mod_pos_bound read_count 2).
  split_and!; lia.
Qed.

Definition demo_attack : RowHammer := MkRowHammer demo_conv 10 1 512 0 0.

Lemma attack_reads_both_rows_witness :
  ∃ xs, attack demo_attack [3; 5] [true; true; false; true; true] 99 = Ok (xs, 4)
    ∧ 2 ≤ countb (fun a => bool_decide (decode_dma demo_conv a = (1, 5, 512))) xs.
Proof.
  destruct (attack demo_attack [3; 5] [true; true; false; true; true] 99) as [[xs count]|] eqn:E; [|discriminate].
  pose proof (attack_reads_both_rows demo_attack 3 5 [true; true; false; true; true] 99 4 xs count) as H.
  exists xs. vm_compute in E. injection E as <- <-. split; [reflexivity|]. apply H.
  - vm_compute. intuition congruence.
  - vm_compute. congruence.
  - exists 64. reflexivity.
  - congruence.
  - vm_compute. intuition congruence.
  - vm_compute. intuition congruence.
  - vm_compute. reflexivity.
  - vm_compute. reflexivity.
  - lia.
Defined.
