(* ===== verification/RowHammerRest.v ===== *)
(** * The other methods of the row hammer script

    Of [src/rowhammer_tester/scripts/rowhammer.py]: the cache of
    [addresses_per_row], the random patterns, and waiting instead of an attack.  Times
    are floats ([PyFloat]); the random numbers are a parameter. *)

From Stdlib Require Import QArith Qround Lqa.
From stdpp Require Import gmap.
From S2P Require Import Prelude Spd SpdFacts Device AddressConverter PayloadGenerators RowHammerHost.
#[local] Open Scope Z_scope.

(** ** The addresses of a row *)
Section addresses.
Context {M : Migen} (r : RowHammer).

(** [self._addresses_per_row] *)
Abbreviation cache := (gmap Z (list Z)).

Definition addresses_per_row (c : cache) (row : Z) : result (list Z * cache) :=
  match c !! row with
  | Some addresses => Ok (addresses, c)
  | None =>
      addresses ← row_addresses (rh_conv r) (rh_colbits r) (rh_bank r) row;
      Ok (addresses, <[row := addresses]> c)
  end.

(** The bank of the script is fixed, so that the key may be the row alone. *)
Definition cache_ok (c : cache) : Prop :=
  ∀ row addresses, c !! row = Some addresses → row_addresses (rh_conv r) (rh_colbits r) (rh_bank r) row = Ok addresses.

(** Any sequence of lookups gives what the computation without a cache gives. *)
Lemma addresses_cached c row :
  cache_ok c →
  match addresses_per_row c row with
  | Ok (addresses, c') => row_addresses (rh_conv r) (rh_colbits r) (rh_bank r) row = Ok addresses ∧ cache_ok c'
  | Raise e => row_addresses (rh_conv r) (rh_colbits r) (rh_bank r) row = Raise e
  end.
Proof.
  intros Hc. unfold addresses_per_row. destruct (c !! row) as [l|] eqn:E; [split; [by apply Hc|done]|].
  destruct (row_addresses _ _ _ row) as [l|e] eqn:Er; [|done]. rewrite ok_bind. split; [done|].
  intros row' l'. rewrite lookup_insert. case_decide; [intros [= <-]; by subst row'|apply Hc].
Qed.

Lemma addresses_cached_map rows : ∀ c,
  cache_ok c →
  fst <$> result_fold (fun '(ls, c) row => '(l, c) ← addresses_per_row c row; Ok (ls ++ [l], c)) ([], c) rows
  = result_map (fun row => row_addresses (rh_conv r) (rh_colbits r) (rh_bank r) row) rows.
Proof.
  intros c Hc. enough (∀ ls c, cache_ok c →
    fst <$> result_fold (fun '(ls, c) row => '(l, c) ← addresses_per_row c row; Ok (ls ++ [l], c)) (ls, c) rows
    = (new ← result_map (fun row => row_addresses (rh_conv r) (rh_colbits r) (rh_bank r) row) rows; Ok (ls ++ new))) as Hg.
  { rewrite (Hg [] c Hc). by destruct (result_map _ rows). }
  clear c Hc. induction rows as [|row rows IH]; intros ls c Hc; cbn [result_fold result_map]; [by rewrite ok_bind, app_nil_r|].
  pose proof (addresses_cached c row Hc) as Hr. destruct (addresses_per_row c row) as [[l c']|e]; [|by rewrite Hr].
  destruct Hr as [-> Hc']. rewrite !ok_bind, (IH _ c' Hc'). destruct (result_map _ rows) as [new|]; [|done].
  rewrite !ok_bind. by rewrite <- app_assoc.
Qed.
End addresses.

(** ** Random patterns

    [rng k] is the [k]-th number of [random.Random(seed)]. *)
Definition patterns_random_per_row (rng : nat → Z) (rows : list Z) : gmap Z Z :=
  foldl (fun d kr => <[kr.2 := rng kr.1]> d) ∅ (imap (fun k row => (k, row)) rows).

Lemma foldl_patterns rng (l : list (nat * Z)) row : ∀ d,
  row ∉ l.*2 → foldl (fun d kr => <[kr.2 := rng kr.1]> d) d l !! row = (d : gmap Z Z) !! row.
Proof.
  induction l as [|[k x] l IH]; intros d Hr; [done|]. cbn in Hr. apply not_elem_of_cons in Hr as [Hx Hr].
  cbn [foldl]. rewrite IH by done. by rewrite lookup_insert_ne.
Qed.

(** Every row has a pattern of its own. *)
Lemma patterns_random_lookup rng rows i row :
  NoDup rows → rows !! i = Some row → patterns_random_per_row rng rows !! row = Some (rng i).
Proof.
  intros Hnd Hi. unfold patterns_random_per_row. apply list_elem_of_split_length in Hi as (l1 & l2 & -> & ->).
  apply NoDup_app in Hnd as (_ & _ & Hnd). apply NoDup_cons in Hnd as [Hn _].
  rewrite imap_app, foldl_app. cbn [imap foldl]. rewrite Nat.add_0_r, foldl_patterns; [apply lookup_insert_eq|].
  intros Hin. apply Hn. clear -Hin. apply list_elem_of_fmap in Hin as ([k x] & E & Hin). cbn in E. subst x.
  apply elem_of_lookup_imap in Hin as (j & x & [= _ ->] & Hj). by eapply list_elem_of_lookup_2.
Qed.

(** ** Waiting instead of an attack *)
Section sleep.
Context {F : PyFloat} `{HD : Device}.

(** [int(10 * (no_attack_time / 1e9))], for a time in whole nanoseconds. *)
Definition sleep_steps (no_attack_time : Z) : Z :=
  let sleep_time := fdiv (of_int no_attack_time) (of_int 1000000000) in
  Qfloor (value (fmul (of_int 10) sleep_time)).

(** [elapse] is [time.sleep(0.1)]. *)
Definition no_attack_sleep (no_attack_time : Z) : host unit :=
  for_each (zrange (sleep_steps no_attack_time)) (fun _ => sleep).

Lemma sleep_steps_exact t : 0 < t ≤ 10 ^ 15 → 10 ^ 8 * sleep_steps t ≤ t ≤ 10 ^ 8 * (sleep_steps t + 1).
Proof using Type.
  intros Ht. unfold sleep_steps. set (st := fdiv _ _). set (v := value (fmul (of_int 10) st)).
  assert (value (of_int t) == inject_Z t)%Q as E1 by (apply of_int_exact; lia).
  assert (value (of_int 1000000000) == 1000000000)%Q as E2 by (rewrite of_int_exact by lia; reflexivity).
  assert (value (of_int 10) == 10)%Q as E3 by (rewrite of_int_exact by lia; reflexivity).
  destruct (inject_bounds 1 t (10 ^ 15)) as [Hlo Hhi]; [lia|]. change (inject_Z 1) with 1%Q in Hlo. change (inject_Z (10 ^ 15)) with (1000000000000000)%Q in Hhi.
  assert (within (1 # 2 ^ 53) (value st) (inject_Z t * (1 # 1000000000)))%Q as H1.
  { assert (within 0 (value (of_int t) / value (of_int 1000000000)) (inject_Z t * (1 # 1000000000)))%Q as H0.
    { apply within_exact. rewrite E1, E2. field. }
    apply (near_within (value (of_int t) / value (of_int 1000000000)) _ 0); [lra|exact H0| |qnum..].
    apply fdiv_near. apply (within_moderate 0 _ _ (1 # 1000000000) 1000000 H0); [lra|lra|qnum..]. }
  assert (within (3 # 2 ^ 53) v (inject_Z t * (1 # 100000000)))%Q as H2.
  { assert (within (1 # 2 ^ 53) (value (of_int 10) * value st) (inject_Z t * (1 # 100000000)))%Q as H0.
    { eapply within_eq_l; [|rewrite E3; reflexivity]. eapply within_eq; [apply within_mul_l; [lra|exact H1]|]. field. }
    apply (near_within (value (of_int 10) * value st) _ (1 # 2 ^ 53)); [lra|exact H0| |qnum..].
    apply fmul_near. apply (within_moderate _ _ _ (1 # 100000000) 10000000 H0); [lra|lra|qnum..]. }
  destruct H2 as [H2 H3]. pose proof (Qfloor_le v) as Hf. pose proof (Qlt_floor v) as Hc. set (n := Qfloor v) in *.
  change (3 # 2 ^ 53)%Q with (3 # 9007199254740992)%Q in *.
  assert (inject_Z (10 ^ 8 * n) < inject_Z (t + 1))%Q as Ha.
  { rewrite inject_Z_mult, inject_Z_plus. change (inject_Z (10 ^ 8)) with 100000000%Q. change (inject_Z 1) with 1%Q. lra. }
  assert (inject_Z (t - 1) < inject_Z (10 ^ 8 * (n + 1)))%Q as Hb.
  { rewrite inject_Z_mult. unfold Z.sub. rewrite inject_Z_plus. change (inject_Z (10 ^ 8)) with 100000000%Q. change (inject_Z (- (1))) with (-1)%Q. lra. }
  rewrite <- Zlt_Qlt in Ha, Hb. lia.
Qed.

Lemma for_each_sleep (l : list Z) d : for_each l (fun _ => sleep) d = (Done tt, Nat.iter (length l) elapse d).
Proof.
  revert d; induction l as [|x l IH]; intros d; [done|]. cbn [for_each]. erewrite bind_done by done. rewrite IH.
  cbn [length]. by rewrite Nat.iter_succ_r.
Qed.

(** The script waits in whole tenths of a second: never longer than asked for, and up
    to a tenth less. *)
Lemma no_attack_waits t d :
  0 < t ≤ 10 ^ 15 →
  ∃ n : nat, no_attack_sleep t d = (Done tt, Nat.iter n elapse d) ∧ 10 ^ 8 * Z.of_nat n ≤ t ≤ 10 ^ 8 * (Z.of_nat n + 1).
Proof.
  intros Ht. pose proof (sleep_steps_exact t Ht) as Hn. exists (Z.to_nat (sleep_steps t)).
  split; [|rewrite Z2Nat.id by lia; done]. unfold no_attack_sleep. rewrite for_each_sleep. unfold zrange. by rewrite length_fmap, length_seq.
Qed.

(** Below a tenth of a second it does not wait at all, for instance for the 64 ms after
    which a row has to be refreshed. *)
Lemma short_waits_skipped t d : 0 < t < 10 ^ 8 → no_attack_sleep t d = (Done tt, d).
Proof.
  intros Ht. destruct (no_attack_waits t d ltac:(lia)) as (n & E & Hn). assert (n = 0%nat) as -> by lia. exact E.
Qed.
End sleep.
