(* ===== verification/HwRowHammer.v ===== *)
(** * Row hammer script with hardware acceleration

    Models the class [HwRowHammer] of [src/rowhammer_tester/scripts/hw_rowhammer.py]:
    the attack that lets the BIST reader of [Bist] cycle through the rows, and the
    errors by row.  [HwAttack] has the attack as a program, [HwRun] the method [run]. *)

From S2P Require Import Prelude Bist BistFacts HostMem HostBist AddressConverter.
From S2P Require Import RowGenerators HalfDouble PayloadGenerators Playbook RowHammerHost.
#[local] Open Scope Z_scope.

(** ** Attack *)

(** Entries of the pattern memory after [memwrite] of the addresses. *)
Definition write_entries (l : list Z) (m : Z → Z) : Z → Z :=
  fun a => if decide (0 ≤ a) then default (m a) (trunc 32 <$> l !! Z.to_nat a) else m a.

(** The reader before it is started: no errors are kept, the DMA address is not
    incremented, the patterns are taken modulo their number.  [ready] is
    [reader_ready], [nbytes] the size of a DMA word. *)
Definition hw_attack (cfg : bist_cfg) (nbytes : Z) (r : RowHammer) (row_tuple : list Z) (read_count ready : Z)
    (m : module) : result module :=
  passert (length row_tuple <=? 32) ;;
  addresses ← result_map (fun row => encode_dma (rh_conv r) (rh_bank r) row (rh_column r)) row_tuple;
  passert (ready =? 1) ;;
  let c := csr m in
  let word := repeat_word (Z.to_nat (nbytes / 4)) 2863311530 in
  Ok (Module_
    (BistCsr true (trunc 32 read_count) 0 (data_mask c) (trunc (mask_bits cfg) (length row_tuple - 1))
       (divisor_mask c) (selection_mask c))
    (fun a => if (0 <=? a) && (a <? 64 / nbytes) then word else pattern_data m a)
    (write_entries addresses (pattern_addr m))).

(** After the attack the mask mode is set again. *)
Definition hw_attack_end (m : module) : module :=
  let c := csr m in
  Module_ (BistCsr false (count c) (mem_mask c) (data_mask c) (data_div c) (divisor_mask c) (selection_mask c))
    (pattern_data m) (pattern_addr m).

(** ** Checking *)

(** One error of [hw_memtest]: its row, and the word index relative to the first
    address of that row in the bank of the script (not of the error). *)
Definition hw_check_error {M : Migen} (r : RowHammer) (main_base dma_data_bytes : Z)
    (row_errors : list (Z * list error)) (e : bist_error) : result (list (Z * list error)) :=
  let '(offset, data, expected) := e in
  let addr := main_base + offset * dma_data_bytes in
  '(_, row, _) ← decode_bus (rh_conv r) addr default_base default_bus_width;
  addresses ← row_addresses (rh_conv r) (rh_colbits r) (rh_bank r) row;
  base_addr ← py_min addresses;
  Ok (append_error row ((addr - base_addr) / 4, data, expected) row_errors).

Definition hw_check_errors {M : Migen} (r : RowHammer) (main_base dma_data_width : Z) (errors : list bist_error)
    : result (list (Z * list error)) :=
  result_fold (hw_check_error r main_base (dma_data_width / 8)) [] errors.

(** An error in bank 1 of row 2, seen by a script for bank 0: the word index is
    outside the row, which has 512 words. *)
Example other_bank_index :
  hw_check_errors (MkRowHammer demo_conv 10 0 512 0 0) default_base 128 [(2176, 1, 0)]
  = Ok [(2, [(512, 1, 0)])].
Proof. vm_compute. reflexivity. Qed.

(** ** The attack reads the rows in turn *)
Record hw_attack_ok (cfg : bist_cfg) (r : RowHammer) (m : module) (row_tuple : list Z) (read_count : Z) : Prop := {
  ha_geometry : geometry_ok (rh_conv r);
  ha_align : address_align (rh_conv r) ≤ colbits (rh_conv r);
  ha_column : (2 ^ address_align (rh_conv r) | rh_column r);
  ha_rows : Forall (fun row => location_ok (rh_conv r) (rh_bank r) row (rh_column r)) row_tuple;
  ha_fits : colbits (rh_conv r) + bankbits (rh_conv r) + rowbits (rh_conv r) - address_align (rh_conv r)
            ≤ Z.min 32 (addr_width cfg);
  ha_length : 1 ≤ length row_tuple ≤ 32;
  ha_depth : length row_tuple - 1 < 2 ^ mask_bits cfg;
  ha_count : 0 ≤ read_count < 2 ^ 32;
  ha_mask : 0 ≤ divisor_mask (csr m);
  ha_rowbits : 0 ≤ Bist.rowbits cfg;
}.

(** The DMA address of a row. *)
Definition row_dma (r : RowHammer) (row : Z) : Z :=
  Z.shiftr (flat (rh_conv r) (rh_bank r) row (rh_column r)) (address_align (rh_conv r)).

Lemma row_dma_encode r row :
  geometry_ok (rh_conv r) → location_ok (rh_conv r) (rh_bank r) row (rh_column r) →
  encode_dma (rh_conv r) (rh_bank r) row (rh_column r) = Ok (row_dma r row).
Proof. intros Hg Hl. unfold encode_dma. by rewrite encode_flat, ok_bind. Qed.

Lemma row_dma_bound r row w :
  geometry_ok (rh_conv r) → location_ok (rh_conv r) (rh_bank r) row (rh_column r) →
  address_align (rh_conv r) ≤ colbits (rh_conv r) →
  colbits (rh_conv r) + bankbits (rh_conv r) + rowbits (rh_conv r) - address_align (rh_conv r) ≤ w →
  0 ≤ row_dma r row < 2 ^ w.
Proof.
  intros Hg Hl Ha Hw. pose proof (flat_bound _ _ _ _ Hg Hl) as Hf. pose proof Hg as (Hc & Hr & Hb & Ha0).
  unfold row_dma. rewrite Z.shiftr_div_pow2 by done. pose proof (pow2_pos _ Ha0).
  split; [apply Z.div_pos; lia|]. apply Z.div_lt_upper_bound; [done|].
  rewrite <- Z.pow_add_r by lia. eapply Z.lt_le_trans; [apply Hf|]. apply Z.pow_le_mono_r; lia.
Qed.

Lemma hw_attack_module cfg nbytes r m row_tuple read_count :
  hw_attack_ok cfg r m row_tuple read_count →
  ∃ m', hw_attack cfg nbytes r row_tuple read_count 1 m = Ok m'
    ∧ modulo (csr m') = true ∧ count (csr m') = read_count ∧ mem_mask (csr m') = 0
    ∧ data_div (csr m') = length row_tuple - 1 ∧ csr_ok cfg (csr m')
    ∧ ∀ i row, row_tuple !! i = Some row → pattern_addr m' (Z.of_nat i) = row_dma r row.
Proof.
  intros []. unfold hw_attack. rewrite (proj2 (Z.leb_le _ _)) by lia. cbn [passert]. rewrite ok_bind.
  rewrite (result_map_ok _ (row_dma r)).
  2: { eapply Forall_impl; [exact ha_rows0|]. intros row Hrow. by apply row_dma_encode. }
  rewrite ok_bind. change (passert (1 =? 1)) with (Ok tt). rewrite ok_bind.
  eexists. split; [done|]. cbn. rewrite !trunc_small by lia.
  split_and!; try done; [split; cbn; rewrite ?trunc_small; (done || lia)|].
  intros i row Hi. unfold write_entries. rewrite decide_True by lia. rewrite Nat2Z.id, list_lookup_fmap, Hi.
  cbn. apply trunc_small. rewrite Forall_lookup in ha_rows0. apply row_dma_bound; eauto. lia.
Qed.

(** A BIST attack reads the rows in turn.  After the setup of [attack], and for any
    timing of the FIFO and the DMA, read number [k] of the reader goes to row
    number [k] modulo the number of rows (of the requested bank and column), at
    most [read_count] reads are made, and exactly that many when the reader is
    ready again. *)
Theorem hw_attack_round_robin cfg nbytes r m row_tuple read_count s fr dr ins :
  hw_attack_ok cfg r m row_tuple read_count →
  ra_fsm s = RA_READY → Forall (fun i => ra_start i = false) ins →
  ∃ m', hw_attack cfg nbytes r row_tuple read_count 1 m = Ok m' ∧
  let '(_, dma, s') := reader_addr_run cfg (csr m') (pattern_addr m') (ReaderAddrIn true fr dr :: ins) s in
  (∀ k x, dma !! k = Some x →
     ∃ row, row_tuple !! (k mod length row_tuple)%nat = Some row
       ∧ decode_dma (rh_conv r) x = (rh_bank r, row, rh_column r))
  ∧ length dma ≤ read_count
  ∧ (ra_fsm s' = RA_READY → Z.of_nat (length dma) = read_count).
Proof.
  intros Hok Hf Hns. destruct (hw_attack_module cfg nbytes r m row_tuple read_count Hok)
    as (m' & Hm' & Hmod & Hcnt & Hmm & Hdiv & Hcsr & Haddr).
  exists m'. split; [done|].
  pose proof (reader_addr_from_ready cfg (csr m') (pattern_addr m') s fr dr ins Hcsr Hf Hns) as Hrun.
  destruct (reader_addr_run _ _ _ _ s) as [[fifo dma] s']. destruct Hrun as (-> & _ & Hle & Hready).
  unfold addresses in *. split_and!.
  - intros k x (i & -> & Hi)%list_lookup_fmap_Some. apply lookup_seq in Hi as [-> Hk]. destruct Hok.
    destruct (lookup_lt_is_Some_2 row_tuple (k mod length row_tuple)%nat) as [row Hrow];
      [apply Nat.mod_upper_bound; lia|].
    exists row. split; [done|]. rewrite Forall_lookup in ha_rows0. pose proof (ha_rows0 _ _ Hrow) as Hl.
    unfold compose, transfer_address, pattern_index. rewrite Hmod, Hmm, Hdiv, Z.land_0_r, Z.add_0_r.
    rewrite Nat.add_0_l, Z.sub_add, <- Nat2Z.inj_mod, (Haddr _ _ Hrow).
    rewrite trunc_small by (apply row_dma_bound; (done || lia)).
    eapply dma_location; eauto using row_dma_encode.
  - rewrite length_fmap, length_seq. destruct Hok. lia.
  - intros Hr. destruct (Hready Hr) as [_ E]. apply (f_equal length) in E.
    rewrite !length_fmap, !length_seq in *. destruct Hok. lia.
Qed.

(** Three rows read seven times in all. *)
Definition hw_demo_cfg : bist_cfg := BistCfg 32 24 32 5 3.
Definition hw_demo_module : module := Module_ (BistCsr false 0 0 0 0 0 0) (fun _ => 0) (fun _ => 0).
Definition hw_demo_module' : module := ok_or hw_demo_module (hw_attack hw_demo_cfg 4 demo_attack [3; 5; 9] 7 1 hw_demo_module).

Lemma hw_attack_round_robin_witness :
  ∃ dma s', (reader_addr_run hw_demo_cfg (csr hw_demo_module') (pattern_addr hw_demo_module')
      (ReaderAddrIn true true true :: replicate 50 (ReaderAddrIn false true true)) (ReaderAddrRegs RA_READY 0 0 0 0))
    = (dma, dma, s') ∧ Z.of_nat (length dma) = 7.
Proof.
  destruct (hw_attack_round_robin hw_demo_cfg 4 demo_attack hw_demo_module [3; 5; 9] 7
    (ReaderAddrRegs RA_READY 0 0 0 0) true true (replicate 50 (ReaderAddrIn false true true))) as (m' & Hm' & H).
  - split; try (vm_compute; intuition congruence).
    + exists 64. reflexivity.
    + repeat constructor; vm_compute; congruence.
  - reflexivity.
  - by apply Forall_replicate.
  - assert (m' = hw_demo_module') as -> by (unfold hw_demo_module'; by rewrite Hm').
    destruct (reader_addr_run _ _ _ _ _) as [[fifo dma] s'] eqn:E. destruct H as (_ & _ & H).
    vm_compute in E. injection E as <- <- <-. eexists _, _. split; [reflexivity|]. by apply H.
Defined.
