(* ===== verification/HwAttack.v ===== *)
(** * The BIST attack as a whole

    The complete method [attack] of [HwRowHammer] in
    [src/rowhammer_tester/scripts/hw_rowhammer.py], with its polling loop, on a board
    that has both FSMs of the reader of [src/rowhammer_tester/gateware/bist.py]: the
    one that sends addresses to the DMA, and the one that takes the words, with the
    address FIFO between them.  The times at which the DMA accepts a command and
    delivers a word, the number of words it has in flight, the cycles that an access
    of the host takes and the contents of the memory are parameters.

    The host writes the start register twice, and every write starts an FSM that is
    ready.  When the attack takes longer than the first write, the second one is
    ignored and the attack is exact; the examples at the end show what happens to
    shorter ones. *)

From S2P Require Import Prelude Bist BistFacts HostMem HostBist AddressConverter Device BistBoard BistHost.
From S2P Require Import RowGenerators HalfDouble PayloadGenerators Playbook RowHammerHost HwRowHammer.
#[local] Open Scope Z_scope.

(** ** The board *)
Class ReaderTiming := {
  command_ready : supply;        (* the DMA accepts an address *)
  word_valid : supply;           (* the DMA delivers a word *)
  in_flight : nat;               (* words of the DMA *)
  in_flight_pos : (1 ≤ in_flight)%nat;
  access_time : nat;
  sleep_time : nat;
}.

(** The depth of [address_fifo]. *)
Definition address_depth : nat := 4.

Section board.
Context {M : Migen} (cfg : bist_cfg) {T : ReaderTiming} (mem : nat → Z → Z).

Record pair := Pair {
  p_time : nat;
  p_mod : module;                (* registers and pattern memories of the reader *)
  p_skip : bool;
  p_ra : reader_addr_regs;
  p_r : reader_regs;
  p_addr : list Z;               (* address FIFO *)
  p_dma : list Z;                (* addresses whose words are not taken yet *)
  p_sent : list Z;               (* all addresses that the DMA was given *)
}.

Definition nonempty (l : list Z) : bool := match l with [] => false | _ => true end.

(** The error FIFO is not full. *)
Definition pair_cycle (start : bool) (p : pair) : pair :=
  let m := p_mod p in
  let '(ao, ra') := reader_addr_cycle cfg (csr m) (pattern_addr m)
    (ReaderAddrIn start (bool_decide (length (p_addr p) < address_depth)%nat)
       (avail command_ready (p_time p) && bool_decide (length (p_dma p) < in_flight)%nat)) (p_ra p) in
  let '(ro, r') := reader_cycle cfg (csr m) (pattern_data m)
    (ReaderIn start (nonempty (p_addr p)) (default 0 (head (p_addr p)))
       (avail word_valid (p_time p) && nonempty (p_dma p)) (mem (p_time p) (default 0 (head (p_dma p)))) true (p_skip p)) (p_r p) in
  Pair (S (p_time p)) m (p_skip p) ra' r'
    ((if r_pop ro then tail (p_addr p) else p_addr p) ++ option_list (to_fifo ao))
    ((if r_pop ro then tail (p_dma p) else p_dma p) ++ option_list (to_dma ao))
    (p_sent p ++ option_list (to_dma ao)).

Fixpoint pair_idle (n : nat) (p : pair) : pair :=
  match n with O => p | S n' => pair_idle n' (pair_cycle false p) end.

(** *** Registers *)
Definition set_mod (f : module → module) (p : pair) : pair :=
  Pair (p_time p) (f (p_mod p)) (p_skip p) (p_ra p) (p_r p) (p_addr p) (p_dma p) (p_sent p).
Definition pair_sample (r : string) (p : pair) : Z :=
  if decide (r = "reader_ready"%string) then b2z (bool_decide (r_fsm (p_r p) = R_READY))
  else if decide (r = "reader_done"%string) then counter_gen (p_r p)
  else 0.

(** Every write to [start] starts, whatever is written. *)
Definition pair_poke (r : string) (v : Z) (p : pair) : pair :=
  if decide (r = "reader_start"%string) then pair_cycle true p
  else if decide (r = "reader_skip_fifo"%string) then Pair (p_time p) (p_mod p) (Z.odd v) (p_ra p) (p_r p) (p_addr p) (p_dma p) (p_sent p)
  else if decide (r = "reader_modulo"%string) then set_mod (set_csr (set_modulo (Z.odd v))) p
  else if decide (r = "reader_data_div"%string) then set_mod (set_csr (set_data_div cfg v)) p
  else if decide (r = "reader_mem_mask"%string) then set_mod (set_csr (set_mem_mask v)) p
  else if decide (r = "reader_count"%string) then set_mod (set_csr (set_count v)) p
  else p.

#[local] Instance pair_device : Device := {|
  dev := pair;
  reg_read r p := (pair_sample r p, pair_idle access_time p);
  reg_write r v p := pair_idle access_time (pair_poke r v p);
  has_reg _ := true;
  elapse := pair_idle sleep_time;
|}.

Definition pair_poke_mem (r : string) (l : list Z) (p : pair) : pair :=
  if decide (r = "reader_pattern_addr"%string) then
    set_mod (set_addr l) p
  else if decide (r = "reader_pattern_data"%string) then
    set_mod (set_data cfg l) p
  else p.

#[local] Instance pair_mem_write : MemWrite := fun r l p => (Done tt, pair_idle access_time (pair_poke_mem r l p)).
End board.

(** ** The program *)
Section program.
Context `{D : Device} {W : MemWrite} (fuel : nat).

Definition wait_attack : host unit :=
  loop fuel tt (fun _ =>
    _ ← rd "reader_done";
    v ← rd "reader_ready";
    if negb (v =? 0) then mret (true, tt) else sleep ;; mret (false, tt)).

Definition attack (r : RowHammer) (row_tuple : list Z) (read_count : Z) : host unit :=
  hassert (length row_tuple <=? 32) ;;
  addresses ← lift (result_map (fun row => encode_dma (rh_conv r) (rh_bank r) row (rh_column r)) row_tuple);
  wr "reader_skip_fifo" 1 ;;
  sleep ;;
  wr "reader_skip_fifo" 0 ;;
  v ← rd "reader_ready"; hassert (v =? 1) ;;
  wr "reader_skip_fifo" 1 ;;
  wr "reader_mem_mask" 0 ;;
  wr "reader_modulo" 1 ;;
  wr "reader_data_div" (length row_tuple - 1) ;;
  mem_write "reader_pattern_addr" addresses ;;
  mem_write "reader_pattern_data" (replicate 16 2863311530) ;;
  wr "reader_count" read_count ;;
  wr "reader_start" 1 ;;
  wr "reader_start" 0 ;;
  wait_attack ;;
  _ ← rd "reader_done";
  wr "reader_modulo" 0.
End program.

(** ** The reader during an attack *)
Section hammering.
Context {M : Migen} (cfg : bist_cfg) {T : ReaderTiming} (mem : nat → Z → Z).
Context (x : module) (Hok : csr_ok cfg (csr x)).
Abbreviation N := (count (csr x)).
Abbreviation cycle := (pair_cycle cfg mem).
Abbreviation idle := (pair_idle cfg mem).
Abbreviation addrs := (addresses cfg (csr x) (pattern_addr x)).

(** The FSM that takes the words; it holds the head of the address FIFO while it
    computes and waits. *)
Definition taker_inv (p : pair) : Prop :=
  let k := counter_gen (p_r p) in
  0 ≤ k ≤ N
  ∧ match r_fsm (p_r p) with
    | R_READY => k = N
    | R_COMPUTE_MEM_ADDR => True
    | R_WAIT_FOR_DRAM_ADDR => k < N
    | R_INVERT_COMPUTE => k < N ∧ 0 ≤ r_wait (p_r p) ≤ 2 ∧ p_addr p ≠ []
    | R_RD_DATA => k < N ∧ p_addr p ≠ []
    | R_WR_ERR => False
    end.

Record hammering (base : list Z) (p : pair) : Prop := {
  h_mod : p_mod p = x;
  h_skip : p_skip p = true;
  h_sender : reader_addr_inv cfg (csr x) (pattern_addr x) (p_ra p);
  h_taker : taker_inv p;
  h_addr : Z.of_nat (length (p_addr p)) = pushed (p_ra p) - counter_gen (p_r p);
  h_dma : Z.of_nat (length (p_dma p)) = counter_addr (p_ra p) - counter_gen (p_r p);
  h_sent : p_sent p = base ++ addrs (counter_addr (p_ra p));
}.

(** A start does nothing to an FSM that runs. *)
Lemma sender_busy s fr dr :
  ra_fsm s ≠ RA_READY →
  reader_addr_cycle cfg (csr x) (pattern_addr x) (ReaderAddrIn true fr dr) s
  = reader_addr_cycle cfg (csr x) (pattern_addr x) (ReaderAddrIn false fr dr) s.
Proof. unfold reader_addr_cycle. by destruct (ra_fsm s). Qed.

Lemma taker_busy s af a rv d ef sk :
  r_fsm s ≠ R_READY →
  reader_cycle cfg (csr x) (pattern_data x) (ReaderIn true af a rv d ef sk) s
  = reader_cycle cfg (csr x) (pattern_data x) (ReaderIn false af a rv d ef sk) s.
Proof. unfold reader_cycle. by destruct (r_fsm s). Qed.

Lemma cycle_busy p :
  p_mod p = x → ra_fsm (p_ra p) ≠ RA_READY → r_fsm (p_r p) ≠ R_READY → cycle true p = cycle false p.
Proof. intros Hm Ha Hr. unfold pair_cycle. cbv zeta. rewrite Hm. by rewrite sender_busy, taker_busy. Qed.

(** A cycle of the taker: a word is taken when there is one. *)
Lemma taker_step p :
  taker_inv p →
  let i := ReaderIn false (nonempty (p_addr p)) (default 0 (head (p_addr p)))
       (avail word_valid (p_time p) && nonempty (p_dma p)) (mem (p_time p) (default 0 (head (p_dma p)))) true true in
  let '(ro, r') := reader_cycle cfg (csr x) (pattern_data x) i (p_r p) in
  counter_gen r' = counter_gen (p_r p) + (if r_pop ro then 1 else 0)
  ∧ (r_pop ro = true → r_fsm (p_r p) = R_RD_DATA ∧ p_dma p ≠ [] ∧ p_addr p ≠ [] ∧ counter_gen (p_r p) < N)
  ∧ match r_fsm r' with
    | R_READY => counter_gen r' = N
    | R_COMPUTE_MEM_ADDR => True
    | R_WAIT_FOR_DRAM_ADDR => counter_gen r' < N
    | R_INVERT_COMPUTE => counter_gen r' < N ∧ 0 ≤ r_wait r' ≤ 2 ∧ p_addr p ≠ [] ∧ r_pop ro = false
    | R_RD_DATA => counter_gen r' < N ∧ p_addr p ≠ [] ∧ r_pop ro = false
    | R_WR_ERR => False
    end.
Proof using Hok.
  intros [Hk Hf]. destruct Hok. cbv zeta.
  unfold reader_cycle. destruct (r_fsm (p_r p)) eqn:E; cbn -[trunc].
  - rewrite Z.add_0_r. done.
  - rewrite Z.add_0_r. destruct (Z.leb_spec N (counter_gen (p_r p))); split_and!; (done || lia).
  - destruct (p_addr p) as [|a l] eqn:Ea; cbn; rewrite Z.add_0_r; split_and!; (done || lia).
  - destruct Hf as (Hlt & Hw & Ha). rewrite Z.add_0_r. destruct (Z.eqb_spec (r_wait (p_r p)) 2) as [Ew|Ew]; split_and!; try (done || lia);
      rewrite trunc_small by (cbn; lia); lia.
  - destruct Hf as (Hlt & Ha). destruct (avail word_valid (p_time p)); cbn -[trunc];
      [|rewrite Z.add_0_r; split_and!; (done || lia)].
    destruct (p_dma p) as [|d l] eqn:Ed; cbn -[trunc]; [rewrite Z.add_0_r; split_and!; (done || lia)|].
    destruct (negb _); cbn -[trunc]; rewrite trunc_small by lia; split_and!; (done || lia).
  - done.
Qed.
(** Lengths after the two ends of a queue moved. *)
Lemma length_queue (pop : bool) (q : list Z) (push : option Z) :
  (pop = true → q ≠ []) →
  Z.of_nat (length ((if pop then tail q else q) ++ option_list push))
  = Z.of_nat (length q) - (if pop then 1 else 0) + Z.of_nat (length (option_list push)).
Proof. intros Hq. rewrite length_app. destruct pop; [|lia]. destruct q; [by destruct Hq|]. cbn. lia. Qed.

Lemma length_addrs n : 0 ≤ n → Z.of_nat (length (addrs n)) = n.
Proof. intros Hn. unfold addresses. rewrite length_fmap, length_seq. lia. Qed.

Lemma hammering_step base p : hammering base p → hammering base (cycle false p).
Proof using Hok.
  intros [Hm Hs Hra Hr Ha Hd Ht]. pose proof (taker_step p Hr) as Hr'. cbv zeta in Hr'.
  unfold pair_cycle. cbv zeta. rewrite Hm, Hs.
  pose proof (reader_addr_step cfg (csr x) (pattern_addr x) Hok
    (ReaderAddrIn false (bool_decide (length (p_addr p) < address_depth)%nat)
       (avail command_ready (p_time p) && bool_decide (length (p_dma p) < in_flight)%nat)) (p_ra p) Hra eq_refl) as Hstep.
  destruct (reader_addr_cycle _ _ _ _ _) as [ao ra']. destruct Hstep as (Hra' & Hp & Hc).
  destruct (reader_cycle _ _ _ _ _) as [ro r']. destruct Hr' as (Hcg & Hpop & Hfsm).
  assert (0 ≤ counter_addr (p_ra p)) as H0 by apply Hra. assert (0 ≤ counter_addr ra') as H0' by apply Hra'.
  assert (0 ≤ pushed (p_ra p)) as H1 by (unfold pushed; destruct (ra_fsm (p_ra p)); lia).
  assert (0 ≤ pushed ra') as H1' by (unfold pushed; destruct (ra_fsm ra'); lia).
  apply (f_equal (λ l, Z.of_nat (length l))) in Hp as Hlp. apply (f_equal (λ l, Z.of_nat (length l))) in Hc as Hlc.
  rewrite length_app, Nat2Z.inj_add, !length_addrs in Hlp, Hlc by done.
  destruct Hr as [Hk Hf]. split; cbn [p_mod p_skip p_ra p_r p_addr p_dma p_sent]; [done|done|done| | | |].
  - split; cbn [p_r p_addr]; [destruct (r_pop ro) eqn:Ep; [destruct (Hpop eq_refl) as (_ & _ & _ & ?)|]; lia|].
    destruct (r_fsm r'); try done.
    + destruct Hfsm as (? & ? & Hq & ->). split_and!; [lia..|]. by intros [? _]%app_eq_nil.
    + destruct Hfsm as (? & Hq & ->). split_and!; [lia|]. by intros [? _]%app_eq_nil.
  - rewrite length_queue by (intros E; by destruct (Hpop E) as (_ & _ & ? & _)). lia.
  - rewrite length_queue by (intros E; by destruct (Hpop E) as (_ & ? & _)). lia.
  - by rewrite Ht, <- app_assoc, Hc.
Qed.
(** *** Progress

    The states that both FSMs still go through; each cycle takes at most one. *)
Definition send_work (s : reader_addr_regs) : Z :=
  let n := 5 * (N - counter_addr s) in
  match ra_fsm s with
  | RA_READY => 0
  | RA_COMPUTE_MEM_ADDR => n + 1
  | RA_WAIT_FOR_DRAM_ADDR => n
  | RA_COMPUTE_DRAM_ADDR => n - 1
  | RA_PUSH_TO_FIFO => n - 2
  | RA_PUSH_TO_DMA => n - 3
  end.
Definition take_work (s : reader_regs) : Z :=
  let n := 6 * (N - counter_gen s) in
  match r_fsm s with
  | R_READY => 0
  | R_COMPUTE_MEM_ADDR => n + 1
  | R_WAIT_FOR_DRAM_ADDR => n
  | R_INVERT_COMPUTE => n - 1 - r_wait s
  | R_RD_DATA => n - 4
  | R_WR_ERR => n
  end.

Lemma send_step fr dr s :
  reader_addr_inv cfg (csr x) (pattern_addr x) s →
  let s' := (reader_addr_cycle cfg (csr x) (pattern_addr x) (ReaderAddrIn false fr dr) s).2 in
  send_work s' = send_work s - 1
  ∨ send_work s' = send_work s ∧ ra_fsm s' = ra_fsm s ∧ counter_addr s' = counter_addr s
    ∧ match ra_fsm s with RA_READY => True | RA_PUSH_TO_FIFO => fr = false | RA_PUSH_TO_DMA => dr = false | _ => False end.
Proof using Hok.
  intros [Hk Hf]. destruct Hok. cbv zeta. unfold send_work, reader_addr_cycle. destruct (ra_fsm s) eqn:E; cbn -[Z.mul trunc].
  - by right.
  - left. destruct (Z.leb_spec N (counter_addr s)); lia.
  - lia.
  - lia.
  - destruct fr; cbn -[Z.mul]; [lia|by right].
  - destruct dr; cbn -[Z.mul trunc]; [rewrite trunc_small by lia; lia|by right].
Qed.

Lemma take_step p :
  taker_inv p →
  let i := ReaderIn false (nonempty (p_addr p)) (default 0 (head (p_addr p)))
       (avail word_valid (p_time p) && nonempty (p_dma p)) (mem (p_time p) (default 0 (head (p_dma p)))) true true in
  let r' := (reader_cycle cfg (csr x) (pattern_data x) i (p_r p)).2 in
  take_work r' = take_work (p_r p) - 1
  ∨ take_work r' = take_work (p_r p) ∧ r_fsm r' = r_fsm (p_r p) ∧ counter_gen r' = counter_gen (p_r p)
    ∧ match r_fsm (p_r p) with
      | R_READY => True
      | R_WAIT_FOR_DRAM_ADDR => p_addr p = []
      | R_RD_DATA => p_dma p = [] ∨ avail word_valid (p_time p) = false
      | _ => False
      end.
Proof using Hok.
  intros [Hk Hf]. destruct Hok. cbv zeta. unfold take_work, reader_cycle. destruct (r_fsm (p_r p)) eqn:E; cbn -[Z.mul trunc].
  - by right.
  - left. destruct (Z.leb_spec N (counter_gen (p_r p))); lia.
  - destruct (p_addr p); cbn -[Z.mul]; [by right|lia].
  - destruct Hf as (? & ? & _). left. destruct (Z.eqb_spec (r_wait (p_r p)) 2); [lia|]. rewrite trunc_small by (cbn; lia). lia.
  - destruct Hf as (Hlt & _). destruct (avail word_valid (p_time p)); cbn -[Z.mul trunc]; [|right; auto].
    destruct (p_dma p); cbn -[Z.mul trunc]; [right; auto|]. left. destruct (negb _); cbn -[Z.mul trunc]; rewrite trunc_small by lia; lia.
  - done.
Qed.

(** The cycles that the two may still have to wait for the DMA. *)
Definition patience (p : pair) : Z :=
  match ra_fsm (p_ra p) with
  | RA_PUSH_TO_DMA => if bool_decide (length (p_dma p) < in_flight)%nat then Z.of_nat (wait command_ready (p_time p)) else 0
  | _ => 0
  end
  + match r_fsm (p_r p) with
    | R_RD_DATA => if bool_decide (0 < length (p_dma p))%nat then Z.of_nat (wait word_valid (p_time p)) else 0
    | _ => 0
    end.
Definition max_patience : Z := Z.of_nat (bound command_ready) + Z.of_nat (bound word_valid).
Definition left_over (p : pair) : Z := (send_work (p_ra p) + take_work (p_r p)) * (max_patience + 1) + patience p.

Lemma patience_bound p : 0 ≤ patience p ≤ max_patience.
Proof.
  unfold patience, max_patience. pose proof (wait_le command_ready (p_time p)). pose proof (wait_le word_valid (p_time p)).
  destruct (ra_fsm (p_ra p)), (r_fsm (p_r p)); repeat case_bool_decide; lia.
Qed.

Lemma works_nonneg base p :
  hammering base p → 0 ≤ send_work (p_ra p) ∧ 0 ≤ take_work (p_r p) ∧ (r_fsm (p_r p) ≠ R_READY → 1 ≤ take_work (p_r p)).
Proof.
  intros [_ _ [Hk Ha] [Hk' Hr] _ _ _]. unfold send_work, take_work.
  destruct (ra_fsm (p_ra p)), (r_fsm (p_r p)); split_and!; try done; try (intros; lia); lia.
Qed.

(** The FSMs and time after a cycle. *)
Lemma cycle_parts base p :
  hammering base p →
  p_ra (cycle false p) = (reader_addr_cycle cfg (csr x) (pattern_addr x)
    (ReaderAddrIn false (bool_decide (length (p_addr p) < address_depth)%nat)
       (avail command_ready (p_time p) && bool_decide (length (p_dma p) < in_flight)%nat)) (p_ra p)).2
  ∧ p_r (cycle false p) = (reader_cycle cfg (csr x) (pattern_data x) (ReaderIn false (nonempty (p_addr p)) (default 0 (head (p_addr p)))
       (avail word_valid (p_time p) && nonempty (p_dma p)) (mem (p_time p) (default 0 (head (p_dma p)))) true true) (p_r p)).2
  ∧ p_time (cycle false p) = S (p_time p).
Proof.
  intros [Hm Hs _ _ _ _ _]. unfold pair_cycle. cbv zeta. rewrite Hm, Hs.
  destruct (reader_addr_cycle _ _ _ _ _), (reader_cycle _ _ _ _ _). done.
Qed.

(** When neither FSM moves, one of them waits for the DMA. *)
Lemma waiting_step base p p' :
  hammering base p → hammering base p' → p_time p' = S (p_time p) →
  ra_fsm (p_ra p') = ra_fsm (p_ra p) → counter_addr (p_ra p') = counter_addr (p_ra p) →
  r_fsm (p_r p') = r_fsm (p_r p) → counter_gen (p_r p') = counter_gen (p_r p) →
  match ra_fsm (p_ra p) with
  | RA_READY => True
  | RA_PUSH_TO_FIFO => (address_depth ≤ length (p_addr p))%nat
  | RA_PUSH_TO_DMA => avail command_ready (p_time p) = false ∨ (in_flight ≤ length (p_dma p))%nat
  | _ => False
  end →
  match r_fsm (p_r p) with
  | R_WAIT_FOR_DRAM_ADDR => p_addr p = []
  | R_RD_DATA => p_dma p = [] ∨ avail word_valid (p_time p) = false
  | _ => False
  end →
  patience p' < patience p.
Proof.
  intros [_ _ [Hk Ha] [Hk' Hr] Hla Hld _] [_ _ _ _ Hla' Hld' _] Et Ef Eca Er Ecg Hs Ht. unfold pushed in *. unfold patience.
  pose proof in_flight_pos. pose proof (wait_dec command_ready (p_time p)). pose proof (wait_dec word_valid (p_time p)).
  rewrite Ef, Er, Et. destruct (r_fsm (p_r p)); try done.
  - rewrite Ht in *. cbn [length] in *. unfold address_depth in *. exfalso. destruct (ra_fsm (p_ra p)); lia.
  - destruct Hr as [Hlt Hne]. assert (1 ≤ length (p_addr p))%nat by (destruct (p_addr p); [done|cbn; lia]).
    destruct Ht as [E|E]; [rewrite E in *; cbn [length] in *|specialize (H1 E)];
      destruct (ra_fsm (p_ra p)); try done; repeat case_bool_decide; destruct_or?; try lia;
      try match goal with H : avail _ _ = false, H' : avail _ _ = false → _ |- _ => specialize (H' H) end; try lia.
Qed.

(** A cycle takes a state off, or waits for the DMA with less patience. *)
Lemma left_over_step base p :
  hammering base p →
  left_over (cycle false p) ≤ left_over p ∧ (r_fsm (p_r p) ≠ R_READY → left_over (cycle false p) < left_over p)
  ∧ (r_fsm (p_r p) = R_READY → r_fsm (p_r (cycle false p)) = R_READY)
  ∧ send_work (p_ra p) - 1 ≤ send_work (p_ra (cycle false p)).
Proof using Hok.
  intros Hp. pose proof (hammering_step base p Hp) as Hp'. destruct (cycle_parts base p Hp) as (Era & Er & Et).
  pose proof (patience_bound p) as Hpat. pose proof (patience_bound (cycle false p)) as Hpat'.
  pose proof (send_step (bool_decide (length (p_addr p) < address_depth)%nat)
    (avail command_ready (p_time p) && bool_decide (length (p_dma p) < in_flight)%nat) (p_ra p) (h_sender _ _ Hp)) as Hsend.
  pose proof (take_step p (h_taker _ _ Hp)) as Htake. cbv zeta in Hsend, Htake. rewrite <- Era in Hsend. rewrite <- Er in Htake.
  assert (r_fsm (p_r p) = R_READY → r_fsm (p_r (cycle false p)) = R_READY) as Hready.
  { intros E. rewrite Er. unfold reader_cycle. by rewrite E. }
  assert (r_fsm (p_r p) ≠ R_READY → left_over (cycle false p) < left_over p) as Hlt.
  { intros Hn. unfold left_over. destruct Hsend as [->|(-> & Ef & Eca & Hb)], Htake as [->|(-> & Efr & Ecg & Hb')]; [nia..|].
    enough (patience (cycle false p) < patience p) by lia. eapply (waiting_step base p); try done.
    - destruct (ra_fsm (p_ra p)); try done; [apply bool_decide_eq_false in Hb; lia|].
      apply andb_false_iff in Hb as [Hb|Hb%bool_decide_eq_false]; [by left|right; lia].
    - by destruct (r_fsm (p_r p)). }
  split_and!; [|done|done|destruct Hsend as [->|[-> _]]; lia].
  destruct (decide (r_fsm (p_r p) = R_READY)) as [E|E]; [|by apply Z.lt_le_incl, Hlt]. specialize (Hready E).
  destruct Hp as [_ _ [Hk Ha] [Hk' Hr] Hla Hld _]. rewrite E in Hr.
  assert (take_work (p_r p) = 0 ∧ take_work (p_r (cycle false p)) = 0) as [E1 E2] by (unfold take_work; by rewrite E, Hready).
  unfold left_over. rewrite E1, E2. destruct Hsend as [->|(-> & Ef & Eca & Hb)]; [nia|].
  assert (ra_fsm (p_ra p) = RA_READY) as Er' by (destruct (ra_fsm (p_ra p)); try done; lia).
  unfold patience. rewrite Ef, Er', Hready, E. lia.
Qed.
Lemma hammering_idle base n : ∀ p,
  hammering base p →
  hammering base (idle n p) ∧ left_over (idle n p) ≤ left_over p
  ∧ (r_fsm (p_r p) ≠ R_READY → (0 < n)%nat → left_over (idle n p) < left_over p)
  ∧ (r_fsm (p_r p) = R_READY → r_fsm (p_r (idle n p)) = R_READY)
  ∧ send_work (p_ra p) - Z.of_nat n ≤ send_work (p_ra (idle n p)).
Proof using Hok.
  induction n as [|n IH]; intros p Hp; cbn [pair_idle]; [split_and!; (done || lia)|].
  destruct (left_over_step base p Hp) as (H1 & H2 & H3 & H4).
  destruct (IH _ (hammering_step base p Hp)) as (H5 & H6 & _ & H8 & H9).
  split_and!; [done|lia|intros Hn _; specialize (H2 Hn); lia|auto|lia].
Qed.

(** *** Before and after *)
Record rested (p : pair) : Prop := {
  rs_sender : ra_fsm (p_ra p) = RA_READY;
  rs_taker : r_fsm (p_r p) = R_READY;
  rs_addr : p_addr p = [];
  rs_dma : p_dma p = [];
}.

Lemma start_hammering p :
  rested p → p_mod p = x → p_skip p = true →
  hammering (p_sent p) (cycle true p) ∧ send_work (p_ra (cycle true p)) = 5 * N + 1
  ∧ left_over (cycle true p) ≤ (11 * N + 2) * (max_patience + 1).
Proof using Hok.
  intros [Hs Ht Ha Hd] Hm Hk. unfold pair_cycle. cbv zeta. unfold reader_addr_cycle, reader_cycle. rewrite Hs, Ht, Hm, Hk, Ha, Hd.
  cbn -[Z.mul]. destruct Hok. split_and!.
  - split; cbn; try done; [|split; [cbn; lia|done]].
    split; [cbn; lia|]. cbn. intros Hmod. unfold pattern_index. by rewrite Hmod, Z.mod_0_l by lia.
  - unfold send_work. cbn -[Z.mul]. lia.
  - unfold left_over, send_work, take_work, patience. cbn -[Z.mul]. unfold max_patience. lia.
Qed.

(** While the sender has states left the taker is not ready. *)
Lemma busy base p :
  hammering base p → 2 ≤ send_work (p_ra p) → ra_fsm (p_ra p) ≠ RA_READY ∧ r_fsm (p_r p) ≠ R_READY.
Proof.
  intros [_ _ [Hk Ha] [Hk' Hr] _ Hd _] Hw. unfold send_work in Hw.
  split; intros E; rewrite E in *; [lia|]. destruct (ra_fsm (p_ra p)); lia.
Qed.

(** The attack is over one cycle after the taker is ready. *)
Lemma ended base n p :
  hammering base p → r_fsm (p_r p) = R_READY → (1 ≤ n)%nat →
  rested (idle n p) ∧ p_mod (idle n p) = x ∧ p_sent (idle n p) = base ++ addrs N.
Proof using Hok.
  intros Hp Hr Hn. destruct n as [|n]; [lia|]. cbn [pair_idle].
  assert (hammering base (cycle false p) ∧ r_fsm (p_r (cycle false p)) = R_READY ∧ ra_fsm (p_ra (cycle false p)) = RA_READY) as (H1 & H2 & H3).
  { split_and!; [by apply hammering_step|by apply (left_over_step base)|]. destruct (cycle_parts base p Hp) as (-> & _ & _).
    destruct Hp as [_ _ [Hk Ha] [Hk' Ht] Hla Hld _]. rewrite Hr in Ht. unfold pushed, reader_addr_cycle in *.
    destruct (ra_fsm (p_ra p)); cbn; try done; try lia. by rewrite (proj2 (Z.leb_le _ _)) by lia. }
  clear Hn Hp Hr. revert H1 H2 H3. generalize (cycle false p). induction n as [|n IH]; intros q Hq Hr Hs; cbn [pair_idle].
  - destruct Hq as [Hm _ [_ Ha] [_ Ht] Hla Hld Hsent]. unfold pushed in *. rewrite Hs in *. rewrite Hr in Ht.
    split_and!; [split; [done|done|by apply nil_length_inv; lia|by apply nil_length_inv; lia]|done|by rewrite Hsent, Ha].
  - apply IH; [by apply hammering_step|by apply (left_over_step base)|]. destruct (cycle_parts base q Hq) as (-> & _ & _).
    unfold reader_addr_cycle. by rewrite Hs.
Qed.
End hammering.

(** A board at rest. *)
Section rest.
Context {M : Migen} (cfg : bist_cfg) {T : ReaderTiming} (mem : nat → Z → Z).

Lemma rested_idle n : ∀ p,
  rested p →
  let p' := pair_idle cfg mem n p in
  rested p' ∧ p_mod p' = p_mod p ∧ p_skip p' = p_skip p ∧ p_sent p' = p_sent p.
Proof.
  induction n as [|n IH]; intros p Hp; [done|]. cbn [pair_idle].
  assert (rested (pair_cycle cfg mem false p) ∧ p_mod (pair_cycle cfg mem false p) = p_mod p
    ∧ p_skip (pair_cycle cfg mem false p) = p_skip p ∧ p_sent (pair_cycle cfg mem false p) = p_sent p) as (H1 & H2 & H3 & H4).
  { destruct Hp as [Hs Ht Ha Hd]. unfold pair_cycle. cbv zeta. unfold reader_addr_cycle, reader_cycle. rewrite Hs, Ht, Ha, Hd. cbn.
    rewrite app_nil_r. split_and!; done. }
  destruct (IH _ H1) as (? & ? & ? & ?). split_and!; [done|congruence..].
Qed.
End rest.

(** ** Elements in turn *)
Definition turns {A} (l : list A) (n : nat) : list A := omap (fun k => l !! (k mod length l)%nat) (seq 0 n).

Lemma turns_seq {A} (l : list A) (ks : list nat) :
  l ≠ [] → Some <$> omap (fun k => l !! (k mod length l)%nat) ks = (fun k => l !! (k mod length l)%nat) <$> ks.
Proof.
  intros Hl. induction ks as [|k ks IH]; [done|]. cbn [fmap list_fmap omap list_omap].
  destruct (lookup_lt_is_Some_2 l (k mod length l)) as [a Ha]; [apply Nat.mod_upper_bound; by destruct l|].
  rewrite Ha. cbn. by f_equal.
Qed.

Lemma length_turns {A} (l : list A) n : l ≠ [] → length (turns l n) = n.
Proof. intros Hl. apply (turns_seq _ (seq 0 n)) in Hl. apply (f_equal length) in Hl. by rewrite !length_fmap, length_seq in Hl. Qed.

Lemma lookup_turns {A} (l : list A) n k : l ≠ [] → (k < n)%nat → turns l n !! k = l !! (k mod length l)%nat.
Proof.
  intros Hl Hk. pose proof (turns_seq _ (seq 0 n) Hl) as E. apply (f_equal (.!! k)) in E.
  rewrite !list_lookup_fmap, lookup_seq_lt in E by done. cbn in E. fold (turns l n) in E.
  destruct (turns l n !! k) as [a|] eqn:Ea; [by injection E|done].
Qed.

Lemma turns_fmap {A} (l : list A) (f : A → Z) (g : nat → Z) n :
  l ≠ [] → (∀ k a, (k < n)%nat → l !! (k mod length l)%nat = Some a → g k = f a) → g <$> seq 0 n = f <$> turns l n.
Proof.
  intros Hl Hg. unfold turns. assert (∀ k, k ∈ seq 0 n → (k < n)%nat) as Hin by (intros k ?%elem_of_seq; lia).
  induction (seq 0 n) as [|k ks IH]; [done|]. cbn [fmap list_fmap omap list_omap].
  destruct (lookup_lt_is_Some_2 l (k mod length l)) as [a Ha]; [apply Nat.mod_upper_bound; by destruct l|].
  rewrite Ha. cbn. f_equal; [apply Hg; [apply Hin; left|done]|]. apply IH. intros j Hj. apply Hin. by right.
Qed.

(** ** The program on the board *)
(** ** Registers of an attack *)
Section registers.
Context {M : Migen} (cfg : bist_cfg).

(** What the program makes of the registers and pattern memories. *)
Definition attack_module (addresses : list Z) (n read_count : Z) (m : module) : module :=
  set_csr (set_count read_count)
    (set_data cfg (replicate 16 2863311530) (set_addr addresses
      (set_csr (set_data_div cfg (n - 1)) (set_csr (set_modulo true) (set_csr (set_mem_mask 0) m))))).

Lemma write_words_one l m (i : nat) v : l !! i = Some v → 0 ≤ v < 2 ^ 32 → write_words 1 l m (Z.of_nat i) = v.
Proof.
  intros Hi Hv. apply lookup_lt_Some in Hi as Hlt. unfold write_words.
  rewrite (proj2 (Z.leb_le _ _)), (proj2 (Z.ltb_lt _ _)) by lia. cbn -[Z.pow Z.modulo Z.div Z.mul]. rewrite Nat2Z.id, Nat.mul_1_r, Nat.add_0_r, Hi.
  cbn -[Z.pow Z.modulo Z.div Z.mul]. rewrite Z.mod_small by done. lia.
Qed.

(** The registers of an attack. *)
Lemma attack_module_ok r m row_tuple read_count :
  hw_attack_ok cfg r m row_tuple read_count →
  let x := attack_module (row_dma r <$> row_tuple) (length row_tuple) read_count m in
  csr_ok cfg (csr x) ∧ modulo (csr x) = true ∧ count (csr x) = read_count ∧ mem_mask (csr x) = 0
  ∧ data_div (csr x) = length row_tuple - 1
  ∧ ∀ i row, row_tuple !! i = Some row → pattern_addr x (Z.of_nat i) = row_dma r row.
Proof.
  intros []. cbn -[trunc write_words]. rewrite !trunc_small by lia. split_and!; try done.
  - split; cbn -[trunc]; rewrite ?trunc_small; (done || lia).
  - intros i row Hi. apply write_words_one; [by rewrite list_lookup_fmap, Hi|].
    rewrite Forall_lookup in ha_rows. apply row_dma_bound; eauto. lia.
Qed.

(** The reader sends the addresses of the rows in turn. *)
Lemma attack_addresses r m row_tuple read_count :
  hw_attack_ok cfg r m row_tuple read_count →
  let x := attack_module (row_dma r <$> row_tuple) (length row_tuple) read_count m in
  addresses cfg (csr x) (pattern_addr x) read_count = row_dma r <$> turns row_tuple (Z.to_nat read_count).
Proof.
  intros Hok x. destruct (attack_module_ok r m row_tuple read_count Hok) as (Hcsr & Hmod & Hcnt & Hmm & Hdiv & Haddr). fold x in Hcsr, Hmod, Hcnt, Hmm, Hdiv, Haddr.
  destruct Hok. unfold addresses. apply turns_fmap; [intros E; rewrite E in ha_length; cbn in ha_length; lia|].
  intros k row _ Hrow. rewrite Forall_lookup in ha_rows. pose proof (ha_rows _ _ Hrow) as Hl.
  unfold compose, transfer_address, pattern_index. rewrite Hmod, Hmm, Hdiv, Z.land_0_r, Z.add_0_r, Z.sub_add, <- Nat2Z.inj_mod, (Haddr _ _ Hrow).
  apply trunc_small, row_dma_bound; (done || lia).
Qed.
End registers.

Section host.
Context {M : Migen} (cfg : bist_cfg) {T : ReaderTiming} (mem : nat → Z → Z) (Hacc : (1 ≤ access_time)%nat).
#[local] Instance attack_dev : Device := pair_device cfg mem.
#[local] Instance attack_mem : MemWrite := pair_mem_write cfg mem.

Definition resting (m : module) (skip : bool) (sent : list Z) (p : pair) : Prop :=
  rested p ∧ p_mod p = m ∧ p_skip p = skip ∧ p_sent p = sent.

Lemma resting_idle m skip sent n p : resting m skip sent p → resting m skip sent (pair_idle cfg mem n p).
Proof. intros (Hr & <- & <- & <-). destruct (rested_idle cfg mem n p Hr) as (? & ? & ? & ?). done. Qed.

Lemma triple_set m m' skip skip' sent r v :
  (∀ p, resting m skip sent p → resting m' skip' sent (pair_poke cfg mem r v p)) →
  triple (resting m skip sent) (wr r v) (fun _ => resting m' skip' sent).
Proof. intros Hp. apply triple_wr. intros p Hr. by apply resting_idle, Hp. Qed.

Lemma triple_csr m skip sent r v f :
  (∀ p, pair_poke cfg mem r v p = set_mod (set_csr f) p) →
  triple (resting m skip sent) (wr r v) (fun _ => resting (set_csr f m) skip sent).
Proof.
  intros Hp. apply triple_set. intros p ([] & <- & <- & <-). rewrite Hp. by split_and!; [split|..].
Qed.

Lemma triple_skip m skip sent v : triple (resting m skip sent) (wr "reader_skip_fifo" v) (fun _ => resting m (Z.odd v) sent).
Proof. apply triple_set. intros p ([] & <- & <- & <-). by split_and!; [split|..]. Qed.

Lemma triple_words m skip sent r l f :
  (∀ p, pair_poke_mem cfg r l p = set_mod f p) →
  triple (resting m skip sent) (mem_write r l) (fun _ => resting (f m) skip sent).
Proof.
  intros Hp p ([] & <- & <- & <-). eexists tt, _. split; [reflexivity|]. apply resting_idle. rewrite Hp. by split_and!; [split|..].
Qed.

(** Waiting for the reader. *)
Lemma triple_wait (fuel : nat) x base (k : nat) :
  csr_ok cfg (csr x) → (k < fuel)%nat →
  triple (fun p => hammering cfg x base p ∧ left_over x p ≤ k) (wait_attack fuel)
    (fun _ p => hammering cfg x base p ∧ r_fsm (p_r p) = R_READY).
Proof using Hacc.
  intros Hok Hk. unfold wait_attack.
  refine (@triple_loop attack_dev _ (fun k (_ : unit) (p : pair) => hammering cfg x base p ∧ left_over x p ≤ k) _ _ _ k fuel tt Hk).
  intros n [] p [Hp Hn]. set (p1 := pair_idle cfg mem access_time p). set (p2 := pair_idle cfg mem access_time p1).
  destruct (hammering_idle cfg mem x Hok base access_time p Hp) as (Hp1 & Hle1 & Hlt1 & Hr1 & _). fold p1 in Hp1, Hle1, Hlt1, Hr1.
  destruct (hammering_idle cfg mem x Hok base access_time p1 Hp1) as (Hp2 & Hle2 & _ & Hr2 & _). fold p2 in Hp2, Hle2, Hr2.
  destruct (decide (r_fsm (p_r p1) = R_READY)) as [E|E].
  - exists (true, tt), p2. split; [|split; [done|by apply Hr2]]. cbv [mbind host_bind rd reg_read attack_dev pair_device].
    fold p1. change (pair_sample "reader_ready" p1) with (b2z (bool_decide (r_fsm (p_r p1) = R_READY))). by rewrite bool_decide_true.
  - set (p3 := pair_idle cfg mem sleep_time p2). exists (false, tt), p3. split.
    + cbv [mbind host_bind rd reg_read attack_dev pair_device]. fold p1.
      change (pair_sample "reader_ready" p1) with (b2z (bool_decide (r_fsm (p_r p1) = R_READY))). by rewrite bool_decide_false.
    + destruct (hammering_idle cfg mem x Hok base sleep_time p2 Hp2) as (Hp3 & Hle3 & _). fold p3 in Hp3, Hle3.
      assert (left_over x p1 < left_over x p) as Hlt by (apply Hlt1; [naive_solver|lia]).
      destruct (works_nonneg cfg x base p3 Hp3) as (? & ? & _). pose proof (patience_bound p3).
      assert (0 ≤ left_over x p3) by (unfold left_over; nia).
      cbn. exists (Z.to_nat (left_over x p3)). split; [lia|]. split; [done|lia].
Qed.

Lemma resting_rd m skip sent r (v : Z) :
  (∀ p, resting m skip sent p → pair_sample r p = v) →
  triple (resting m skip sent) (rd r) (fun v' p => v' = v ∧ resting m skip sent p).
Proof. intros Hv. apply triple_rd. intros p Hp. split; [by apply Hv|]. by apply resting_idle. Qed.

Lemma resting_sleep m skip sent : triple (resting m skip sent) sleep (fun _ => resting m skip sent).
Proof. apply triple_sleep. intros p Hp. by apply resting_idle. Qed.

(** Starting twice: the second write finds both FSMs running. *)
Definition all_rounds (x : module) : Z := (11 * count (csr x) + 2) * (max_patience + 1).

Lemma triple_start x sent :
  csr_ok cfg (csr x) → Z.of_nat access_time < 5 * count (csr x) →
  triple (resting x true sent) (wr "reader_start" 1)
    (fun _ p => hammering cfg x sent p ∧ 2 ≤ send_work x (p_ra p) ∧ left_over x p ≤ all_rounds x).
Proof.
  intros Hok Hlong. apply triple_wr. intros p (Hr & Hm & Hs & <-). destruct (start_hammering cfg mem x Hok p Hr Hm Hs) as (H1 & H2 & H3).
  destruct (hammering_idle cfg mem x Hok _ access_time _ H1) as (H4 & H5 & _ & _ & H6).
  change (reg_write _ _ _) with (pair_idle cfg mem access_time (pair_cycle cfg mem true p)). unfold all_rounds. split_and!; [done|lia|lia].
Qed.

Lemma triple_start_again x sent :
  csr_ok cfg (csr x) →
  triple (fun p => hammering cfg x sent p ∧ 2 ≤ send_work x (p_ra p) ∧ left_over x p ≤ all_rounds x) (wr "reader_start" 0)
    (fun _ p => hammering cfg x sent p ∧ left_over x p ≤ all_rounds x).
Proof.
  intros Hok. apply triple_wr. intros p (Hp & Hw & Hl). destruct (busy cfg x sent p Hp Hw) as [Ha Hb].
  change (reg_write _ _ _) with (pair_idle cfg mem access_time (pair_cycle cfg mem true p)).
  rewrite (cycle_busy cfg mem x p) by (done || apply Hp).
  destruct (left_over_step cfg mem x Hok sent p Hp) as (? & _).
  destruct (hammering_idle cfg mem x Hok sent access_time _ (hammering_step cfg mem x Hok sent p Hp)) as (H4 & H5 & _). split; [done|lia].
Qed.

Lemma triple_wait_all (fuel : nat) x sent :
  csr_ok cfg (csr x) → all_rounds x < fuel →
  triple (fun p => hammering cfg x sent p ∧ left_over x p ≤ all_rounds x) (wait_attack fuel)
    (fun _ p => hammering cfg x sent p ∧ r_fsm (p_r p) = R_READY).
Proof using Hacc.
  intros Hok Hf p [Hp Hl]. destruct (works_nonneg cfg x sent p Hp) as (? & ? & _). pose proof (patience_bound p).
  assert (0 ≤ left_over x p) by (unfold left_over; nia).
  apply (triple_wait fuel x sent (Z.to_nat (all_rounds x)) Hok); [lia|]. split; [done|lia].
Qed.

(** The last two accesses. *)
Lemma triple_ended x sent :
  csr_ok cfg (csr x) →
  triple (fun p => hammering cfg x sent p ∧ r_fsm (p_r p) = R_READY) (rd "reader_done")
    (fun _ => resting x true (sent ++ addresses cfg (csr x) (pattern_addr x) (count (csr x)))).
Proof using Hacc.
  intros Hok. apply triple_rd. intros p [Hp Hr]. destruct (ended cfg mem x Hok sent access_time p Hp Hr Hacc) as (? & ? & ?).
  split_and!; try done. by apply (hammering_idle cfg mem x Hok sent access_time p).
Qed.

(** The whole program. *)
Lemma triple_attack (fuel : nat) r m row_tuple read_count skip sent :
  hw_attack_ok cfg r m row_tuple read_count →
  Z.of_nat access_time < 5 * read_count → (11 * read_count + 2) * (max_patience + 1) < fuel →
  triple (resting m skip sent) (attack fuel r row_tuple read_count)
    (fun _ => resting (set_csr (set_modulo false) (attack_module cfg (row_dma r <$> row_tuple) (length row_tuple) read_count m)) true
       (sent ++ (row_dma r <$> turns row_tuple (Z.to_nat read_count)))).
Proof using Hacc.
  intros Hok Hlong Hfuel. pose proof (attack_addresses cfg r m row_tuple read_count Hok) as Haddr. cbv zeta in Haddr.
  destruct (attack_module_ok cfg r m row_tuple read_count Hok) as (Hcsr & _ & Hcnt & _).
  set (x := attack_module _ _ _ _ _) in *. unfold attack. destruct Hok.
  rewrite (proj2 (Z.leb_le _ _)) by lia. rewrite (result_map_ok _ (row_dma r)).
  2: { eapply Forall_impl; [exact ha_rows|]. intros row Hrow. by apply row_dma_encode. }
  eapply triple_bind; [apply triple_lift_ok|]. intros []. apply triple_pure. intros _.
  eapply triple_bind; [apply triple_lift_ok|]. intros ?. apply triple_pure. intros ->.
  eapply triple_bind; [apply triple_skip|]. intros [].
  eapply triple_bind; [apply resting_sleep|]. intros [].
  eapply triple_bind; [apply triple_skip|]. intros [].
  eapply triple_bind; [apply (resting_rd _ _ _ _ 1)|].
  { intros p ([_ Hr _ _] & _). change (pair_sample "reader_ready" p) with (b2z (bool_decide (r_fsm (p_r p) = R_READY))). by rewrite bool_decide_true. }
  intros v. apply triple_pure. intros ->. eapply triple_bind; [apply triple_lift_ok|]. intros []. apply triple_pure. intros _.
  eapply triple_bind; [apply triple_skip|]. intros [].
  eapply triple_bind; [by apply (triple_csr _ _ _ _ _ (set_mem_mask 0))|]. intros [].
  eapply triple_bind; [by apply (triple_csr _ _ _ _ _ (set_modulo true))|]. intros [].
  eapply triple_bind; [by apply (triple_csr _ _ _ _ _ (set_data_div cfg (length row_tuple - 1)))|]. intros [].
  do 2 (eapply triple_bind; [apply triple_words; reflexivity|]; intros []).
  eapply triple_bind; [by apply (triple_csr _ _ _ _ _ (set_count read_count))|]. intros [].
  match goal with |- triple (resting ?y _ _) _ _ => change y with x end.
  eapply triple_bind; [apply triple_start; [done|lia]|]. intros [].
  eapply triple_bind; [by apply triple_start_again|]. intros [].
  eapply triple_bind; [apply triple_wait_all; [done|unfold all_rounds; by rewrite Hcnt]|]. intros [].
  eapply triple_bind; [by apply triple_ended|]. intros done. rewrite Hcnt, Haddr. by apply triple_csr.
Qed.
End host.

(** C30: An attack of the BIST reads the rows in turn, and ends.  On a board at rest, with any
    DMA that accepts a command and delivers a word after bounded time, [attack]
    returns after a bounded number of polls; then the reader is at rest, with empty
    queues and in mask mode.  The addresses that the DMA was given are those of
    [read_count] rows, number [k] being row number [k] modulo the number of rows, and
    each decodes to its row in the bank and column of the script.  The attack has to
    take longer than one access of the host. *)
Theorem hw_attack_complete {M : Migen} cfg {T : ReaderTiming} mem (fuel : nat) r row_tuple read_count p :
  hw_attack_ok cfg r (p_mod p) row_tuple read_count → rested p →
  (1 ≤ access_time)%nat → Z.of_nat access_time < 5 * read_count →
  (11 * read_count + 2) * (max_patience + 1) < fuel →
  ∃ p' rows,
    attack (D := pair_device cfg mem) (W := pair_mem_write cfg mem) fuel r row_tuple read_count p = (Done tt, p')
    ∧ rested p' ∧ modulo (csr (p_mod p')) = false
    ∧ p_sent p' = p_sent p ++ (row_dma r <$> rows)
    ∧ Z.of_nat (length rows) = read_count
    ∧ (∀ k, (k < length rows)%nat → rows !! k = row_tuple !! (k mod length row_tuple)%nat)
    ∧ Forall (fun row => decode_dma (rh_conv r) (row_dma r row) = (rh_bank r, row, rh_column r)) rows.
Proof.
  intros Hok Hp Hacc Hlong Hfuel.
  destruct (triple_attack cfg mem Hacc fuel r (p_mod p) row_tuple read_count (p_skip p) (p_sent p) Hok Hlong Hfuel p)
    as ([] & p' & Hrun & Hr & Hm & _ & Hs); [done|].
  destruct Hok. assert (row_tuple ≠ []) as Hne by (intros ->; cbn in ha_length; lia).
  exists p', (turns row_tuple (Z.to_nat read_count)). split_and!; [done|done|by rewrite Hm|done| | |].
  - rewrite length_turns by done. lia.
  - intros k. rewrite length_turns by done. by apply lookup_turns.
  - apply Forall_lookup. intros k row Hk. apply lookup_lt_Some in Hk as Hlt. rewrite length_turns in Hlt by done.
    rewrite lookup_turns in Hk by done. rewrite Forall_lookup in ha_rows. pose proof (ha_rows _ _ Hk).
    eapply dma_location; eauto using row_dma_encode.
Qed.

(** ** Examples

    A DMA engine that is ready every [S n] cycles. *)
Program Definition every (n : nat) : supply :=
  Supply (fun t => (t mod S n =? n)%nat) (fun t => n - t mod S n)%nat n _ _.
Next Obligation. intros n t. cbn beta. lia. Qed.
Next Obligation.
  intros n t H. cbn beta. apply Nat.eqb_neq in H. pose proof (Nat.mod_upper_bound t (S n) ltac:(lia)).
  rewrite <- Nat.add_1_r, Nat.Div0.add_mod, (Nat.mod_small 1), (Nat.mod_small (_ + 1)); destruct n; lia.
Qed.

Program Definition reader_timing (accept deliver access : nat) : ReaderTiming := {|
  command_ready := every accept; word_valid := every deliver; in_flight := 3; access_time := access; sleep_time := 40 |}.
Next Obligation. lia. Qed.

Definition pair_demo : pair := Pair 0 hw_demo_module false (ReaderAddrRegs RA_READY 0 0 0 0) demo_reader [] [] [].

(** Seven reads of three rows. *)
Lemma hw_attack_complete_witness :
  let T := reader_timing 2 3 5 in
  let D := pair_device hw_demo_cfg (fun _ a => a) in let W := pair_mem_write hw_demo_cfg (fun _ a => a) in
  ∃ p' rows, attack 500 demo_attack [3; 5; 9] 7 pair_demo = (Done tt, p')
    ∧ p_sent p' = row_dma demo_attack <$> rows ∧ Z.of_nat (length rows) = 7 ∧ rows !! 4%nat = Some 5 ∧ rested p'.
Proof.
  intros T D W. destruct (hw_attack_complete hw_demo_cfg (fun _ a => a) 500 demo_attack [3; 5; 9] 7 pair_demo)
    as (p' & rows & Hrun & Hr & _ & Hs & Hl & Hrows & _).
  - split; try (vm_compute; intuition congruence).
    + exists 64. reflexivity.
    + repeat constructor; vm_compute; congruence.
  - by split.
  - vm_compute. lia.
  - vm_compute. reflexivity.
  - vm_compute. reflexivity.
  - exists p', rows. split; [exact Hrun|]. split; [exact Hs|]. split; [exact Hl|]. split; [|exact Hr]. apply (Hrows 4%nat). lia.
Defined.

(** An attack that is over before the second write is made a second time. *)
Example short_attack_twice :
  let T := reader_timing 0 0 30 in
  p_sent (attack (D := pair_device hw_demo_cfg (fun _ a => a)) (W := pair_mem_write hw_demo_cfg (fun _ a => a))
    500 demo_attack [3; 5] 2 pair_demo).2 = row_dma demo_attack <$> [3; 5; 3; 5].
Proof. vm_compute. reflexivity. Qed.

(** When the second write comes between the ends of the two FSMs, only the sender
    starts again: the program ends, and the addresses and words that nobody takes are
    left in the queues, for the reader's next task. *)
Example second_start_leaves_words :
  let T := reader_timing 0 0 12 in
  let '(o, p) := attack (D := pair_device hw_demo_cfg (fun _ a => a)) (W := pair_mem_write hw_demo_cfg (fun _ a => a))
    500 demo_attack [3; 5] 2 pair_demo in
  o = Done tt ∧ r_fsm (p_r p) = R_READY ∧ p_addr p = row_dma demo_attack <$> [3; 5] ∧ p_dma p = p_addr p.
Proof. vm_compute. done. Qed.
