(* ===== verification/BistAttack.v ===== *)
(** * The BIST attack on the board of the self test

    [HwAttack] shows which addresses the attack of [HwRowHammer] gives to the DMA.  Here
    the same program runs on the board of [BistBoard], which has the writer and the
    error FIFO as well: it ends, without errors in the registers and with the memory as
    it was, so that [hw_memtest] can follow.  As there, the attack has to take longer
    than an access of the host. *)

From S2P Require Import Prelude RowGenerators HalfDouble PayloadGenerators Playbook HostMem AddressConverter RowHammerHost.
From S2P Require Import Bist BistFacts HostBist Device BistBoard BistBoardFacts BistHost HwRowHammer HwAttack.
#[local] Open Scope Z_scope.

Section pounding.
Context {M : Migen} (cfg : bist_cfg) {F : Fifo (Z * Z * Z)} {T : Timing_}.
Context (B : bist) (m : Z → Z) (Hok : csr_ok cfg (csr (reader B))).
Abbreviation cycle := (board_cycle cfg).
Abbreviation idle := (idle cfg).
Abbreviation N := (count (csr (reader B))).

(** The reader while its errors are skipped. *)
Definition counting (s : reader_regs) : Prop :=
  0 ≤ counter_gen s ≤ N
  ∧ match r_fsm s with
    | R_READY => counter_gen s = N
    | R_COMPUTE_MEM_ADDR => True
    | R_WAIT_FOR_DRAM_ADDR => counter_gen s < N
    | R_INVERT_COMPUTE => counter_gen s < N ∧ 0 ≤ r_wait s ≤ 2
    | R_RD_DATA => counter_gen s < N
    | R_WR_ERR => False
    end.

Record pounding (b : board) : Prop := {
  po_bist : bd_bist b = B;
  po_mem : bd_mem b = m;
  po_skip : bd_skip b = true;
  po_writer : w_fsm (bd_w b) = W_READY;
  po_reader : counting (bd_r b);
  po_error : e_valid (bd_err b) = false;
}.

(** Cycles that are needed at least. *)
Definition least (s : reader_regs) : Z :=
  let n := 6 * (N - counter_gen s) in
  match r_fsm s with
  | R_READY => 0
  | R_COMPUTE_MEM_ADDR => n + 1
  | R_WAIT_FOR_DRAM_ADDR => n
  | R_INVERT_COMPUTE => n - 1 - r_wait s
  | R_RD_DATA => n - 4
  | R_WR_ERR => 0
  end.

(** A cycle of the reader with skipped errors. *)
Lemma counting_step b :
  bd_skip b = true → counting (bd_r b) →
  let s' := (reader_cycle cfg (csr (reader B)) (pattern_data (reader B)) (reader_input cfg false b) (bd_r b)).2 in
  counting s' ∧ least (bd_r b) - 1 ≤ least s' ∧ (r_fsm (bd_r b) = R_READY → r_fsm s' = R_READY)
  ∧ (r_fsm (bd_r b) ≠ R_READY →
     reader_work B s' < reader_work B (bd_r b)
     ∨ reader_work B s' = reader_work B (bd_r b) ∧ r_fsm s' = r_fsm (bd_r b)
       ∧ match r_fsm (bd_r b) with
         | R_WAIT_FOR_DRAM_ADDR => avail address_valid (bd_time b) = false
         | R_RD_DATA => avail data_valid (bd_time b) = false
         | _ => False
         end).
Proof using Hok.
  intros Hs [Hk Hf]. destruct Hok. cbv zeta. unfold counting, least, reader_work, reader_cycle, reader_input. rewrite Hs.
  destruct (r_fsm (bd_r b)) eqn:E; cbn -[trunc Z.mul].
  - split_and!; (done || lia).
  - destruct (Z.leb_spec N (counter_gen (bd_r b))); split_and!; try (done || lia).
  - rewrite !(bool_decide_false (R_WAIT_FOR_DRAM_ADDR = _)) by done. cbn [orb].
    destruct (avail address_valid (bd_time b)) eqn:Ea; cbn -[Z.mul]; split_and!; try (done || lia); intros _; by right.
  - destruct Hf as [Hlt Hw]. destruct (Z.eqb_spec (r_wait (bd_r b)) 2) as [Ew|Ew]; cbn -[trunc Z.mul];
      rewrite ?trunc_small by (cbn; lia); split_and!; try (done || lia); intros _; left; lia.
  - destruct (avail data_valid (bd_time b)) eqn:Ea; cbn -[trunc Z.mul]; [|split_and!; try (done || lia); intros _; by right].
    destruct (negb _); cbn -[trunc Z.mul]; rewrite !trunc_small by lia; split_and!; try (done || lia); intros _; left; lia.
  - done.
Qed.

Lemma pounding_step b :
  pounding b →
  let b' := cycle false false false b in
  pounding b' ∧ least (bd_r b) - 1 ≤ least (bd_r b') ∧ (ready b → ready b') ∧ remaining B b' ≤ remaining B b
  ∧ (¬ ready b → remaining B b' < remaining B b).
Proof using Hok.
  intros [HB Hm Hs Hw Hr He] b'. destruct (counting_step b Hs Hr) as (Hr' & Hl & Hrdy & Hwork).
  assert (pounding b' ∧ bd_r b' = (reader_cycle cfg (csr (reader B)) (pattern_data (reader B)) (reader_input cfg false b) (bd_r b)).2
    ∧ bd_time b' = S (bd_time b)) as (Hp & Er & Et).
  { unfold b', board_cycle. rewrite HB.
    destruct (writer_idle cfg (csr (writer B)) (pattern_data (writer B)) (pattern_addr (writer B)) (avail write_ready (bd_time b)) (bd_w b) Hw) as [W1 W2].
    destruct (writer_cycle _ _ _ _ _ _) as [x w']. cbn [fst snd] in W1, W2. subst x.
    destruct (reader_cycle _ _ _ _ _) as [o r']. unfold error_cycle, error_input. rewrite He, Hs. cbn [negb es_valid e_skip].
    destruct (bool_decide _); split_and!; try done; split; done. }
  rewrite <- Er in *. pose proof (word_wait_bound b). pose proof (word_wait_bound b').
  assert (¬ ready b → remaining B b' < remaining B b) as Hlt.
  { intros E. unfold remaining. destruct (Hwork E) as [?|(E1 & E2 & E3)]; [nia|]. rewrite E1. unfold word_wait. rewrite E2, Et.
    destruct (r_fsm (bd_r b)); try done; pose proof (wait_dec _ _ E3); lia. }
  split_and!; [done|done|done| |done].
  destruct (decide (r_fsm (bd_r b) = R_READY)) as [E|E]; [|specialize (Hlt E); lia].
  pose proof (Hrdy E) as E'. unfold remaining, reader_work, word_wait. rewrite E, E'. lia.
Qed.

Lemma pounding_idle n : ∀ b,
  pounding b →
  pounding (idle n b) ∧ least (bd_r b) - Z.of_nat n ≤ least (bd_r (idle n b)) ∧ (ready b → ready (idle n b))
  ∧ remaining B (idle n b) ≤ remaining B b ∧ (¬ ready b → (0 < n)%nat → remaining B (idle n b) < remaining B b).
Proof using Hok.
  induction n as [|n IH]; intros b Hb; [cbn [BistBoard.idle]; split_and!; (done || lia)|]. cbn [BistBoard.idle].
  destruct (pounding_step b Hb) as (Hb' & Hl & Hr & Hle & Hlt). destruct (IH _ Hb') as (H1 & H2 & H3 & H4 & _).
  split_and!; [done|lia|auto|lia|]. intros Hn _. specialize (Hlt Hn). lia.
Qed.

Lemma pounding_bound b : pounding b → 0 ≤ remaining B b ∧ (¬ ready b → 1 ≤ remaining B b)
  ∧ remaining B b ≤ (7 * N + 2) * (max_wait + 1) + max_wait.
Proof using Type.
  intros [_ _ _ _ [Hk Hf] _]. pose proof (word_wait_bound b). unfold remaining, reader_work, ready in *.
  destruct (r_fsm (bd_r b)); split_and!; try done; intros; nia.
Qed.

(** The first start starts the reader, a second one does nothing while it runs. *)
Lemma pounding_start b :
  quiet B m b → bd_skip b = true → e_valid (bd_err b) = false →
  pounding (cycle false true false b) ∧ least (bd_r (cycle false true false b)) = 6 * N + 1.
Proof using Hok.
  intros [HB Hm Hw Hr] Hs He. unfold board_cycle. rewrite HB.
  destruct (writer_idle cfg (csr (writer B)) (pattern_data (writer B)) (pattern_addr (writer B)) (avail write_ready (bd_time b)) (bd_w b) Hw) as [W1 W2].
  destruct (writer_cycle _ _ _ _ _ _) as [x w']. cbn [fst snd] in W1, W2. subst x.
  unfold reader_cycle. rewrite Hr. change (r_start (reader_input cfg true b)) with true.
  unfold error_cycle, error_input. rewrite He, Hs. cbn [negb es_valid e_skip]. destruct Hok.
  destruct (bool_decide _); (split; [split; try done; unfold counting; cbn; lia|unfold least; cbn -[Z.mul]; lia]).
Qed.

Lemma start_running b : pounding b → ¬ ready b → cycle false true false b = cycle false false false b.
Proof using Type.
  intros [HB _ _ _ _ _] Hn. unfold board_cycle. rewrite HB. unfold reader_input.
  rewrite (taker_busy cfg (reader B)) by exact Hn. done.
Qed.

Lemma least_running b n : pounding b → Z.of_nat n < least (bd_r b) → ¬ ready (idle n b).
Proof using Hok.
  intros Hb Hn. destruct (pounding_idle n b Hb) as (_ & Hl & _). unfold ready. intros E. unfold least in Hl at 2. rewrite E in Hl. lia.
Qed.

Lemma pounding_end b : pounding b → ready b → quiet B m b ∧ bd_skip b = true ∧ e_valid (bd_err b) = false.
Proof using Type. intros [? ? ? ? _ ?] ?. split_and!; [split|..]; done. Qed.
End pounding.

(** ** The program *)
Section host.
Context {M : Migen} (cfg : bist_cfg) {F : Fifo (Z * Z * Z)} {T : Timing_}.
Context (Hacc : (fifo_latency < access_cycles)%nat).
Context (Hsleep : (fifo_depth * S fifo_latency + fifo_latency < sleep_cycles)%nat).
#[local] Instance bist_attack_dev : Device := bist_device cfg.
#[local] Instance bist_attack_mem : MemWrite := bist_mem_write cfg.

(** Between operations, with skipped errors. *)
Definition skipping (B : bist) (m : Z → Z) (b : board) : Prop :=
  quiet B m b ∧ bd_skip b = true ∧ e_valid (bd_err b) = false.

Lemma skipping_idle B m n b : skipping B m b → skipping B m (idle cfg n b).
Proof using Type. intros (Hq & Hs & He). by destruct (flush_idle cfg B m n b Hq Hs He) as (? & ? & ? & _). Qed.

Lemma skipping_bist B m f b : skipping B m b → skipping (f B) m (set_bist f b).
Proof using Type. intros ([<- ? ? ?] & ? & ?). split_and!; [split|..]; done. Qed.

Lemma skipping_cfg B m r v f :
  (∀ b, poke cfg r v b = set_bist f b) → triple (skipping B m) (wr r v) (fun _ => skipping (f B) m).
Proof using Type. intros Hp. apply triple_wr. intros b Hb. cbn. rewrite Hp. by apply skipping_idle, skipping_bist. Qed.

Lemma skipping_mem B m r l f :
  (∀ b, poke_mem cfg r l b = set_bist f b) → triple (skipping B m) (mem_write r l) (fun _ => skipping (f B) m).
Proof using Type.
  intros Hp b Hb. eexists tt, _. split; [reflexivity|]. rewrite Hp. by apply skipping_idle, skipping_bist.
Qed.

Lemma skip_on B m : triple (at_rest B m) (wr "reader_skip_fifo" 1) (fun _ => skipping B m).
Proof using Type.
  apply triple_wr. intros b Hb. apply skipping_idle. destruct (at_rest_quiet B m b Hb) as [[? ? ? ?] ?]. split_and!; [split|..]; done.
Qed.

Lemma flush_then {A} B m (k : host A) Q :
  triple (at_rest B m) k Q →
  triple (fun b => quiet B m b ∧ e_valid (bd_err b) = false)
    (wr "reader_skip_fifo" 1 ;; sleep ;; wr "reader_skip_fifo" 0 ;; k) Q.
Proof using Hacc Hsleep.
  intros Hk b Hb. destruct (triple_flush cfg Hacc Hsleep B m b Hb) as ([] & b' & E & Hb'). injection E as <-. by apply Hk.
Qed.

Lemma skipping_start B m :
  csr_ok cfg (csr (reader B)) → Z.of_nat access_cycles < 5 * count (csr (reader B)) →
  triple (skipping B m) (wr "reader_start" 1) (fun _ (b : board) => pounding B m b ∧ ¬ ready b).
Proof using Type.
  intros Hok Hlong. apply triple_wr. intros b (Hq & Hs & He). destruct (pounding_start cfg B m Hok b Hq Hs He) as [Hp Hl].
  change (reg_write "reader_start" 1 b) with (idle cfg access_cycles (board_cycle cfg false true false b)).
  split; [by apply pounding_idle|]. apply (least_running cfg B m Hok); [done|]. destruct Hok as [Hc _ _ _]. clear -Hc Hlong Hl. lia.
Qed.

Lemma start_again B m :
  csr_ok cfg (csr (reader B)) →
  triple (fun b => pounding B m b ∧ ¬ ready b) (wr "reader_start" 0) (fun _ => pounding B m).
Proof using Type.
  intros Hok. apply triple_wr. intros b [Hp Hn].
  change (reg_write "reader_start" 0 b) with (idle cfg access_cycles (board_cycle cfg false true false b)).
  rewrite (start_running cfg B m b Hp Hn). by apply (pounding_idle cfg B m Hok), pounding_step.
Qed.

(** Rounds of polling that are enough for [n] reads. *)
Definition attack_fuel (n : Z) : Z := (7 * n + 2) * (max_wait + 1) + max_wait + 1.

Lemma pounding_wait (fuel : nat) B m :
  csr_ok cfg (csr (reader B)) → attack_fuel (count (csr (reader B))) ≤ fuel →
  triple (pounding B m) (wait_attack fuel) (fun _ (b : board) => pounding B m b ∧ ready b).
Proof using Hacc.
  intros Hok Hf. unfold attack_fuel in Hf. set (K := Z.to_nat ((7 * count (csr (reader B)) + 2) * (max_wait + 1) + max_wait)).
  assert (K < fuel)%nat as HK by (pose proof Hok as [Hc _ _ _]; unfold K, max_wait in *; clear -Hf Hc; lia).
  eapply triple_conseq with (P' := fun b : board => pounding B m b ∧ remaining B b ≤ K) (Q' := fun _ (b : board) => pounding B m b ∧ ready b).
  3: done. 2: { intros b Hb. split; [done|]. destruct (pounding_bound B m b Hb) as (H0 & _ & Hle). unfold K. clear -H0 Hle. lia. }
  unfold wait_attack.
  refine (@triple_loop bist_attack_dev _ (fun k (_ : unit) (b : board) => pounding B m b ∧ remaining B b ≤ k) _ _ _ K fuel tt HK).
  intros n [] b [Hb Hn]. set (b1 := idle cfg access_cycles b). set (b2 := idle cfg access_cycles b1).
  destruct (pounding_idle cfg B m Hok access_cycles b Hb) as (Hb1 & _ & Hr1 & Hle1 & Hlt1). fold b1 in Hb1, Hr1, Hle1, Hlt1.
  destruct (pounding_idle cfg B m Hok access_cycles b1 Hb1) as (Hb2 & _ & Hr2 & Hle2 & _). fold b2 in Hb2, Hr2, Hle2.
  destruct (decide (r_fsm (bd_r b1) = R_READY)) as [E|E].
  - exists (true, tt), b2. split; [|split; [done|by apply Hr2]]. cbv [mbind host_bind rd reg_read bist_attack_dev bist_device].
    fold b1. rewrite sample_ready. by rewrite bool_decide_true.
  - set (b3 := idle cfg sleep_cycles b2). exists (false, tt), b3. split.
    + cbv [mbind host_bind rd reg_read bist_attack_dev bist_device]. fold b1. rewrite sample_ready. by rewrite bool_decide_false.
    + destruct (pounding_idle cfg B m Hok sleep_cycles b2 Hb2) as (Hb3 & _ & _ & Hle3 & _). fold b3 in Hb3, Hle3.
      assert (remaining B b1 < remaining B b) as Hlt by (apply Hlt1; [intros Hr; by apply E, Hr1|clear -Hacc; lia]).
      destruct (pounding_bound B m b3 Hb3) as (H0 & _). cbn. exists (Z.to_nat (remaining B b3)). clear -Hn Hlt Hle2 Hle3 H0 Hb3. split; [lia|]. split; [done|lia].
Qed.

Definition attack_bist (r : RowHammer) (row_tuple : list Z) (read_count : Z) (B : bist) : bist :=
  on_reader (attack_module cfg (row_dma r <$> row_tuple) (length row_tuple) read_count) B.

(** The attack ends with the memory as it was, nothing in the error registers, and the
    reader in mask mode. *)
Lemma triple_bist_attack (fuel : nat) r row_tuple read_count B m :
  hw_attack_ok cfg r (reader B) row_tuple read_count → Z.of_nat access_cycles < 5 * read_count → attack_fuel read_count ≤ fuel →
  triple (fun b => quiet B m b ∧ e_valid (bd_err b) = false) (attack fuel r row_tuple read_count)
    (fun _ => skipping (on_reader (set_csr (set_modulo false)) (attack_bist r row_tuple read_count B)) m).
Proof using Hacc Hsleep.
  intros Hok Hlong Hfuel. destruct (attack_module_ok cfg r (reader B) row_tuple read_count Hok) as (Hcsr & _ & Hcnt & _).
  unfold attack. pose proof Hok as [].
  rewrite (proj2 (Z.leb_le _ _)) by lia. rewrite (result_map_ok _ (row_dma r)).
  2: { eapply Forall_impl; [exact ha_rows|]. intros row Hrow. by apply row_dma_encode. }
  eapply triple_bind; [apply triple_lift_ok|]. intros []. apply triple_pure. intros _.
  eapply triple_bind; [apply triple_lift_ok|]. intros ?. apply triple_pure. intros ->.
  apply flush_then. eapply triple_bind; [apply triple_rest_rd, rest_reader_ready|]. intros v. apply triple_pure. intros ->.
  eapply triple_bind; [apply triple_lift_ok|]. intros []. apply triple_pure. intros _.
  eapply triple_bind; [apply skip_on|]. intros [].
  eapply triple_bind; [by apply (skipping_cfg _ _ _ _ (on_reader (set_csr (set_mem_mask 0))))|]. intros [].
  eapply triple_bind; [by apply (skipping_cfg _ _ _ _ (on_reader (set_csr (set_modulo true))))|]. intros [].
  eapply triple_bind; [by apply (skipping_cfg _ _ _ _ (on_reader (set_csr (set_data_div cfg (length row_tuple - 1)))))|]. intros [].
  eapply triple_bind; [by apply (skipping_mem _ _ _ _ (on_reader (set_addr (row_dma r <$> row_tuple))))|]. intros [].
  eapply triple_bind; [by apply (skipping_mem _ _ _ _ (on_reader (set_data cfg (replicate 16 2863311530))))|]. intros [].
  eapply triple_bind; [by apply (skipping_cfg _ _ _ _ (on_reader (set_csr (set_count read_count))))|]. intros [].
  match goal with |- triple (skipping ?y _) _ _ => change y with (attack_bist r row_tuple read_count B) end.
  set (B' := attack_bist r row_tuple read_count B). assert (count (csr (reader B')) = read_count) as Hc by done.
  eapply triple_bind; [apply skipping_start; [done|by rewrite Hc]|]. intros [].
  eapply triple_bind; [by apply start_again|]. intros [].
  eapply triple_bind; [apply pounding_wait; [done|by rewrite Hc]|]. intros [].
  eapply triple_bind with (R := fun _ => skipping B' m).
  { apply triple_rd. intros b [Hp Hr]. apply skipping_idle. by apply pounding_end. }
  intros done. by apply (skipping_cfg _ _ _ _ (on_reader (set_csr (set_modulo false)))).
Qed.
End host.
