(* ===== verification/ErrorSummary.v ===== *)
(** * Error summaries of the row hammer scripts

    Models [RowHammer.display_errors] and the main function of
    [src/rowhammer_tester/scripts/rowhammer.py]: how the wrong words of the rows
    become the error summary that is written as JSON, and the loop over the read
    counts.  The attacks themselves are the class [Attacker], so that the loop
    serves [RowHammer] and [HwRowHammer] alike. *)

From stdpp Require Import gmap pretty.
From S2P Require Import Prelude AddressConverter Config HalfDouble PayloadGenerators Playbook RowHammerHost HwRowHammer.
#[local] Open Scope Z_scope.

(** ** Summary of a row *)
Record row_summary := RowSummary {
  rs_row : Z;
  rs_col : list (Z * list Z);        (* column to the positions of its flips *)
  rs_bitflips : Z;
}.

(** The JSON of a summary; [json.dump] writes integer keys as strings. *)
Definition row_json (s : row_summary) : json :=
  JObj [("row", JNum (rs_row s));
        ("col", JObj ((fun '(c, flips) => (pretty c, JList (JNum <$> flips))) <$> rs_col s));
        ("bitflips", JNum (rs_bitflips s))]%string.

(** Local variables of [display_errors]: [flips] and [_row] are unbound until a
    row with errors is met, and keep their values afterwards. *)
Record display_state := DisplayState {
  ds_flips : option Z;
  ds_row : option Z;
  ds_dict : list (Z * row_summary);
}.

Section display.
Context {M : Migen} (r : RowHammer).

(** The loop over the errors of a row. *)
Definition display_error (row : Z) (st : list (Z * list Z) * option Z) (e : error)
    : result (list (Z * list Z) * option Z) :=
  let '(cols, _) := st in
  let '(i, word, expected) := e in
  addresses ← row_addresses (rh_conv r) (rh_colbits r) (rh_bank r) row;
  base_addr ← py_min addresses;
  '(_, _row, col) ← decode_bus (rh_conv r) (base_addr + 4 * i) default_base default_bus_width;
  Ok (odict_set col (flip_positions word expected) cols, Some _row).

Definition display_row (verbose do_error_summary : bool) (st : display_state) (entry : Z * list error)
    : result display_state :=
  let '(row, errors) := entry in
  let flips := if bool_decide (errors = []) then ds_flips st else Some (sum_bitflips errors) in
  '(cols, _row) ←
    (if verbose || do_error_summary then result_fold (display_error row) ([], ds_row st) errors
     else Ok ([], ds_row st) : result (list (Z * list Z) * option Z));
  if do_error_summary then
    row' ← of_option NameError _row;
    flips' ← of_option NameError flips;
    Ok (DisplayState flips _row (odict_set row (RowSummary row' cols flips') (ds_dict st)))
  else Ok (DisplayState flips _row (ds_dict st)).

(** The keys of the result are the row numbers as strings; [None] without a
    summary. *)
Definition display_errors (verbose do_error_summary : bool) (row_errors : list (Z * list error))
    : result (option (list (Z * row_summary))) :=
  st ← result_fold (display_row verbose do_error_summary) (DisplayState None None []) row_errors;
  Ok (if do_error_summary then Some (ds_dict st) else None).
End display.

Definition errors_json (summary : list (Z * row_summary)) : json :=
  JObj ((fun '(row, s) => (pretty row, row_json s)) <$> summary).

(** ** Main *)

(** The attack object, as the main function uses it: [run] gives the summary of
    the errors (empty when there are none), [hammer] attacks without checking. *)
Class Attacker (S : Type) := {
  at_run : list (list Z) → Z → S → result (list (Z * row_summary) * S);
  at_hammer : list Z → Z → S → result S;
  at_bitflip_found : S → bool;
}.

Record main_args := MainArgs {
  ma_pairs : pair_args;
  ma_read_count : option Z;
  ma_read_count_range : option (Z * Z * Z);
  ma_exit_on_bit_flip : bool;
}.

(** [--experiment-no 1] sets these arguments. *)
Definition apply_experiment (experiment_no : Z) (a : main_args) : main_args :=
  if experiment_no =? 1 then
    let p := ma_pairs a in
    MainArgs (PairArgs (hammer_only p) (all_rows p) (Some Const) (Some (88, 99)) (no_attack p) (start_row p)
                512 (row_pair_distance p) (row_jump p))
      (Some 15000000) (ma_read_count_range a) (ma_exit_on_bit_flip a)
  else a.

(** The read counts: [args.read_count or 10e6] takes 0 for absent. *)
Definition count_range (a : main_args) : result (list Z) :=
  match ma_read_count_range a with
  | Some (count_start, count_stop, count_step) => range3 count_start (count_stop + 1) count_step
  | None =>
      let count_start :=
        match ma_read_count a with Some c => if c =? 0 then 10000000 else c | None => 10000000 end in
      range3 count_start (count_start + 1) 1
  end.

Definition pair_key (pair : list Z) : result string :=
  match pair with
  | a :: b :: _ => Ok ("pair_" +:+ pretty a +:+ "_" +:+ pretty b)%string
  | _ => Raise IndexError
  end.

Definition pair_entry (pair : list Z) (errors : list (Z * row_summary)) : result json :=
  a ← of_option IndexError (pair !! 0%nat);
  b ← of_option IndexError (pair !! 1%nat);
  Ok (JObj [("hammer_row_1", JNum a); ("hammer_row_2", JNum b); ("errors_in_rows", errors_json errors)]%string).

Section main.
Context {S : Type} `{!Attacker S}.

(** One attack of [--all-rows]. *)
Definition pair_attack (count : Z) (st : dict * S) (pair : list Z) : result (dict * S) :=
  let '(entries, s) := st in
  '(errors, s') ← at_run [pair] count s;
  k ← pair_key pair;
  entry ← pair_entry pair errors;
  Ok (dict_set entries k entry, s').

(** The entries of one read count, after [read_count] itself. *)
Definition count_entries (a : main_args) (pairs : list (list Z)) (count : Z) (s : S) : result (dict * S) :=
  let entries : dict := [("read_count"%string, JNum count)] in
  let p := ma_pairs a in
  if negb (bool_decide (hammer_only p = [])) then
    pair ← of_option IndexError (pairs !! 0%nat);
    s' ← at_hammer pair count s;
    Ok (entries, s')
  else if all_rows p then result_fold (pair_attack count) (entries, s) pairs
  else
    '(errors, s') ← at_run pairs count s;
    match row_pairs_mode p with
    | Some Const =>
        pair ← of_option IndexError (pairs !! 0%nat);
        k ← pair_key pair;
        entry ← pair_entry pair errors;
        Ok (dict_set entries k entry, s')
    | _ =>
        Ok (dict_set entries "sequential_attacks"
              (JObj [("row_pairs", JList ((fun t => JList (JNum <$> t)) <$> pairs));
                     ("errors_in_rows", errors_json errors)]%string), s')
    end.

(** Without an attack the summary is replaced. *)
Definition no_attack_summary (t : Z) (errors : list (Z * row_summary)) : dict :=
  [("no_attack_time", JObj [(pretty t, JObj [("errors_in_rows", errors_json errors)])])]%string.

Definition is_no_attack (p : pair_args) : option Z :=
  if bool_decide (hammer_only p = []) && negb (all_rows p) then no_attack p else None.

(** The loop over the counts, which a bit flip may end. *)
Fixpoint count_loop (a : main_args) (pairs : list (list Z)) (counts : list Z) (summary : dict) (s : S)
    : result (dict * S) :=
  match counts with
  | [] => Ok (summary, s)
  | count :: counts' =>
      '(summary', s') ←
        (match is_no_attack (ma_pairs a) with
         | Some t =>
             '(errors, s') ← at_run [[0; 0]] 0 s;
             Ok (no_attack_summary t errors, s')
         | None =>
             '(entries, s') ← count_entries a pairs count s;
             Ok (dict_set summary (pretty count) (JObj entries), s')
         end : result (dict * S));
      if at_bitflip_found s' && ma_exit_on_bit_flip a then Ok (summary', s')
      else count_loop a pairs counts' summary' s'
  end.

(** The error summary of the whole script; [rng] as in [row_pairs]. *)
Definition main (rng : nat → Z) (experiment_no : Z) (args : main_args) (s : S) : result (dict * S) :=
  let a := apply_experiment experiment_no args in
  pairs ← row_pairs rng (ma_pairs a);
  counts ← count_range a;
  count_loop a pairs counts [] s.
End main.
