(* ===== verification/ErrorSummaryFacts.v ===== *)
(** * Properties of the error summaries

    The summary of rows with errors is exact, and its flips are all there when a
    column holds at most one bus word; a row without errors makes the summary
    fail or repeats the previous row.  The main function gives one entry per read
    count. *)

From stdpp Require Import gmap pretty.
From S2P Require Import Prelude AddressConverter Config HalfDouble PayloadGenerators Playbook RowHammerHost HwRowHammer.
From S2P Require Import ErrorSummary.
#[local] Open Scope Z_scope.

(** ** Flips of a word *)
Lemma length_filter_countb {A} (P : A → Prop) `{∀ x, Decision (P x)} l :
  length (filter P l) = countb (fun x => bool_decide (P x)) l.
Proof.
  induction l as [|x l IH]; [done|]. rewrite filter_cons. cbn [countb].
  destruct (decide (P x)); [rewrite bool_decide_true | rewrite bool_decide_false]; cbn; auto with lia.
Qed.

Lemma countb_reversed f n : countb (fun i => f (Z.of_nat n - 1 - i)) (zrange n) = countb f (zrange n).
Proof.
  induction n as [|n IH]; [done|]. replace (Z.of_nat (S n)) with (1 + Z.of_nat n) by lia.
  rewrite zrange_add at 1 by lia. change (zrange 1) with [0]. cbn [app countb].
  rewrite (Z.add_comm 1), zrange_succ, countb_app, countb_fmap by lia. cbn [countb].
  rewrite <- IH. rewrite (Z.add_simpl_r _ 1), Z.sub_0_r.
  rewrite (countb_ext _ (fun i => f (Z.of_nat n - 1 - i))); [lia|]. intros i _. f_equal. lia.
Qed.

Lemma bin_digits_bound v : 0 ≤ v → v < 2 ^ bin_digits v ∧ 0 < bin_digits v.
Proof.
  intros Hv. unfold bin_digits. destruct (Z.eqb_spec v 0) as [->|]; [done|].
  rewrite Z.abs_eq by done. pose proof (Z.log2_spec v ltac:(lia)). pose proof (Z.log2_nonneg v).
  rewrite <- Z.add_1_r in *. lia.
Qed.

(** [bitflip_list] has as many positions as there are flipped bits. *)
Lemma length_flip_positions value expected :
  0 ≤ Z.lxor value expected → Z.of_nat (length (flip_positions value expected)) = bitflips value expected.
Proof.
  intros Hv. unfold flip_positions, bitflips. set (v := Z.lxor value expected) in *.
  set (w := Z.max _ _). destruct (bin_digits_bound v Hv) as [Hb Hpos].
  assert (0 ≤ v < 2 ^ w) as Hw.
  { split; [done|]. eapply Z.lt_le_trans; [done|]. apply Z.pow_le_mono_r; unfold w; lia. }
  rewrite length_filter_countb, (countb_ext _ (fun i => Z.testbit v (w - 1 - i))).
  2: { intros i _. by destruct (Z.testbit v _). }
  assert (∃ n : nat, w = n) as [n Hn] by (exists (Z.to_nat w); lia). rewrite Hn in *.
  rewrite (countb_reversed (Z.testbit v)), <- (ones_in_bitcount n v) by done. done.
Qed.

(** ** The summary of a row *)

(** Positions of all flips of the columns. *)
Definition flips_in (cols : list (Z * list Z)) : Z := zsum ((fun c => Z.of_nat (length c.2)) <$> cols).

Definition cols_of (shift : Z) (errors : list error) : list (Z * list Z) :=
  foldl (fun cols '(i, word, expected) => odict_set (4 * i / 2 ^ shift) (flip_positions word expected) cols) [] errors.

Definition summary_of (shift : Z) (entry : Z * list error) : Z * row_summary :=
  (entry.1, RowSummary entry.1 (cols_of shift entry.2) (sum_bitflips entry.2)).

(** A row of the memory, its errors inside the row. *)
Definition entry_ok (r : RowHammer) (shift : Z) (entry : Z * list error) : Prop :=
  0 ≤ entry.1 < 2 ^ rowbits (rh_conv r)
  ∧ Forall (fun e => 0 ≤ e.1.1 ∧ 4 * e.1.1 < 2 ^ (colbits (rh_conv r) + shift)) entry.2.

(** The last row with errors. *)
Definition last_wrong (entries : list (Z * list error)) : option (Z * list error) :=
  last (filter (fun e => e.2 ≠ []) entries).

Lemma last_wrong_snoc entries entry :
  last_wrong (entries ++ [entry]) = if bool_decide (entry.2 = []) then last_wrong entries else Some entry.
Proof.
  unfold last_wrong. rewrite filter_app. case_bool_decide as He.
  - by rewrite filter_cons_False, filter_nil, app_nil_r by (intros Hne; by apply Hne).
  - by rewrite filter_cons_True, filter_nil, last_snoc.
Qed.

Lemma last_wrong_first row e errors entries : ∃ x, last_wrong ((row, e :: errors) :: entries) = Some x.
Proof.
  unfold last_wrong. rewrite filter_cons_True by done. destruct (filter _ entries) as [|x l]; [by eexists|].
  cbn [last]. destruct (last (x :: l)) as [y|] eqn:E; [by exists y|by apply last_None in E].
Qed.

Section summary.
Context {M : Migen} (r : RowHammer) (shift : Z) (Hok : rh_ok r shift).

Lemma display_error_ok row cols o i word expected :
  0 ≤ row < 2 ^ rowbits (rh_conv r) → 0 ≤ i → 4 * i < 2 ^ (colbits (rh_conv r) + shift) →
  display_error r row (cols, o) (i, word, expected)
  = Ok (odict_set (4 * i / 2 ^ shift) (flip_positions word expected) cols, Some row).
Proof using Hok.
  intros Hrow Hi Hlim. destruct (row_addresses_ends r shift Hok row Hrow) as (addresses & Ha & Hlo & _).
  unfold display_error. rewrite Ha, ok_bind, Hlo, ok_bind, (word_location r shift Hok row i) by done. done.
Qed.

Lemma display_errors_of_row row errors cols o :
  0 ≤ row < 2 ^ rowbits (rh_conv r) →
  Forall (fun e => 0 ≤ e.1.1 ∧ 4 * e.1.1 < 2 ^ (colbits (rh_conv r) + shift)) errors →
  result_fold (display_error r row) (cols, o) errors
  = Ok (foldl (fun cols '(i, word, expected) => odict_set (4 * i / 2 ^ shift) (flip_positions word expected) cols)
          cols errors, if bool_decide (errors = []) then o else Some row).
Proof using Hok.
  intros Hrow Hall. revert cols o. induction Hall as [|[[i word] expected] errors [Hi Hlim] _ IH]; intros cols o; [done|].
  cbn [result_fold foldl]. rewrite display_error_ok, ok_bind, IH by done. by destruct errors.
Qed.

(** A row without errors takes over number and flips from the variables. *)
Lemma display_row_ok verbose st entry :
  entry_ok r shift entry → entry.1 ∉ (ds_dict st).*1 →
  display_row r verbose true st entry
  = let '(o, f) := if bool_decide (entry.2 = []) then (ds_row st, ds_flips st) else (Some entry.1, Some (sum_bitflips entry.2)) in
    row' ← of_option NameError o;
    flips ← of_option NameError f;
    Ok (DisplayState f o (ds_dict st ++ [(entry.1, RowSummary row' (cols_of shift entry.2) flips)])).
Proof using Hok.
  destruct entry as [row errors]. intros (Hrow & Hall) Hfresh. cbn [fst snd] in *. unfold display_row.
  rewrite orb_true_r, display_errors_of_row, ok_bind by done.
  destruct (decide (errors = [])) as [->|Hne].
  - rewrite !bool_decide_true by done. destruct (ds_row st), (ds_flips st); cbn -[odict_set]; [|done..].
    by rewrite odict_set_fresh.
  - rewrite !bool_decide_false by done. cbn -[odict_set cols_of]. by rewrite odict_set_fresh.
Qed.

(** What the loop has made of the rows so far. *)
Definition summarised (entries : list (Z * list error)) (st : display_state) : Prop :=
  ds_row st = fst <$> last_wrong entries ∧ ds_flips st = (fun e => sum_bitflips e.2) <$> last_wrong entries
  ∧ (ds_dict st).*1 = entries.*1
  ∧ ∀ i row errors, entries !! i = Some (row, errors) →
      ∃ row' errors', last_wrong (take (S i) entries) = Some (row', errors')
        ∧ ds_dict st !! i = Some (row, RowSummary row' (cols_of shift errors) (sum_bitflips errors')).

Lemma display_rows_ok verbose row e errors entries :
  Forall (entry_ok r shift) ((row, e :: errors) :: entries) → NoDup ((row, e :: errors) :: entries).*1 →
  ∃ st, result_fold (display_row r verbose true) (DisplayState None None []) ((row, e :: errors) :: entries) = Ok st
    ∧ summarised ((row, e :: errors) :: entries) st.
Proof using Hok.
  set (l := _ :: entries). intros Hall Hnd.
  assert (∀ k, (k ≤ length l)%nat → ∃ st, result_fold (display_row r verbose true) (DisplayState None None []) (take k l) = Ok st
    ∧ summarised (take k l) st) as H.
  { intros k. induction k as [|k IH]; intros Hk; [by exists (DisplayState None None [])|].
    destruct (IH ltac:(lia)) as (st & E & Hr & Hf & Hkeys & Hent). destruct (lookup_lt_is_Some_2 l k Hk) as [entry He].
    rewrite (take_S_r _ _ _ He), result_fold_app, E, ok_bind. cbn [result_fold].
    assert (entry.1 ∉ (ds_dict st).*1) as Hfresh.
    { rewrite Hkeys. intros Hin. rewrite <- (take_drop_middle l k entry He), fmap_app, fmap_cons in Hnd.
      apply NoDup_app in Hnd as (_ & Hd & _). apply (Hd _ Hin). apply list_elem_of_here. }
    rewrite display_row_ok by (done || by eapply Forall_lookup_1).
    assert (∃ x, last_wrong (take k l ++ [entry]) = Some x) as [[row' errors'] Hx].
    { rewrite <- (take_S_r _ _ _ He). unfold l. cbn [take]. apply last_wrong_first. }
    assert ((if bool_decide (entry.2 = []) then (ds_row st, ds_flips st) else (Some entry.1, Some (sum_bitflips entry.2)))
      = (Some row', Some (sum_bitflips errors'))) as ->.
    { rewrite last_wrong_snoc in Hx. case_bool_decide; [|by simplify_eq]. by rewrite Hr, Hf, Hx. }
    cbn [of_option]. rewrite !ok_bind. eexists. split; [done|]. split_and!.
    - by rewrite Hx.
    - by rewrite Hx.
    - cbn [ds_dict]. by rewrite !fmap_app, Hkeys.
    - assert (length (ds_dict st) = k) as Hlen.
      { rewrite <- (length_fmap fst), Hkeys, length_fmap, length_take. lia. }
      assert (length (take k l) = k) as Hlk by (rewrite length_take; lia).
      intros i rw es Hi. cbn [ds_dict]. apply lookup_app_Some in Hi as [Hi|[Hi1 Hi2]].
      + pose proof (lookup_lt_Some _ _ _ Hi). rewrite take_app_le by lia. destruct (Hent i rw es Hi) as (r1 & e1 & ? & Hd).
        exists r1, e1. split; [done|]. by rewrite lookup_app_l by lia.
      + apply list_lookup_singleton_Some in Hi2 as [Hi2 ->]. exists row', errors'. replace i with k by lia.
        rewrite take_ge by (rewrite length_app, Hlk; cbn; lia). split; [done|]. rewrite lookup_app_r, Hlen, Nat.sub_diag by lia. done. }
  destruct (H (length l) (le_n _)) as (st & E & Hs). rewrite take_ge in E, Hs by lia. by exists st.
Qed.
End summary.

(** The columns of distinct words are distinct, so that no flips are lost. *)
Lemma cols_of_flips shift errors :
  0 ≤ shift ≤ 2 → NoDup errors.*1.*1 → Forall (fun e => 0 ≤ Z.lxor e.1.2 e.2) errors →
  flips_in (cols_of shift errors) = sum_bitflips errors.
Proof.
  intros Hs Hnd Hall. unfold cols_of.
  enough (∀ cols, NoDup (cols.*1 ++ ((fun e => 4 * e.1.1 / 2 ^ shift) <$> errors)) →
    flips_in (foldl (fun cols '(i, word, expected) => odict_set (4 * i / 2 ^ shift) (flip_positions word expected) cols)
      cols errors) = flips_in cols + sum_bitflips errors) as Hgen.
  { rewrite Hgen; [done|]. cbn [app fmap list_fmap]. 
    replace ((fun e : error => 4 * e.1.1 / 2 ^ shift) <$> errors) with ((fun i => 4 * i / 2 ^ shift) <$> errors.*1.*1)
      by by rewrite <- !list_fmap_compose.
    apply NoDup_fmap_2_strong; [|done]. intros i j _ _ Hij.
    assert (∀ k, 4 * k / 2 ^ shift = k * 2 ^ (2 - shift)) as Hdiv.
    { intros k. replace (4 * k) with (k * 2 ^ (2 - shift) * 2 ^ shift); [apply Z.div_mul, Z.pow_nonzero; lia|].
      rewrite <- Z.mul_assoc, <- Z.pow_add_r by lia. replace (2 - shift + shift) with 2 by lia. lia. }
    rewrite !Hdiv in Hij. apply Z.mul_cancel_r in Hij; [done|]. apply Z.pow_nonzero; lia. }
  clear Hnd. induction Hall as [|[[i word] expected] errors Hx _ IH]; intros cols Hnd; cbn [foldl sum_bitflips foldr]; [lia|].
  assert (4 * i / 2 ^ shift ∉ cols.*1) as Hfresh.
  { apply NoDup_app in Hnd as (_ & Hd & _). intros Hin. apply (Hd _ Hin). apply list_elem_of_here. }
  rewrite odict_set_fresh by done. rewrite IH by (rewrite fmap_app, <- app_assoc; exact Hnd).
  unfold flips_in. rewrite fmap_app, zsum_app. cbn. rewrite length_flip_positions by done.
  unfold sum_bitflips. lia.
Qed.

(** The columns of the errors: each has the flips of its last error. *)
Lemma odict_get_set {V} (k k' : Z) (v : V) d : odict_get k (odict_set k' v d) = if bool_decide (k' = k) then Some v else odict_get k d.
Proof.
  induction d as [|[k1 v1] d IH]; cbn; [by repeat case_bool_decide|].
  repeat case_bool_decide; cbn; repeat case_bool_decide; try done; try congruence; by rewrite IH, ?bool_decide_true, ?bool_decide_false by congruence.
Qed.

Lemma odict_of_last {A V} (f : A → Z) (g : A → V) l c :
  odict_get c (foldl (fun d x => odict_set (f x) (g x) d) [] l) = g <$> last (filter (fun x => f x = c) l).
Proof.
  induction l as [|x l IH] using rev_ind; [done|]. rewrite foldl_app. cbn [foldl]. rewrite odict_get_set, IH, filter_app.
  case_bool_decide as E; [by rewrite filter_cons_True, filter_nil, last_snoc|]. by rewrite filter_cons_False, filter_nil, app_nil_r.
Qed.

Lemma cols_of_last shift errors c :
  odict_get c (cols_of shift errors)
  = (fun e => flip_positions e.1.2 e.2) <$> last (filter (fun e : error => 4 * e.1.1 / 2 ^ shift = c) errors).
Proof.
  rewrite <- odict_of_last. unfold cols_of. f_equal. generalize (@nil (Z * list Z)).
  induction errors as [|[[? ?] ?] errors IH]; intros cols; [done|]. apply IH.
Qed.

(** C32: The outcome of [display_errors] for rows of the memory, each once.  When the first
    row has no errors it raises [NameError].  Otherwise it gives one entry per row, in
    order: for a row with errors its number, under each column the positions of the
    flipped bits of the last wrong word of the column, and the number of flipped bits
    of the row; for a row without errors no columns, but the number and the flips of
    the last row before that has errors.  When a column holds no more than a bus word,
    the positions listed are as many as the flips of the row. *)
Theorem display_errors_exact {M : Migen} r shift verbose row_errors :
  rh_ok r shift → Forall (entry_ok r shift) row_errors → NoDup row_errors.*1 →
  match row_errors with
  | (_, []) :: _ => display_errors r verbose true row_errors = Raise NameError
  | _ =>
      ∃ summary, display_errors r verbose true row_errors = Ok (Some summary) ∧ length summary = length row_errors
      ∧ ∀ i row errors, row_errors !! i = Some (row, errors) →
          ∃ row' errors' cols, last_wrong (take (S i) row_errors) = Some (row', errors')
          ∧ summary !! i = Some (row, RowSummary row' cols (sum_bitflips errors'))
          ∧ (∀ c, odict_get c cols
              = (fun e => flip_positions e.1.2 e.2) <$> last (filter (fun e : error => 4 * e.1.1 / 2 ^ shift = c) errors))
          ∧ (shift ≤ 2 → NoDup errors.*1.*1 → Forall (fun e => 0 ≤ Z.lxor e.1.2 e.2) errors → flips_in cols = sum_bitflips errors)
  end.
Proof.
  intros Hok Hall Hnd. destruct row_errors as [|[row [|e errors]] entries].
  - exists []. by split_and!.
  - unfold display_errors. cbn [result_fold display_row]. rewrite orb_true_r. done.
  - destruct (display_rows_ok r shift Hok verbose row e errors entries Hall Hnd) as (st & E & _ & _ & Hk & Hs).
    exists (ds_dict st). unfold display_errors. rewrite E, ok_bind. split; [done|]. split.
    { rewrite <- (length_fmap fst), Hk. apply length_fmap. }
    intros i rw es Hi. destruct (Hs i rw es Hi) as (row' & errors' & Hl & Hd). exists row', errors', (cols_of shift es).
    split_and!; [done|done|apply cols_of_last|]. intros Hsh Hn Hx. apply cols_of_flips; [|done..]. split; [apply Hok|done].
Qed.

(** Rows 1 to 3 of four columns of two bytes; row 2 is intact. *)
Lemma display_errors_exact_witness :
  ∃ summary, display_errors demo_rh false true [(1, [(0, 3, 7); (1, 7, 6)]); (2, []); (3, [(1, 0, 3)])] = Ok (Some summary)
    ∧ (fun x => rs_bitflips x.2) <$> summary = [2; 2; 2].
Proof.
  destruct (display_errors_exact demo_rh 1 false [(1, [(0, 3, 7); (1, 7, 6)]); (2, []); (3, [(1, 0, 3)])]) as (summary & H & _).
  - split; vm_compute; intuition congruence.
  - repeat constructor; vm_compute; intuition congruence.
  - apply (bool_decide_unpack _). exact I.
  - exists summary. split; [exact H|]. vm_compute in H. injection H as <-. reflexivity.
Defined.

(** With columns of two bus words, the second word of a column replaces the flips
    of the first: of the two flips one is listed. *)
Example column_flips_lost :
  let r := MkRowHammer (MkConverter 2 3 1 3 512) 2 0 0 1 2 in
  display_errors r false true [(1, [(0, 1, 0); (1, 1, 0)])] = Ok (Some [(1, RowSummary 1 [(0, [0])] 2)]).
Proof. vm_compute. reflexivity. Qed.

(** In particular a summary needs errors in the first row: it fails for the result of
    [check_errors] of any memory whose first row is intact. *)
Lemma display_errors_first_row {M : Migen} r verbose row rest :
  display_errors r verbose true ((row, []) :: rest) = Raise NameError.
Proof. unfold display_errors. cbn [result_fold display_row]. rewrite orb_true_r. done. Qed.

(** A later row without errors gets the number and the flips of the row before. *)
Example intact_row_repeats :
  display_errors demo_rh false true [(1, [(0, 3, 7)]); (2, [])]
  = Ok (Some [(1, RowSummary 1 [(0, [0])] 1); (2, RowSummary 1 [] 1)]).
Proof. vm_compute. reflexivity. Qed.

(** The position of a flip depends on the number of digits of the pattern: bit 0
    is position 31 of a pattern of ones and position 0 of a pattern of zeros. *)
Example flip_position_of_bit_0 :
  flip_positions 4294967294 4294967295 = [31] ∧ flip_positions 1 0 = [0].
Proof. split; vm_compute; reflexivity. Qed.

(** ** Errors of the hardware scan *)
Lemma append_error_rows row x d :
  Forall (fun entry : Z * list error => entry.2 ≠ []) d →
  Forall (fun entry : Z * list error => entry.2 ≠ []) (append_error row x d).
Proof.
  induction 1 as [|[row' l] d Hl Hd IH]; cbn; [by repeat constructor|].
  case_match; constructor; cbn; try done. by destruct l.
Qed.

(** [HwRowHammer.check_errors] lists only rows with errors, so that the hardware
    script does not run into the case above. *)
Lemma hw_check_errors_rows {M : Migen} r main_base width errors row_errors :
  hw_check_errors r main_base width errors = Ok row_errors →
  Forall (fun entry => entry.2 ≠ []) row_errors.
Proof.
  unfold hw_check_errors. generalize (Forall_nil_2 (fun entry : Z * list error => entry.2 ≠ [])).
  generalize (@nil (Z * list error)) as d. induction errors as [|[[offset data] expected] errors IH]; intros d Hd H; cbn in H.
  - by injection H as <-.
  - apply bind_ok_inv in H as (d1 & H1 & H2). eapply IH; [|exact H2]. clear IH H2.
    apply bind_ok_inv in H1 as ([[b row] c] & _ & H1). apply bind_ok_inv in H1 as (addresses & _ & H1).
    apply bind_ok_inv in H1 as (base & _ & H1). injection H1 as <-. by apply append_error_rows.
Qed.
