(* ===== verification/HwRun.v ===== *)
(** * The hardware-assisted experiment as a whole

    The method [run] of [HwRowHammer] in [src/rowhammer_tester/scripts/hw_rowhammer.py]:
    inverters, filling the memory, checking it, the attacks, checking again, and the
    summary of the errors.  [run] is a program over the interface [Bench] of the
    methods and functions that it calls.  First what it does to the refresh of the
    memory, for every implementation of the interface; then the implementation on the
    board of [BistBoard] with [hw_memset] and [hw_memtest] of [BistHost] and the attack
    of [HwAttack], on which the summary that [run] gives accounts for exactly the words
    that the attacks changed. *)

From stdpp Require Import gmap.
From S2P Require Import Prelude RowGenerators HalfDouble PayloadGenerators Playbook HostMem AddressConverter RowHammerHost.
From S2P Require Import Spd SpdFacts ErrorSummary ErrorSummaryFacts RowHammerRest.
From S2P Require Import Bist BistFacts HostBist Device BistBoard BistBoardFacts BistHost HwRowHammer HwAttack BistAttack.
#[local] Open Scope Z_scope.

(** ** The program *)

(** Command line arguments. *)
Record hw_args := HwArgs {
  no_refresh : bool;
  no_attack_time : option Z;
  payload_executor : bool;
  data_inversion : option (Z * Z);     (* divisor and mask *)
  verify_initial : bool;
  verbose : bool;
}.

(** The methods and functions that [run] calls. *)
Class Bench `{Device} := {
  do_setup_inverters : Z → Z → host unit;
  do_memset : Z → host unit;                    (* the whole main memory *)
  do_check_errors : Z → host (list (Z * list error));
  do_refresh : bool → host unit;                (* controller_settings_refresh *)
  do_sleep : Z → host unit;
  do_payload_attack : Z → list Z → host unit;
  do_attack : list Z → Z → host unit;
}.

Section run.
Context {M : Migen} `{D : Device} {X : Bench} (r : RowHammer) (a : hw_args).

(** The [for] loop over the row pairs; [false] when it returns early. *)
Fixpoint attacks (read_count : Z) (row_pairs : list (list Z)) : host bool :=
  match row_pairs with
  | [] => mret true
  | row_tuple :: rest =>
      let n := Z.of_nat (length row_tuple) in
      if payload_executor a then
        if n =? 0 then lift (Raise ZeroDivisionError)
        else do_payload_attack ((read_count + n - 1) / n) row_tuple ;; attacks read_count rest
      else if negb (Z.land n (n - 1) =? 0) then mret false
      else do_attack row_tuple read_count ;; attacks read_count rest
  end.

(** [None] when the method returns nothing, and otherwise [bitflip_found] and the
    result. *)
Definition run (row_pairs : list (list Z)) (pattern_generator : Z → Z) (read_count : Z)
    : host (option (bool * list (Z * row_summary))) :=
  let '(divisor, mask) := default (0, 0) (data_inversion a) in
  do_setup_inverters divisor mask ;;
  hassert (0 <? length row_pairs) ;;
  first ← lift (of_option IndexError (row_pairs !! 0%nat ≫= fun t => t !! 0%nat));
  let row_pattern := pattern_generator first in
  do_memset row_pattern ;;
  initial ← (if verify_initial a then do_check_errors row_pattern else mret []);
  if negb (errors_count initial =? 0) then
    lift (display_errors r (verbose a) false initial) ;; mret None
  else
    (if no_refresh a then do_refresh false else mret tt) ;;
    finished ← (match no_attack_time a with
                | Some t => do_sleep t ;; mret true
                | None => attacks read_count row_pairs
                end);
    if negb finished then mret None
    else
      (if no_refresh a then do_refresh true else mret tt) ;;
      errors ← do_check_errors row_pattern;
      if errors_count errors =? 0 then mret (Some (false, []))
      else
        summary ← lift (display_errors r (verbose a) true errors);
        mret (Some (true, default [] summary)).
End run.

(** ** Refresh after a run *)
Section refresh.
Context {M : Migen} `{D : Device} {X : Bench} (refresh_on : dev → bool).

(** A program that, if it ends, leaves the refresh as it is. *)
Definition leaves {A} (m : host A) : Prop := ∀ d v d', m d = (Done v, d') → refresh_on d' = refresh_on d.

Lemma bind_inv {A B} (m : host A) (f : A → host B) d v d' :
  (m ≫= f) d = (Done v, d') → ∃ x d1, m d = (Done x, d1) ∧ f x d1 = (Done v, d').
Proof. unfold mbind, host_bind. destruct (m d) as [[x|e|] d1]; [eauto|done..]. Qed.

Lemma leaves_ret {A} (x : A) : leaves (mret x).
Proof. by intros d v d' [= _ <-]. Qed.
Lemma leaves_lift {A} (x : result A) : leaves (lift x).
Proof. intros d v d'. unfold lift. destruct x; [by intros [= _ <-]|done]. Qed.
Lemma leaves_bind {A B} (m : host A) (f : A → host B) : leaves m → (∀ x, leaves (f x)) → leaves (m ≫= f).
Proof. intros Hm Hf d v d' (x & d1 & H1 & H2)%bind_inv. etrans; [by eapply Hf|by eapply Hm]. Qed.

(** Only the refresh register changes the refresh. *)
Class RefreshLaws : Prop := {
  inverters_refresh d m : leaves (do_setup_inverters d m);
  memset_refresh p : leaves (do_memset p);
  check_refresh p : leaves (do_check_errors p);
  set_refresh b d v d' : do_refresh b d = (Done v, d') → refresh_on d' = b;
  sleep_refresh t : leaves (do_sleep t);
  payload_refresh n rows : leaves (do_payload_attack n rows);
  attack_refresh rows n : leaves (do_attack rows n);
}.

(** A row tuple that the BIST attack refuses. *)
Definition refused (row_tuple : list Z) : bool :=
  negb (Z.land (length row_tuple) (length row_tuple - 1) =? 0).

Context `{L : RefreshLaws} (r : RowHammer) (a : hw_args).

Lemma attacks_refresh read_count row_pairs : leaves (attacks a read_count row_pairs).
Proof using L.
  induction row_pairs as [|t rest IH]; cbn [attacks]; [apply leaves_ret|]. cbv zeta.
  destruct (payload_executor a), (_ =? 0); cbn [negb]; auto using leaves_lift, leaves_ret.
  all: apply leaves_bind; [|done]; apply payload_refresh || apply attack_refresh.
Qed.

Lemma attacks_early read_count row_pairs d d' :
  attacks a read_count row_pairs d = (Done false, d') → payload_executor a = false ∧ existsb refused row_pairs = true.
Proof.
  revert d; induction row_pairs as [|t rest IH]; intros d; cbn [attacks existsb]; [done|]. cbv zeta.
  destruct (payload_executor a) eqn:Hpe.
  - destruct (_ =? 0); [done|]. intros (x & d1 & _ & H)%bind_inv. by destruct (IH d1 H).
  - fold (refused t). destruct (refused t); [done|]. intros (x & d1 & _ & H)%bind_inv. by destruct (IH d1 H).
Qed.

Lemma sets_refresh (b : bool) d v d' :
  (if no_refresh a then do_refresh b else mret tt) d = (Done v, d') →
  refresh_on d' = if no_refresh a then b else refresh_on d.
Proof using L. destruct (no_refresh a); [apply set_refresh|by intros [= _ <-]]. Qed.

(** Refresh is on after a run.  If it was on before and only the refresh register
    changes it, then whenever [run] returns it is on again, with one exception:
    with refresh disabled for the attack, a BIST attack on a tuple whose length
    is no power of two returns early and leaves it off. *)
Lemma hw_run_restores_refresh row_pairs pattern read_count d res d' :
  refresh_on d = true → run r a row_pairs pattern read_count d = (Done res, d') →
  refresh_on d' = true
  ∨ no_refresh a = true ∧ no_attack_time a = None ∧ payload_executor a = false
    ∧ existsb refused row_pairs = true ∧ res = None.
Proof using L.
  intros Hon. unfold run. destruct (default (0, 0) (data_inversion a)) as [divisor mask].
  intros (x1 & d1 & H1%inverters_refresh & H)%bind_inv. apply bind_inv in H as (x2 & d2 & H2%leaves_lift & H).
  apply bind_inv in H as (first & d3 & H3%leaves_lift & H). apply bind_inv in H as (x4 & d4 & H4%memset_refresh & H).
  apply bind_inv in H as (initial & d5 & H5 & H).
  assert (refresh_on d5 = true) as Hon5.
  { assert (leaves (if verify_initial a then do_check_errors (pattern first) else mret [])) as Hl
      by (destruct (verify_initial a); [apply check_refresh|apply leaves_ret]). apply Hl in H5. congruence. }
  destruct (negb (errors_count initial =? 0)).
  { left. apply bind_inv in H as (x & d6 & H6%leaves_lift & [= _ <-]). congruence. }
  apply bind_inv in H as (x6 & d6 & H6%sets_refresh & H). apply bind_inv in H as (finished & d7 & H7 & H).
  assert (refresh_on d7 = refresh_on d6) as Hon7.
  { destruct (no_attack_time a); [|by apply attacks_refresh in H7].
    apply bind_inv in H7 as (x & d8 & H8%sleep_refresh & [= _ <-]). done. }
  destruct finished; cbn [negb] in H.
  - left. apply bind_inv in H as (x8 & d8 & H8%sets_refresh & H). apply bind_inv in H as (errors & d9 & H9%check_refresh & H).
    assert (refresh_on d9 = true) as Hon9 by (rewrite H9, H8; destruct (no_refresh a); congruence).
    destruct (errors_count errors =? 0); [by injection H as _ <-|].
    apply bind_inv in H as (x & d10 & H10%leaves_lift & [= _ <-]). congruence.
  - injection H as <- <-. destruct (no_attack_time a) eqn:Hnt; [by apply bind_inv in H7 as (x & d8 & _ & [=])|].
    destruct (attacks_early _ _ _ _ H7) as [Hpe Href]. destruct (no_refresh a); [by right|]. left. congruence.
Qed.
End refresh.

(** A board that only has the refresh register, and finds no errors. *)
#[local] Instance switch_device : Device := {|
  dev := bool; reg_read _ d := (0, d); reg_write _ v _ := negb (v =? 0); has_reg _ := true; elapse d := d |}.
#[local] Instance still_bench : Bench := {|
  do_setup_inverters _ _ := mret tt;
  do_memset _ := mret tt;
  do_check_errors _ := mret [];
  do_refresh b := wr "controller_settings_refresh" (if b then 1 else 0);
  do_sleep _ := mret tt;
  do_payload_attack _ _ := mret tt;
  do_attack _ _ := mret tt;
|}.

(** The exception: three rows without the payload executor. *)
Example early_return_without_refresh :
  run demo_attack (HwArgs true None false None true false) [[3; 5; 9]] (fun _ => 0) 10 true = (Done None, false)
  ∧ run demo_attack (HwArgs true None false None true false) [[3; 5]] (fun _ => 0) 10 true = (Done (Some (false, [])), true).
Proof. split; reflexivity. Qed.

(** ** From changed words to the summary *)
Definition map_rows {A B} (f : A → B) (d : list (Z * list A)) : list (Z * list B) :=
  (fun e : Z * list A => (e.1, f <$> e.2)) <$> d.

Lemma append_error_map {A B} (f : A → B) row x (d : list (Z * list A)) :
  append_error row (f x) (map_rows f d) = map_rows f (append_error row x d).
Proof.
  induction d as [|[row' l] d IH]; [done|]. cbn. destruct (row' =? row); cbn; [by rewrite fmap_app|].
  unfold map_rows in IH. by rewrite IH.
Qed.

Lemma append_error_elem {A} row (x : A) d k : k ∈ (append_error row x d).*1 → k = row ∨ k ∈ d.*1.
Proof.
  induction d as [|[row' l] d IH]; cbn; [by rewrite list_elem_of_singleton; left|].
  destruct (row' =? row); cbn; rewrite !elem_of_cons; tauto.
Qed.

Lemma append_error_keys {A} row (x : A) d : NoDup d.*1 → NoDup (append_error row x d).*1.
Proof.
  induction d as [|[row' l] d IH]; cbn; [intros _; apply NoDup_singleton|]. intros [Hn Hd]%NoDup_cons.
  destruct (Z.eqb_spec row' row) as [E|E]; cbn; [by apply NoDup_cons|].
  apply NoDup_cons. split; [|by apply IH]. by intros [->|]%append_error_elem.
Qed.

Lemma errors_count_nonneg d : 0 ≤ errors_count d.
Proof. induction d as [|e d IH]; [done|]. unfold errors_count in *. cbn. case_bool_decide; lia. Qed.

Lemma sum_bitflips_app l1 l2 : sum_bitflips (l1 ++ l2) = sum_bitflips l1 + sum_bitflips l2.
Proof. induction l1 as [|e l1 IH]; [done|]. unfold sum_bitflips in *. cbn. rewrite IH. destruct e as [[? ?] ?]. lia. Qed.

Section summary.
Context {M : Migen} (r : RowHammer) (shift nbytes : Z) (Hok : rh_ok r shift).
Context (Halign : address_align (rh_conv r) ≤ colbits (rh_conv r)) (Hbytes : nbytes = 2 ^ (shift + address_align (rh_conv r))) (H4 : 4 ≤ nbytes).

(** DMA words by row, in order; the row and column of a word. *)
Definition row_of (x : Z) : Z := (decode_dma (rh_conv r) x).1.2.
Definition col_of (x : Z) : Z := (decode_dma (rh_conv r) x).2.
Definition by_row (words : list Z) : list (Z * list Z) := foldl (fun d x => append_error (row_of x) x d) [] words.

(** The summary of words that changed from [m1] to [m]. *)
Definition words_summary (m1 m : Z → Z) (e : Z * list Z) : Z * row_summary :=
  (e.1, RowSummary e.1 (foldl (fun cols x => odict_set (col_of x) (flip_positions (m x) (m1 x)) cols) [] e.2)
          (sum_bitflips ((fun x => (x, m x, m1 x)) <$> e.2))).
Definition flip_summary (m1 m : Z → Z) (words : list Z) : list (Z * row_summary) := words_summary m1 m <$> by_row words.

(** A word of the memory. *)
Definition in_memory (x : Z) : Prop :=
  0 ≤ x < 2 ^ (colbits (rh_conv r) + bankbits (rh_conv r) + AddressConverter.rowbits (rh_conv r) - address_align (rh_conv r)).

Definition index_of (x : Z) : Z := (default_base + x * nbytes - column_address r shift (row_of x) 0) / 4.

Lemma word_decoded x :
  decode_bus (rh_conv r) (default_base + x * nbytes) default_base default_bus_width = Ok (decode_dma (rh_conv r) x).
Proof using Hok Hbytes.
  destruct Hok. destruct ro_geometry as (_ & _ & _ & Ha). unfold decode_bus, decode_dma. rewrite ro_shift, ok_bind.
  destruct (Z.ltb_spec 0 (-1 * shift)); [lia|]. do 2 f_equal.
  rewrite Z.shiftr_div_pow2, Z.shiftl_mul_pow2 by lia. replace (- (-1 * shift)) with shift by lia.
  replace (default_base + x * nbytes - default_base) with (x * 2 ^ address_align (rh_conv r) * 2 ^ shift)
    by (rewrite Hbytes, Z.pow_add_r by lia; lia).
  apply Z.div_mul, Z.pow_nonzero; lia.
Qed.

Lemma row_in_memory x : in_memory x → 0 ≤ row_of x < 2 ^ AddressConverter.rowbits (rh_conv r).
Proof using Hok Halign.
  clear Hbytes H4 nbytes. intros Hx. destruct Hok. pose proof ro_geometry as (? & ? & ? & Ha). unfold row_of, decode_dma.
  rewrite Z.shiftl_mul_pow2 by done.
  assert (0 ≤ x * 2 ^ address_align (rh_conv r) < 2 ^ (colbits (rh_conv r) + bankbits (rh_conv r) + AddressConverter.rowbits (rh_conv r))) as Hb.
  { unfold in_memory in Hx. pose proof (pow2_pos _ Ha). split; [nia|].
    replace (colbits (rh_conv r) + bankbits (rh_conv r) + AddressConverter.rowbits (rh_conv r))
      with (colbits (rh_conv r) + bankbits (rh_conv r) + AddressConverter.rowbits (rh_conv r) - address_align (rh_conv r) + address_align (rh_conv r)) by lia.
    rewrite Z.pow_add_r by lia. nia. }
  pose proof (decode_location (rh_conv r) _ ro_geometry Hb) as Hd. destruct (_decode _ _) as [[bank row] col].
  by destruct Hd as [(_ & ? & _) _].
Qed.

(** The words lie at multiples of four bytes from the start of their rows. *)
Lemma index_exact x : column_address r shift (row_of x) 0 + 4 * index_of x = default_base + x * nbytes.
Proof using Hok Halign Hbytes H4.
  destruct Hok. destruct ro_geometry as (Hc & Hr & Hb & Ha). unfold index_of, column_address, row_bytes.
  assert (2 ≤ shift + address_align (rh_conv r)) as H2.
  { destruct (Z.le_gt_cases 2 (shift + address_align (rh_conv r))); [done|]. exfalso.
    assert (nbytes ≤ 2 ^ 1) by (rewrite Hbytes; apply Z.pow_le_mono_r; lia). lia. }
  assert ((4 | 2 ^ (colbits (rh_conv r)) * 2 ^ shift)) as [k Hk].
  { rewrite <- Z.pow_add_r by lia. exists (2 ^ (colbits (rh_conv r) + shift - 2)). change 4 with (2 ^ 2). rewrite <- Z.pow_add_r by lia. f_equal. lia. }
  assert ((4 | nbytes)) as [q Hq].
  { rewrite Hbytes. exists (2 ^ (shift + address_align (rh_conv r) - 2)). change 4 with (2 ^ 2). rewrite <- Z.pow_add_r by lia. f_equal. lia. }
  set (o := default_base + x * nbytes - _).
  assert ((4 | o)) as [w Hw].
  { unfold o. rewrite Hq, !Z.pow_add_r by lia. exists (x * q - row_of x * 2 ^ bankbits (rh_conv r) * k - rh_bank r * k).
    rewrite Z.add_0_l, <- !Z.mul_assoc, Hk. lia. }
  rewrite Hw, Z.div_mul by lia. unfold o in Hw. lia.
Qed.

(** An error of [hw_memtest] is filed under its row, and found again there. *)
Lemma check_word d e (row_errors : list (Z * list error)) x :
  in_memory x →
  hw_check_error r default_base nbytes row_errors (x, d, e) = Ok (append_error (row_of x) (index_of x, d, e) row_errors).
Proof using Hok Halign Hbytes.
  intros Hx. unfold hw_check_error. rewrite word_decoded, ok_bind.
  destruct (row_addresses_ends r shift Hok (row_of x) (row_in_memory x Hx)) as (addresses & Ha & Hlo & _).
  assert (∀ {A} (f : Z → A), (let '(_, row, _) := decode_dma (rh_conv r) x in f row) = f (row_of x)) as Hrow
    by (intros A f; unfold row_of; by destruct (decode_dma (rh_conv r) x) as [[? ?] ?]).
  rewrite Hrow. by rewrite Ha, ok_bind, Hlo, ok_bind.
Qed.

Lemma display_word d e cols o x :
  in_memory x →
  display_error r (row_of x) (cols, o) (index_of x, d, e) = Ok (odict_set (col_of x) (flip_positions d e) cols, Some (row_of x)).
Proof using Hok Halign Hbytes H4.
  intros Hx. unfold display_error.
  destruct (row_addresses_ends r shift Hok (row_of x) (row_in_memory x Hx)) as (addresses & Ha & Hlo & _).
  rewrite Ha, ok_bind, Hlo, ok_bind, index_exact, word_decoded, ok_bind. unfold row_of, col_of.
  by destruct (decode_dma (rh_conv r) x) as [[bank row] col].
Qed.

(** Words filed under their rows. *)
Record filed (d : list (Z * list Z)) : Prop := {
  fi_rows : NoDup d.*1;
  fi_words : Forall (fun e => e.2 ≠ [] ∧ Forall (fun x => in_memory x ∧ row_of x = e.1) e.2) d;
}.

Lemma filed_append x d : in_memory x → filed d → filed (append_error (row_of x) x d).
Proof.
  intros Hx [Hn Hw]. split; [by apply append_error_keys|]. clear Hn. induction Hw as [|[row l] d [Hne Hl] Hw IH]; cbn [append_error].
  - apply Forall_singleton. split; [done|]. by apply Forall_singleton.
  - destruct (Z.eqb_spec row (row_of x)) as [E|E]; (apply Forall_cons; split; [|done || exact IH]); cbn [fst snd]; [|done]. split; [by destruct l|].
    apply Forall_app. split; [done|]. by apply Forall_singleton.
Qed.

Lemma filed_by_row words : Forall in_memory words → filed (by_row words).
Proof.
  intros Hall. unfold by_row. assert (filed []) as Hd by (split; [apply NoDup_nil_2|constructor]). revert Hd. generalize (@nil (Z * list Z)) as d.
  induction Hall as [|x words Hx _ IH]; intros d Hd; cbn; [done|]. by apply IH, filed_append.
Qed.

Lemma check_words m1 m words :
  Forall in_memory words →
  result_fold (hw_check_error r default_base nbytes) [] ((fun x => (x, m x, m1 x)) <$> words)
  = Ok (map_rows (fun x => (index_of x, m x, m1 x)) (by_row words)).
Proof using Hok Halign Hbytes.
  intros Hall. unfold by_row. change (@nil (Z * list error)) with (map_rows (fun x => (index_of x, m x, m1 x)) []).
  generalize (@nil (Z * list Z)) as d. induction Hall as [|x words Hx _ IH]; intros d; [done|]. cbn [fmap list_fmap result_fold foldl].
  rewrite check_word, ok_bind by done. rewrite <- IH. f_equal. apply (append_error_map (fun x => (index_of x, m x, m1 x))).
Qed.

Lemma display_words m1 m row words cols o :
  Forall (fun x => in_memory x ∧ row_of x = row) words →
  result_fold (display_error r row) (cols, o) ((fun x => (index_of x, m x, m1 x)) <$> words)
  = Ok (foldl (fun cols x => odict_set (col_of x) (flip_positions (m x) (m1 x)) cols) cols words,
        if bool_decide (words = []) then o else Some row).
Proof using Hok Halign Hbytes H4.
  intros Hall. revert cols o. induction Hall as [|x words [Hx <-] _ IH]; intros cols o; [done|].
  cbn [fmap list_fmap result_fold foldl]. rewrite display_word, ok_bind, IH by done. by destruct words.
Qed.

Lemma sum_bitflips_index m1 m words :
  sum_bitflips ((fun x => (index_of x, m x, m1 x)) <$> words) = sum_bitflips ((fun x => (x, m x, m1 x)) <$> words).
Proof. induction words as [|x words IH]; [done|]. cbn. unfold sum_bitflips in *. cbn. by rewrite IH. Qed.

Lemma display_one vb m1 m st row words :
  words ≠ [] → Forall (fun x => in_memory x ∧ row_of x = row) words → row ∉ (ds_dict st).*1 →
  display_row r vb true st (row, (fun x => (index_of x, m x, m1 x)) <$> words)
  = Ok (DisplayState (Some (sum_bitflips ((fun x => (x, m x, m1 x)) <$> words))) (Some row) (ds_dict st ++ [words_summary m1 m (row, words)])).
Proof using Hok Halign Hbytes H4.
  intros Hne Hl Hfresh. unfold display_row.
  rewrite bool_decide_false by (by destruct words). rewrite orb_true_r, display_words, ok_bind, bool_decide_false by done.
  cbn [of_option]. by rewrite !ok_bind, odict_set_fresh, sum_bitflips_index by done.
Qed.

Lemma display_filed vb m1 m d : ∀ st,
  Forall (fun e => e.2 ≠ [] ∧ Forall (fun x => in_memory x ∧ row_of x = e.1) e.2) d → NoDup ((ds_dict st).*1 ++ d.*1) →
  ∃ st', result_fold (display_row r vb true) st (map_rows (fun x => (index_of x, m x, m1 x)) d) = Ok st'
    ∧ ds_dict st' = ds_dict st ++ (words_summary m1 m <$> d).
Proof using Hok Halign Hbytes H4.
  induction d as [|[row l] d IH]; intros st Hall Hnd.
  - exists st. by rewrite app_nil_r.
  - apply Forall_cons in Hall as [[Hne Hl] Hall].
    assert (row ∉ (ds_dict st).*1) as Hfresh.
    { apply NoDup_app in Hnd as (_ & Hd & _). intros Hin. apply (Hd _ Hin). apply list_elem_of_here. }
    change (map_rows _ ((row, l) :: d)) with ((row, (fun x => (index_of x, m x, m1 x)) <$> l) :: map_rows (fun x => (index_of x, m x, m1 x)) d).
    cbn [result_fold]. rewrite display_one, ok_bind by done.
    edestruct IH as (st' & E & Hd); [exact Hall| |].
    2: { exists st'. split; [exact E|]. rewrite Hd. cbn [ds_dict]. by rewrite <- app_assoc. }
    cbn [ds_dict]. rewrite fmap_app, <- app_assoc. done.
Qed.

(** [check_errors] and [display_errors] on the words that [hw_memtest] reports. *)
Lemma summary_exact vb m1 m words :
  Forall in_memory words →
  display_errors r vb true (map_rows (fun x => (index_of x, m x, m1 x)) (by_row words)) = Ok (Some (flip_summary m1 m words)).
Proof using Hok Halign Hbytes H4.
  intros Hall. destruct (filed_by_row words Hall) as [Hn Hw]. unfold display_errors.
  destruct (display_filed vb m1 m (by_row words) (DisplayState None None []) Hw Hn) as (st & -> & Hd).
  rewrite ok_bind, Hd. done.
Qed.

Lemma by_row_cons x words : by_row (x :: words) ≠ [].
Proof using Type.
  unfold by_row. cbn [foldl]. assert (append_error (row_of x) x [] ≠ []) as Hne by done. revert Hne.
  generalize (append_error (row_of x) x []) as d. induction words as [|y words IH]; intros d Hd; [done|].
  cbn [foldl]. apply IH. destruct d as [|[k l] d]; [done|]. cbn [append_error]. by destruct (k =? row_of y).
Qed.

Lemma errors_count_rows m1 m words :
  Forall in_memory words →
  (errors_count (map_rows (fun x => (index_of x, m x, m1 x)) (by_row words)) =? 0) = bool_decide (words = []).
Proof.
  intros Hall. destruct words as [|x words]; [done|]. rewrite bool_decide_false by done. apply Z.eqb_neq.
  destruct (filed_by_row _ Hall) as [_ Hw]. assert (by_row (x :: words) ≠ []) as Hne by apply by_row_cons.
  destruct Hw as [|[row l] d [Hl _] _]; [done|]. destruct l as [|y l]; [done|].
  pose proof (errors_count_nonneg (map_rows (fun x => (index_of x, m x, m1 x)) d)) as H. unfold errors_count, map_rows in H |- *.
  cbn [fmap list_fmap foldr fst snd]. rewrite bool_decide_false by done. lia.
Qed.

(** The words of each row, in order. *)
Lemma append_error_get {A} k row (x : A) d :
  odict_get k (append_error row x d) = if bool_decide (row = k) then Some (default [] (odict_get k d) ++ [x]) else odict_get k d.
Proof using Type.
  clear Hok Halign Hbytes H4 nbytes shift.
  induction d as [|[k1 l] d IH]; cbn; [by repeat case_bool_decide|].
  destruct (Z.eqb_spec k1 row) as [->|Hne]; cbn; rewrite ?IH; repeat case_bool_decide; subst; done.
Qed.

Lemma by_row_get words row :
  odict_get row (by_row words)
  = let l := filter (fun x => row_of x = row) words in if bool_decide (l = []) then None else Some l.
Proof using Type.
  clear Hok Halign Hbytes H4 nbytes shift. cbv zeta. induction words as [|x words IH] using rev_ind; [done|].
  unfold by_row. rewrite foldl_app. cbn [foldl]. fold (by_row words). rewrite append_error_get, IH, filter_app.
  destruct (decide (row_of x = row)) as [E|E].
  - rewrite bool_decide_true by done. rewrite filter_cons_True, filter_nil by done.
    rewrite (bool_decide_false (_ ++ [x] = [])) by (by destruct (filter _ words)).
    case_bool_decide as Hf; [by rewrite Hf|done].
  - rewrite bool_decide_false by done. by rewrite filter_cons_False, filter_nil, app_nil_r.
Qed.

Lemma by_row_keys words : NoDup (by_row words).*1.
Proof using Type.
  unfold by_row. assert (NoDup (@nil (Z * list Z)).*1) as Hn by apply NoDup_nil_2. revert Hn. generalize (@nil (Z * list Z)).
  induction words as [|x words IH]; intros d Hd; cbn; [done|]. by apply IH, append_error_keys.
Qed.

(** What a summary of the changed words must say: one entry per row with changed words,
    with the bits flipped in the row and under each column of the row the positions of
    the flips of the last changed word there (words of several banks share a column). *)
Definition reports_flips (m1 m : Z → Z) (words : list Z) (s : list (Z * row_summary)) : Prop :=
  NoDup s.*1 ∧ (∀ row, row ∈ s.*1 ↔ ∃ x, x ∈ words ∧ row_of x = row)
  ∧ ∀ row e, (row, e) ∈ s →
      let in_row := filter (fun x => row_of x = row) words in
      rs_row e = row ∧ rs_bitflips e = sum_bitflips ((fun x => (x, m x, m1 x)) <$> in_row)
      ∧ ∀ c, odict_get c (rs_col e) = (fun x => flip_positions (m x) (m1 x)) <$> last (filter (fun x => col_of x = c) in_row).

Lemma flip_summary_reports m1 m words : reports_flips m1 m words (flip_summary m1 m words).
Proof using Type.
  clear Hok Halign Hbytes H4 nbytes shift. unfold flip_summary.
  assert ((words_summary m1 m <$> by_row words).*1 = (by_row words).*1) as Hk by by rewrite <- list_fmap_compose.
  unfold reports_flips. rewrite Hk. split_and!; [apply by_row_keys| |].
  - intros row. split.
    + intros ([row' l] & -> & Hl)%list_elem_of_fmap. apply (odict_get_elem _ _ _ (by_row_keys words)) in Hl.
      rewrite by_row_get in Hl. cbv zeta in Hl. case_bool_decide as Hf; [done|].
      destruct (filter _ words) as [|x l'] eqn:E; [done|]. exists x.
      assert (x ∈ filter (fun x => row_of x = row') words) as [? ?]%list_elem_of_filter by (rewrite E; apply list_elem_of_here). done.
    + intros (x & Hx & <-). destruct (decide (row_of x ∈ (by_row words).*1)) as [|Hn]; [done|]. apply odict_get_none in Hn.
      rewrite by_row_get in Hn. cbv zeta in Hn. case_bool_decide as Hf; [|done]. exfalso.
      assert (x ∈ filter (fun y => row_of y = row_of x) words) as Hin by by apply list_elem_of_filter. rewrite Hf in Hin. by apply elem_of_nil in Hin.
  - intros row e ([row' l] & [= -> ->] & Hl)%list_elem_of_fmap. apply (odict_get_elem _ _ _ (by_row_keys words)) in Hl.
    rewrite by_row_get in Hl. cbv zeta in Hl |- *. case_bool_decide; [done|]. injection Hl as <-. cbn [fst snd rs_row rs_bitflips rs_col].
    split_and!; [done|done|]. intros c. apply odict_of_last.
Qed.

(** No flip is lost: the rows of the summary have all flips of the words. *)
Lemma flip_summary_total m1 m words :
  zsum ((fun e => rs_bitflips e.2) <$> flip_summary m1 m words) = sum_bitflips ((fun x => (x, m x, m1 x)) <$> words).
Proof using Type.
  clear Hok Halign Hbytes H4 nbytes shift. set (total := fun e : Z * list Z => sum_bitflips ((fun x => (x, m x, m1 x)) <$> e.2)).
  assert (∀ x d, zsum (total <$> append_error (row_of x) x d) = zsum (total <$> d) + sum_bitflips [(x, m x, m1 x)]) as Hs.
  { intros x d. induction d as [|[row l] d IH]; cbn [append_error]; [unfold total; cbn [fmap list_fmap zsum foldr snd]; lia|].
    destruct (row =? row_of x); rewrite !fmap_cons; unfold zsum in *; cbn [foldr].
    - assert (total (row, l ++ [x]) = total (row, l) + sum_bitflips [(x, m x, m1 x)]) as ->
        by (unfold total; cbn [snd]; by rewrite fmap_app, sum_bitflips_app). lia.
    - rewrite IH. lia. }
  unfold flip_summary. rewrite <- list_fmap_compose. unfold compose. cbn [snd rs_bitflips words_summary]. fold total. unfold by_row.
  enough (∀ d, zsum (total <$> foldl (fun d x => append_error (row_of x) x d) d words)
    = zsum (total <$> d) + sum_bitflips ((fun x => (x, m x, m1 x)) <$> words)) as H by by rewrite H.
  induction words as [|x words IH]; intros d; cbn [foldl]; [unfold sum_bitflips; cbn [fmap list_fmap foldr]; lia|]. rewrite IH, Hs, fmap_cons.
  change ((x, m x, m1 x) :: ?l) with ([(x, m x, m1 x)] ++ l) at 2. rewrite sum_bitflips_app. lia.
Qed.
End summary.

(** ** The experiment on the board *)
Section programs.
Context {M : Migen} `{D : Device} {W : MemWrite} (fuel : nat).

Definition setup_inverters (divisor mask : Z) : host unit :=
  hassert (Z.land divisor (divisor - 1) =? 0) ;;
  wr "writer_inverter_divisor_mask" (divisor - 1) ;;
  wr "reader_inverter_divisor_mask" (divisor - 1) ;;
  wr "writer_inverter_selection_mask" mask ;;
  wr "reader_inverter_selection_mask" mask.

Definition check_errors (phy : phy_settings) (main_base main_size : Z) (r : RowHammer) (row_pattern : Z)
    : host (list (Z * list error)) :=
  errors ← hw_memtest fuel phy 0 main_size [row_pattern];
  lift (hw_check_errors r main_base (dfi_databits phy * nphases phy) errors).
End programs.

Section bench.
Context {M : Migen} {PF : PyFloat} (cfg : bist_cfg) {F : Fifo (Z * Z * Z)} {T : Timing_}.
Context (phy : phy_settings) (main_size : Z) (r : RowHammer) (fuel : nat).
#[local] Instance bench_dev : Device := bist_device cfg.
#[local] Instance bench_mem : MemWrite := bist_mem_write cfg.

(** What waiting without refresh, and hammering rows, do to the memory. *)
Context (decay : Z → (Z → Z) → Z → Z) (hammer : list Z → Z → (Z → Z) → Z → Z) (payload : Z → list Z → host unit).

Definition flips (f : (Z → Z) → Z → Z) : host unit := fun b : board => (Done tt, set_mem (f (bd_mem b)) b).

Definition board_bench : Bench := {|
  do_setup_inverters := setup_inverters;
  do_memset p := hw_memset fuel phy 0 main_size [p];
  do_check_errors := check_errors fuel phy default_base main_size r;
  do_refresh b := wr "controller_settings_refresh" (if b then 1 else 0);
  do_sleep t := no_attack_sleep t ;; flips (decay t);
  do_payload_attack := payload;
  do_attack rows n := attack fuel r rows n ;; flips (hammer rows n);
|}.
#[local] Existing Instance board_bench.

(** The self test between the operations of an experiment: its registers may differ
    from [B] but for the inverters. *)
Definition between (B : bist) (m : Z → Z) (b : board) : Prop :=
  ∃ B', bist_ready cfg B' ∧ divisor_mask (csr (writer B')) = divisor_mask (csr (writer B))
    ∧ selection_mask (csr (writer B')) = selection_mask (csr (writer B))
    ∧ (at_rest B' m b ∨ skipping B' m b).

Definition inverters (divisor mask : Z) (B : bist) : bist :=
  on_reader (set_csr (set_selection_mask cfg mask)) (on_writer (set_csr (set_selection_mask cfg mask))
    (on_reader (set_csr (set_divisor_mask cfg (divisor - 1))) (on_writer (set_csr (set_divisor_mask cfg (divisor - 1))) B))).

Lemma triple_inverters divisor mask B m :
  Z.land divisor (divisor - 1) = 0 →
  triple (at_rest B m) (setup_inverters divisor mask) (fun _ => at_rest (inverters divisor mask B) m).
Proof using Type.
  intros Hd. unfold setup_inverters. rewrite (proj2 (Z.eqb_eq _ _) Hd).
  eapply triple_bind; [apply triple_lift_ok|]. intros []. apply triple_pure. intros _.
  eapply triple_bind; [by apply (triple_cfg cfg _ _ _ _ (on_writer (set_csr (set_divisor_mask cfg (divisor - 1)))))|]. intros [].
  eapply triple_bind; [by apply (triple_cfg cfg _ _ _ _ (on_reader (set_csr (set_divisor_mask cfg (divisor - 1)))))|]. intros [].
  eapply triple_bind; [by apply (triple_cfg cfg _ _ _ _ (on_writer (set_csr (set_selection_mask cfg mask))))|]. intros [].
  by apply (triple_cfg cfg _ _ _ _ (on_reader (set_csr (set_selection_mask cfg mask)))).
Qed.

Lemma ready_inverters divisor mask B : bist_ready cfg B → bist_ready cfg (inverters divisor mask B).
Proof using Type. intros []. split; cbn -[trunc]; try done. by apply trunc_bound. Qed.

Lemma between_flips B m f : triple (between B m) (flips f) (fun _ => between B (f m)).
Proof using Type.
  intros b (B' & HB & Hd & Hs & Hr). eexists tt, _. split; [reflexivity|]. exists B'. split_and!; try done.
  destruct Hr as [Hr|Hr]; [left|right].
  - assert (bd_mem b = m) as -> by apply Hr. by eapply at_rest_set_mem.
  - destruct Hr as ([? <- ? ?] & ? & ?). split_and!; [split|..]; done.
Qed.

Lemma between_idle B m n b : between B m b → between B m (idle cfg n b).
Proof using Type.
  intros (B' & HB & Hd & Hs & Hr). exists B'. split_and!; try done. destruct Hr; [left; by apply at_rest_idle|right; by apply skipping_idle].
Qed.

Lemma between_quiet B' m b : at_rest B' m b ∨ skipping B' m b → quiet B' m b ∧ e_valid (bd_err b) = false.
Proof using Type. intros [H|(? & _ & ?)]; [by apply at_rest_quiet|done]. Qed.

Lemma between_sleep B m t : triple (between B m) (no_attack_sleep t) (fun _ => between B m).
Proof using Type.
  unfold no_attack_sleep. apply keeps_for_each. intros x _. apply triple_sleep. intros b Hb. by apply between_idle.
Qed.

Lemma between_refresh B m (off v : bool) :
  triple (between B m) (if off then do_refresh v else mret tt) (fun _ => between B m).
Proof using Type.
  destruct off; [|by apply triple_ret]. apply triple_wr. intros b Hb. apply between_idle. exact Hb.
Qed.

Lemma hw_attack_ok_ext m m' rows read_count :
  0 ≤ divisor_mask (csr m') → hw_attack_ok cfg r m rows read_count → hw_attack_ok cfg r m' rows read_count.
Proof using Type. intros Hd []. by split. Qed.

Lemma ready_attack rows read_count B :
  bist_ready cfg B → bist_ready cfg (on_reader (set_csr (set_modulo false)) (attack_bist cfg r rows read_count B)).
Proof using Type.
  intros []. split; cbn -[trunc]; try done. apply trunc_bound. unfold mask_bits. pose proof (signal_max_bits_pos (mem_depth cfg)). lia.
Qed.

(** ** The run *)
Abbreviation nbytes := (dfi_databits phy * nphases phy / 8).
Abbreviation n := (main_size / nbytes).
Context (shift : Z) (a : hw_args) (read_count : Z).

(** The board, its memory and the fuel of the polling loops. *)
Record experiment_ok : Prop := {
  ex_access : (fifo_latency < access_cycles)%nat;
  ex_sleep : (fifo_depth * S fifo_latency + fifo_latency < sleep_cycles)%nat;
  ex_port : port_ok cfg phy;
  ex_rh : rh_ok r shift;
  ex_align : address_align (rh_conv r) ≤ colbits (rh_conv r);
  ex_bytes : nbytes = 2 ^ (shift + address_align (rh_conv r));
  ex_size : main_size mod nbytes = 0;
  ex_words : 0 < n < 2 ^ 32;
  ex_dma : n ≤ 2 ^ addr_width cfg;
  ex_memory : n ≤ 2 ^ (colbits (rh_conv r) + bankbits (rh_conv r) + AddressConverter.rowbits (rh_conv r) - address_align (rh_conv r));
  ex_write : write_fuel n ≤ fuel;
  ex_read : read_fuel n ≤ fuel;
  ex_attack : attack_fuel read_count ≤ fuel;
  ex_long : Z.of_nat access_cycles < 5 * read_count;
}.
Context (Hex : experiment_ok).

Lemma bytes_pos : 0 < nbytes.
Proof using Hex. destruct Hex. destruct (port_words cfg phy ex_port0) as [H _]. clear -H. lia. Qed.
Lemma first_word : 0 / nbytes = 0.
Proof using Hex. apply Z.div_0_l. pose proof bytes_pos as H. clear -H. lia. Qed.

(** The words that differ. *)
Definition changed (m1 m : Z → Z) : list Z := filter (fun x => m x ≠ m1 x) (range_addresses 0 n).

Lemma changed_in_memory m1 m : Forall (in_memory r) (changed m1 m).
Proof using Hex.
  apply Forall_forall. intros x [_ Hx%elem_of_range]%list_elem_of_filter. destruct Hex. unfold in_memory. lia.
Qed.

(** Checking at any time of the experiment. *)
Lemma between_check B p m1 m :
  (∀ x, 0 ≤ x < n → m1 x = pattern_at cfg B nbytes p x) →
  triple (between B m) (do_check_errors p)
    (fun errors b => errors = map_rows (fun x => (index_of r shift nbytes x, m x, m1 x)) (by_row r (changed m1 m)) ∧ between B m b).
Proof using Hex.
  intros Hm1. apply triple_ex. intros B'. apply triple_pure; intros HB'. apply triple_pure; intros Hdiv. apply triple_pure; intros Hsel.
  pose proof first_word as H0. pose proof Hex as [].
  cbn [do_check_errors board_bench]. unfold check_errors.
  eapply triple_bind with (R := fun errs b => errs = ((fun x => (x, m x, m1 x)) <$> changed m1 m) ∧ between B m b).
  - pose proof (hw_memtest_finds cfg phy 0 main_size ex_access0 ex_sleep0 ex_port0 ex_size0 ex_words0 ltac:(lia) ltac:(lia) fuel p B' m1 m) as Ht.
    rewrite H0 in Ht. eapply triple_conseq; [apply Ht; try done|intros b Hb; by apply between_quiet|].
    + intros x Hx. rewrite Hm1 by lia. by apply inverted_ext.
    + intros errs b [-> Hb]. split; [done|]. exists (memtest_bist cfg nbytes (p mod 2 ^ 32) 0 n B').
      split_and!; [by apply ready_memtest|done|done|by left].
  - intros errs. apply triple_pure. intros ->. unfold hw_check_errors.
    rewrite (check_words r shift nbytes ex_rh0 ex_align0 ex_bytes0 m1 m _ (changed_in_memory m1 m)).
    apply triple_lift_ok.
Qed.
(** One attack, and all of them. *)
Lemma between_attack B m rows :
  hw_attack_ok cfg r (reader B) rows read_count →
  triple (between B m) (do_attack rows read_count) (fun _ => between B (hammer rows read_count m)).
Proof using Hex.
  intros Hok. cbn [do_attack board_bench]. eapply triple_bind with (R := fun _ => between B m); [|intros []; apply between_flips].
  apply triple_ex. intros B'. apply triple_pure. intros HB. do 2 (apply triple_pure; intros ?). pose proof Hex as [].
  eapply triple_conseq; [apply (triple_bist_attack cfg ex_access0 ex_sleep0 fuel r rows read_count B' m); try done|intros b Hb; by apply between_quiet|].
  - eapply hw_attack_ok_ext; [|done]. destruct HB. by rewrite <- br_divisor.
  - intros [] b Hb. eexists. split; [by apply ready_attack|]. split_and!; [done|done|by right].
Qed.

(** A tuple of rows that the attack accepts. *)
Definition tuple_ok (B : bist) (rows : list Z) : Prop :=
  hw_attack_ok cfg r (reader B) rows read_count ∧ refused rows = false.

Lemma between_attacks B row_pairs : ∀ m,
  payload_executor a = false → Forall (tuple_ok B) row_pairs →
  triple (between B m) (attacks a read_count row_pairs)
    (fun finished b => finished = true ∧ between B (foldl (fun m t => hammer t read_count m) m row_pairs) b).
Proof using Hex.
  induction row_pairs as [|t rest IH]; intros m Hpe Hall; [by apply triple_ret|].
  apply Forall_cons in Hall as [[Ht Href] Hall]. cbn [attacks]. cbv zeta. rewrite Hpe. fold (refused t). rewrite Href.
  eapply triple_bind; [by apply between_attack|]. intros []. by apply IH.
Qed.

(** The memory after the attacks, or after waiting. *)
Definition attacked (row_pairs : list (list Z)) (m1 : Z → Z) : Z → Z :=
  match no_attack_time a with
  | Some t => decay t m1
  | None => foldl (fun m t => hammer t read_count m) m1 row_pairs
  end.

Lemma between_attacked B row_pairs m :
  payload_executor a = false → (no_attack_time a = None → Forall (tuple_ok B) row_pairs) →
  triple (between B m) (match no_attack_time a with Some t => do_sleep t ;; mret true | None => attacks a read_count row_pairs end)
    (fun finished b => finished = true ∧ between B (attacked row_pairs m) b).
Proof using Hex.
  intros Hpe Hall. unfold attacked. destruct (no_attack_time a) as [t|]; [|by apply between_attacks; auto].
  eapply triple_bind with (R := fun _ => between B (decay t m)); [|intros []; by apply triple_ret]. cbn [do_sleep board_bench].
  eapply triple_bind; [apply between_sleep|]. intros []. apply between_flips.
Qed.

Lemma changed_refl m : changed m m = [].
Proof using Type.
  unfold changed. induction (range_addresses 0 n) as [|x l IH]; [done|]. by rewrite filter_cons_False by (intros Hne; by apply Hne).
Qed.

Lemma run_triple row_pairs pattern first divisor mask B m0 :
  let B1 := inverters divisor mask B in
  default (0, 0) (data_inversion a) = (divisor, mask) → Z.land divisor (divisor - 1) = 0 → payload_executor a = false →
  (row_pairs !! 0%nat ≫= fun t => t !! 0%nat) = Some first → (no_attack_time a = None → Forall (tuple_ok B1) row_pairs) →
  bist_ready cfg B →
  triple (at_rest B m0) (run r a row_pairs pattern read_count)
    (fun res b => ∃ m1, (∀ x, 0 ≤ x < n → m1 x = pattern_at cfg B1 nbytes (pattern first) x)
       ∧ let m := attacked row_pairs m1 in
         res = Some (bool_decide (changed m1 m ≠ []), flip_summary r m1 m (changed m1 m)) ∧ between B1 m b).
Proof using Hex.
  intros B1 Hinv. unfold run. rewrite Hinv. intros Hd Hpe Hfirst Hall HB.
  pose proof first_word as H0. pose proof Hex as []. cbn [do_setup_inverters board_bench].
  eapply triple_bind; [by apply triple_inverters|]. intros [].
  assert ((0 <? length row_pairs) = true) as -> by (apply Z.ltb_lt; destruct row_pairs; cbn [length]; [done|lia]).
  eapply triple_bind; [apply triple_lift_ok|]. intros []. apply triple_pure. intros _. rewrite Hfirst.
  eapply triple_bind; [apply triple_lift_ok|]. intros ?. apply triple_pure. intros ->.
  pose proof (ready_inverters divisor mask B HB) as HB1. fold B1 in HB1 |- *.
  eapply triple_bind; [apply hw_memset_fills; rewrite ?H0; (done || lia)|]. intros [].
  apply triple_ex. intros m1. rewrite H0.
  eapply triple_conseq with (P' := fun b => (∀ x, 0 ≤ x < n → m1 x = pattern_at cfg B1 nbytes (pattern first) x) ∧ between B1 m1 b)
    (Q' := fun res b => ∃ m1, (∀ x, 0 ≤ x < n → m1 x = pattern_at cfg B1 nbytes (pattern first) x)
       ∧ let m := attacked row_pairs m1 in
         res = Some (bool_decide (changed m1 m ≠ []), flip_summary r m1 m (changed m1 m)) ∧ between B1 m b); [|intros b [Hb Hm1]|done].
  2: { split; [intros x Hx; by rewrite Hm1, decide_True by lia|]. exists (memset_bist cfg nbytes (pattern first mod 2 ^ 32) 0 n B1).
       split_and!; [by apply ready_memset|done|done|by left]. }
  apply triple_pure. intros Hm1.
  eapply triple_bind with (R := fun initial b => initial = [] ∧ between B1 m1 b).
  { destruct (verify_initial a); [|by apply triple_ret]. eapply triple_conseq; [by apply between_check|done|].
    intros errs b [-> Hb]. by rewrite changed_refl. }
  intros initial. apply triple_pure. intros ->. cbn [errors_count foldr Z.eqb negb].
  eapply triple_bind; [apply between_refresh|]. intros [].
  eapply triple_bind; [by apply between_attacked|]. intros finished. apply triple_pure. intros ->. cbn [negb].
  eapply triple_bind; [apply between_refresh|]. intros [].
  eapply triple_bind; [by apply between_check|]. intros errors. apply triple_pure. intros ->.
  set (m := attacked row_pairs m1). set (words := changed m1 m). pose proof (changed_in_memory m1 m) as Hin. fold words in Hin.
  rewrite (errors_count_rows r shift nbytes m1 m words Hin). destruct (port_words cfg phy ex_port0) as [H4 _].
  case_bool_decide as Hw.
  - apply triple_ret. intros b Hb. exists m1. split; [done|]. cbv zeta. fold m words. rewrite Hw. by split.
  - rewrite (summary_exact r shift nbytes ex_rh0 ex_align0 ex_bytes0 H4 (verbose a) m1 m words Hin).
    eapply triple_bind; [apply triple_lift_ok|]. intros ?. apply triple_pure. intros ->.
    apply triple_ret. intros b Hb. exists m1. split; [done|]. cbv zeta. fold m words. by rewrite bool_decide_true.
Qed.
End bench.

(** C3: An experiment of [hw_rowhammer] ends and its summary accounts for the flips.  On a
    board at rest with any timing, without the payload executor and for row tuples that
    the BIST attack accepts ([tuple_ok]), [run] sets up the inverters, fills the memory,
    checks it if asked to, attacks the row tuples with the BIST (or waits), checks again
    and returns.  With [m1] the filled memory (the pattern, inverted in the selected rows)
    and [m] what the attacks made of it, whatever that is: [bitflip_found] says whether a
    word changed; the result has exactly one entry per row with changed words, with the
    number of bits flipped in the row over all banks, and under each column the positions
    of the flips of the last changed word of the row in that column (an earlier one, of a
    lower bank, is overwritten); the numbers of all rows add up to all flips. *)
Theorem hw_run_reports_flips {M : Migen} {PF : PyFloat} cfg {F : Fifo (Z * Z * Z)} {T : Timing_} phy main_size r (fuel : nat)
    decay hammer payload shift a read_count row_pairs pattern first divisor mask B m0 b :
  experiment_ok cfg phy main_size r fuel shift read_count → bist_ready cfg B → at_rest B m0 b →
  default (0, 0) (data_inversion a) = (divisor, mask) → Z.land divisor (divisor - 1) = 0 → payload_executor a = false →
  (row_pairs !! 0%nat ≫= fun t => t !! 0%nat) = Some first →
  (no_attack_time a = None → Forall (tuple_ok cfg r read_count (inverters cfg divisor mask B)) row_pairs) →
  let nbytes := dfi_databits phy * nphases phy / 8 in
  let v := repeat_word (Z.to_nat (nbytes / 4)) (pattern first mod 2 ^ 32) in
  ∃ m1 b' summary,
    let m := attacked decay hammer a read_count row_pairs m1 in
    let words := filter (fun x => m x ≠ m1 x) (range_addresses 0 (main_size / nbytes)) in
    (∀ x, 0 ≤ x < main_size / nbytes → m1 x = inverted cfg (csr (writer (inverters cfg divisor mask B))) x v)
    ∧ run (D := bist_device cfg) (X := board_bench cfg phy main_size r fuel decay hammer payload) r a row_pairs pattern read_count b
      = (Done (Some (bool_decide (words ≠ []), summary)), b')
    ∧ reports_flips r m1 m words summary
    ∧ zsum ((fun e => rs_bitflips e.2) <$> summary) = sum_bitflips ((fun x => (x, m x, m1 x)) <$> words).
Proof.
  intros Hex HB Hb Hinv Hd Hpe Hfirst Hall nbytes v.
  pose proof (run_triple cfg phy main_size r fuel decay hammer payload shift a read_count Hex row_pairs pattern first divisor mask B m0) as Ht.
  destruct (Ht Hinv Hd Hpe Hfirst Hall HB b Hb) as (res & b' & E & m1 & Hm1 & -> & _).
  exists m1, b'. eexists. cbv zeta. split_and!; [exact Hm1|exact E|apply flip_summary_reports|apply flip_summary_total].
Qed.

(** *** A concrete experiment: sixteen words of four bytes, in four rows of two banks. *)
#[local] Existing Instance error_fifo.
#[local] Existing Instance demo_timing.
#[local] Existing Instance exact_float.
Definition small_rh : RowHammer := MkRowHammer (MkConverter 2 2 1 1 32) 2 0 0 0 4.
Definition small_args : hw_args := HwArgs true None false (Some (2, 2)) true false.

(** Bit 0 of word 9 flips. *)
Definition small_hammer (rows : list Z) (n : Z) (m : Z → Z) : Z → Z := fun x => if x =? 9 then Z.lxor (m x) 1 else m x.

Lemma hw_run_reports_flips_witness :
  ∃ m1 b' summary,
    let m := small_hammer [1; 3] 5 m1 in
    let words := filter (fun x => m x ≠ m1 x) (range_addresses 0 16) in
    run (D := bist_device demo_cfg) (X := board_bench demo_cfg demo_phy 64 small_rh 800 (fun _ m => m) small_hammer (fun _ _ => mret tt))
      small_rh small_args [[1; 3]] (fun _ => 4294967295) 5 demo_board
    = (Done (Some (bool_decide (words ≠ []), summary)), b')
    ∧ reports_flips small_rh m1 m words summary.
Proof.
  destruct (hw_run_reports_flips demo_cfg demo_phy 64 small_rh 800 (fun _ m => m) small_hammer (fun _ _ => mret tt) 1 small_args 5
    [[1; 3]] (fun _ => 4294967295) 1 2 2 demo_bist1 (fun _ => 0) demo_board) as (m1 & b' & summary & _ & E & Hr & _).
  - split; try (vm_compute; congruence || lia); try (vm_compute; repeat split; congruence).
    + split; vm_compute; congruence.
    + split; vm_compute; repeat split; congruence.
  - split; vm_compute; try split; congruence.
  - split; [by split|by split].
  - reflexivity.
  - reflexivity.
  - reflexivity.
  - reflexivity.
  - intros _. apply Forall_singleton. split; [|reflexivity]. split; try (vm_compute; repeat split; congruence).
    + exists 0. reflexivity.
    + repeat constructor; vm_compute; congruence.
  - exists m1, b', summary. split; [exact E|exact Hr].
Defined.

(** The same, executed; the word is inverted, so that its bits are expected to be 0. *)
Example small_experiment :
  (run (D := bist_device demo_cfg) (X := board_bench demo_cfg demo_phy 64 small_rh 800 (fun _ m => m) small_hammer (fun _ _ => mret tt))
      small_rh small_args [[1; 3]] (fun _ => 4294967295) 5 demo_board).1
  = Done (Some (true, [(2, RowSummary 2 [(2, [0])] 1)])).
Proof. vm_compute. reflexivity. Qed.
