(* ===== verification/Logs.v ===== *)
(** * Log processing

    Models the scripts that read the JSON error summaries:
    [src/rowhammer_tester/scripts/logs2vis.py] (cells for a grid visualisation),
    [logs2dq.py] (bit flips per DQ pad) and the data preparation of
    [logs2plot.py] (histograms).  Drawing and files are left out: a script gives
    the data that it would draw or write. *)

From stdpp Require Import gmap pretty sorting.
From S2P Require Import Prelude PyString Generator AddressConverter Config RowHammerHost.
#[local] Open Scope Z_scope.

(** [list(dict.fromkeys(l))] *)
Definition fromkeys (l : list string) : list string :=
  foldl (fun acc x => if bool_decide (x ∈ acc) then acc else acc ++ [x]) [] l.

(** [d.pop("read_count")] when present. *)
Definition without_read_count (d : dict) : dict :=
  filter (fun kv => kv.1 ≠ "read_count"%string) d.

(** ** logs2vis.py *)

(** A cell of the grid. *)
Inductive desc_item :=
  | DText (s : string)
  | DColumn (name dqs : string).
Record cell := Cell {
  c_col : Z;
  c_row : Z;
  c_width : Z;
  c_type : string;
  c_label : string;
  c_title : string;
  c_desc : list desc_item;
}.

Definition get_dqs_on_col (data : list Z) (dq_pads : Z) : result (list string) :=
  dq_flips ← result_map (fun flip => dq ← pmod flip dq_pads; Ok ("dq[" +:+ pretty dq +:+ "]")%string) data;
  Ok (fromkeys dq_flips).

Definition column_desc (col : string) (dqs : list string) : desc_item :=
  DColumn ("Column " +:+ col)%string (String.concat ", " dqs).

(** [row_errors["col"].get(str(col), [])] *)
Definition col_errors (col_dict : dict) (col : Z) : result (list Z) :=
  match dict_get col_dict (pretty col) with Some j => as_ints j | None => Ok [] end.

(** One column of a chunk: the description and the number of flips so far. *)
Definition chunk_step (col_dict : dict) (col : Z) (st : list desc_item * Z) (i : Z) : result (list desc_item * Z) :=
  let '(desc, flips_in_chunk) := st in
  errs ← col_errors col_dict (col + i);
  desc' ←
    (match errs with
     | [] => Ok desc
     | _ => dq_flips ← get_dqs_on_col errs 64; Ok (desc ++ [column_desc (pretty (col + i)) dq_flips])
     end);
  Ok (desc', flips_in_chunk + length errs).

Definition chunk_cell (row_errors : dict) (row col_step col : Z) : result cell :=
  col_dict ← get_obj row_errors "col";
  '(desc, flips_in_chunk) ← result_fold (chunk_step col_dict col) ([DText "# Bits affected"], 0) (zrange col_step);
  n ← pdiv col col_step;
  Ok (Cell n row 1
        (if 0 <? flips_in_chunk then "FLIP" else "OK")
        (if 0 <? flips_in_chunk then pretty flips_in_chunk else "OK")
        ("Columns " +:+ pretty col +:+ " to " +:+ pretty (col + col_step - 1))
        desc).

Definition row_cells (cols col_step : Z) (st : list cell * list Z) (entry : string * json)
    : result (list cell * list Z) :=
  let '(vis_data, rows_affected) := st in
  row_errors ← as_obj entry.2;
  row ← get_int row_errors "row";
  starts ← range3 0 cols col_step;
  cells ← result_map (chunk_cell row_errors row col_step) starts;
  Ok (vis_data ++ cells, rows_affected ++ [row]).

Definition target_cell (width row : Z) : cell := Cell 0 row width "TGT" "Target" "Target row" [].

(** Cells, rows and range of columns. *)
Definition process_standard (data : dict) (cols col_step : Z) : result (list cell * list Z * (Z * Z)) :=
  rows ← get_obj data "errors_in_rows";
  '(vis_data, rows_affected) ← result_fold (row_cells cols col_step) ([], []) rows;
  width ← pdiv cols col_step;
  '(vis_data', rows_affected') ←
    (match dict_get data "hammer_row_1", dict_get data "hammer_row_2" with
     | Some j1, Some j2 =>
         row1 ← as_int j1;
         row2 ← as_int j2;
         Ok (vis_data ++ [target_cell width row1; target_cell width row2],
             rows_affected ++ (if row1 =? row2 then [row1] else [row1; row2]))
     | _, _ => Ok (vis_data, rows_affected)
     end : result (list cell * list Z));
  Ok (vis_data', rows_affected', (0, width - 1)).

(** The tiles of a victim: one per column, which share one description list, so
    that each shows it in its final state. *)
Definition victim_tiles (aggressor : Z) (victim : json) : result (list cell * Z) :=
  v ← as_obj victim;
  bitflip_amount ← get_int v "bitflips";
  victim_row ← get_int v "row";
  columns ← get_obj v "col";
  items ← result_map (fun '(col, flips) =>
    fs ← as_ints flips;
    dq_flips ← get_dqs_on_col fs 64;
    Ok (column_desc col dq_flips)) columns;
  let desc := DText ("# Total " +:+ pretty bitflip_amount +:+ " bits affected")%string :: items in
  let tile := Cell victim_row aggressor 1 "FLIP" (pretty bitflip_amount)
    ("Aggressor (" +:+ pretty aggressor +:+ ") vs victim (" +:+ pretty victim_row +:+ ")")%string desc in
  Ok (replicate (length columns) tile, victim_row).

Definition aggressor_tiles (st : list cell * list Z * list Z) (entry : Z * list json)
    : result (list cell * list Z * list Z) :=
  let '(vis_data, rows_affected, all_victims) := st in
  let '(aggressor, victims) := entry in
  tiles ← result_map (victim_tiles aggressor) victims;
  let target := Cell aggressor aggressor 1 "TGT" "Target" ("Target row " +:+ pretty aggressor)%string [] in
  Ok (vis_data ++ [target] ++ mjoin tiles.*1, rows_affected ++ [aggressor], all_victims ++ tiles.*2).

Definition process_aggr_vs_vict (data : list (Z * list json)) : result (list cell * list Z * (Z * Z)) :=
  '(vis_data, rows_affected, all_victims) ← result_fold aggressor_tiles ([], [], []) data;
  lo ← py_min all_victims;
  hi ← py_max all_victims;
  Ok (vis_data, rows_affected, (lo, hi)).

(** What is drawn: a single attack, or the victims of many aggressors. *)
Inductive vis_source :=
  | Standard (data : dict)
  | AggrVsVict (data : list (Z * list json)).

(** [rows] when empty rows are left out, else [rowsRange]. *)
Inductive vis_rows := Rows (l : list Z) | RowsRange (lo hi : Z).

Record vis_output := VisOutput { vo_data : list cell; vo_rows : vis_rows; vo_cols : Z * Z }.

Definition get_vis_data (src : vis_source) (no_empty_rows : bool) (cols col_step : Z) : result vis_output :=
  '(vis_data, rows_affected, cols_affected) ←
    match src with
    | Standard data => process_standard data cols col_step
    | AggrVsVict data => process_aggr_vs_vict data
    end;
  let rows := merge_sort Z.le rows_affected in
  rows' ←
    (if no_empty_rows then Ok (Rows rows)
     else
       lo ← of_option IndexError (rows !! 0%nat);
       hi ← of_option IndexError (last rows);
       Ok (RowsRange lo hi) : result vis_rows);
  Ok (VisOutput vis_data rows' cols_affected).

(** The attacks of one read count, collected by aggressor; anything but a pair of
    equal rows ends the script. *)
Definition collect_aggressor (acc : list (Z * list json)) (attack : string * json) : result (list (Z * list json)) :=
  if startswith (chars "pair") (chars attack.1) then
    results ← as_obj attack.2;
    rows ← get_obj results "errors_in_rows";
    row1 ← get_int results "hammer_row_1";
    row2 ← get_int results "hammer_row_2";
    if row1 =? row2 then Ok (odict_set row1 rows.*2 acc) else Raise (SystemExit 0)
  else Raise (SystemExit 0).

Record vis_args := VisArgs { va_columns : Z; va_no_empty_rows : bool; va_aggr_vs_vict : bool }.

(** The named output of an attack, and of the attacks of one read count. *)
Definition standard_output (a : vis_args) (cols : Z) (read_count : string) (entry : string * json)
    : result (string * vis_output) :=
  let '(attack, results) := entry in
  data ← as_obj results;
  col_step ← pdiv cols (va_columns a);
  o ← get_vis_data (Standard data) (va_no_empty_rows a) cols col_step;
  Ok (read_count +:+ "_" +:+ attack, o).

Definition standard_outputs (a : vis_args) (cols : Z) (read_count : string) (attacks : dict)
    : result (list (string * vis_output)) :=
  result_map (standard_output a cols read_count) attacks.

(** The main part: in the aggressor mode the dictionary is started afresh for each
    read count and drawn once after the loop. *)
Fixpoint vis_loop (a : vis_args) (cols : Z) (log_data : dict) (collected : option (string * list (Z * list json)))
    (outputs : list (string * vis_output)) : result (option (string * list (Z * list json)) * list (string * vis_output)) :=
  match log_data with
  | [] => Ok (collected, outputs)
  | (read_count, results) :: log_data' =>
      attack_set ← as_obj results;
      let attacks := without_read_count attack_set in
      if va_aggr_vs_vict a then
        aggr ← result_fold collect_aggressor [] attacks;
        vis_loop a cols log_data' (Some (read_count, aggr)) outputs
      else
        new ← standard_outputs a cols read_count attacks;
        vis_loop a cols log_data' collected (outputs ++ new)
  end.

Definition logs2vis (a : vis_args) (cols : Z) (log_data : dict) : result (list (string * vis_output)) :=
  '(collected, outputs) ← vis_loop a cols log_data None [];
  if va_aggr_vs_vict a then
    '(read_count, aggr) ← of_option NameError collected;
    o ← get_vis_data (AggrVsVict aggr) (va_no_empty_rows a) cols 1;
    Ok (outputs ++ [((read_count +:+ "_aggressors_vs_victims")%string, o)])
  else Ok outputs.

(** ** logs2dq.py *)
Definition DQ_PADS : nat := 64.

(** [counts[bitflip % DQ_PADS] += 1] *)
Definition count_dq (counts : list Z) (bitflip : Z) : list Z :=
  let dq := Z.to_nat (bitflip mod Z.of_nat DQ_PADS) in
  match counts !! dq with Some c => <[dq := c + 1]> counts | None => counts end.

(** The flips of all columns of a dictionary of columns. *)
Definition all_flips (columns : dict) : result (list Z) :=
  ls ← result_map (fun '(_, single_read) => as_ints single_read) columns;
  Ok (mjoin (ls : list (list Z))).

Definition row_flips (entry : string * json) : result (list Z) :=
  r ← as_obj entry.2;
  columns ← get_obj r "col";
  all_flips columns.

(** Of a whole attack. *)
Definition count_bitflips_per_dq (data : dict) : result (list Z) :=
  rows ← get_obj data "errors_in_rows";
  flips ← result_map row_flips rows;
  Ok (foldl count_dq (replicate DQ_PADS 0) (mjoin (flips : list (list Z)))).

(** ** logs2plot.py *)

(** Of a single victim. *)
Definition plot_bitflips_per_dq (columns : dict) : result (list Z) :=
  flips ← all_flips columns;
  Ok (foldl count_dq (replicate DQ_PADS 0) flips).

(** Local variables of the loop of [plot_single_attack] over the rows. *)
Record plot_state := PlotState {
  row_labels : list string;
  row_vals : list Z;
  col_vals : list Z;
  begin_row : string;
  last_row : string;
  last_num : Z;
  y_edges : list Z;
  ps_count : Z;
}.

Definition span_label (first last : string) : string := (first +:+ "..." +:+ last)%string.

Definition plot_row (row_step : Z) (st : plot_state) (entry : Z * (string * json))
    : result plot_state :=
  let '(i, (row, row_errors)) := entry in
  let start := (1 <? row_step) && (ps_count st =? -1) in
  let begin_row' := if start then row else begin_row st in
  let y_edges' := if start then y_edges st ++ [i] else y_edges st in
  let count := ps_count st + 1 in
  let labels' :=
    if (1 <? row_step) && (count =? row_step - 1) then row_labels st ++ [span_label begin_row' row]
    else if row_step =? 1 then row_labels st ++ [row] else row_labels st in
  let count' := if count =? row_step - 1 then -1 else count in
  r ← as_obj row_errors;
  columns ← get_obj r "col";
  points ← result_map (fun '(col, errs) =>
    es ← as_ints errs;
    c ← py_int 10 (chars col);
    Ok (replicate (length es) c)) columns;
  let cs : list Z := mjoin points in
  Ok (PlotState labels' (row_vals st ++ replicate (length cs) i) (col_vals st ++ cs) begin_row' row i y_edges' count').

(** The rows with errors, and the labels and edges of the plot. *)
Definition plot_single_attack (data : dict) (max_row_cnt : Z) : result (Z * plot_state) :=
  rows ← get_obj data "errors_in_rows";
  let affected := Z.of_nat (length rows) in
  row_step ← (if affected <=? max_row_cnt then Ok 1 else pdiv affected max_row_cnt);
  st ← result_fold (plot_row row_step) (PlotState [] [] [] "" "" 0 [] (-1))
         (imap (fun i e => (Z.of_nat i, e)) rows);
  Ok (row_step,
      if 1 <? row_step then
        PlotState (if -1 <? ps_count st then row_labels st ++ [span_label (begin_row st) (last_row st)] else row_labels st)
          (row_vals st) (col_vals st) (begin_row st) (last_row st) (last_num st)
          (y_edges st ++ [last_num st + 1]) (ps_count st)
      else st).

(** The ticks that the labels are attached to. *)
Definition row_ticks (affected row_step : Z) : result (list Z) := range3 0 affected row_step.
