(* ===== verification/LogsFacts.v ===== *)
(** * Properties of the log processing

    Every flip of an error summary is shown once: in the grid of [logs2vis], in
    the counts per DQ pad, and the labels of the plots fit their ticks.  Logs
    written by the attack scripts are accepted by [logs2vis]. *)

From stdpp Require Import gmap pretty sorting.
From S2P Require Import Prelude PyString Generator AddressConverter Config RowHammerHost.
From S2P Require Import ErrorSummary ErrorSummaryFacts Logs.
#[local] Open Scope Z_scope.

(** ** Reading back a summary *)
Lemma as_ints_nums l : as_ints (JList (JNum <$> l)) = Ok l.
Proof. cbn. induction l as [|z l IH]; cbn; [done|]. by rewrite IH. Qed.

Lemma dict_get_pretty {A} (f : A → json) (l : list (Z * A)) c :
  dict_get ((fun '(k, v) => (pretty k, f v)) <$> l) (pretty c) = f <$> odict_get c l.
Proof.
  induction l as [|[k v] l IH]; [done|]. rewrite fmap_cons. cbn [dict_get odict_get].
  destruct (decide (c = k)) as [->|Hne]; [by rewrite !bool_decide_true|].
  rewrite !bool_decide_false; [done|done|]. by intros ?%(inj pretty).
Qed.

Definition col_flips (s : row_summary) (c : Z) : list Z := default [] (odict_get c (rs_col s)).

Lemma col_errors_json s c :
  col_errors ((fun '(c, flips) => (pretty c, JList (JNum <$> flips))) <$> rs_col s) c = Ok (col_flips s c).
Proof.
  unfold col_errors, col_flips. rewrite (dict_get_pretty (fun flips => JList (JNum <$> flips))).
  destruct (odict_get c (rs_col s)); cbn [fmap option_fmap option_map]; [apply as_ints_nums|done].
Qed.

(** ** Cells of a row *)
Definition dq_names (flips : list Z) : list string :=
  fromkeys ((fun f => "dq[" +:+ pretty (f mod 64) +:+ "]") <$> flips).

Lemma get_dqs_names flips : get_dqs_on_col flips 64 = Ok (dq_names flips).
Proof.
  unfold get_dqs_on_col, dq_names. rewrite (result_map_ok _ (fun f => "dq[" +:+ pretty (f mod 64) +:+ "]")); [done|].
  by apply Forall_forall.
Qed.

Definition chunk_flips (s : row_summary) (col_step col : Z) : Z :=
  zsum ((fun i => Z.of_nat (length (col_flips s (col + i)))) <$> zrange col_step).

Definition col_desc (s : row_summary) (c : Z) : list desc_item :=
  match col_flips s c with [] => [] | l => [column_desc (pretty c) (dq_names l)] end.

Definition chunk_desc (s : row_summary) (col_step col : Z) : list desc_item :=
  DText "# Bits affected" :: (zrange col_step ≫= fun i => col_desc s (col + i)).

(** The cell of a chunk of columns: its label is the number of flips in it. *)
Definition std_cell (s : row_summary) (col_step col : Z) : cell :=
  let n := chunk_flips s col_step col in
  Cell (col / col_step) (rs_row s) 1 (if 0 <? n then "FLIP" else "OK") (if 0 <? n then pretty n else "OK")
    ("Columns " +:+ pretty col +:+ " to " +:+ pretty (col + col_step - 1)) (chunk_desc s col_step col).

Lemma chunk_step_json s col desc n i :
  chunk_step ((fun '(c, flips) => (pretty c, JList (JNum <$> flips))) <$> rs_col s) col (desc, n) i
  = Ok (desc ++ col_desc s (col + i), n + Z.of_nat (length (col_flips s (col + i)))).
Proof.
  unfold chunk_step, col_desc. rewrite col_errors_json, ok_bind.
  destruct (col_flips s (col + i)) as [|f l]; [by rewrite app_nil_r|]. by rewrite get_dqs_names.
Qed.

Lemma chunk_steps s col is_ : ∀ desc n,
  result_fold (chunk_step ((fun '(c, flips) => (pretty c, JList (JNum <$> flips))) <$> rs_col s) col) (desc, n) is_
  = Ok (desc ++ (is_ ≫= fun i => col_desc s (col + i)),
        n + zsum ((fun i => Z.of_nat (length (col_flips s (col + i)))) <$> is_)).
Proof.
  induction is_ as [|i is_ IH]; intros desc n.
  - cbn. by rewrite app_nil_r, Z.add_0_r.
  - cbn [result_fold]. rewrite chunk_step_json, ok_bind, IH, bind_cons, fmap_cons, <- app_assoc.
    unfold zsum. cbn [foldr]. do 2 f_equal. lia.
Qed.

Lemma chunk_cell_json s col_step col :
  0 < col_step →
  (j ← as_obj (row_json s); chunk_cell j (rs_row s) col_step col) = Ok (std_cell s col_step col).
Proof.
  intros Hs. unfold row_json. cbn [as_obj]. rewrite ok_bind. unfold chunk_cell. cbn [get_obj].
  change (get_obj _ "col") with
    (Ok ((fun '(c, flips) => (pretty c, JList (JNum <$> flips))) <$> rs_col s)).
  rewrite ok_bind, chunk_steps, ok_bind. unfold pdiv. rewrite (proj2 (Z.eqb_neq _ _)) by lia.
  rewrite ok_bind. reflexivity.
Qed.

(** The first columns of the chunks. *)
Definition chunk_starts (cols col_step : Z) : list Z :=
  (fun k => 0 + k * col_step) <$> zrange ((cols - 0 + col_step - 1) / col_step).

Lemma range3_starts cols col_step : 0 < col_step → range3 0 cols col_step = Ok (chunk_starts cols col_step).
Proof. intros Hs. unfold range3. by rewrite (proj2 (Z.eqb_neq _ _)), (proj2 (Z.ltb_lt _ _)) by lia. Qed.

Lemma row_cells_json cols col_step vis rows k s :
  0 < col_step →
  row_cells cols col_step (vis, rows) (k, row_json s)
  = Ok (vis ++ (std_cell s col_step <$> chunk_starts cols col_step), rows ++ [rs_row s]).
Proof.
  intros Hs. unfold row_cells. cbn [snd row_json as_obj]. rewrite ok_bind.
  change (get_int _ "row") with (Ok (rs_row s)). rewrite ok_bind, range3_starts, ok_bind by done.
  rewrite (result_map_ok _ (std_cell s col_step)); [done|].
  apply Forall_forall. intros col _. rewrite <- (chunk_cell_json s col_step col Hs). reflexivity.
Qed.

Lemma rows_cells_json cols col_step (summary : list (Z * row_summary)) : ∀ vis rows,
  0 < col_step →
  result_fold (row_cells cols col_step) (vis, rows) ((fun '(row, s) => (pretty row, row_json s)) <$> summary)
  = Ok (vis ++ (summary ≫= fun x => std_cell x.2 col_step <$> chunk_starts cols col_step),
        rows ++ (rs_row ∘ snd <$> summary)).
Proof.
  induction summary as [|[row s] summary IH]; intros vis rows Hs.
  - cbn. by rewrite !app_nil_r.
  - rewrite fmap_cons. cbn [result_fold]. rewrite row_cells_json, ok_bind, IH by done.
    by rewrite bind_cons, fmap_cons, <- !app_assoc.
Qed.

(** ** No flip is lost *)
Lemma zsum_fmap_update (f : Z → Z) k v l :
  NoDup l → k ∈ l → f k = 0 → zsum ((fun c => if bool_decide (c = k) then v else f c) <$> l) = zsum (f <$> l) + v.
Proof.
  intros Hnd Hin Hk. induction Hnd as [|x l Hx _ IH]; [by apply elem_of_nil in Hin|].
  rewrite !fmap_cons. unfold zsum in *. cbn [foldr]. apply elem_of_cons in Hin as [-> |Hin].
  - rewrite bool_decide_true by done.
    assert (((fun c => if bool_decide (c = x) then v else f c) <$> l) = f <$> l) as ->.
    { apply list_fmap_ext. intros i c Hc%list_elem_of_lookup_2. rewrite bool_decide_false; [done|]. by intros ->. }
    lia.
  - rewrite bool_decide_false by by intros ->. rewrite IH by done. lia.
Qed.

(** The flips of the columns of a list that has all columns of the dictionary. *)
Lemma zsum_col_flips (cols : list (Z * list Z)) l :
  NoDup l → NoDup cols.*1 → (∀ c, c ∈ cols.*1 → c ∈ l) →
  zsum ((fun c => Z.of_nat (length (default [] (odict_get c cols)))) <$> l) = flips_in cols.
Proof.
  intros Hl. induction cols as [|[k v] cols IH]; cbn [fmap list_fmap fst]; intros Hnd Hsub.
  - cbn. clear. induction l; [done|]. rewrite fmap_cons. unfold zsum in *. cbn. lia.
  - apply NoDup_cons in Hnd as [Hk Hnd].
    unfold flips_in. rewrite fmap_cons. unfold zsum. cbn [foldr snd]. fold (zsum ((fun c => Z.of_nat (length c.2)) <$> cols)).
    fold (flips_in cols). rewrite <- IH; [|done|intros c Hc; by apply Hsub, list_elem_of_further].
    rewrite Z.add_comm, <- (zsum_fmap_update _ k);
      [|done|apply Hsub, list_elem_of_here|by rewrite odict_get_none].
    unfold zsum. f_equal. apply list_fmap_ext. intros i c _. cbn [odict_get]. by case_bool_decide.
Qed.

Lemma chunks_cover n col_step (f : Z → Z) :
  0 ≤ col_step →
  zsum ((fun col => zsum ((fun i => f (col + i)) <$> zrange col_step)) <$> ((fun k => 0 + k * col_step) <$> zrange (Z.of_nat n)))
  = zsum (f <$> zrange (Z.of_nat n * col_step)).
Proof.
  intros Hs. induction n as [|n IH]; [done|].
  replace (Z.of_nat (S n)) with (Z.of_nat n + 1) by lia. rewrite zrange_succ, !fmap_app, zsum_app, IH by lia.
  replace ((Z.of_nat n + 1) * col_step) with (Z.of_nat n * col_step + col_step) by lia.
  rewrite zrange_add, fmap_app, zsum_app by lia. f_equal. cbn [fmap list_fmap]. unfold zsum at 1. cbn [foldr].
  rewrite Z.add_0_r, <- list_fmap_compose, Z.add_0_l. done.
Qed.

(** Columns of the memory, each once. *)
Definition wf_row (cols : Z) (s : row_summary) : Prop :=
  NoDup (rs_col s).*1 ∧ ∀ c, c ∈ (rs_col s).*1 → 0 ≤ c < cols.

Lemma zrange_NoDup n : NoDup (zrange n).
Proof. apply NoDup_fmap_2; [|apply NoDup_seq]. intros i j. lia. Qed.

Lemma chunk_flips_total cols col_step s :
  0 < col_step → 0 ≤ cols → wf_row cols s →
  zsum (chunk_flips s col_step <$> chunk_starts cols col_step) = flips_in (rs_col s).
Proof.
  intros Hs Hc [Hnd Hin]. unfold chunk_starts, chunk_flips. rewrite Z.sub_0_r.
  set (q := (cols + col_step - 1) / col_step).
  assert (0 ≤ q) as Hq by (apply Z.div_pos; lia). rewrite <- (Z2Nat.id q) by done.
  rewrite (chunks_cover _ _ (fun c => Z.of_nat (length (col_flips s c)))) by lia.
  apply zsum_col_flips; [apply zrange_NoDup|done|]. intros c Hc'%Hin. apply elem_of_zrange.
  rewrite Z2Nat.id by done. pose proof (Z.div_mod (cols + col_step - 1) col_step ltac:(lia)).
  pose proof (Z.mod_pos_bound (cols + col_step - 1) col_step Hs). fold q in H. lia.
Qed.

Lemma last_sort_some (l : list Z) : l ≠ [] → ∃ lo hi, merge_sort Z.le l !! 0%nat = Some lo ∧ last (merge_sort Z.le l) = Some hi.
Proof.
  intros Hl. pose proof (merge_sort_Permutation Z.le l) as Hp. destruct (merge_sort Z.le l) as [|x l'] eqn:E.
  - by apply Permutation_nil in Hp.
  - exists x. destruct (last (x :: l')) as [y|] eqn:E'; [by exists y|]. by apply last_None in E'.
Qed.

(** The data of an attack on a pair of rows. *)
Definition attack_of (cols : Z) (data : dict) (summary : list (Z * row_summary)) (r1 r2 : Z) : Prop :=
  dict_get data "errors_in_rows" = Some (errors_json summary)
  ∧ dict_get data "hammer_row_1" = Some (JNum r1) ∧ dict_get data "hammer_row_2" = Some (JNum r2)
  ∧ Forall (fun x => wf_row cols x.2) summary.

Lemma vis_standard cols col_step no_empty_rows data summary r1 r2 :
  attack_of cols data summary r1 r2 → 0 < col_step →
  ∃ o, get_vis_data (Standard data) no_empty_rows cols col_step = Ok o
    ∧ vo_data o = (summary ≫= fun x => std_cell x.2 col_step <$> chunk_starts cols col_step)
                  ++ [target_cell (cols / col_step) r1; target_cell (cols / col_step) r2].
Proof.
  intros (He & H1 & H2 & _) Hs. unfold get_vis_data, process_standard.
  assert (get_obj data "errors_in_rows" = Ok ((fun '(row, s) => (pretty row, row_json s)) <$> summary)) as ->
    by (unfold get_obj, dict_item; by rewrite He).
  rewrite ok_bind, rows_cells_json, ok_bind by done. unfold pdiv. rewrite (proj2 (Z.eqb_neq _ _)) by lia.
  rewrite ok_bind, H1, H2. cbn [as_int]. rewrite !ok_bind.
  set (rows := _ ++ _ : list Z).
  destruct (last_sort_some rows) as (lo & hi & Hlo & Hhi).
  { unfold rows. destruct (r1 =? r2); intros E%(f_equal length); rewrite length_app in E; cbn in E; lia. }
  destruct no_empty_rows; [|rewrite Hlo, Hhi; cbn [of_option]]; rewrite ?ok_bind; eexists; (split; [reflexivity|done]).
Qed.

(** The grid shows every flip.  For the log of an attack on a pair of rows,
    [get_vis_data] gives for every row of the summary one cell per chunk of
    columns, labelled with the flips in the chunk, and the two target rows; and
    over the chunks of a row the flips add up to all flips of the row. *)
Theorem vis_shows_all_flips cols col_step no_empty_rows data summary r1 r2 :
  attack_of cols data summary r1 r2 → 0 < col_step → 0 ≤ cols →
  (∃ o, get_vis_data (Standard data) no_empty_rows cols col_step = Ok o
    ∧ vo_data o = (summary ≫= fun x => std_cell x.2 col_step <$> chunk_starts cols col_step)
                  ++ [target_cell (cols / col_step) r1; target_cell (cols / col_step) r2])
  ∧ ∀ row s, (row, s) ∈ summary →
      zsum (chunk_flips s col_step <$> chunk_starts cols col_step) = flips_in (rs_col s).
Proof.
  intros Ha Hs Hc. split; [by eapply vis_standard|]. intros row s Hin. apply chunk_flips_total; [done..|].
  destruct Ha as (_ & _ & _ & Hwf). rewrite Forall_forall in Hwf. by apply (Hwf (row, s)).
Qed.

Definition demo_summary : list (Z * row_summary) := [(5, RowSummary 5 [(1, [0; 65]); (6, [3])] 3)].
Definition demo_data : dict :=
  [("hammer_row_1", JNum 4); ("hammer_row_2", JNum 6); ("errors_in_rows", errors_json demo_summary)]%string.

Lemma vis_shows_all_flips_witness :
  zsum (chunk_flips (RowSummary 5 [(1, [0; 65]); (6, [3])] 3) 4 <$> chunk_starts 8 4) = 3
  ∧ ∃ o, get_vis_data (Standard demo_data) false 8 4 = Ok o ∧ (c_label <$> vo_data o) = ["2"; "1"; "Target"; "Target"]%string.
Proof.
  destruct (vis_shows_all_flips 8 4 false demo_data demo_summary 4 6) as [(o & Ho & Hd) Hsum].
  - split_and!; [reflexivity..|]. apply Forall_singleton. split; [apply (bool_decide_unpack _); exact I|].
    cbn. intros c. rewrite !elem_of_cons, elem_of_nil. lia.
  - lia.
  - lia.
  - split; [apply (Hsum 5); left|]. exists o. split; [exact Ho|]. rewrite Hd. vm_compute. reflexivity.
Defined.

(** ** Logs of the attack scripts are accepted *)

(** [P] says of an entry, by its key, where its summary comes from. *)
Definition origin : Type := string → list (Z * row_summary) → Z → Z → Prop.

Definition wf_attack (cols : Z) (P : origin) (attack : string * json) : Prop :=
  ∃ data summary r1 r2, attack.2 = JObj data ∧ attack_of cols data summary r1 r2 ∧ P attack.1 summary r1 r2.

Definition wf_log (cols : Z) (P : string → origin) (log : dict) : Prop :=
  Forall (fun entry => ∃ attacks, entry.2 = JObj attacks ∧ Forall (wf_attack cols (P entry.1)) (without_read_count attacks)) log.

(** The cells of a summary: per row one for each chunk of columns, and the targets. *)
Definition summary_cells (cols col_step : Z) (summary : list (Z * row_summary)) (r1 r2 : Z) : list cell :=
  (summary ≫= fun x => std_cell x.2 col_step <$> chunk_starts cols col_step)
  ++ [target_cell (cols / col_step) r1; target_cell (cols / col_step) r2].

(** The output shows a summary: all its rows, with all flips. *)
Definition grid_of (cols col_step : Z) (P : string → origin) (out : string * vis_output) : Prop :=
  ∃ key attack summary r1 r2, P key attack summary r1 r2 ∧ out.1 = key +:+ "_" +:+ attack
    ∧ vo_data out.2 = summary_cells cols col_step summary r1 r2
    ∧ ∀ row s, (row, s) ∈ summary → zsum (chunk_flips s col_step <$> chunk_starts cols col_step) = flips_in (rs_col s).

Lemma standard_outputs_wf a cols (P : string → origin) read_count attacks :
  0 < va_columns a → va_columns a ≤ cols → Forall (wf_attack cols (P read_count)) attacks →
  ∃ outputs, standard_outputs a cols read_count attacks = Ok outputs ∧ Forall (grid_of cols (cols / va_columns a) P) outputs.
Proof.
  intros Hv Hc Hall. unfold standard_outputs. assert (0 < cols / va_columns a) as Hs by (apply Z.div_str_pos; lia).
  induction Hall as [|[attack results] attacks (data & summary & r1 & r2 & Hj & Ha & HP) _ (outputs & IH & Hg)]; [by exists []|].
  cbn [fst snd] in Hj, HP. subst results. cbn [result_map].
  destruct (vis_standard cols (cols / va_columns a) (va_no_empty_rows a) data summary r1 r2 Ha Hs) as (o & Ho & Hcells).
  assert (standard_output a cols read_count (attack, JObj data) = Ok (read_count +:+ "_" +:+ attack, o)) as ->.
  { cbn [standard_output as_obj]. unfold pdiv. rewrite (proj2 (Z.eqb_neq _ _)) by lia. rewrite !ok_bind. by rewrite Ho. }
  rewrite ok_bind, IH, ok_bind. eexists. split; [done|]. constructor; [|done]. exists read_count, attack, summary, r1, r2.
  split_and!; [done..|]. intros row s Hin. apply chunk_flips_total; [done|lia|].
  destruct Ha as (_ & _ & _ & Hwf). rewrite Forall_forall in Hwf. by apply (Hwf (row, s)).
Qed.

Lemma vis_loop_wf a cols P log collected outputs :
  0 < va_columns a → va_columns a ≤ cols → va_aggr_vs_vict a = false → wf_log cols P log →
  ∃ new, vis_loop a cols log collected outputs = Ok (collected, outputs ++ new) ∧ Forall (grid_of cols (cols / va_columns a) P) new.
Proof.
  intros Hv Hc Hm Hwf. revert outputs. induction Hwf as [|[rc j] log (attacks & Hj & Hall) _ IH]; intros outputs.
  - exists []. by rewrite app_nil_r.
  - cbn [snd] in Hj. subst j. cbn [vis_loop as_obj]. rewrite ok_bind, Hm.
    destruct (standard_outputs_wf a cols P rc _ Hv Hc Hall) as (new & Hn & Hg). rewrite Hn, ok_bind.
    destruct (IH (outputs ++ new)) as (new' & -> & Hg'). exists (new ++ new'). rewrite app_assoc. split; [done|by apply Forall_app].
Qed.

(** *** What the main function writes *)
Section written.
Context {S : Type} `{!Attacker S} (cols : Z).
(** The runs report columns of the memory. *)
Context (Hrun : ∀ pairs count s errors s',
  at_run pairs count s = Ok (errors, s') → Forall (fun x => wf_row cols x.2) errors).

(** A run on the pair [r1], [r2], first of its pairs, reported the summary. *)
Definition reported (key attack : string) (summary : list (Z * row_summary)) (r1 r2 : Z) : Prop :=
  ∃ count rest more s s', at_run ((r1 :: r2 :: rest) :: more) count s = Ok (summary, s')
    ∧ key = pretty count ∧ attack = "pair_" +:+ pretty r1 +:+ "_" +:+ pretty r2.

Definition wf_entries (key : string) (d : dict) : Prop := Forall (wf_attack cols (reported key)) (without_read_count d).

Lemma wf_entries_set key d k j :
  k ≠ "read_count"%string → wf_attack cols (reported key) (k, j) → wf_entries key d → wf_entries key (dict_set d k j).
Proof using.
  intros Hk Hj. unfold wf_entries, without_read_count. induction d as [|[k' j'] d IH]; intros Hd; cbn [dict_set].
  - rewrite filter_cons_True by done. by constructor.
  - case_bool_decide; [subst k'|].
    + rewrite filter_cons_True by done. rewrite filter_cons_True in Hd by done. apply Forall_cons in Hd as [_ Hd]. by constructor.
    + destruct (decide (k' = "read_count"%string)).
      * rewrite filter_cons_False in * by naive_solver. by apply IH.
      * rewrite filter_cons_True in * by done. apply Forall_cons in Hd as [? Hd]. constructor; [done|]. by apply IH.
Qed.

Lemma pair_key_fresh pair k : pair_key pair = Ok k → k ≠ "read_count"%string.
Proof using. destruct pair as [|a [|b pair]]; [done..|]. intros [= <-]. by cbn. Qed.

Lemma pair_entry_wf count k pair more errors j s s' :
  at_run (pair :: more) count s = Ok (errors, s') → pair_key pair = Ok k → pair_entry pair errors = Ok j →
  wf_attack cols (reported (pretty count)) (k, j).
Proof using Hrun.
  intros Hr Hk Hj. pose proof (Hrun _ _ _ _ _ Hr) as He. destruct pair as [|a [|b rest]]; [discriminate Hk..|].
  injection Hk as <-. injection Hj as <-.
  exists [("hammer_row_1", JNum a); ("hammer_row_2", JNum b); ("errors_in_rows", errors_json errors)]%string, errors, a, b.
  split_and!; [done..|]. by exists count, rest, more, s, s'.
Qed.

Lemma pair_attacks_wf count pairs : ∀ d s d' s',
  wf_entries (pretty count) d → result_fold (pair_attack count) (d, s) pairs = Ok (d', s') → wf_entries (pretty count) d'.
Proof using Hrun.
  induction pairs as [|pair pairs IH]; intros d s d' s' Hd; cbn [result_fold]; [by intros [= <- _]|].
  intros ([d1 s1] & H1 & H2)%bind_ok_inv. eapply IH; [|exact H2]. clear IH H2. unfold pair_attack in H1.
  apply bind_ok_inv in H1 as ([errors s2] & Hr & H1). apply bind_ok_inv in H1 as (k & Hk & H1).
  apply bind_ok_inv in H1 as (j & Hj & H1). injection H1 as <- _.
  apply wf_entries_set; [by eapply pair_key_fresh|by eapply pair_entry_wf|done].
Qed.

(** Attacks on all rows, or on one pair. *)
Definition pair_mode (p : pair_args) : Prop :=
  hammer_only p = [] ∧ (all_rows p = true ∨ row_pairs_mode p = Some Const ∧ no_attack p = None).

Lemma pair_mode_attacks p : pair_mode p → is_no_attack p = None.
Proof using. unfold is_no_attack. intros [Hh [Ha|[_ Ha]]]; rewrite Ha; by destruct (bool_decide _), (all_rows _). Qed.

Lemma count_entries_wf a pairs count s d s' :
  pair_mode (ma_pairs a) → count_entries a pairs count s = Ok (d, s') → wf_entries (pretty count) d.
Proof using Hrun.
  intros [Hh Hmode]. unfold count_entries. rewrite Hh. cbn [negb bool_decide].
  assert (wf_entries (pretty count) [("read_count"%string, JNum count)]) as H0.
  { unfold wf_entries, without_read_count. rewrite filter_cons_False by naive_solver. constructor. }
  destruct (all_rows (ma_pairs a)); [by apply pair_attacks_wf|]. destruct Hmode as [?|[-> _]]; [done|].
  intros ([errors s1] & Hr & H)%bind_ok_inv. apply bind_ok_inv in H as (pair & Hp & H).
  apply bind_ok_inv in H as (k & Hk & H). apply bind_ok_inv in H as (j & Hj & H).
  assert (d = dict_set [("read_count"%string, JNum count)] k j) as -> by congruence.
  destruct pairs as [|pair' more]; [discriminate Hp|]. injection Hp as ->.
  apply wf_entries_set; [by eapply pair_key_fresh|by eapply pair_entry_wf|done].
Qed.

Lemma wf_log_set log k d : wf_entries k d → wf_log cols reported log → wf_log cols reported (dict_set log k (JObj d)).
Proof using.
  intros Hd. unfold wf_log. induction 1 as [|[k' j'] log Hj Hlog IH]; cbn [dict_set].
  - apply Forall_singleton. by exists d.
  - case_bool_decide; [subst|]; constructor; try done. by exists d.
Qed.

Lemma count_loop_wf a pairs counts : ∀ log s log' s',
  pair_mode (ma_pairs a) → wf_log cols reported log → count_loop a pairs counts log s = Ok (log', s') → wf_log cols reported log'.
Proof using Hrun.
  induction counts as [|count counts IH]; intros log s log' s' Hm Hwf; cbn [count_loop]; [by intros [= <- _]|].
  intros ([log1 s1] & H1 & H2)%bind_ok_inv. rewrite pair_mode_attacks in H1 by done. apply bind_ok_inv in H1 as ([d s2] & Hd & H1). injection H1 as <- <-.
  assert (wf_log cols reported (dict_set log (pretty count) (JObj d))) as Hwf1.
  { apply wf_log_set; [|done]. by eapply count_entries_wf. }
  destruct (at_bitflip_found s2 && ma_exit_on_bit_flip a); [by injection H2 as <- _|]. by eapply IH.
Qed.
End written.


(** An attacker that finds one flip in row 5. *)
#[local] Instance demo_attacker : Attacker unit := {|
  at_run pairs count s := Ok (demo_summary, s);
  at_hammer pair count s := Ok s;
  at_bitflip_found s := true;
|}.
Definition demo_args : main_args := MainArgs (PairArgs [] true None None None 4 8 2 1) (Some 1000) None false.


(** A sequential attack without flips has no rows at all: [logs2vis] raises. *)
Example sequential_without_flips :
  logs2vis (VisArgs 2 false false) 8
    [("10", JObj [("read_count", JNum 10);
                  ("sequential_attacks", JObj [("row_pairs", JList []); ("errors_in_rows", JObj [])])])]%string
  = Raise IndexError.
Proof. vm_compute. reflexivity. Qed.

(** With aggressors against victims only the last read count is drawn. *)
Example earlier_counts_lost :
  let attack n := JObj [("hammer_row_1", JNum n); ("hammer_row_2", JNum n); ("errors_in_rows", errors_json demo_summary)]%string in
  (outputs ← logs2vis (VisArgs 2 true true) 8
     [("10", JObj [("pair_4_4", attack 4)]); ("20", JObj [("pair_6_6", attack 6)])]%string;
   Ok ((fun o => (o.1, vo_rows o.2)) <$> (outputs : list (string * vis_output))))
  = Ok [("20_aggressors_vs_victims"%string, Rows [6])].
Proof. vm_compute. reflexivity. Qed.

(** A victim with flips in two columns gets two equal tiles. *)
Example victim_tiles_repeated :
  (fun r : list cell * Z => c_label <$> r.1) <$> victim_tiles 4 (row_json (RowSummary 5 [(1, [0; 65]); (6, [3])] 3)) = Ok ["3"; "3"]%string.
Proof. vm_compute. reflexivity. Qed.

(** ** Flips per DQ pad *)
Lemma count_dq_spec flips : ∀ counts i c,
  length counts = DQ_PADS → counts !! i = Some c →
  foldl count_dq counts flips !! i = Some (c + countb (fun f => f mod 64 =? Z.of_nat i) flips)
  ∧ length (foldl count_dq counts flips) = DQ_PADS.
Proof.
  induction flips as [|f flips IH]; intros counts i c Hlen Hi; cbn [foldl countb].
  - by rewrite Z.add_0_r.
  - unfold count_dq at 2 4. change (Z.of_nat DQ_PADS) with 64.
    pose proof (Z.mod_pos_bound f 64 ltac:(lia)) as Hf.
    destruct (lookup_lt_is_Some_2 counts (Z.to_nat (f mod 64))) as [x Hx]; [rewrite Hlen; unfold DQ_PADS; lia|].
    rewrite Hx. destruct (Z.eqb_spec (f mod 64) (Z.of_nat i)) as [E|E].
    + rewrite E, Nat2Z.id in *. rewrite Hi in Hx. injection Hx as <-.
      destruct (IH (<[i:=c + 1]> counts) i (c + 1)) as [-> Hl]; [by rewrite length_insert|..].
      * apply list_lookup_insert_eq. apply lookup_lt_is_Some. by exists c.
      * split; [f_equal; lia|done].
    + destruct (IH (<[Z.to_nat (f mod 64):=x + 1]> counts) i c) as [-> Hl]; [by rewrite length_insert|..].
      * rewrite list_lookup_insert_ne; [done|]. intros <-. apply E. lia.
      * split; [f_equal; lia|done].
Qed.

Lemma all_flips_json s :
  all_flips ((fun '(c, flips) => (pretty c, JList (JNum <$> flips))) <$> rs_col s) = Ok (mjoin (rs_col s).*2).
Proof.
  unfold all_flips.
  assert (result_map (fun '(_, single_read) => as_ints single_read)
    ((fun '(c, flips) => (pretty c, JList (JNum <$> flips))) <$> rs_col s) = Ok (rs_col s).*2) as ->; [|done].
  induction (rs_col s) as [|[c flips] l IH]; [done|]. rewrite fmap_cons. cbn [result_map].
  by rewrite as_ints_nums, ok_bind, IH.
Qed.

(** The flips of an attack: all positions in all columns of all rows. *)
Definition attack_flips (summary : list (Z * row_summary)) : list Z :=
  summary ≫= fun x => mjoin (rs_col x.2).*2.

(** The histogram of the DQ pads counts every flip of an attack once: pad [i] of
    the 64 pads has as many flips as there are positions congruent to [i]. *)
Theorem dq_counts_exact data summary :
  dict_get data "errors_in_rows" = Some (errors_json summary) →
  ∃ counts, count_bitflips_per_dq data = Ok counts ∧ length counts = DQ_PADS
    ∧ ∀ i, (i < DQ_PADS)%nat →
        counts !! i = Some (Z.of_nat (countb (fun f => f mod 64 =? Z.of_nat i) (attack_flips summary))).
Proof.
  intros He. unfold count_bitflips_per_dq, get_obj, dict_item. rewrite He. cbn [of_option]. rewrite ok_bind.
  unfold errors_json. cbn [as_obj]. rewrite ok_bind.
  assert (result_map row_flips ((fun '(row, s) => (pretty row, row_json s)) <$> summary) = Ok ((fun x => mjoin (rs_col x.2).*2) <$> summary)) as Hm.
  { clear He. induction summary as [|[row s] summary IH]; [done|]. rewrite fmap_cons. cbn [result_map].
    change (row_flips (pretty row, row_json s)) with
      (all_flips ((fun '(c, flips) => (pretty c, JList (JNum <$> flips))) <$> rs_col s)).
    by rewrite all_flips_json, ok_bind, IH. }
  rewrite Hm, ok_bind. eexists. split; [reflexivity|].
  assert (mjoin ((fun x : Z * row_summary => mjoin (rs_col x.2).*2) <$> summary) = attack_flips summary) as ->.
  { unfold attack_flips. clear. induction summary as [|x summary IH]; [done|]. rewrite fmap_cons, bind_cons. by rewrite <- IH. }
  assert (∀ i, (i < DQ_PADS)%nat → replicate DQ_PADS 0 !! i = Some 0) as H0 by (intros i Hi; by apply lookup_replicate_2).
  split; [apply (count_dq_spec _ _ 0%nat 0); [done|apply H0; unfold DQ_PADS; lia]|].
  intros i Hi. destruct (count_dq_spec (attack_flips summary) (replicate DQ_PADS 0) i 0) as [-> _]; [done|by apply H0|done].
Qed.

Lemma dq_counts_exact_witness :
  ∃ counts, count_bitflips_per_dq demo_data = Ok counts ∧ counts !! 1%nat = Some 1.
Proof.
  destruct (dq_counts_exact demo_data demo_summary) as (counts & Hc & _ & H); [reflexivity|].
  exists counts. split; [exact Hc|]. rewrite (H 1%nat); [reflexivity|]. unfold DQ_PADS. lia.
Defined.

(** ** Labels of the plot of an attack *)

(** After [k] rows: labels, edges and the counter. *)
Definition plot_inv (row_step k : Z) (st : plot_state) : Prop :=
  (row_step = 1 → length (row_labels st) = Z.to_nat k)
  ∧ (1 < row_step →
       Z.of_nat (length (row_labels st)) = k / row_step ∧ ps_count st = k mod row_step - 1
       ∧ Z.of_nat (length (y_edges st)) = (k + row_step - 1) / row_step).

Lemma plot_row_inv row_step k st entry st' :
  0 ≤ k → 0 < row_step → plot_inv row_step k st → plot_row row_step st (k, entry) = Ok st' →
  plot_inv row_step (k + 1) st' ∧ last_num st' = k.
Proof.
  intros Hk Hs [H1 H2]. destruct entry as [row j]. unfold plot_row. cbv zeta.
  intros (r & _ & H)%bind_ok_inv. apply bind_ok_inv in H as (columns & _ & H).
  apply bind_ok_inv in H as (points & _ & H). injection H as <-. split; [|done]. split; cbn [row_labels ps_count y_edges].
  - intros ->. cbn [Z.ltb Z.compare Pos.compare Pos.compare_cont andb Z.eqb Pos.eqb]. rewrite length_app, H1 by done. cbn. lia.
  - intros Hlt. destruct (H2 Hlt) as (Hl & Hc & Hy). rewrite (proj2 (Z.ltb_lt _ _)), (proj2 (Z.eqb_neq row_step 1)) by lia.
    cbn [andb]. rewrite Hc. pose proof (Z.div_mod k row_step ltac:(lia)). pose proof (Z.mod_pos_bound k row_step Hs).
    assert (∀ q r, 0 ≤ r < row_step → k + 1 = row_step * q + r → (k + 1) / row_step = q ∧ (k + 1) mod row_step = r) as Hqr.
    { intros q x Hr E. split; symmetry; [eapply Z.div_unique_pos | eapply Z.mod_unique_pos]; done. }
    assert (∀ q r, 0 ≤ r < row_step → k + 1 + row_step - 1 = row_step * q + r → (k + 1 + row_step - 1) / row_step = q) as Hq.
    { intros q x Hr E. symmetry. by eapply Z.div_unique_pos. }
    assert (k mod row_step = 0 → (k + row_step - 1) / row_step = k / row_step) as Hy0.
    { intros E. symmetry. apply (Z.div_unique_pos _ _ _ (row_step - 1)); lia. }
    assert (k mod row_step ≠ 0 → (k + row_step - 1) / row_step = k / row_step + 1) as Hy1.
    { intros E. symmetry. apply (Z.div_unique_pos _ _ _ (k mod row_step - 1)); lia. }
    destruct (Z.eqb_spec (k mod row_step - 1 + 1) (row_step - 1)) as [E|E].
    + destruct (Hqr (k / row_step + 1) 0) as [-> ->]; [lia..|]. rewrite length_app. cbn [length].
      split_and!; [lia..|]. rewrite (Hq (k / row_step + 1) (k mod row_step)) by lia.
      destruct (Z.eqb_spec (k mod row_step - 1) (-1)); [rewrite length_app; cbn [length]; rewrite Nat2Z.inj_add, Hy, Hy0; lia|].
      rewrite Hy, Hy1; lia.
    + destruct (Hqr (k / row_step) (k mod row_step + 1)) as [-> ->]; [lia..|]. split_and!; [lia..|].
      rewrite (Hq (k / row_step + 1) (k mod row_step)) by lia.
      destruct (Z.eqb_spec (k mod row_step - 1) (-1)); [rewrite length_app; cbn [length]; rewrite Nat2Z.inj_add, Hy, Hy0; lia|].
      rewrite Hy, Hy1; lia.
Qed.

Lemma plot_rows_inv row_step rows : ∀ k st st',
  0 ≤ k → 0 < row_step → plot_inv row_step k st →
  result_fold (plot_row row_step) st (imap (fun i e => (k + Z.of_nat i, e)) rows) = Ok st' →
  plot_inv row_step (k + length rows) st' ∧ (rows ≠ [] → last_num st' = k + length rows - 1).
Proof.
  induction rows as [|e rows IH]; intros k st st' Hk Hs Hinv; cbn [imap result_fold].
  - intros [= <-]. by rewrite Z.add_0_r.
  - rewrite Z.add_0_r. intros (st1 & H1 & H2)%bind_ok_inv. destruct (plot_row_inv _ _ _ _ _ Hk Hs Hinv H1) as [Hinv1 Hl1].
    assert (imap ((fun i e => (k + Z.of_nat i, e)) ∘ S) rows = imap (fun i e => (k + 1 + Z.of_nat i, e)) rows) as E.
    { apply imap_ext. intros i x _. unfold compose. f_equal. lia. }
    rewrite E in H2. destruct (IH (k + 1) st1 st' ltac:(lia) Hs Hinv1 H2) as [Hinv2 Hl2]. split.
    + replace (k + length (e :: rows)) with (k + 1 + length rows) by (cbn; lia). done.
    + intros _. destruct rows as [|e' rows]; [cbn in H2; injection H2 as <-; rewrite Hl1; cbn; lia|].
      rewrite Hl2 by done. cbn. lia.
Qed.

(** The plot of an attack has a label for every tick.  Whenever the data of an
    attack with at least one row can be prepared, for a positive limit of rows:
    there are as many row labels as row ticks, and when rows are grouped, one
    more bin edge than labels. *)
Theorem plot_labels_match data rows max_row_cnt row_step st :
  dict_get data "errors_in_rows" = Some (JObj rows) → rows ≠ [] → 0 < max_row_cnt →
  plot_single_attack data max_row_cnt = Ok (row_step, st) →
  ∃ ticks, row_ticks (length rows) row_step = Ok ticks ∧ length ticks = length (row_labels st)
    ∧ (1 < row_step → length (y_edges st) = S (length (row_labels st))).
Proof.
  intros He Hne Hmax. unfold plot_single_attack.
  assert (get_obj data "errors_in_rows" = Ok rows) as -> by (unfold get_obj, dict_item; by rewrite He).
  rewrite ok_bind. intros (step & Hstep & H)%bind_ok_inv. apply bind_ok_inv in H as (st1 & Hfold & H). injection H as -> Hst.
  assert (0 < row_step) as Hs.
  { destruct (Z.leb_spec (Z.of_nat (length rows)) max_row_cnt); [injection Hstep as <-; lia|].
    unfold pdiv in Hstep. rewrite (proj2 (Z.eqb_neq _ _)) in Hstep by lia. injection Hstep as <-. apply Z.div_str_pos. lia. }
  assert (plot_inv row_step 0 (PlotState [] [] [] "" "" 0 [] (-1))) as H0.
  { split; [done|]. intros Hlt. cbn. rewrite Z.div_0_l, Z.mod_0_l by lia. split_and!; [done..|].
    symmetry. apply Z.div_small. lia. }
  destruct (plot_rows_inv row_step rows 0 _ st1 ltac:(lia) Hs H0 Hfold) as [[H1 H2] _]. rewrite Z.add_0_l in *.
  set (n := Z.of_nat (length rows)) in *. assert (0 < n) as Hn by (destruct rows; [done|cbn in n; lia]).
  exists ((fun k => 0 + k * row_step) <$> zrange ((n - 0 + row_step - 1) / row_step)).
  split; [unfold row_ticks, range3; by rewrite (proj2 (Z.eqb_neq _ _)), (proj2 (Z.ltb_lt _ _)) by lia|].
  rewrite length_fmap. rewrite Z.sub_0_r. pose proof (length_zrange ((n + row_step - 1) / row_step)) as Hz.
  assert (0 ≤ (n + row_step - 1) / row_step) as Hq by (apply Z.div_pos; lia). specialize (Hz Hq).
  destruct (decide (row_step = 1)) as [->|Hne1].
  - change (1 <? 1) with false in Hst. subst st. split; [|lia]. rewrite H1 by done.
    rewrite Z.div_1_r in Hz. rewrite Z.div_1_r. lia.
  - assert (1 < row_step) as Hlt by lia. destruct (H2 Hlt) as (Hl & Hc & Hy).
    rewrite (proj2 (Z.ltb_lt _ _)) in Hst by done. subst st. cbn [row_labels y_edges].
    pose proof (Z.div_mod n row_step ltac:(lia)). pose proof (Z.mod_pos_bound n row_step Hs).
    rewrite length_app. cbn [length]. rewrite Hc.
    destruct (Z.ltb_spec (-1) (n mod row_step - 1)) as [Hr|Hr].
    + assert ((n + row_step - 1) / row_step = n / row_step + 1) as E
        by (symmetry; apply (Z.div_unique_pos _ _ _ (n mod row_step - 1)); lia).
      rewrite length_app. cbn [length]. lia.
    + assert ((n + row_step - 1) / row_step = n / row_step) as E
        by (symmetry; apply (Z.div_unique_pos _ _ _ (row_step - 1)); lia).
      lia.
Qed.

Definition demo_rows : dict :=
  (fun i => (pretty i, row_json (RowSummary i [(2, [0])] 1))) <$> [3; 4; 7; 9; 10].

Lemma plot_labels_match_witness :
  ∃ step st ticks, plot_single_attack [("errors_in_rows"%string, JObj demo_rows)] 2 = Ok (step, st)
    ∧ row_ticks 5 step = Ok ticks ∧ row_labels st = ["3...4"; "7...9"; "10...10"]%string
    ∧ length ticks = 3%nat.
Proof.
  destruct (plot_single_attack [("errors_in_rows"%string, JObj demo_rows)] 2) as [[step st]|] eqn:E; [|discriminate].
  destruct (plot_labels_match [("errors_in_rows"%string, JObj demo_rows)] demo_rows 2 step st) as (ticks & Ht & Hl & _).
  - reflexivity.
  - discriminate.
  - lia.
  - exact E.
  - exists step, st, ticks. split; [reflexivity|]. split; [exact Ht|]. vm_compute in E. injection E as <- <-.
    split; [reflexivity|]. rewrite Hl. reflexivity.
Defined.
