(* ===== verification/Plots.v ===== *)
(** * Plots of the logs

    The rest of [src/rowhammer_tester/scripts/logs2plot.py] and [logs2dq.py]: the
    heat map of aggressors against victims with the counters that a click on it
    shows, the bars of the DQ pads, and both main programs with the variables that
    live on between their iterations.  Drawing is left out: a plot is the data that
    is given to matplotlib; its two-dimensional histogram is modelled ([bin_index],
    [cell_weight]). *)

From stdpp Require Import gmap pretty.
From Stdlib Require Import QArith Qround.
From S2P Require Import Prelude PyString Generator AddressConverter Config RowHammerHost Logs.
#[local] Open Scope Z_scope.

(** ** Heat map of aggressors against victims *)

(** Key of the global dictionary of counters, [f"{aggressor}_{row_number}"]. *)
Definition dq_key (aggressor row : Z) : string := (pretty aggressor +:+ "_" +:+ pretty row)%string.
Abbreviation dq_data := (gmap string (list Z)).

(** A victim, aggressor and number of bit flips. *)
Abbreviation point := (Z * Z * Z)%type.

(** What is read of a victim: its row, flips and counters. *)
Definition victim_data (v : string * json) : result (Z * Z * list Z) :=
  victim ← as_obj v.2;
  bitflip_amount ← get_int victim "bitflips";
  row_number ← get_int victim "row";
  cols ← get_obj victim "col";
  dq_counters ← plot_bitflips_per_dq cols;
  Ok (row_number, bitflip_amount, dq_counters).

Definition victim_point (aggressor : Z) (st : list point * dq_data) (v : string * json) : result (list point * dq_data) :=
  '(row_number, bitflip_amount, dq_counters) ← victim_data v;
  Ok (st.1 ++ [(row_number, aggressor, bitflip_amount)], <[dq_key aggressor row_number := dq_counters]> st.2).

Record heatmap := Heatmap {
  hm_points : list point;
  hm_bins : Z * Z;
  hm_range : (Z * Z) * (Z * Z);
  hm_annotations : list point;
}.

Definition plot_aggressors_vs_victims (data : list (Z * list (string * json))) (annotate : bool) (dq : dq_data)
    : result (heatmap * dq_data) :=
  st ← result_fold (fun st av => result_fold (victim_point av.1) st av.2) ([], dq) data;
  let points : list point := st.1 in
  let victims := (fun p => p.1.1) <$> points in
  let aggressors := (fun p => p.1.2) <$> points in
  min_victim ← py_min victims;
  max_victim ← py_max victims;
  min_aggressor ← py_min aggressors;
  max_aggressor ← py_max aggressors;
  Ok (Heatmap points (max_victim - min_victim + 1, max_aggressor - min_aggressor + 1)
        ((min_victim, max_victim + 1), (min_aggressor, max_aggressor + 1))
        (if annotate then points else []), st.2).

(** *** The histogram

    [n] bins of equal width on [lo, hi]; the last one includes its upper edge. *)
Definition bin_index (n lo hi x : Z) : option Z :=
  if (x <? lo) || (hi <? x) then None
  else if x =? hi then Some (n - 1)
  else Some ((x - lo) * n / (hi - lo)).

Definition in_cell (h : heatmap) (i j : Z) (p : point) : bool :=
  let '(vlo, vhi, (alo, ahi)) := hm_range h in
  bool_decide (bin_index (hm_bins h).1 vlo vhi p.1.1 = Some i) && bool_decide (bin_index (hm_bins h).2 alo ahi p.1.2 = Some j).

Definition cell_weight (h : heatmap) (i j : Z) : Z :=
  foldr (fun p acc => if in_cell h i j p then p.2 + acc else acc) 0 (hm_points h).

(** Ticks of the colour bar for the largest weight. *)
Definition colorbar_ticks (max_errors : Z) : result (list Z) := range3 0 (max_errors + 1) (Z.max 1 (max_errors / 20)).

(** *** Clicking

    Coordinates are [None] outside of the axes.  The result is the counters and the
    title of the plot of the DQ pads. *)
Definition on_click (toolbar_mode : bool) (event : option (Q * Q)) (dq : dq_data) : option (list Z * string) :=
  if toolbar_mode then None
  else
    '(xdata, ydata) ← event;
    let x := Qfloor xdata in
    let y := Qfloor ydata in
    dq_counters ← dq !! dq_key y x;
    Some (dq_counters,
      ("Bitflips per DQ pads for aggressor(" +:+ pretty y +:+ ") vs victim(" +:+ pretty x +:+ ").")%string).

(** ** Bars of the DQ pads *)
Definition py_slice {A} (l : list A) (a b : Z) : list A := take (Z.to_nat (b - a)) (drop (Z.to_nat a) l).

(** The bars of a module: its pads with their values. *)
Definition module_bars (DQ_RATIO : Z) (values : list Z) (m : Z) : list (Z * Z) :=
  let start := DQ_RATIO * m in
  let end_ := DQ_RATIO * (m + 1) in
  zip ((fun k => start + k) <$> zrange (end_ - start)) (py_slice values start end_).
Definition plot_bars (DQ_RATIO : Z) (values : list Z) : result (list (list (Z * Z))) :=
  if DQ_RATIO =? 0 then Raise ZeroDivisionError
  else Ok (module_bars DQ_RATIO values <$> zrange (Z.of_nat DQ_PADS ÷ DQ_RATIO)).

(** ** Main programs *)

(** [results["row_pairs"][i][1]] *)
Definition second_of (j : json) : result Z :=
  match j with JList (_ :: x :: _) => as_int x | JList _ => Raise IndexError | _ => Raise TypeError end.
Definition pair_row (results : dict) (pick : list json → option json) : result Z :=
  j ← dict_item results "row_pairs";
  match j with JList l => p ← of_option IndexError (pick l); second_of p | _ => Raise TypeError end.

(** Variables that the loops assign only for attacks with known names. *)
Record names := Names { n_title : option string; n_hammered : option (Z * Z) }.

Definition pair_title (r : Z * Z) : string := ("Hammered rows: (" +:+ pretty r.1 +:+ ", " +:+ pretty r.2 +:+ ")")%string.
Definition sequential_title (a b : Z) : string :=
  ("Sequential attack on rows from " +:+ pretty a +:+ " to " +:+ pretty b)%string.

Definition is_pair (attack : string) : bool := startswith (chars "pair") (chars attack).
Definition is_sequential (attack : string) : bool := startswith (chars "sequential") (chars attack).

Definition name_attack (attack : string) (results : dict) (ns : names) : result names :=
  if is_pair attack then
    row1 ← get_int results "hammer_row_1";
    row2 ← get_int results "hammer_row_2";
    Ok (Names (Some (pair_title (row1, row2))) (Some (row1, row2)))
  else if is_sequential attack then
    start_row ← pair_row results head;
    end_row ← pair_row results last;
    Ok (Names (Some (sequential_title start_row end_row)) (n_hammered ns))
  else Ok ns.

(** *** logs2plot.py *)
Inductive shown :=
  | SinglePlot (title : string) (row_step : Z) (st : plot_state)
  | HeatPlot (h : heatmap).

Record plot_args := PlotArgs { pa_columns : Z; pa_avv : bool; pa_annotate : bool; pa_max_rows : Z }.

(** The edges of the columns, and the smallest row of the histogram. *)
Definition show_single (a : plot_args) (cols : Z) (title : option string) (results : dict) : result shown :=
  col_step ← pdiv cols (pa_columns a);
  t ← of_option NameError title;
  x ← plot_single_attack results (pa_max_rows a);
  range3 0 (cols + 1) col_step ;;
  py_min (row_vals x.2) ;;
  Ok (SinglePlot t x.1 x.2).

(** State of the loop over the attacks of one read count: names, aggressors, plots. *)
Record plot_loop := PlotLoop { pl_names : names; pl_avv : list (Z * list (string * json)); pl_shown : list shown }.

Definition plot_attack (a : plot_args) (cols : Z) (st : plot_loop) (attack : string * json) : result plot_loop :=
  results ← as_obj attack.2;
  ns ← name_attack attack.1 results (pl_names st);
  (if negb (is_pair attack.1) && is_sequential attack.1 && pa_avv a then Raise (SystemExit 0) else Ok tt) ;;
  if pa_avv a then
    victim_rows ← get_obj results "errors_in_rows";
    rows ← of_option NameError (n_hammered ns);
    if rows.1 =? rows.2 then Ok (PlotLoop ns (odict_set rows.1 victim_rows (pl_avv st)) (pl_shown st))
    else Raise (SystemExit 0)
  else
    p ← show_single a cols (n_title ns) results;
    Ok (PlotLoop ns (pl_avv st) (pl_shown st ++ [p])).

(** The counters are global: they stay from one heat map to the next. *)
Fixpoint plot_sets (a : plot_args) (cols : Z) (log_data : dict) (ns : names) (out : list shown) (dq : dq_data)
    : result (list shown * dq_data) :=
  match log_data with
  | [] => Ok (out, dq)
  | (_, set) :: log_data' =>
      attack_set ← as_obj set;
      st ← result_fold (plot_attack a cols) (PlotLoop ns [] out) (without_read_count attack_set);
      if pa_avv a then
        x ← plot_aggressors_vs_victims (pl_avv st) (pa_annotate a) dq;
        plot_sets a cols log_data' (pl_names st) (pl_shown st ++ [HeatPlot x.1]) x.2
      else plot_sets a cols log_data' (pl_names st) (pl_shown st) dq
  end.

Definition logs2plot (a : plot_args) (cols : Z) (log_data : dict) : result (list shown * dq_data) :=
  plot_sets a cols log_data (Names None None) [] ∅.

(** *** logs2dq.py *)
Record dq_args := DqArgs { da_per_attack : bool; da_ratio : Z }.

(** Names, counters of all attacks, and plots of single attacks. *)
Definition dq_attack (a : dq_args) (st : names * list (list Z) * list (string * list (list (Z * Z)))) (attack : string * json)
    : result (names * list (list Z) * list (string * list (list (Z * Z)))) :=
  let '(ns, all, plots) := st in
  results ← as_obj attack.2;
  dq_counters ← count_bitflips_per_dq results;
  if da_per_attack a then
    ns' ← name_attack attack.1 results ns;
    title ← of_option NameError (n_title ns');
    bars ← plot_bars (da_ratio a) dq_counters;
    Ok (ns', all ++ [dq_counters], plots ++ [(title, bars)])
  else Ok (ns, all ++ [dq_counters], plots).

Definition dq_set (a : dq_args) (st : names * list (list Z) * list (string * list (list (Z * Z)))) (set : string * json)
    : result (names * list (list Z) * list (string * list (list (Z * Z)))) :=
  attack_set ← as_obj set.2;
  result_fold (dq_attack a) st (without_read_count attack_set).

(** The counters whose mean is drawn at the end, and the plots of single attacks. *)
Definition logs2dq (a : dq_args) (log_data : dict) : result (list (list Z) * list (string * list (list (Z * Z)))) :=
  st ← result_fold (dq_set a) (Names None None, [], []) log_data;
  Ok (st.1.2, st.2).

(** Mean of a pad over the attacks; without attacks NumPy gives nan: [None]. *)
Definition dq_mean (all : list (list Z)) (pad : nat) : option Q :=
  match all with
  | [] => None
  | _ => Some (inject_Z (zsum (fmap (M := list) (fun c : list Z => default 0%Z (c !! pad)) all)) / inject_Z (Z.of_nat (length all)))%Q
  end.

(** ** The heat map and its clicks *)

(** The victims of all aggressors in order, as (aggressor, victim). *)
Definition victims_of (data : list (Z * list (string * json))) : list (Z * (string * json)) :=
  data ≫= fun av => (fun v => (av.1, v)) <$> av.2.

(** The nested loops run over all victims. *)
Lemma victims_fold data st :
  result_fold (fun st av => result_fold (victim_point av.1) st av.2) st data
  = result_fold (fun st av => victim_point av.1 st av.2) st (victims_of data).
Proof.
  revert st. induction data as [|[a vs] data IH]; intros st; [done|]. cbn [result_fold victims_of].
  change (victims_of ((a, vs) :: data)) with (((fun v => (a, v)) <$> vs) ++ victims_of data).
  rewrite result_fold_app. cbn [fst snd].
  assert (∀ st, result_fold (fun st av => victim_point av.1 st av.2) st ((fun v => (a, v)) <$> vs)
    = result_fold (victim_point a) st vs) as ->.
  { clear. induction vs as [|v vs IH]; intros st; [done|]. cbn. destruct (victim_point a st v); [apply IH|done]. }
  destruct (result_fold (victim_point a) st vs); [apply IH|done].
Qed.

Definition victim_pt (av : Z * (string * json)) (x : Z * Z * list Z) : point := (x.1.1, av.1, x.1.2).

(** After the loop: the points, and a counter for every pair of aggressor and victim
    row that occurs once. *)
Lemma victims_fold_data avs : ∀ st st',
  result_fold (fun st av => victim_point av.1 st av.2) st avs = Ok st' →
  ∃ xs, Forall2 (fun av x => victim_data av.2 = Ok x) avs xs
    ∧ st'.1 = st.1 ++ zip_with victim_pt avs xs
    ∧ st'.2 = foldl (fun d ax => <[dq_key ax.1 ax.2.1.1 := ax.2.2]> d) st.2 (zip avs.*1 xs).
Proof.
  induction avs as [|[a v] avs IH]; intros st st' E.
  - injection E as <-. exists []. split_and!; [constructor|by rewrite app_nil_r|done].
  - cbn in E. apply bind_ok_inv in E as (st1 & ([[row flips] dq] & Hx & [= <-])%bind_ok_inv & E).
    destruct (IH _ _ E) as (xs & Hall & Hp & Hd). exists ((row, flips, dq) :: xs). cbn in *.
    split_and!; [by constructor|by rewrite Hp, <- app_assoc|done].
Qed.

(** Characters of a decimal number. *)
Lemma pretty_char (z : Z) c : c ∈ chars (pretty z) → c = "-"%char ∨ is_Some (digit_value 10 c).
Proof.
  assert (∀ p, c ∈ chars (pretty_N_go (Npos p) "") → is_Some (digit_value 10 c)) as Hp.
  { intros p. destruct (pretty_N_go_chars (Npos p) "") as (l & -> & _ & _ & _ & Hv). cbn. rewrite app_nil_r.
    apply digits_value_digits in Hv. rewrite Forall_forall in Hv. apply Hv. }
  destruct z as [|p|p].
  - intros ->%list_elem_of_singleton. right. by eexists.
  - intros H. right. by apply (Hp p).
  - change (chars (pretty (Z.neg p))) with ("-"%char :: chars (pretty_N_go (Npos p) "")).
    intros [->|H]%elem_of_cons; [by left|right; by apply (Hp p)].
Qed.

Lemma dq_key_inj a r a' r' : dq_key a r = dq_key a' r' → a = a' ∧ r = r'.
Proof.
  intros E. apply (f_equal chars) in E. unfold dq_key in E. rewrite !chars_app in E.
  assert (∀ z : Z, "_"%char ∉ chars (pretty z)) as Hn by (intros z [?|[? ?]]%pretty_char; done).
  apply (f_equal (split_on "_"%char)) in E. cbn [chars String.list_ascii_of_string app] in E.
  rewrite !split_on_word, !split_on_last in E by done. injection E as E1 E2.
  apply chars_inj in E1, E2. split; by apply (inj pretty).
Qed.

(** Bins of width one. *)
Lemma bin_index_unit lo hi x : lo ≤ x < hi → bin_index (hi - lo) lo hi x = Some (x - lo).
Proof.
  intros H. unfold bin_index. rewrite (proj2 (Z.ltb_ge x lo)), (proj2 (Z.ltb_ge hi x)) by lia.
  rewrite (proj2 (Z.eqb_neq x hi)) by lia. cbn [orb]. by rewrite Z.div_mul by lia.
Qed.

Lemma py_bounds l lo hi x : py_min l = Ok lo → py_max l = Ok hi → x ∈ l → lo ≤ x ≤ hi.
Proof.
  intros Hlo Hhi Hx. destruct (py_min_max l) as (m & n & Em & En & _ & _ & Hall); [intros ->; by apply elem_of_nil in Hx|].
  rewrite Hlo in Em. rewrite Hhi in En. injection Em as <-. injection En as <-. rewrite Forall_forall in Hall. by apply Hall.
Qed.

(** The range of a heat map has a bin of width one for every value. *)
Record unit_bins (h : heatmap) : Prop := {
  ub_victims : (hm_bins h).1 = (hm_range h).1.2 - (hm_range h).1.1;
  ub_aggressors : (hm_bins h).2 = (hm_range h).2.2 - (hm_range h).2.1;
  ub_inside : ∀ p, p ∈ hm_points h →
    (hm_range h).1.1 ≤ p.1.1 < (hm_range h).1.2 ∧ (hm_range h).2.1 ≤ p.1.2 < (hm_range h).2.2;
}.

Lemma heatmap_unit_bins data annotate dq h dq' :
  plot_aggressors_vs_victims data annotate dq = Ok (h, dq') → unit_bins h.
Proof.
  unfold plot_aggressors_vs_victims. intros (st & _ & E)%bind_ok_inv. cbv zeta in E.
  apply bind_ok_inv in E as (vlo & Hvlo & (vhi & Hvhi & (alo & Halo & (ahi & Hahi & [= <- _])%bind_ok_inv)%bind_ok_inv)%bind_ok_inv).
  split; cbn; [lia|lia|]. intros p Hp.
  assert (p.1.1 ∈ (fun p : point => p.1.1) <$> st.1) as Hv by (apply list_elem_of_fmap; eauto).
  assert (p.1.2 ∈ (fun p : point => p.1.2) <$> st.1) as Ha by (apply list_elem_of_fmap; eauto).
  pose proof (py_bounds _ _ _ _ Hvlo Hvhi Hv). pose proof (py_bounds _ _ _ _ Halo Hahi Ha). lia.
Qed.

Lemma in_cell_unit h p q :
  unit_bins h → p ∈ hm_points h → q ∈ hm_points h →
  in_cell h (p.1.1 - (hm_range h).1.1) (p.1.2 - (hm_range h).2.1) q = bool_decide (q.1 = p.1).
Proof.
  intros [Hv Ha Hin] Hp Hq. unfold in_cell. destruct (Hin p Hp) as [Hp1 Hp2]. destruct (Hin q Hq) as [Hq1 Hq2].
  destruct (hm_range h) as [[vlo vhi] [alo ahi]]. cbn in *. rewrite Hv, Ha, !bin_index_unit by done.
  destruct p as [[pv pa] pw], q as [[qv qa] qw]. cbn in *. 
  destruct (decide ((qv, qa) = (pv, pa))) as [E|E].
  - injection E as -> ->. by rewrite !bool_decide_true.
  - rewrite (bool_decide_false ((qv, qa) = _)) by done. apply andb_false_iff.
    destruct (decide (qv = pv)) as [->|]; [right|left]; apply bool_decide_false; intros [= ?]; [apply E; f_equal|]; lia.
Qed.

(** The cell of a point that is alone in it has its weight. *)
Lemma cell_weight_point h p :
  unit_bins h → NoDup (fst <$> hm_points h) → p ∈ hm_points h →
  cell_weight h (p.1.1 - (hm_range h).1.1) (p.1.2 - (hm_range h).2.1) = p.2.
Proof.
  intros Hu Hnd Hp. unfold cell_weight.
  assert (∀ q, q ∈ hm_points h → in_cell h (p.1.1 - (hm_range h).1.1) (p.1.2 - (hm_range h).2.1) q = bool_decide (q.1 = p.1)) as Hc
    by (intros q Hq; by apply in_cell_unit).
  revert Hc Hnd Hp. generalize (in_cell h (p.1.1 - (hm_range h).1.1) (p.1.2 - (hm_range h).2.1)).
  induction (hm_points h) as [|q l IH]; intros f Hc Hnd Hp; [by apply elem_of_nil in Hp|].
  cbn [fmap list_fmap] in Hnd. apply NoDup_cons in Hnd as [Hq Hnd]. cbn [foldr]. rewrite (Hc q) by by left.
  assert (p.1 ∉ fst <$> l → foldr (fun q acc => if f q then q.2 + acc else acc) 0 l = 0) as H0.
  { clear Hq Hnd Hp IH. intros Hn. induction l as [|r l IHl]; [done|]. cbn [foldr]. rewrite (Hc r) by (right; by left).
    rewrite bool_decide_false; [|intros E; apply Hn; rewrite <- E; by left].
    apply IHl; [intros x [->|Hx]%elem_of_cons; apply Hc; [by left|right; by right]|]. intros H. apply Hn. by right. }
  apply elem_of_cons in Hp as [->|Hp].
  - rewrite bool_decide_true by done. rewrite H0 by done. lia.
  - rewrite bool_decide_false; [|intros E; apply Hq; rewrite E; apply list_elem_of_fmap; eauto].
    apply IH; [|done|done]. intros x Hx. apply Hc. by right.
Qed.

(** The counters after the loop: a pair that occurs once has its own. *)
Lemma counters_lookup (axs : list (Z * (Z * Z * list Z))) (dq : dq_data) a x :
  NoDup ((fun ax => (ax.1, ax.2.1.1)) <$> axs) → (a, x) ∈ axs →
  foldl (fun d ax => <[dq_key ax.1 ax.2.1.1 := ax.2.2]> d) dq axs !! dq_key a x.1.1 = Some x.2.
Proof.
  revert dq. induction axs as [|[b y] axs IH]; intros dq Hnd Hin; [by apply elem_of_nil in Hin|].
  cbn [fmap list_fmap fst snd] in Hnd. apply NoDup_cons in Hnd as [Hb Hnd]. cbn [foldl fst snd].
  apply elem_of_cons in Hin as [[= <- <-]|Hin]; [|by apply IH].
  assert (∀ d : dq_data, d !! dq_key a x.1.1 = Some x.2 →
    foldl (fun d ax => <[dq_key ax.1 ax.2.1.1 := ax.2.2]> d) d axs !! dq_key a x.1.1 = Some x.2) as Hk; [|apply Hk, lookup_insert_eq].
  clear IH Hnd. induction axs as [|[c z] axs IH]; intros d Hd; [done|]. cbn [foldl fst snd]. apply IH.
  - intros H. apply Hb. by right.
  - rewrite lookup_insert_ne; [done|]. intros [-> E]%dq_key_inj. apply Hb. rewrite <- E. by left.
Qed.

Lemma Qfloor_unit z x : (inject_Z z <= x < inject_Z (z + 1))%Q → Qfloor x = z.
Proof.
  intros [H1 H2]. pose proof (Qfloor_resp_le _ _ H1) as Hl. rewrite Qfloor_Z in Hl.
  assert (Qfloor x < z + 1); [|lia]. rewrite Zlt_Qlt. eapply Qle_lt_trans; [apply Qfloor_le|done].
Qed.

(** A victim of the data has its point and its entry among the counters. *)
Lemma listed_victim avs xs a v :
  Forall2 (fun av x => victim_data av.2 = Ok x) avs xs → (a, v) ∈ avs →
  ∃ x, victim_data v = Ok x ∧ (x.1.1, a, x.1.2) ∈ zip_with victim_pt avs xs ∧ (a, x) ∈ zip avs.*1 xs.
Proof.
  induction 1 as [|[b w] x avs xs Hx _ IH]; intros Hin; [by apply elem_of_nil in Hin|]. cbn in Hx.
  apply elem_of_cons in Hin as [[= <- <-]|Hin].
  - exists x. cbn. split_and!; [done|by left|by left].
  - destruct (IH Hin) as (y & Hy & H1 & H2). exists y. cbn. split_and!; [done|by right|by right].
Qed.

Lemma keys_of_points avs xs :
  Forall2 (fun av x => victim_data av.2 = Ok x) avs xs →
  ((fun ax : Z * (Z * Z * list Z) => (ax.1, ax.2.1.1)) <$> zip avs.*1 xs)
  = (fun p => (p.2, p.1)) <$> (fst <$> zip_with victim_pt avs xs).
Proof. induction 1 as [|[b w] x avs xs _ _ IH]; [done|]. cbn. by rewrite IH. Qed.

(** A click on the heat map.  On the plot of aggressors against victims, where
    every pair of an aggressor and a victim row occurs once: each victim has a cell
    of its own, the cell's weight is the number of bit flips in the log, and a click
    at any point of that cell shows the counters of the DQ pads of this very pair,
    whatever plots came before. *)
Theorem click_shows_cell data annotate dq h dq' a v row flips counters :
  plot_aggressors_vs_victims data annotate dq = Ok (h, dq') → NoDup (fst <$> hm_points h) →
  (a, v) ∈ victims_of data → victim_data v = Ok (row, flips, counters) →
  (∃ i j, bin_index (hm_bins h).1 (hm_range h).1.1 (hm_range h).1.2 row = Some i
     ∧ bin_index (hm_bins h).2 (hm_range h).2.1 (hm_range h).2.2 a = Some j ∧ cell_weight h i j = flips)
  ∧ ∀ x y, (inject_Z row <= x < inject_Z (row + 1))%Q → (inject_Z a <= y < inject_Z (a + 1))%Q →
      ∃ title, on_click false (Some (x, y)) dq' = Some (counters, title).
Proof.
  intros E Hnd Hin Hv. pose proof (heatmap_unit_bins _ _ _ _ _ E) as Hu. revert E.
  unfold plot_aggressors_vs_victims. rewrite victims_fold. intros (st & Hst & E)%bind_ok_inv. cbv zeta in E.
  apply bind_ok_inv in E as (vlo & _ & (vhi & _ & (alo & _ & (ahi & _ & [= Eh Ed])%bind_ok_inv)%bind_ok_inv)%bind_ok_inv).
  destruct (victims_fold_data _ _ _ Hst) as (xs & Hall & Hp & Hd). cbn [fst snd app] in Hp, Hd.
  destruct (listed_victim _ _ _ _ Hall Hin) as (x & Hx & Hpt & Hzip). rewrite Hv in Hx. injection Hx as <-. cbn [fst snd] in Hpt.
  assert (hm_points h = st.1) as Hh by by rewrite <- Eh. rewrite <- Hp, <- Hh in Hpt. split.
  - destruct (ub_inside h Hu _ Hpt) as [H1 H2]. cbn [fst snd] in H1, H2.
    exists (row - (hm_range h).1.1), (a - (hm_range h).2.1).
    rewrite (ub_victims h Hu), (ub_aggressors h Hu), !bin_index_unit by done. split_and!; [done|done|].
    by apply (cell_weight_point h (row, a, flips)).
  - intros x y Hx Hy. unfold on_click. cbn [mbind option_bind]. rewrite (Qfloor_unit row x Hx), (Qfloor_unit a y Hy). cbv zeta.
    rewrite <- Ed, Hd, (counters_lookup _ dq a (row, flips, counters)); [eexists; reflexivity| |done].
    rewrite (keys_of_points _ _ Hall). apply NoDup_fmap_2; [intros [? ?] [? ?] [= -> ->]; done|]. by rewrite <- Hp, <- Hh.
Qed.

(** One aggressor with two victims, one of them with two bit flips. *)
Definition demo_victim (row : Z) (flips : list Z) : string * json :=
  (pretty row, JObj [("row", JNum row); ("col", JObj [("4", JList (JNum <$> flips))]); ("bitflips", JNum (length flips))])%string.
Definition demo_avv : list (Z * list (string * json)) := [(5, [demo_victim 4 [3; 67]; demo_victim 6 [1]])].

Lemma click_shows_cell_witness :
  ∃ h dq', plot_aggressors_vs_victims demo_avv false ∅ = Ok (h, dq')
    ∧ ∃ title, on_click false (Some (9 # 2, 21 # 4)) dq' = Some (<[3%nat := 2]> (replicate 64 0), title).
Proof.
  destruct (plot_aggressors_vs_victims demo_avv false ∅) as [[h dq']|] eqn:E; [|by vm_compute in E].
  exists h, dq'. split; [done|].
  apply (click_shows_cell demo_avv false ∅ h dq' 5 (demo_victim 4 [3; 67]) 4 2 (<[3%nat := 2]> (replicate 64 0)) E).
  - assert (hm_points h = [(4, 5, 2); (6, 5, 1)]) as ->; [|apply (bool_decide_unpack _); by vm_compute].
    assert (((fun x => hm_points x.1) <$> plot_aggressors_vs_victims demo_avv false ∅) = Ok [(4, 5, 2); (6, 5, 1)]) as Hp by by vm_compute.
    rewrite E in Hp. by injection Hp.
  - by left.
  - by vm_compute.
  - by split.
  - by split.
Defined.

(** The counters of an earlier heat map stay: a click on a cell without bit flips
    shows those of an earlier read count. *)
Example stale_counters :
  match plot_aggressors_vs_victims demo_avv false ∅ with
  | Ok (_, dq1) =>
      match plot_aggressors_vs_victims [(5, [demo_victim 6 [1]])] false dq1 with
      | Ok (h2, dq2) => cell_weight h2 (4 - 6) 0 = 0 ∧ on_click false (Some (9 # 2, 21 # 4)) dq2 ≠ None
      | Raise _ => False
      end
  | Raise _ => False
  end.
Proof. vm_compute. done. Qed.

(** ** Colour bar and bars *)

(** At most forty ticks, as the comment asks for a limit. *)
Lemma colorbar_ticks_limited m : 0 ≤ m → ∃ l, colorbar_ticks m = Ok l ∧ (length l ≤ 40)%nat.
Proof.
  intros Hm. unfold colorbar_ticks, range3. rewrite (proj2 (Z.eqb_neq _ _)), (proj2 (Z.ltb_lt _ _)) by lia.
  eexists. split; [done|]. rewrite length_fmap. unfold zrange. rewrite length_fmap, length_seq.
  set (s := Z.max 1 (m / 20)). assert ((m + 1 - 0 + s - 1) / s < 41); [|lia].
  apply Z.div_lt_upper_bound; [lia|]. pose proof (Z.mul_succ_div_gt m 20 ltac:(lia)). lia.
Qed.

Lemma length_zrange_nat n : length (zrange n) = Z.to_nat n.
Proof. unfold zrange. by rewrite length_fmap, length_seq. Qed.

(** The bars of [n] modules are the pads of these modules in order. *)
Lemma bars_of_modules ratio values (n : nat) :
  0 < ratio → ratio * n ≤ length values →
  mjoin (module_bars ratio values <$> zrange n) = zip (zrange (ratio * n)) values.
Proof.
  intros Hr. induction n as [|n IH]; intros Hlen; [by rewrite Z.mul_0_r|].
  replace (Z.of_nat (S n)) with (n + 1) in * by lia. rewrite zrange_add by lia. rewrite fmap_app, join_app, IH by lia.
  rewrite Z.mul_add_distr_l, Z.mul_1_r, zrange_add by lia.
  rewrite <- (take_drop (Z.to_nat (ratio * n)) values) at 3.
  rewrite zip_with_app by (rewrite length_take, length_zrange_nat; lia). f_equal.
  - by rewrite zip_with_take_r' by (rewrite length_zrange_nat; lia).
  - change (zrange 1) with [0]. cbn [fmap list_fmap]. rewrite Z.add_0_r. change (mjoin [?x]) with (x ++ []).
    rewrite app_nil_r. unfold module_bars, py_slice.
    replace (ratio * (n + 1) - ratio * n) with ratio by lia.
    by rewrite zip_with_take_r' by (rewrite length_fmap, length_zrange_nat; lia).
Qed.

(** The bars of the DQ plots.  With a ratio of DQ to DQS pads that divides the
    number of pads, every pad has one bar with its own value, in the order of the
    pads and in groups of the ratio; with another positive ratio the pads of the
    incomplete last module are left out. *)
Theorem bars_complete ratio values :
  0 < ratio → length values = DQ_PADS →
  ∃ bars, plot_bars ratio values = Ok bars ∧ length bars = Z.to_nat (Z.of_nat DQ_PADS / ratio)
    ∧ mjoin bars = zip (zrange (ratio * (Z.of_nat DQ_PADS / ratio))) values
    ∧ (Z.of_nat DQ_PADS mod ratio = 0 ↔ mjoin bars = zip (zrange DQ_PADS) values).
Proof.
  intros Hr Hlen. unfold plot_bars. rewrite (proj2 (Z.eqb_neq ratio 0)) by lia. eexists. split; [done|].
  rewrite Z.quot_div_nonneg by lia. set (q := Z.of_nat DQ_PADS / ratio).
  assert (0 ≤ q) as Hq by (apply Z.div_pos; lia). assert (ratio * q ≤ DQ_PADS) as Hle by (apply Z.mul_div_le; lia).
  assert (mjoin (module_bars ratio values <$> zrange q) = zip (zrange (ratio * q)) values) as Ej.
  { rewrite <- (Z2Nat.id q) by lia. apply bars_of_modules; [done|]. rewrite Z2Nat.id by lia. lia. }
  split_and!; [by rewrite length_fmap, length_zrange_nat|done|]. rewrite Ej. split.
  - intros Hm. assert (ratio * q = DQ_PADS) as ->; [|done]. unfold q. pose proof (Z.div_mod DQ_PADS ratio ltac:(lia)). lia.
  - intros E. apply (f_equal length) in E. rewrite !length_zip_with, !length_zrange_nat, Hlen in E.
    pose proof (Z.div_mod DQ_PADS ratio ltac:(lia)). fold q in H. lia.
Qed.

Lemma bars_complete_witness :
  ∃ bars, plot_bars 8 (replicate 64 1) = Ok bars ∧ mjoin bars = zip (zrange 64) (replicate 64 1).
Proof.
  destruct (bars_complete 8 (replicate 64 1) ltac:(lia) eq_refl) as (bars & E & _ & _ & Hall).
  exists bars. split; [exact E|]. by apply Hall.
Defined.

(** ** Attacks without a name or without flips *)

(** The log of a run with [--no-attack-time]: its entry is named by a time, so that
    no title is assigned and the scripts end with a [NameError]. *)
Example no_attack_log_fails :
  let log := [("no_attack_time", JObj [("1000", JObj [("errors_in_rows", JObj [demo_victim 4 [3]])])])]%string in
  logs2plot (PlotArgs 32 false false 128) 1024 log = Raise NameError
  ∧ logs2plot (PlotArgs 32 true false 128) 1024 log = Raise NameError
  ∧ logs2dq (DqArgs true 4) log = Raise NameError.
Proof. vm_compute. done. Qed.

(** An attack that found nothing: the smallest row of an empty list. *)
Example flipless_attack_fails :
  let attack := ("pair_3_5", JObj [("hammer_row_1", JNum 3); ("hammer_row_2", JNum 5); ("errors_in_rows", JObj [])])%string in
  logs2plot (PlotArgs 32 false false 128) 1024 [("10", JObj [("read_count", JNum 10); attack])]%string = Raise ValueError.
Proof. vm_compute. done. Qed.

(** A pair of one row with victims gives its heat map. *)
Example pair_log_plotted :
  let attack := ("pair_5_5", JObj [("hammer_row_1", JNum 5); ("hammer_row_2", JNum 5);
                   ("errors_in_rows", JObj [demo_victim 4 [3]; demo_victim 6 [1]])])%string in
  (fun x => x.1) <$> logs2plot (PlotArgs 32 true true 128) 1024 [("10", JObj [("read_count", JNum 10); attack])]%string
  = Ok [HeatPlot (Heatmap [(4, 5, 1); (6, 5, 1)] (3, 1) ((4, 7), (5, 6)) [(4, 5, 1); (6, 5, 1)])].
Proof. vm_compute. done. Qed.
