(* ===== verification/HostScripts.v ===== *)
(** * Memory test and other small scripts

    Models [memtest] of [src/rowhammer_tester/scripts/mem.py] and its waiting for the
    initialisation of the DRAM, [sdram_init] and [read_ident] of
    [src/rowhammer_tester/scripts/utils.py], and the program and data of
    [src/rowhammer_tester/scripts/execute_payload.py].  A board has registers
    ([Device]) and a memory on the same bus ([RamOps]); [Ram] has the laws of a memory
    that keeps its contents, [FaultyRam] those of one that is read through faults.
    Generators are streams; the random one is a parameter.  Printing is left out;
    the complete script, with its arguments and the speed test, is in [Sessions]. *)

From S2P Require Import Prelude Device HostMem ReadLevel PyString Isa.
#[local] Open Scope Z_scope.

(** A device whose bus also reaches memory. *)
Class RamOps `{Device} := {
  ram_write : Z → list Z → dev → dev;
  ram_read : Z → nat → dev → list Z;
}.
#[export] Instance ram_wishbone_ops `{RamOps} : WishboneOps := {| bus := dev; wb_write := ram_write; wb_read := ram_read |}.

(** A memory that keeps what is written to it. *)
Class Ram `{Device} := {
  ram_ops :: RamOps;
  ram_word : dev → Z → Z;
  ram_written a ds d i v : ds !! i = Some v → ram_word (ram_write a ds d) (a + 4 * Z.of_nat i) = trunc 32 v;
  ram_other a ds d b :
    (∀ i, (i < length ds)%nat → b ≠ a + 4 * Z.of_nat i) → ram_word (ram_write a ds d) b = ram_word d b;
  ram_reads a n d : ram_read a n d = (fun i : nat => ram_word d (a + 4 * Z.of_nat i)) <$> seq 0 n;
}.

#[export] Instance ram_wishbone `{Ram} : Wishbone := {|
  wb_ops := ram_wishbone_ops; word := ram_word;
  word_written := ram_written; word_other := ram_other; read_words := ram_reads |}.

Section scripts.
Context `{HD : Device} `{HR : !RamOps} `{HS : SdramDefs}.

(** [memwrite] and [memread] as host programs. *)
Definition do_memwrite (data : list Z) (base burst : Z) : host unit := fun d =>
  match memwrite data base burst d with Ok d' => (Done tt, d') | Raise e => (Failed e, d) end.
Definition do_memread (n base burst : Z) : host (list Z) := fun d =>
  match memread n base burst d with Ok l => (Done l, d) | Raise e => (Failed e, d) end.

(** ** mem.py *)

(** [[next(generator) for _ in range(length)]] *)
Definition take_stream (generator : nat → Z) (length : Z) : list Z := generator <$> seq 0 (Z.to_nat length).

(** [itertools.cycle([x, y])] *)
Definition cycle2 (x y : Z) (k : nat) : Z := if Nat.even k then x else y.

Definition memtest (length : Z) (generator : nat → Z) (base burst : Z) : host Z :=
  sdram_hardware_control ;;
  let refdata := take_stream generator length in
  do_memwrite refdata base burst ;;
  data ← do_memread length base burst;
  hassert (bool_decide (List.length refdata = List.length data)) ;;
  mret (Z.of_nat (countb (fun vr => negb (vr.1 =? vr.2)) (zip data refdata))).

(** Waiting for the CPU; with a UART, its output is read on the way. *)
Definition wait_init (fuel : nat) : host unit :=
  loop fuel tt (fun _ =>
    done ← rd "ddrctrl_init_done";
    if done =? 1 then mret (true, tt)
    else if has_reg "uart_xover_rxempty" then
      empty ← rd "uart_xover_rxempty";
      if empty =? 0 then rd "uart_xover_rxtx" ;; mret (false, tt) else mret (false, tt)
    else sleep ;; mret (false, tt)).

(** ** utils.py *)

(** The numbers of the control commands, from the lines of the generated file. *)
Definition squeeze (line : text) : text := remove_char " "%char (strip line).
Definition init_line (line : text) : bool :=
  match squeeze line with c :: _ => bool_decide (c = "("%char) | [] => false end.
Definition control_line (line : text) : bool := 0 <? PyString.find (chars "_control_") (squeeze line).

Fixpoint control_cmds (lines : list text) (n : Z) : list Z :=
  match lines with
  | [] => []
  | line :: lines' =>
      if init_line line then (if control_line line then [n] else []) ++ control_cmds lines' (n + 1)
      else control_cmds lines' n
  end.

(** An entry of [init_sequence]: address, bank, command; the delay is waited. *)
Definition init_cmd (controls : list Z) (entry : Z * (Z * Z * Z)) : host unit :=
  let '(i, (a, ba, cmd)) := entry in
  wr "sdram_dfii_pi0_address" a ;;
  wr "sdram_dfii_pi0_baddress" ba ;;
  (if bool_decide (i ∈ controls) then wr "sdram_dfii_control" cmd
   else wr "sdram_dfii_pi0_command" cmd ;; wr "sdram_dfii_pi0_command_issue" 1) ;;
  sleep.

Definition sdram_init (file : list text) (init_sequence : list (Z * Z * Z)) : host unit :=
  sdram_software_control ;;
  for_each (zip (zrange (length init_sequence)) init_sequence) (init_cmd (control_cmds file 0)) ;;
  sdram_hardware_control.

(** [buildinfo.index(0)] *)
Fixpoint index_of (x : Z) (l : list Z) : result nat :=
  match l with
  | [] => Raise ValueError
  | y :: l' => if y =? x then Ok 0%nat else S <$> index_of x l'
  end.

(** [bytes(l).decode("ascii")]: a value above 127 raises (a [ValueError]). *)
Definition decode_ascii (l : list Z) : result text :=
  result_map (fun v => if (0 <=? v) && (v <? 128) then Ok (ascii_of_nat (Z.to_nat v)) else Raise ValueError) l.

Definition read_ident (identifier_mem : Z) : host text :=
  buildinfo ← do_memread 256 identifier_mem 255;
  idx ← lift (index_of 0 buildinfo);
  lift (decode_ascii (take idx buildinfo)).
End scripts.

(** ** Memory tests *)
Section memtest_facts.
Context `{HD : Device} `{HR : !Ram} `{HS : SdramDefs}.

(** The bus functions in terms of the memory. *)
Lemma ram_memwrite data base burst (d : dev) :
  0 < burst → ∃ d', memwrite (H := ram_wishbone_ops) data base burst d = Ok d' ∧ stored (H := ram_wishbone) base data d d'.
Proof. exact (memwrite_stored (H := ram_wishbone) data base burst d). Qed.

Lemma ram_memread n base burst (d : dev) :
  0 ≤ n → 0 < burst → memread (H := ram_wishbone_ops) n base burst d = Ok (words (H := ram_wishbone) base (Z.to_nat n) d).
Proof. exact (memread_words (H := ram_wishbone) n base burst d). Qed.

(** The words of the memory from an address on. *)
Definition ram_words (base : Z) (n : nat) (d : dev) : list Z := words (H := ram_wishbone) base n d.

Lemma triple_memwrite data base burst :
  0 < burst → triple (fun _ => True) (do_memwrite data base burst) (fun _ d => ram_words base (length data) d = trunc 32 <$> data).
Proof.
  intros Hb d _. destruct (ram_memwrite data base burst d Hb) as (d' & E & Hs).
  exists tt, d'. unfold do_memwrite. rewrite E. split; [done|]. by eapply stored_words.
Qed.

Lemma triple_memread (P : dev → Prop) n base burst :
  0 ≤ n → 0 < burst →
  triple P (do_memread n base burst) (fun l d => P d ∧ l = ram_words base (Z.to_nat n) d).
Proof.
  intros Hn Hb d Hd. exists (ram_words base (Z.to_nat n) d), d. unfold do_memread. rewrite ram_memread by done. done.
Qed.

End memtest_facts.

(** ** Memories with faults

    Every cell keeps what is written to it, but a read of a cell gives its [fault]: the
    identity for a good cell, else for instance a value with a bit that is stuck. *)
Class FaultyRam `{Device} := {
  faulty_ops :: RamOps;
  cell : dev → Z → Z;
  fault : Z → Z → Z;
  cell_written a ds d i v : ds !! i = Some v → cell (ram_write a ds d) (a + 4 * Z.of_nat i) = trunc 32 v;
  cell_other a ds d b : (∀ i, (i < length ds)%nat → b ≠ a + 4 * Z.of_nat i) → cell (ram_write a ds d) b = cell d b;
  cell_reads a n d : ram_read a n d = (fun i : nat => fault (a + 4 * Z.of_nat i) (cell d (a + 4 * Z.of_nat i))) <$> seq 0 n;
}.

(** A memory without faults is one. *)
Definition faultless `{Ram} : FaultyRam := {|
  faulty_ops := ram_ops; cell := ram_word; fault _ v := v;
  cell_written := ram_written; cell_other := ram_other; cell_reads := ram_reads |}.

Section memtest_facts.
Context `{HD : Device} `{HF : !FaultyRam} `{HS : SdramDefs}.

(** The cells alone are a memory that keeps what is written. *)
Definition cells : Wishbone := {|
  wb_ops := {| bus := dev; wb_write := ram_write; wb_read a n d := (fun i : nat => cell d (a + 4 * Z.of_nat i)) <$> seq 0 n |};
  word := cell; word_written := cell_written; word_other := cell_other; read_words _ _ _ := eq_refl |}.

Lemma faulty_memwrite data base burst d :
  0 < burst → ∃ d', do_memwrite data base burst d = (Done tt, d')
    ∧ ∀ i v, data !! i = Some v → cell d' (base + 4 * Z.of_nat i) = trunc 32 v.
Proof.
  intros Hb. destruct (memwrite_stored (H := cells) data base burst d Hb) as (d' & E & [Hs _]). exists d'. split; [|exact Hs].
  change (memwrite (H := ram_wishbone_ops) data base burst d = Ok d') in E. unfold do_memwrite. by rewrite E.
Qed.

Lemma faulty_memread n base burst d :
  0 ≤ n → 0 < burst →
  do_memread n base burst d = (Done ((fun i : nat => fault (base + 4 * Z.of_nat i) (cell d (base + 4 * Z.of_nat i))) <$> seq 0 (Z.to_nat n)), d).
Proof.
  intros Hn Hb. unfold do_memread.
  by rewrite (memread_sensed (H := ram_wishbone_ops) (fun (d : dev) a => fault a (cell d a)) cell_reads).
Qed.

(** The words of a stream that do not read back from [n] cells. *)
Definition bad_words (n : Z) (generator : nat → Z) (base : Z) : list nat :=
  filter (fun k => fault (base + 4 * Z.of_nat k) (generator k) ≠ generator k) (seq 0 (Z.to_nat n)).

Lemma keeps_hardware_control : keeps (fun _ => True) sdram_hardware_control.
Proof.
  apply keeps_bind; [by apply triple_rd|]. intros v. apply keeps_bind; [by apply triple_wr|]. intros [].
  destruct (has_reg _); [by apply triple_wr|by apply triple_ret].
Qed.

Lemma countb_zip_fmap (f g : nat → Z) l :
  countb (fun vr : Z * Z => negb (vr.1 =? vr.2)) (zip (f <$> l) (g <$> l)) = length (filter (fun k => f k ≠ g k) l).
Proof.
  induction l as [|k l IH]; [done|]. cbn [fmap list_fmap zip zip_with countb]. rewrite filter_cons. cbn [fst snd].
  destruct (Z.eqb_spec (f k) (g k)); [rewrite decide_False by naive_solver|rewrite decide_True by done]; cbn; by rewrite IH.
Qed.

Lemma length_take_stream g n : 0 ≤ n → length (take_stream g n) = Z.to_nat n.
Proof. intros Hn. unfold take_stream. by rewrite length_fmap, length_seq. Qed.

(** The test counts the words that do not read back. *)
Lemma memtest_exact n g base burst :
  0 ≤ n → 0 < burst → (∀ k, 0 ≤ g k < 2 ^ 32) →
  triple (fun _ => True) (memtest n g base burst) (fun errors _ => errors = Z.of_nat (length (bad_words n g base))).
Proof.
  intros Hn Hb Hg d _. unfold memtest. destruct (keeps_hardware_control d I) as ([] & d1 & E1 & _). erewrite bind_done by exact E1.
  cbv zeta. destruct (faulty_memwrite (take_stream g n) base burst d1 Hb) as (d2 & E2 & Hcell). erewrite bind_done by exact E2.
  erewrite bind_done by by apply faulty_memread.
  rewrite (bool_decide_true (length _ = length _)) by (rewrite length_take_stream, length_fmap, length_seq by done; done).
  eexists _, d2. split; [done|]. unfold take_stream. rewrite countb_zip_fmap. f_equal. f_equal. unfold bad_words.
  apply filter_agree. intros k Hk%elem_of_seq. rewrite (Hcell k (g k)); [by rewrite trunc_small by apply Hg|].
  unfold take_stream. rewrite list_lookup_fmap, lookup_seq_lt by lia. done.
Qed.

(** A board that finishes its initialisation after at most [left d] polls, with the
    error flag [e]. *)
Record initialises (left : dev → nat) (e : Z) : Prop := {
  in_done : ∀ d, (reg_read "ddrctrl_init_done" d).1 = if (left d =? 0)%nat then 1 else 0;
  in_poll : ∀ d, (left (reg_read "ddrctrl_init_done" d).2 ≤ pred (left d))%nat;
  in_read : ∀ r d, (left (reg_read r d).2 ≤ left d)%nat;
  in_elapse : ∀ d, (left (elapse d) ≤ left d)%nat;
  in_error : ∀ d, left d = 0%nat → (reg_read "ddrctrl_init_error" d).1 = e;
}.

Lemma triple_wait_init left e (fuel n : nat) :
  initialises left e → (n < fuel)%nat →
  triple (fun d => (left d ≤ n)%nat) (wait_init fuel) (fun _ d => left d = 0%nat).
Proof.
  intros [Hdone Hpoll Hread Helapse _] Hf. unfold wait_init.
  apply (triple_loop (fun n _ d => (left d ≤ n)%nat) (fun _ d => left d = 0%nat)); [|done]. intros m acc.
  apply (triple_bind _ _ (fun v d => (v = 1 ∧ left d = 0%nat) ∨ (v = 0 ∧ (left d < m)%nat))).
  - apply triple_rd. intros d Hd. specialize (Hdone d). specialize (Hpoll d). rewrite Hdone.
    destruct (Nat.eqb_spec (left d) 0); [left|right]; split; (done || lia).
  - intros v d [[-> Hd]|[-> Hd]].
    + exists (true, tt), d. by cbn.
    + change (0 =? 1) with false. cbv iota.
      assert (∀ d', (left d' ≤ left d)%nat → ∃ k, (k < m)%nat ∧ (left d' ≤ k)%nat) as Hk by (intros d' H'; exists (left d); lia).
      destruct (has_reg "uart_xover_rxempty"); [|exists (false, tt), (elapse d); split; [done|]; apply Hk, Helapse].
      pose proof (Hread "uart_xover_rxempty" d) as H1. unfold mbind, host_bind, rd.
      destruct (reg_read "uart_xover_rxempty" d) as [empty d1]. cbn in H1. destruct (empty =? 0).
      * pose proof (Hread "uart_xover_rxtx" d1) as H2. destruct (reg_read "uart_xover_rxtx" d1) as [c d2]. cbn in H2.
        exists (false, tt), d2. split; [done|]. apply Hk. lia.
      * exists (false, tt), d1. split; [done|]. by apply Hk.
Qed.
End memtest_facts.

(** ** A board for examples

    It needs [d.1] polls and has the memory [d.2]. *)
#[local] Instance demo_device : Device := {|
  dev := nat * (Z → Z);
  reg_read r d :=
    if bool_decide (r = "ddrctrl_init_done"%string) then (if (d.1 =? 0)%nat then 1 else 0, (pred d.1, d.2)) else (0, d);
  reg_write _ _ d := d;
  has_reg _ := false;
  elapse d := d;
|}.
#[local] Instance demo_ram_ops : RamOps := {|
  ram_write a ds d := (d.1, wb_write (WishboneOps := ram_bus_ops) a ds d.2);
  ram_read a n d := (fun i : nat => d.2 (a + 4 * Z.of_nat i)) <$> seq 0 n;
|}.
#[local, refine] Instance demo_ram : Ram := {| ram_ops := demo_ram_ops; ram_word d a := d.2 a |}.
Proof.
  - intros a ds d i v Hi. cbn. by apply (word_written (Wishbone := ram_bus)).
  - intros a ds d b Hb. cbn. by apply (word_other (Wishbone := ram_bus)).
  - done.
Defined.
#[local] Instance demo_defs : SdramDefs := {|
  dfii_control_sel := 1; dfii_command_cs := 1; dfii_command_we := 2; dfii_command_cas := 4;
  dfii_command_ras := 8; dfii_command_wrdata := 16; dfii_command_rddata := 32 |}.

(** ** Identification *)
Lemma index_of_zero l rest : Forall (fun v => v ≠ 0) l → index_of 0 (l ++ 0 :: rest) = Ok (length l).
Proof. induction 1 as [|v l Hv _ IH]; [done|]. cbn. rewrite (proj2 (Z.eqb_neq _ _)) by done. by rewrite IH. Qed.

Definition ascii_code (c : ascii) : Z := Z.of_nat (nat_of_ascii c).

Lemma decode_ascii_codes s : Forall (fun c => ascii_code c < 128) s → decode_ascii (ascii_code <$> s) = Ok s.
Proof.
  intros Hs. unfold decode_ascii. induction Hs as [|c s Hc _ IH]; [done|]. cbn [fmap list_fmap result_map].
  rewrite (proj2 (Z.leb_le _ _)), (proj2 (Z.ltb_lt _ _)) by (done || unfold ascii_code; lia). cbn [andb].
  rewrite ok_bind, IH. unfold ascii_code. by rewrite Nat2Z.id, ascii_nat_embedding.
Qed.

(** The identification string of a board is read back from the words that hold its
    characters, up to the terminating zero. *)
Lemma read_ident_string `{HD : Device} `{HR : !Ram} base s d :
  (length s < 256)%nat → Forall (fun c => 0 < ascii_code c < 128) s →
  (∀ i c, s !! i = Some c → ram_word d (base + 4 * Z.of_nat i) = ascii_code c) →
  ram_word d (base + 4 * Z.of_nat (length s)) = 0 →
  read_ident base d = (Done s, d).
Proof.
  intros Hlen Hs Hmem Hend. unfold read_ident, do_memread. erewrite bind_done; [|by rewrite ram_memread by lia].
  assert (words (H := ram_wishbone) base (Z.to_nat 256) d
    = (ascii_code <$> s) ++ 0 :: words (H := ram_wishbone) (base + 4 * S (length s)) (255 - length s) d) as ->.
  { replace (Z.to_nat 256) with (S (length s) + (255 - length s))%nat by lia. rewrite words_app.
    replace (S (length s)) with (length s + 1)%nat at 1 by lia. rewrite words_app, <- app_assoc. f_equal.
    - apply list_eq. intros i. unfold words. rewrite !list_lookup_fmap. destruct (s !! i) as [c|] eqn:E; cbn.
      + pose proof (lookup_lt_Some _ _ _ E). rewrite lookup_seq_lt by done. cbn. f_equal. by apply Hmem.
      + apply lookup_ge_None in E. by rewrite lookup_seq_ge by done.
    - cbn. rewrite Z.mul_0_r, Z.add_0_r. by rewrite Hend. }
  rewrite index_of_zero; [|apply Forall_fmap; eapply Forall_impl; [done|]; cbn; lia].
  erewrite bind_done; [|reflexivity]. rewrite take_app_length. unfold lift.
  rewrite decode_ascii_codes; [done|]. eapply Forall_impl; [done|]. cbn. lia.
Qed.

(** ** Initialisation *)
Lemma control_cmds_spec file : ∀ n i,
  i ∈ control_cmds file n ↔
  ∃ k line, i = n + Z.of_nat k ∧ filter (fun l => init_line l = true) file !! k = Some line ∧ control_line line = true.
Proof.
  induction file as [|line file IH]; intros n i; cbn [control_cmds].
  - split; [by intros H%elem_of_nil|by intros (? & ? & ? & ? & ?)].
  - destruct (init_line line) eqn:E.
    + rewrite elem_of_app, IH, filter_cons_True by done. split.
      * intros [Hi|(k & l & -> & Hk & Hl)].
        -- destruct (control_line line) eqn:Ec; [|by apply elem_of_nil in Hi]. apply list_elem_of_singleton in Hi as ->.
           exists 0%nat, line. split_and!; [lia|done|done].
        -- exists (S k), l. split_and!; [lia|done|done].
      * intros ([|k] & l & -> & Hk & Hl).
        -- injection Hk as ->. left. rewrite Hl. apply list_elem_of_singleton. lia.
        -- right. exists k, l. split_and!; [lia|done|done].
    + rewrite IH, filter_cons_False by congruence. done.
Qed.

Section init_facts.
Context `{HD : Device} `{HS : SdramDefs} (log : dev → list (string * Z)).
Context (log_write : ∀ r v d, log (reg_write r v d) = log d ++ [(r, v)]).
Context (log_read : ∀ r d, log (reg_read r d).2 = log d) (log_elapse : ∀ d, log (elapse d) = log d).

(** The writes of a command, given the line of the generated file that it is from. *)
Definition command_writes (line : text) (entry : Z * Z * Z) : list (string * Z) :=
  let '(a, ba, cmd) := entry in
  [("sdram_dfii_pi0_address", a); ("sdram_dfii_pi0_baddress", ba)]%string
  ++ (if control_line line then [("sdram_dfii_control", cmd)]
      else [("sdram_dfii_pi0_command", cmd); ("sdram_dfii_pi0_command_issue", 1)])%string.

(** The program writes [ws] after what was written before. *)
Definition logs {A} (m : host A) (ws : list (string * Z) → Prop) : Prop :=
  ∀ l, triple (fun d => log d = l) m (fun _ d => ∃ w, ws w ∧ log d = l ++ w).

Definition control_writes (ws : list (string * Z)) : Prop :=
  Forall (fun w => w.1 = "sdram_dfii_control" ∨ w.1 = "ddrphy_en_vtc")%string ws.

Lemma logs_control (f : Z → Z) v :
  logs (reg_value ← rd "sdram_dfii_control"; wr "sdram_dfii_control" (f reg_value) ;;
        if has_reg "ddrphy_en_vtc" then wr "ddrphy_en_vtc" v else mret tt) control_writes.
Proof using log_write log_read.
  intros l d Hd. unfold mbind, host_bind, rd, wr. pose proof (log_read "sdram_dfii_control" d) as Hr.
  destruct (reg_read "sdram_dfii_control" d) as [x d1]. cbn in Hr. destruct (has_reg "ddrphy_en_vtc").
  - eexists _, _. split; [done|]. rewrite !log_write, Hr, Hd, <- app_assoc. eexists. split; [|done].
    repeat constructor; cbn; tauto.
  - eexists _, _. split; [done|]. rewrite !log_write, Hr, Hd. eexists. split; [|done]. repeat constructor; cbn; tauto.
Qed.

Lemma logs_init_cmd controls i line entry :
  (i ∈ controls ↔ control_line line = true) → logs (init_cmd controls (i, entry)) (fun w => w = command_writes line entry).
Proof using log_write log_elapse.
  intros Hi l d Hd. destruct entry as [[a ba] cmd]. unfold init_cmd, command_writes.
  unfold mbind, host_bind, wr, sleep. destruct (control_line line).
  - rewrite bool_decide_true by tauto. eexists _, _. split; [done|]. rewrite log_elapse, !log_write, Hd.
    eexists. split; [done|]. by rewrite <- !app_assoc.
  - rewrite bool_decide_false by (intros H%Hi; done). eexists _, _. split; [done|]. rewrite log_elapse, !log_write, Hd.
    eexists. split; [done|]. by rewrite <- !app_assoc.
Qed.

Lemma logs_init_cmds controls lines : ∀ (k : nat) entries,
  length entries = length lines →
  (∀ i line, lines !! i = Some line → (Z.of_nat (k + i) ∈ controls ↔ control_line line = true)) →
  logs (for_each (zip (Z.of_nat <$> seq k (length entries)) entries) (init_cmd controls))
    (fun w => w = mjoin (zip_with command_writes lines entries)).
Proof using log_write log_elapse.
  induction lines as [|line lines IH]; intros k [|entry entries] Hlen Hc; try done; cbn [length seq fmap list_fmap zip zip_with for_each].
  - intros l d Hd. exists tt, d. split; [done|]. exists []. by rewrite app_nil_r.
  - intros l. eapply triple_bind.
    + apply (logs_init_cmd controls k line entry). specialize (Hc 0%nat line eq_refl). by rewrite Nat.add_0_r in Hc.
    + intros [] d (w & -> & Hw).
      destruct (IH (S k) entries) with (l := log d) (d := d) as (a & d' & E & w' & -> & Hw'); [by injection Hlen| |done|].
      { intros i line' Hi. replace (S k + i)%nat with (k + S i)%nat by lia. by apply Hc. }
      exists a, d'. split; [done|]. eexists. split; [done|]. rewrite Hw', Hw, <- app_assoc. done.
Qed.

End init_facts.

(** A device that records what is written to it. *)
#[local] Instance log_device : Device := {|
  dev := list (string * Z);
  reg_read _ d := (0, d);
  reg_write r v d := d ++ [(r, v)];
  has_reg _ := false;
  elapse d := d;
|}.

