(* ===== verification/ExecutePayload.v ===== *)
(** * The sample program of execute_payload.py

    Models [src/rowhammer_tester/scripts/execute_payload.py]: the sample payload, the
    generator of the data that it reads back, and [execute], which writes both,
    starts the executor, waits for it and reads the scratchpad.  The payload is
    traced through the executor's semantics ([ExecutorSpec]). *)

From S2P Require Import Prelude Isa Executor ExecutorSpec AddressConverter Device HostMem HostScripts ReadLevel ExecHost.
#[local] Open Scope Z_scope.

(** ** The program *)
Section payload.
Context {M : Migen}.

(** [encoder = Encoder(bankbits=3)] *)
Definition sample_encoder : Encoder.encoder := Encoder.MkEncoder 3 1.

Definition at_bank (op : OpCode) (timeslice bank : Z) (row col : option Z) : result Z :=
  address ← Encoder.address sample_encoder None bank row col;
  Encoder.encode op (Encoder.kw_dfi timeslice address).
Definition read_at (timeslice bank col : Z) : result Z := at_bank READ timeslice bank None (Some col).

Definition PAYLOAD : result (list Z) :=
  result_map id
    [Encoder.encode NOOP (Encoder.kw_noop 50);
     at_bank ACT 20 1 (Some 100) None;
     read_at 20 1 13; read_at 30 1 20;
     at_bank PRE 20 1 None None;
     at_bank ACT 20 0 (Some 100) None;
     read_at 30 0 200;
     Encoder.encode LOOP (Encoder.kw_loop (8 - 1) 1);
     read_at 30 0 208; read_at 30 0 216; read_at 30 0 224; read_at 30 0 232;
     read_at 30 0 240; read_at 30 0 248; read_at 30 0 256; read_at 30 0 264;
     read_at 30 0 (Z.lor 300 (Z.shiftl 1 10));
     at_bank ACT 60 2 (Some 150) None;
     at_bank PRE 20 0 None (Some (Z.shiftl 1 10));
     Encoder.encode REF (Encoder.Kwargs (Some 200) None None None);
     Encoder.encode REF (Encoder.Kwargs (Some 200) None None None);
     Encoder.encode NOOP (Encoder.kw_noop 50)].

(** [program += [0] * (size // 4 - len(program))] *)
Definition padded (size : Z) (program : list Z) : list Z :=
  program ++ replicate (Z.to_nat (size / 4 - length program)) 0.
End payload.

(** ** The data *)

(** Byte [n] of [byte_gen]. *)
Definition gen_byte (n : nat) : Z := 16 * (n mod 16)%nat + (n mod 16)%nat.

(** The word of four bytes from position [n] on, the first one lowest. *)
Definition gen_word (n : nat) : Z :=
  foldl (fun word byte => Z.lor (Z.shiftl word 8) byte) 0 (reverse ((fun i => gen_byte (n + i)) <$> seq 0 4)).

(** [count] words of [word_gen(offset)], the next one being number [k] of its group
    of four and starting at byte [n]. *)
Fixpoint gen_words (offset : nat) (count k n : nat) : list Z :=
  match count with
  | O => []
  | S count' =>
      gen_word n
      :: (if (k =? 3)%nat then gen_words offset count' 0 (n + 4 + offset) else gen_words offset count' (S k) (n + 4))
  end.
Definition word_gen (offset count : nat) : list Z := gen_words offset count 0 0.

(** ** The script *)
Section execute.
Context {M : Migen} `{HD : Device} `{HR : !RamOps}.

Definition execute (fuel : nat) (conv : DRAMAddressConverter) (payload_base payload_size scratchpad_base : Z) : host (list Z) :=
  program ← lift PAYLOAD;
  let program := padded payload_size program in
  base ← lift (encode_bus conv 0 100 200 default_base default_bus_width);
  do_memwrite (word_gen 3 128) base 255 ;;
  do_memwrite program payload_base 255 ;;
  ready ← executor_ready;
  hassert ready ;;
  wr "payload_executor_start" 1 ;;
  loop fuel tt (fun _ =>
    ready ← executor_ready;
    if (ready : bool) then mret (true, tt) else sleep ;; mret (false, tt)) ;;
  do_memread (512 / 4) scratchpad_base 255.
End execute.

(** ** What the program does *)

(** A board with four phases, 8 banks and the default payload memory of 32 KiB. *)
Definition sample_cfg : pe_cfg := PeCfg 8192 4 1 0 3 14 10 2.
Definition sample_words : list Z := match PAYLOAD with Ok l => l | Raise _ => [] end.
Definition sample_memory (a : Z) : Z := default 0 (padded 32768 sample_words !! Z.to_nat a).
Definition sample_code : list Decoder.decoded := pe_decode sample_cfg <$> sample_words.

(** The instructions before the loop, the loop, and those after it. *)
Definition sample_program : list ExecutorSpec.block :=
  (Straight <$> take 6 sample_code) ++ [Loop (take 1 (drop 6 sample_code)) (default (pe_decode sample_cfg 0) (sample_code !! 7%nat))]
  ++ (Straight <$> drop 8 sample_code).

Definition issues (op : OpCode) (o : option Decoder.decoded) : bool :=
  match o with Some d => Decoder.op_code d =? op_value op | None => false end.

Lemma sample_holds : holds_program sample_cfg sample_memory sample_program (pe_decode sample_cfg 0).
Proof.
  split_and!; [|repeat constructor; vm_compute; congruence|reflexivity..|vm_compute; congruence].
  assert (program_code sample_program ++ [pe_decode sample_cfg 0] = pe_decode sample_cfg <$> sample_words ++ [0]) as ->
    by reflexivity.
  intros i d Hi. rewrite list_lookup_fmap in Hi. apply fmap_Some in Hi as (w & Hw & ->). f_equal.
  unfold sample_memory. rewrite Z.add_0_l, Nat2Z.id. unfold padded.
  apply lookup_app_Some in Hw as [Hw|[Hlen Hw]]; [by rewrite (lookup_app_l_Some _ _ _ _ Hw)|].
  apply list_lookup_singleton_Some in Hw as [Hi ->]. rewrite lookup_app_r by done.
  rewrite Hi. reflexivity.
Qed.

(** The sample program runs to its end.  Written to an otherwise empty payload
    memory of the default size and started, whenever the DFI is granted, it
    executes for 793 cycles and issues 19 reads, three activations, two
    precharges and two refreshes, and the executor is READY again. *)
Theorem sample_program_runs wait body ins s :
  fsm s = READY → loop_counter s = 0 → execution_inputs wait body ins → length body = 793%nat →
  ∃ os s', pe_run sample_cfg sample_memory ins s = (os, s') ∧ fsm s' = READY ∧ countb executing os = 793%nat
    ∧ ((fun op => countb (issues op) (issued <$> os)) <$> [READ; ACT; PRE; REF] = [19; 3; 2; 2]%nat).
Proof.
  intros Hf Hl Hi Hb.
  destruct (execution_refines sample_cfg sample_memory ltac:(vm_compute; congruence) sample_program (pe_decode sample_cfg 0) wait body ins s
    sample_holds Hf Hl Hi) as (os & s' & E & H1 & _ & _ & H2 & H3).
  - rewrite Hb. vm_compute. reflexivity.
  - exists os, s'. split; [done|]. split; [done|]. split; [rewrite H3; vm_compute; reflexivity|].
    rewrite H2. cbn [fmap list_fmap]. rewrite !countb_app, !countb_replicate by done. vm_compute. reflexivity.
Qed.

Lemma sample_program_runs_witness :
  ∃ os s', pe_run sample_cfg sample_memory (PeIn true false :: [] ++ PeIn false true :: replicate 793 (PeIn false true)) pe_reset
    = (os, s') ∧ fsm s' = READY.
Proof.
  destruct (sample_program_runs [] (replicate 793 (PeIn false true))
    (PeIn true false :: [] ++ PeIn false true :: replicate 793 (PeIn false true)) pe_reset) as (os & s' & H & H1 & _).
  - reflexivity.
  - reflexivity.
  - exists false, false. split; [reflexivity|constructor].
  - reflexivity.
  - exists os, s'. split; [exact H|exact H1].
Defined.

(** The time slices of 200 cycles for REF and of 60 for the last ACT do not fit the
    field of five bits. *)
Example refresh_waits_truncated :
  Decoder.timeslice <$> drop 17 sample_code = [28; 20; 8; 8; 50].
Proof. vm_compute. reflexivity. Qed.

(** The first words of the data, and the skip of three bytes after four words. *)
Example first_words :
  take 5 (word_gen 3 128) = [0x33221100; 0x77665544; 0xbbaa9988; 0xffeeddcc; 0x66554433].
Proof. vm_compute. reflexivity. Qed.
