(* ===== verification/PyCsv.v ===== *)
(** * Comma-separated files

    The part of Python's [csv] module that the targets and the scripts exchange
    [defs.csv] with: [csv.writer] and [csv.reader] with the dialect [excel]
    (fields separated by commas, quotes doubled inside quoted fields, rows ended by
    a carriage return and a newline).  The reader is the state machine of the
    library, fed with the lines of a file opened with [newline='']; what the writer
    wrote, the reader reads back, whatever characters the fields have. *)

From S2P Require Import Prelude.
From S2P Require Import PyString.
#[local] Open Scope Z_scope.

Abbreviation row := (list text).

Definition cr : ascii := "013"%char.
Definition lf : ascii := "010"%char.
Definition comma : ascii := ","%char.
Definition quote : ascii := "034"%char.

Definition is_newline (c : ascii) : bool := bool_decide (c = lf) || bool_decide (c = cr).
Definition special (c : ascii) : bool := is_newline c || bool_decide (c = comma) || bool_decide (c = quote).

(** ** The writer *)
Definition escape (field : text) : text := field ≫= fun c => if bool_decide (c = quote) then [quote; quote] else [c].

(** A field is quoted when it has a special character, or when it is empty and
    alone in its row. *)
Definition write_field (alone : bool) (field : text) : text :=
  if existsb special field || (alone && bool_decide (field = [])) then quote :: escape field ++ [quote] else field.

Fixpoint write_fields (alone : bool) (r : row) : text :=
  match r with
  | [] => []
  | [f] => write_field alone f
  | f :: r' => write_field false f ++ comma :: write_fields false r'
  end.

Definition writerow (r : row) : text := write_fields true r ++ [cr; lf].
Definition writerows (rows : list row) : text := mjoin (writerow <$> rows).

(** ** The lines of a file

    Lines end after [\n], after [\r\n], and after a [\r] that no [\n] follows;
    they keep their ends. *)
Fixpoint lines_from (acc l : text) : list text :=
  match l with
  | [] => match acc with [] => [] | _ => [reverse acc] end
  | c :: l' =>
      if bool_decide (c = lf) then reverse (c :: acc) :: lines_from [] l'
      else if bool_decide (c = cr) then
        match l' with
        | d :: l'' => if bool_decide (d = lf) then reverse (d :: c :: acc) :: lines_from [] l''
                      else reverse (c :: acc) :: lines_from [] l'
        | [] => [reverse (c :: acc)]
        end
      else lines_from (c :: acc) l'
  end.
Definition lines (l : text) : list text := lines_from [] l.

(** ** The reader *)
Inductive pstate :=
  | START_RECORD | START_FIELD | IN_FIELD | IN_QUOTED_FIELD | QUOTE_IN_QUOTED_FIELD | EAT_CRNL.

#[global] Instance pstate_eq_dec : EqDecision pstate.
Proof. solve_decision. Defined.

(** State, characters of the field being read, and fields of the row so far, the
    last two reversed. *)
Record parser := Parser { p_state : pstate; p_field : text; p_fields : list text }.
Definition reset : parser := Parser START_RECORD [] [].

Definition add_char (c : ascii) (s : pstate) (p : parser) : parser := Parser s (c :: p_field p) (p_fields p).
Definition save_field (s : pstate) (p : parser) : parser := Parser s [] (reverse (p_field p) :: p_fields p).
Definition goto (s : pstate) (p : parser) : parser := Parser s (p_field p) (p_fields p).

(** The end of a line, and the states after it. *)
Definition process_eol (p : parser) : parser :=
  match p_state p with
  | START_RECORD | IN_QUOTED_FIELD => p
  | START_FIELD | IN_FIELD | QUOTE_IN_QUOTED_FIELD => save_field START_RECORD p
  | EAT_CRNL => goto START_RECORD p
  end.

Definition process_start_field (p : parser) (c : ascii) : parser :=
  if is_newline c then save_field EAT_CRNL p
  else if bool_decide (c = quote) then goto IN_QUOTED_FIELD p
  else if bool_decide (c = comma) then save_field START_FIELD p
  else add_char c IN_FIELD p.

Definition process_char (p : parser) (c : ascii) : result parser :=
  match p_state p with
  | START_RECORD => Ok (if is_newline c then goto EAT_CRNL p else process_start_field p c)
  | START_FIELD => Ok (process_start_field p c)
  | IN_FIELD =>
      Ok (if is_newline c then save_field EAT_CRNL p
          else if bool_decide (c = comma) then save_field START_FIELD p
          else add_char c IN_FIELD p)
  | IN_QUOTED_FIELD =>
      Ok (if bool_decide (c = quote) then goto QUOTE_IN_QUOTED_FIELD p else add_char c IN_QUOTED_FIELD p)
  | QUOTE_IN_QUOTED_FIELD =>
      Ok (if bool_decide (c = quote) then add_char c IN_QUOTED_FIELD p
          else if bool_decide (c = comma) then save_field START_FIELD p
          else if is_newline c then save_field EAT_CRNL p
          else add_char c IN_FIELD p)
  | EAT_CRNL => if is_newline c then Ok p else Raise CsvError
  end.

Definition process_line (p : parser) (line : text) : result parser :=
  p' ← result_fold process_char p line; Ok (process_eol p').

(** A row ends with the line after which the state is [START_RECORD]; at the end
    of the file an unfinished row is given as it is when it has characters. *)
Fixpoint read_rows (p : parser) (ls : list text) : result (list row) :=
  match ls with
  | [] =>
      Ok (if bool_decide (p_field p ≠ []) || bool_decide (p_state p = IN_QUOTED_FIELD)
          then [reverse (p_fields (save_field START_RECORD p))] else [])
  | l :: ls' =>
      p' ← process_line p l;
      match p_state p' with
      | START_RECORD => rows ← read_rows reset ls'; Ok (reverse (p_fields p') :: rows)
      | _ => read_rows p' ls'
      end
  end.

(** [list(csv.reader(f))] for a file opened with [newline='']. *)
Definition reader (content : text) : result (list row) := read_rows reset (lines content).

(** ** Reading back *)

Ltac member := rewrite !elem_of_cons; auto 6.

(** From a parser that has taken the beginning of a line, the text [l] gives the
    rows [X]. *)
Definition reads (p : parser) (l : text) (X : result (list row)) : Prop :=
  ∀ p0 acc, result_fold process_char p0 (reverse acc) = Ok p → read_rows p0 (lines_from acc l) = X.

Lemma fold_snoc p0 p acc c :
  result_fold process_char p0 (reverse acc) = Ok p →
  result_fold process_char p0 (reverse (c :: acc)) = process_char p c.
Proof.
  rewrite reverse_cons. generalize (reverse acc). intros l. revert p0.
  induction l as [|d l IH]; intros p0 Hp; cbn in *.
  - injection Hp as ->. by destruct (process_char p c).
  - destruct (process_char p0 d); cbn in *; [by apply IH|done].
Qed.

Lemma reads_char p p' c l X :
  is_newline c = false → process_char p c = Ok p' → reads p' l X → reads p (c :: l) X.
Proof.
  unfold is_newline. rewrite orb_false_iff. intros [Hlf Hcr] Hc Hl p0 acc Hp. cbn. rewrite Hlf, Hcr.
  apply Hl. by rewrite (fold_snoc p0 p acc c Hp).
Qed.

(** A line that ends inside a quoted field. *)
Lemma read_rows_quoted p0 acc c p ls :
  p_state p = IN_QUOTED_FIELD → c ≠ quote → result_fold process_char p0 (reverse acc) = Ok p →
  read_rows p0 (reverse (c :: acc) :: ls) = read_rows (add_char c IN_QUOTED_FIELD p) ls.
Proof.
  intros Hs Hc Hp. cbn [read_rows]. unfold process_line. rewrite (fold_snoc p0 p acc c Hp).
  unfold process_char. rewrite Hs, bool_decide_false by done. done.
Qed.

Lemma reads_in_quotes p c l X :
  p_state p = IN_QUOTED_FIELD → c ≠ quote → reads (add_char c IN_QUOTED_FIELD p) l X → reads p (c :: l) X.
Proof.
  intros Hs Hc Hl. assert (process_char p c = Ok (add_char c IN_QUOTED_FIELD p)) as Hpc.
  { unfold process_char. by rewrite Hs, bool_decide_false. }
  destruct (is_newline c) eqn:Hn; [|by eapply reads_char].
  assert (read_rows (add_char c IN_QUOTED_FIELD p) (lines_from [] l) = X) as Hnext by by apply Hl.
  intros p0 acc Hp. cbn [lines_from]. unfold is_newline in Hn. case_bool_decide as Hlf.
  - by rewrite (read_rows_quoted _ _ _ p).
  - rewrite orb_false_l in Hn. rewrite Hn. destruct l as [|d l]; [by rewrite (read_rows_quoted _ _ _ p)|].
    destruct (bool_decide (d = lf)) eqn:Hd; [apply bool_decide_eq_true in Hd|by rewrite (read_rows_quoted _ _ _ p)].
    subst d. apply (Hl p0 (c :: acc)). by rewrite (fold_snoc p0 p acc c Hp).
Qed.

(** The end of a row. *)
Lemma reads_end s f fs l rows :
  s ∈ [START_FIELD; IN_FIELD; QUOTE_IN_QUOTED_FIELD] → read_rows reset (lines l) = Ok rows →
  reads (Parser s f fs) (cr :: lf :: l) (Ok (reverse (reverse f :: fs) :: rows)).
Proof.
  intros Hs Hl p0 acc Hp. cbn [lines_from]. rewrite bool_decide_false, bool_decide_true, bool_decide_true by done.
  cbn [read_rows]. unfold process_line.
  assert (result_fold process_char p0 (reverse (lf :: cr :: acc)) = Ok (save_field EAT_CRNL (Parser s f fs))) as ->.
  { rewrite (fold_snoc p0 (save_field EAT_CRNL (Parser s f fs))); [done|]. rewrite (fold_snoc p0 _ acc cr Hp).
    rewrite !elem_of_cons in Hs. destruct Hs as [->|[->|[->|Hs]]]; [done|done|done|by apply elem_of_nil in Hs]. }
  cbn [mbind result_bind process_eol p_state save_field goto]. change (lines_from [] l) with (lines l). by rewrite Hl.
Qed.

Lemma special_false c : special c = false → is_newline c = false ∧ c ≠ comma ∧ c ≠ quote.
Proof.
  unfold special. rewrite !orb_false_iff. intros [[Hn Hc%bool_decide_eq_false] Hq%bool_decide_eq_false]. done.
Qed.

Lemma reads_escaped f acc fs l X :
  reads (Parser IN_QUOTED_FIELD (reverse f ++ acc) fs) l X → reads (Parser IN_QUOTED_FIELD acc fs) (escape f ++ l) X.
Proof.
  revert acc. induction f as [|c f IH]; intros acc Hl; [done|]. unfold escape. cbn.
  rewrite reverse_cons, <- app_assoc in Hl. specialize (IH (c :: acc) Hl).
  case_bool_decide as Hc; cbn.
  - subst c. eapply reads_char; [done|done|]. eapply reads_char; [done|done|]. exact IH.
  - by apply reads_in_quotes.
Qed.

Lemma reads_plain f acc fs l X :
  existsb special f = false → reads (Parser IN_FIELD (reverse f ++ acc) fs) l X → reads (Parser IN_FIELD acc fs) (f ++ l) X.
Proof.
  revert acc. induction f as [|c f IH]; intros acc Hf Hl; [done|]. cbn in Hf. apply orb_false_iff in Hf as [Hc Hf].
  rewrite reverse_cons, <- app_assoc in Hl. apply special_false in Hc as (Hn & Hc & Hq).
  eapply reads_char; [done| |by apply IH]. cbn. by rewrite Hn, bool_decide_false.
Qed.

(** A field, from the start of a row or after a comma. *)
Lemma reads_field s alone f fs :
  s ∈ [START_RECORD; START_FIELD] →
  ∃ s', (s' = START_RECORD → s = START_RECORD ∧ alone = false)
    ∧ s' ∈ [START_RECORD; START_FIELD; IN_FIELD; QUOTE_IN_QUOTED_FIELD]
    ∧ ∀ l X, reads (Parser s' (reverse f) fs) l X → reads (Parser s [] fs) (write_field alone f ++ l) X.
Proof.
  intros Hs. unfold write_field. rewrite !elem_of_cons in Hs.
  assert (s = START_RECORD ∨ s = START_FIELD) as Hs' by (destruct Hs as [?|[?|Hs]]; [auto|auto|by apply elem_of_nil in Hs]).
  clear Hs. destruct (existsb special f) eqn:Hf; cbn [orb].
  - exists QUOTE_IN_QUOTED_FIELD. split_and!; [done|member|]. intros l X Hl.
    cbn [app]. rewrite <- app_assoc. eapply reads_char; [done|by destruct Hs' as [-> | ->]|].
    apply (reads_escaped f []). rewrite app_nil_r. eapply reads_char; [done|done|]. exact Hl.
  - destruct f as [|c f].
    + destruct alone; cbn.
      * exists QUOTE_IN_QUOTED_FIELD. split_and!; [done|member|]. intros l X Hl.
        eapply reads_char; [done|by destruct Hs' as [-> | ->]|]. eapply reads_char; [done|done|]. exact Hl.
      * exists s. split_and!; [done|destruct Hs' as [-> | ->]; member|done].
    + cbn [bool_decide decide]. rewrite andb_false_r. exists IN_FIELD. split_and!; [done|member|].
      intros l X Hl. cbn in Hf. apply orb_false_iff in Hf as [Hc Hf]. apply special_false in Hc as (Hn & Hc & Hq).
      eapply reads_char; [done| |apply (reads_plain f [c]); [done|by rewrite reverse_cons in Hl]].
      destruct Hs' as [-> | ->]; cbn; unfold process_start_field; by rewrite Hn, !bool_decide_false.
Qed.

Lemma process_comma s f fs :
  s ∈ [START_RECORD; START_FIELD; IN_FIELD; QUOTE_IN_QUOTED_FIELD] →
  process_char (Parser s f fs) comma = Ok (Parser START_FIELD [] (reverse f :: fs)).
Proof.
  rewrite !elem_of_cons. intros [->|[->|[->|[->|Hs%elem_of_nil]]]]; done.
Qed.

Lemma reads_fields s alone r fs l rows :
  s ∈ [START_RECORD; START_FIELD] → r ≠ [] → (s = START_RECORD → length r = 1%nat → alone = true) →
  read_rows reset (lines l) = Ok rows →
  reads (Parser s [] fs) (write_fields alone r ++ cr :: lf :: l) (Ok ((reverse fs ++ r) :: rows)).
Proof.
  intros Hs Hr Ha Hl. revert s alone fs Hs Ha. induction r as [|f r IH]; intros s alone fs Hs Ha; [done|].
  destruct r as [|g r].
  - destruct (reads_field s alone f fs Hs) as (s' & Hrec & Hs' & Hread). cbn [write_fields]. apply Hread.
    replace (reverse fs ++ [f]) with (reverse (reverse (reverse f) :: fs)) by (by rewrite reverse_cons, reverse_involutive).
    apply reads_end; [|done]. assert (s' ≠ START_RECORD) as Hne.
    { intros E. destruct (Hrec E) as [E' E'']. by rewrite Ha in E''. }
    rewrite !elem_of_cons in Hs'. destruct Hs' as [?|[->|[->|[->|Hs'%elem_of_nil]]]]; [done|member|member|member|done].
  - destruct (reads_field s false f fs Hs) as (s' & Hrec & Hs' & Hread).
    change (write_fields alone (f :: g :: r)) with (write_field false f ++ comma :: write_fields false (g :: r)).
    rewrite <- app_assoc. apply Hread. cbn [app]. eapply reads_char; [done|by apply process_comma|].
    rewrite reverse_involutive. replace (reverse fs ++ f :: g :: r) with (reverse (f :: fs) ++ g :: r)
      by (rewrite reverse_cons, <- app_assoc; done).
    apply IH; [done|member|done].
Qed.

(** The rows that the writer wrote are the rows that the reader reads. *)
Lemma reader_writerows rows : reader (writerows rows) = Ok rows.
Proof.
  induction rows as [|r rows IH]; [done|]. change (writerows (r :: rows)) with (writerow r ++ writerows rows).
  unfold reader, writerow in *. rewrite <- app_assoc. cbn [app]. revert IH. generalize (writerows rows). intros l IH.
  destruct r as [|f r].
  - cbn [write_fields app]. change (lines (cr :: lf :: l)) with ([cr; lf] :: lines l). cbn [read_rows]. by rewrite IH.
  - apply (reads_fields START_RECORD true (f :: r) [] _ rows); [member|done|done|exact IH|done].
Qed.
