(* ===== verification/PyJson.v ===== *)
(** * Reading and writing JSON

    The part of [json.loads] that playbook configurations need: objects, arrays,
    strings without escapes, integers and the constants [true], [false] and [null].
    Numbers with a fraction or an exponent and escapes in strings are
    refused; Python reads them, and malformed texts raise [JSONDecodeError], a
    [ValueError].  A text that renders a value, with any white space between its
    parts, is read as that value.  [dump] is [json.dump] with an indentation of four,
    [dump_compact] without; what they write is read back, when strings are printable. *)

From S2P Require Import Prelude.
From S2P Require Import PyString Config.
#[local] Open Scope Z_scope.

Definition is_ws (c : ascii) : bool :=
  bool_decide (c = " "%char) || bool_decide (c = "009"%char) || bool_decide (c = "010"%char) || bool_decide (c = "013"%char).

Fixpoint skip_ws (l : text) : text :=
  match l with
  | c :: l' => if is_ws c then skip_ws l' else l
  | [] => []
  end.

(** Characters of a string that stand for themselves. *)
Definition plain (c : ascii) : bool :=
  negb (bool_decide (c = "034"%char)) && negb (bool_decide (c = "\"%char)) && (32 <=? Z.of_nat (nat_of_ascii c)).

(** The rest of a string up to its closing quote. *)
Fixpoint scan_string (l : text) : option (text * text) :=
  match l with
  | [] => None
  | c :: l' =>
      if bool_decide (c = "034"%char) then Some ([], l')
      else if plain c then '(s, rest) ← scan_string l'; Some (c :: s, rest)
      else None
  end.

Fixpoint scan_digits (l : text) : text * text :=
  match l with
  | c :: l' => match digit_value 10 c with
               | Some _ => let '(ds, rest) := scan_digits l' in (c :: ds, rest)
               | None => ([], l)
               end
  | [] => ([], [])
  end.

(** An integer that no fraction or exponent follows, without leading zeros. *)
Definition scan_nat (l : text) : option (Z * text) :=
  let '(ds, rest) := scan_digits l in
  let leading := match ds with "0"%char :: _ :: _ => true | _ => false end in
  let more := match rest with c :: _ => bool_decide (c ∈ ["."; "e"; "E"]%char) | [] => false end in
  match ds with
  | [] => None
  | _ => if leading || more then None else z ← digits_value 10 0 ds; Some (z, rest)
  end.

Definition expect (w : text) (v : json) (l : text) : option (json * text) :=
  if startswith w l then Some (v, drop (length w) l) else None.

(** [dict(pairs)]: a later value of a key replaces an earlier one. *)
Definition dict_of (pairs : dict) : dict := foldl (fun d kv => dict_set d kv.1 kv.2) [] pairs.

(** The text after white space and the character [c]. *)
Definition after (c : ascii) (l : text) : option text :=
  match skip_ws l with
  | d :: l' => if bool_decide (d = c) then Some l' else None
  | [] => None
  end.

Fixpoint parse_value (fuel : nat) (l : text) : option (json * text) :=
  match fuel with
  | O => None
  | S fuel' =>
      match skip_ws l with
      | c :: l' =>
          if bool_decide (c = "034"%char) then '(s, rest) ← scan_string l'; Some (JStr (String.string_of_list_ascii s), rest)
          else if bool_decide (c = "["%char) then
            match after "]" l' with
            | Some rest => Some (JList [], rest)
            | None => '(vs, rest) ← parse_elements fuel' l'; Some (JList vs, rest)
            end
          else if bool_decide (c = "{"%char) then
            match after "}" l' with
            | Some rest => Some (JObj [], rest)
            | None => '(kvs, rest) ← parse_members fuel' l'; Some (JObj (dict_of kvs), rest)
            end
          else if bool_decide (c = "-"%char) then '(z, rest) ← scan_nat l'; Some (JNum (- z), rest)
          else if bool_decide (c = "t"%char) then expect (chars "rue") (JBool true) l'
          else if bool_decide (c = "f"%char) then expect (chars "alse") (JBool false) l'
          else if bool_decide (c = "n"%char) then expect (chars "ull") JNull l'
          else '(z, rest) ← scan_nat (c :: l'); Some (JNum z, rest)
      | [] => None
      end
  end
with parse_elements (fuel : nat) (l : text) : option (list json * text) :=
  match fuel with
  | O => None
  | S fuel' =>
      '(v, l1) ← parse_value fuel' l;
      match after "," l1 with
      | Some l2 => '(vs, rest) ← parse_elements fuel' l2; Some (v :: vs, rest)
      | None => rest ← after "]" l1; Some ([v], rest)
      end
  end
with parse_members (fuel : nat) (l : text) : option (dict * text) :=
  match fuel with
  | O => None
  | S fuel' =>
      l1 ← after "034" l;
      '(k, l2) ← scan_string l1;
      l3 ← after ":" l2;
      '(v, l4) ← parse_value fuel' l3;
      let kv := (String.string_of_list_ascii k, v) in
      match after "," l4 with
      | Some l5 => '(kvs, rest) ← parse_members fuel' l5; Some (kv :: kvs, rest)
      | None => rest ← after "}" l4; Some ([kv], rest)
      end
  end.

(** [json.loads]; every call takes a character or is one of two calls at the same
    position, so that the fuel is enough for every text. *)
Definition loads (l : text) : result json :=
  match parse_value (2 * length l + 2) l with
  | Some (v, rest) => match skip_ws rest with [] => Ok v | _ => Raise ValueError end
  | None => Raise ValueError
  end.

(** ** Texts that render a value *)
Definition white (w : text) : Prop := Forall is_ws w.
Definition quoted (s : string) : text := "034"%char :: chars s ++ ["034"%char].
Definition plain_string (s : string) : Prop := Forall plain (chars s).

Inductive renders : json → text → Prop :=
  | renders_num z : renders (JNum z) (chars (pretty z))
  | renders_true : renders (JBool true) (chars "true")
  | renders_false : renders (JBool false) (chars "false")
  | renders_null : renders JNull (chars "null")
  | renders_str s : plain_string s → renders (JStr s) (quoted s)
  | renders_nil w : white w → renders (JList []) ("["%char :: w ++ ["]"%char])
  | renders_list l t : elements l t → renders (JList l) ("["%char :: t ++ ["]"%char])
  | renders_empty w : white w → renders (JObj []) ("{"%char :: w ++ ["}"%char])
  | renders_obj d t : members d t → NoDup d.*1 → renders (JObj d) ("{"%char :: t ++ ["}"%char])
with elements : list json → text → Prop :=
  | elements_one v t w w' : renders v t → white w → white w' → elements [v] (w ++ t ++ w')
  | elements_cons v t w w' l ts :
      renders v t → white w → white w' → elements l ts → elements (v :: l) (w ++ t ++ w' ++ ","%char :: ts)
with members : dict → text → Prop :=
  | members_one k v t w1 w2 w3 w4 :
      plain_string k → renders v t → white w1 → white w2 → white w3 → white w4 →
      members [(k, v)] (w1 ++ quoted k ++ w2 ++ ":"%char :: w3 ++ t ++ w4)
  | members_cons k v t w1 w2 w3 w4 d ts :
      plain_string k → renders v t → white w1 → white w2 → white w3 → white w4 → members d ts →
      members ((k, v) :: d) (w1 ++ quoted k ++ w2 ++ ":"%char :: w3 ++ t ++ w4 ++ ","%char :: ts).

Scheme renders_ind' := Minimality for renders Sort Prop
  with elements_ind' := Minimality for elements Sort Prop
  with members_ind' := Minimality for members Sort Prop.
Combined Scheme rendering_ind from renders_ind', elements_ind', members_ind'.

(** *** White space and strings *)
Lemma skip_white w l : white w → skip_ws (w ++ l) = skip_ws l.
Proof. induction 1 as [|c w Hc _ IH]; [done|]. cbn. by destruct (is_ws c). Qed.

Lemma skip_head c l : is_ws c = false → skip_ws (c :: l) = c :: l.
Proof. intros Hc. cbn. by rewrite Hc. Qed.

Lemma after_here w c l : white w → is_ws c = false → after c (w ++ c :: l) = Some l.
Proof. intros Hw Hc. unfold after. rewrite skip_white, skip_head by done. by rewrite bool_decide_true. Qed.

Lemma after_other w c d l : white w → is_ws d = false → d ≠ c → after c (w ++ d :: l) = None.
Proof. intros Hw Hd Hne. unfold after. rewrite skip_white, skip_head by done. by rewrite bool_decide_false. Qed.

Lemma scan_plain s l : Forall plain s → scan_string (s ++ "034"%char :: l) = Some (s, l).
Proof.
  induction 1 as [|c s Hc _ IH]; [done|]. cbn. unfold plain in Hc at 1.
  destruct (bool_decide (c = "034"%char)) eqn:Eq; [done|]. destruct (plain c) eqn:E; [by rewrite IH|].
  unfold plain in E. rewrite Eq in E. by rewrite E in Hc.
Qed.

Lemma string_chars s : String.string_of_list_ascii (chars s) = s.
Proof. apply String.string_of_list_ascii_of_string. Qed.

(** *** Numbers *)

(** What may follow a value. *)
Definition closes (l : text) : Prop :=
  match l with c :: _ => is_ws c || bool_decide (c ∈ [","; "]"; "}"]%char) | [] => True end.

Lemma closes_more l : closes l → match l with c :: _ => digit_value 10 c = None ∧ bool_decide (c ∈ ["."; "e"; "E"]%char) = false | [] => True end.
Proof. destruct l as [|c l]; [done|]. by destruct c as [[] [] [] [] [] [] [] []]; vm_compute. Qed.

Lemma scan_digits_app ds v rest :
  digits_value 10 0 ds = Some v → closes rest → scan_digits (ds ++ rest) = (ds, rest).
Proof.
  generalize 0. induction ds as [|c ds IH]; intros acc Hv Hr; cbn in *.
  - destruct rest as [|c rest]; [done|]. apply closes_more in Hr as [Hd _]. cbn. by rewrite Hd.
  - destruct (digit_value 10 c) as [d|]; cbn in Hv; [|done]. by rewrite (IH _ Hv Hr).
Qed.

Lemma pretty_N_head x s : (0 < x)%N → ∃ c l, chars (pretty_N_go x s) = c :: l ∧ c ≠ "0"%char.
Proof.
  revert s. induction (N.lt_wf_0 x) as [x _ IH]; intros s Hx. rewrite pretty_N_go_step by done.
  destruct (decide (x < 10)%N) as [Hlt|Hge].
  - rewrite N.div_small, pretty_N_go_0, N.mod_small by done. eexists _, _. split; [done|].
    assert (x = 1 ∨ x = 2 ∨ x = 3 ∨ x = 4 ∨ x = 5 ∨ x = 6 ∨ x = 7 ∨ x = 8 ∨ x = 9)%N as Hc by lia.
    destruct_or! Hc; subst; done.
  - apply IH; [apply N.div_lt; lia|]. apply N.div_str_pos. lia.
Qed.

Lemma scan_nat_pretty z rest : 0 ≤ z → closes rest → scan_nat (chars (pretty z) ++ rest) = Some (z, rest).
Proof.
  intros Hz Hr. pose proof (closes_more _ Hr) as Hm. destruct z as [|p|p]; [| |lia].
  - unfold scan_nat. rewrite (scan_digits_app (chars (pretty 0)) 0) by done. cbn.
    destruct rest as [|c rest]; [done|]. destruct Hm as [_ ->]. done.
  - destruct (pretty_N_go_chars (Npos p) "") as (l & E & _ & _ & Hne & Hv).
    destruct (pretty_N_head (Npos p) "") as (c & l' & E' & Hc); [done|].
    assert (chars (pretty (Z.pos p)) = l) as ->.
    { change (pretty (Z.pos p)) with (pretty_N_go (Npos p) ""). rewrite E. apply app_nil_r. }
    rewrite E in E'. rewrite app_nil_r in E'. subst l. unfold scan_nat. rewrite (scan_digits_app _ _ _ Hv Hr).
    assert ((match c :: l' with "0"%char :: _ :: _ => true | _ => false end) = false) as ->.
    { destruct l'; [by destruct c as [[] [] [] [] [] [] [] []]|]. by destruct c as [[] [] [] [] [] [] [] []]. }
    cbn [orb]. assert ((match rest with c :: _ => bool_decide (c ∈ ["."; "e"; "E"]%char) | [] => false end) = false) as ->.
    { destruct rest as [|d rest]; [done|]. apply Hm. }
    rewrite Hv. done.
Qed.

(** The first character of a value. *)
Lemma renders_head v t :
  renders v t → ∃ c t', t = c :: t' ∧ is_ws c = false ∧ c ≠ "]"%char ∧ c ≠ "}"%char.
Proof.
  destruct 1 as [z| | | |s _|w _|l t _|w _|d t _ _]; try (eexists _, _; split_and!; [done|done|done|done]).
  destruct z as [|p|p]; [eexists _, _; split_and!; [done|done|done|done]| |eexists _, _; split_and!; [done|done|done|done]].
  change (pretty (Z.pos p)) with (pretty_N_go (Npos p) "").
  destruct (pretty_N_go_chars (Npos p) "") as (l & E & _ & _ & Hne & Hv). rewrite E, app_nil_r.
  destruct l as [|c l]; [by destruct Hne|]. exists c, l. split; [done|].
  cbn in Hv. destruct (digit_value 10 c) eqn:Ed; [|done]. clear -Ed. revert Ed.
  by destruct c as [[] [] [] [] [] [] [] []]; vm_compute.
Qed.

Lemma dict_set_fresh d k v : k ∉ d.*1 → dict_set d k v = d ++ [(k, v)].
Proof.
  induction d as [|[k' v'] d IH]; cbn; [done|]. rewrite not_elem_of_cons. intros [Hk Hd].
  by rewrite bool_decide_false, IH by done.
Qed.

Lemma dict_of_distinct d : NoDup d.*1 → dict_of d = d.
Proof.
  unfold dict_of. enough (∀ acc, NoDup (acc ++ d).*1 → foldl (fun d kv => dict_set d kv.1 kv.2) acc d = acc ++ d) as H
    by (intros Hd; by apply (H [])).
  induction d as [|[k v] d IH]; intros acc Hnd; cbn [foldl fst snd]; [by rewrite app_nil_r|].
  rewrite dict_set_fresh.
  - rewrite IH; [by rewrite <- app_assoc|]. by rewrite <- app_assoc.
  - rewrite fmap_app in Hnd. apply NoDup_app in Hnd as (_ & Hd & _). intros Hk. apply (Hd k Hk). apply elem_of_cons. by left.
Qed.

Definition reads_value (v : json) (t : text) : Prop :=
  ∀ (f : nat) w rest, white w → closes rest → (2 * length t + 1 ≤ f)%nat → parse_value f (w ++ t ++ rest) = Some (v, rest).
Definition reads_elements (l : list json) (t : text) : Prop :=
  (∀ rest, after "]" (t ++ rest) = None)
  ∧ ∀ (f : nat) rest, (2 * length t + 2 ≤ f)%nat → parse_elements f (t ++ "]"%char :: rest) = Some (l, rest).
Definition reads_members (d : dict) (t : text) : Prop :=
  (∀ rest, after "}" (t ++ rest) = None)
  ∧ ∀ (f : nat) rest, (2 * length t + 2 ≤ f)%nat → parse_members f (t ++ "}"%char :: rest) = Some (d, rest).

Lemma closes_white w c rest : white w → closes (c :: rest) → closes (w ++ c :: rest).
Proof. intros [|d w' Hd _] Hc; [done|]. cbn. by destruct (is_ws d). Qed.

Lemma after_value v t w rest : white w → renders v t → after "]" (w ++ t ++ rest) = None.
Proof. intros Hw (c & t' & -> & Hc & Hb & _)%renders_head. by apply after_other. Qed.

Lemma parse_value_head (f : nat) w c l :
  white w → is_ws c = false → parse_value (S f) (w ++ c :: l) = parse_value (S f) (c :: l).
Proof. intros Hw Hc. cbn [parse_value]. by rewrite skip_white by done. Qed.

Lemma reads_num z : reads_value (JNum z) (chars (pretty z)).
Proof.
  intros [|f] w rest Hw Hr Hf; [lia|]. destruct (renders_head (JNum z) (chars (pretty z))) as (c & t' & E & Hc & _); [constructor|].
  rewrite E. cbn [app]. rewrite parse_value_head by done. cbn [parse_value]. rewrite skip_head by done.
  destruct (decide (0 ≤ z)) as [Hz|Hz].
  - pose proof (scan_nat_pretty z rest Hz Hr) as Hs. rewrite E in Hs. cbn [app] in Hs. rewrite Hs.
    assert (∃ d, digit_value 10 c = Some d) as [d Hd].
    { clear -Hs. unfold scan_nat in Hs. cbn in Hs. destruct (digit_value 10 c); [by eexists|done]. }
    rewrite !bool_decide_false by (intros ->; discriminate Hd). done.
  - destruct z as [|p|p]; try lia. change (chars (pretty (Z.neg p))) with ("-"%char :: chars (pretty (Z.pos p))) in E.
    injection E as <- <-. cbn [bool_decide decide decide_rel]. 
    change (bool_decide ("-"%char = "034"%char)) with false. change (bool_decide ("-"%char = "["%char)) with false.
    change (bool_decide ("-"%char = "{"%char)) with false. change (bool_decide ("-"%char = "-"%char)) with true. cbv iota.
    by rewrite scan_nat_pretty.
Qed.

Lemma reads_quoted s : plain_string s → reads_value (JStr s) (quoted s).
Proof.
  intros Hs [|f] w rest Hw Hr Hf; [lia|]. unfold quoted. cbn [app]. rewrite parse_value_head by done.
  cbn [parse_value]. rewrite skip_head by done. rewrite bool_decide_true by done.
  rewrite <- app_assoc. cbn [app]. rewrite scan_plain by done. cbn. by rewrite string_chars.
Qed.

(** The opening bracket of an array or object. *)
Lemma parse_array (f : nat) w l :
  white w → parse_value (S f) (w ++ "["%char :: l)
  = match after "]" l with
    | Some rest => Some (JList [], rest)
    | None => '(vs, rest) ← parse_elements f l; Some (JList vs, rest)
    end.
Proof. intros Hw. rewrite parse_value_head by done. reflexivity. Qed.

Lemma parse_object (f : nat) w l :
  white w → parse_value (S f) (w ++ "{"%char :: l)
  = match after "}" l with
    | Some rest => Some (JObj [], rest)
    | None => '(kvs, rest) ← parse_members f l; Some (JObj (dict_of kvs), rest)
    end.
Proof. intros Hw. rewrite parse_value_head by done. reflexivity. Qed.

(** A key and its value, up to what follows. *)
Lemma parse_member (f : nat) k v t w1 w2 w3 w4 c rest :
  plain_string k → reads_value v t → white w1 → white w2 → white w3 → white w4 →
  closes (c :: rest) → (2 * length t + 1 ≤ f)%nat →
  parse_members (S f) (w1 ++ quoted k ++ w2 ++ ":"%char :: w3 ++ t ++ w4 ++ c :: rest)
  = match after "," (w4 ++ c :: rest) with
    | Some l5 => '(kvs, rest) ← parse_members f l5; Some ((k, v) :: kvs, rest)
    | None => rest ← after "}" (w4 ++ c :: rest); Some ([(k, v)], rest)
    end.
Proof.
  intros Hk Hv H1 H2 H3 H4 Hc Hf. cbn [parse_members]. unfold quoted. cbn [app].
  rewrite after_here by done. cbn [mbind option_bind]. rewrite <- app_assoc. cbn [app]. rewrite scan_plain by done.
  cbn [mbind option_bind]. rewrite after_here by done. cbn [mbind option_bind].
  rewrite Hv by (done || by apply closes_white). cbn [mbind option_bind]. by rewrite string_chars.
Qed.

Lemma rendering_reads :
  (∀ v t, renders v t → reads_value v t) ∧ (∀ l t, elements l t → reads_elements l t)
  ∧ (∀ d t, members d t → reads_members d t).
Proof.
  apply rendering_ind.
  - apply reads_num.
  - intros [|f] w rest Hw _ Hf; [lia|]. cbn [chars String.list_ascii_of_string app]. rewrite parse_value_head by done. reflexivity.
  - intros [|f] w rest Hw _ Hf; [lia|]. cbn [chars String.list_ascii_of_string app]. rewrite parse_value_head by done. reflexivity.
  - intros [|f] w rest Hw _ Hf; [lia|]. cbn [chars String.list_ascii_of_string app]. rewrite parse_value_head by done. reflexivity.
  - apply reads_quoted.
  - intros w' Hw' [|f] w rest Hw _ Hf; [lia|]. cbn [app]. rewrite <- app_assoc, parse_array by done. cbn [app]. by rewrite after_here.
  - intros l t _ [Ha He] [|f] w rest Hw _ Hf; [lia|]. cbn [app]. rewrite <- app_assoc, parse_array, Ha by done.
    cbn [app]. cbn in Hf. rewrite length_app in Hf. cbn in Hf. by rewrite He by lia.
  - intros w' Hw' [|f] w rest Hw _ Hf; [lia|]. cbn [app]. rewrite <- app_assoc, parse_object by done. cbn [app]. by rewrite after_here.
  - intros d t _ [Ha Hm] Hd [|f] w rest Hw _ Hf; [lia|]. cbn [app]. rewrite <- app_assoc, parse_object, Ha by done.
    cbn [app]. cbn in Hf. rewrite length_app in Hf. cbn in Hf. rewrite Hm by lia. cbn. by rewrite dict_of_distinct.
  - intros v t w w' Hv Hread Hw Hw'. split; [intros rest; rewrite <- !app_assoc; by eapply after_value|].
    intros [|f] rest Hf; [lia|]. rewrite !length_app in Hf. cbn [parse_elements]. rewrite <- !app_assoc.
    rewrite Hread by (done || lia || by apply closes_white). cbn [mbind option_bind].
    by rewrite after_other, after_here.
  - intros v t w w' l ts Hv Hread Hw Hw' _ [_ Hl]. split; [intros rest; rewrite <- !app_assoc; by eapply after_value|].
    intros [|f] rest Hf; [lia|]. rewrite !length_app in Hf. cbn in Hf. cbn [parse_elements]. rewrite <- !app_assoc. cbn [app].
    rewrite Hread by (done || lia || by apply closes_white). cbn [mbind option_bind].
    rewrite after_here by done. by rewrite Hl by lia.
  - intros k v t w1 w2 w3 w4 Hk _ Hread H1 H2 H3 H4. split; [intros rest; rewrite <- app_assoc; by apply after_other|].
    intros [|f] rest Hf; [lia|]. rewrite !length_app in Hf. cbn in Hf. rewrite !length_app in Hf. rewrite <- !app_assoc. cbn [app].
    rewrite <- !app_assoc. rewrite parse_member with (v := v) by (done || lia). by rewrite after_other, after_here.
  - intros k v t w1 w2 w3 w4 d ts Hk _ Hread H1 H2 H3 H4 _ [_ Hd]. split; [intros rest; rewrite <- app_assoc; by apply after_other|].
    intros [|f] rest Hf; [lia|]. rewrite !length_app in Hf. cbn in Hf. rewrite !length_app in Hf. cbn in Hf.
    rewrite <- !app_assoc. cbn [app]. rewrite <- !app_assoc. cbn [app].
    rewrite parse_member with (v := v) by (done || lia). rewrite after_here by done. by rewrite Hd by lia.
Qed.

Lemma loads_renders w t w' v : white w → renders v t → white w' → loads (w ++ t ++ w') = Ok v.
Proof.
  intros Hw Hv Hw'. unfold loads. destruct rendering_reads as [Hread _]. rewrite (Hread v t Hv).
  - rewrite <- (app_nil_r w'), skip_white by done. done.
  - done.
  - destruct Hw' as [|c l Hc _]; [done|]. cbn. by destruct (is_ws c).
  - rewrite !length_app. lia.
Qed.

(** ** Writing JSON

    What is written after an opening bracket, before a closing one, and after a
    comma, at a level of nesting: with [indent=4] new lines, else nothing or one
    space. *)
Record layout := Layout { pad : nat → text; gap : nat → text }.
Definition newline_indent (level : nat) : text := "010"%char :: replicate (4 * level) " "%char.
Definition indented : layout := Layout newline_indent newline_indent.
Definition compact : layout := Layout (fun _ => []) (fun _ => [" "%char]).

(** Characters outside of the printable ASCII ones are written as escapes. *)
Definition printable (c : ascii) : bool := plain c && (Z.of_nat (nat_of_ascii c) <? 127).
Definition escape_char (c : ascii) : text :=
  if printable c then [c]
  else "\"%char ::
    match c with
    | "034" | "\" => [c]
    | "010" => ["n"] | "013" => ["r"] | "009" => ["t"] | "012" => ["f"] | "008" => ["b"]
    | _ => "u"%char :: hex_digits 4 (Z.of_nat (nat_of_ascii c))
    end%char.
Definition dump_str (s : string) : text := "034"%char :: (chars s ≫= escape_char) ++ ["034"%char].

Fixpoint join (sep : text) (ts : list text) : text :=
  match ts with
  | [] => []
  | [t] => t
  | t :: ts' => t ++ sep ++ join sep ts'
  end.

Fixpoint dump_as (s : layout) (level : nat) (v : json) : text :=
  match v with
  | JNull => chars "null"
  | JBool b => chars (if b then "true" else "false")
  | JNum z => chars (pretty z)
  | JStr t => dump_str t
  | JList [] => chars "[]"
  | JList l =>
      "["%char :: pad s (S level) ++ join (","%char :: gap s (S level)) (dump_as s (S level) <$> l)
      ++ pad s level ++ ["]"%char]
  | JObj [] => chars "{}"
  | JObj d =>
      "{"%char :: pad s (S level)
      ++ join (","%char :: gap s (S level))
           ((fun kv => dump_str kv.1 ++ chars ": " ++ dump_as s (S level) kv.2) <$> d)
      ++ pad s level ++ ["}"%char]
  end.

(** [json.dump(v, f, indent=4)] and [json.dump(v, f)] *)
Definition dump (v : json) : text := dump_as indented 0 v.
Definition dump_compact (v : json) : text := dump_as compact 0 v.

(** Values whose strings are printable and whose objects have distinct keys. *)
Definition printable_string (s : string) : Prop := Forall printable (chars s).
Fixpoint writable (v : json) : Prop :=
  match v with
  | JNull | JBool _ | JNum _ => True
  | JStr s => printable_string s
  | JList l => foldr (fun v P => writable v ∧ P) True l
  | JObj d => NoDup d.*1 ∧ foldr (fun kv P => printable_string kv.1 ∧ writable kv.2 ∧ P) True d
  end.

Definition blank (s : layout) : Prop := ∀ level, white (pad s level) ∧ white (gap s level).
Lemma blank_indented : blank indented.
Proof. intros n. split; (constructor; [done|]; by apply Forall_replicate). Qed.
Lemma blank_compact : blank compact.
Proof. intros n. split; repeat constructor. Qed.

Lemma dump_str_quoted s : printable_string s → plain_string s ∧ dump_str s = quoted s.
Proof.
  unfold printable_string, plain_string, dump_str, quoted. intros Hs. split.
  - eapply Forall_impl; [done|]. intros c Hc. unfold printable in Hc. by apply andb_prop_elim in Hc as [? _].
  - do 2 f_equal. induction Hs as [|c l Hc _ IH]; [done|]. cbn. rewrite IH. unfold escape_char. by destruct (printable c).
Qed.

(** Induction on JSON values through their lists. *)
Section json_induction.
Context (P : json → Prop) (Hnull : P JNull) (Hnum : ∀ z, P (JNum z)) (Hbool : ∀ b, P (JBool b)) (Hstr : ∀ s, P (JStr s)).
Context (Hlist : ∀ l, Forall P l → P (JList l)) (Hobj : ∀ d, Forall (fun kv => P kv.2) d → P (JObj d)).

Fixpoint json_ind' (v : json) : P v :=
  match v with
  | JNull => Hnull
  | JNum z => Hnum z
  | JBool b => Hbool b
  | JStr s => Hstr s
  | JList l => Hlist l ((fix go l : Forall P l := match l with [] => Forall_nil_2 _ | v :: l' => Forall_cons_2 _ _ _ (json_ind' v) (go l') end) l)
  | JObj d =>
      Hobj d ((fix go (d : dict) : Forall (fun kv => P kv.2) d :=
        match d with [] => Forall_nil_2 _ | kv :: d' => Forall_cons_2 (fun kv => P kv.2) _ _ (json_ind' kv.2) (go d') end) d)
  end.
End json_induction.

Section dump_reads.
Context (s : layout) (Hs : blank s).

Lemma elements_dump level l w w' :
  l ≠ [] → white w → white w' → Forall (fun v => renders v (dump_as s (S level) v)) l →
  elements l (w ++ join (","%char :: gap s (S level)) (dump_as s (S level) <$> l) ++ w').
Proof.
  intros Hl Hw Hw' Hall. revert w Hw Hl. induction Hall as [|v l Hv Hall IH]; intros w Hw Hl; [done|].
  destruct l as [|v' l]; [by constructor|].
  change (dump_as s (S level) <$> v :: v' :: l) with (dump_as s (S level) v :: (dump_as s (S level) <$> v' :: l)).
  specialize (IH (gap s (S level)) (proj2 (Hs _)) ltac:(done)). revert IH.
  change (join ?q (?a :: (dump_as s (S level) <$> v' :: l))) with (a ++ q ++ join q (dump_as s (S level) <$> v' :: l)).
  generalize (join (","%char :: gap s (S level)) (dump_as s (S level) <$> v' :: l)). intros ts IH.
  rewrite <- !app_assoc. cbn [app]. apply (elements_cons v _ w []); (done || constructor).
Qed.

Lemma members_dump level d w w' :
  d ≠ [] → white w → white w' →
  Forall (fun kv => printable_string kv.1 ∧ renders kv.2 (dump_as s (S level) kv.2)) d →
  members d (w ++ join (","%char :: gap s (S level))
    ((fun kv => dump_str kv.1 ++ chars ": " ++ dump_as s (S level) kv.2) <$> d) ++ w').
Proof.
  intros Hd Hw Hw' Hall. revert w Hw Hd. induction Hall as [|[k v] d [Hk Hv] Hall IH]; intros w Hw Hd; [done|].
  cbn [fst snd] in *. apply dump_str_quoted in Hk as [Hk Ek].
  destruct d as [|kv d].
  - cbn [fmap list_fmap join fst snd]. rewrite Ek, <- !app_assoc. cbn [app].
    apply (members_one k v _ w [] [" "%char]); (done || by repeat constructor).
  - set (item := fun kv : string * json => dump_str kv.1 ++ chars ": " ++ dump_as s (S level) kv.2) in *.
    change (item <$> (k, v) :: kv :: d) with (item (k, v) :: (item <$> kv :: d)).
    specialize (IH (gap s (S level)) (proj2 (Hs _)) ltac:(done)). revert IH.
    change (join ?q (?a :: (item <$> kv :: d))) with (a ++ q ++ join q (item <$> kv :: d)).
    generalize (join (","%char :: gap s (S level)) (item <$> kv :: d)). intros ts IH.
    unfold item. cbn [fst snd]. rewrite Ek, <- !app_assoc. cbn [app].
    apply (members_cons k v _ w [] [" "%char] []); (done || by repeat constructor).
Qed.

Lemma renders_dump v : ∀ level, writable v → renders v (dump_as s level v).
Proof.
  induction v as [|z|b|t|l IH|d IH] using json_ind'; intros level Hw.
  - constructor.
  - constructor.
  - destruct b; constructor.
  - cbn. destruct (dump_str_quoted t Hw) as [Hp ->]. by constructor.
  - destruct l as [|v l]; [apply (renders_nil []); constructor|]. cbn [dump_as]. 
    assert (Forall (fun v => renders v (dump_as s (S level) v)) (v :: l)) as Hall.
    { clear -IH Hw. induction IH as [|u us Hv _ IHl]; [done|]. destruct Hw as [Hw Hws]. constructor; [by apply Hv|by apply IHl]. }
    rewrite !app_assoc. constructor. rewrite <- app_assoc.
    by apply elements_dump; [done|apply Hs|apply Hs|].
  - destruct Hw as [Hnd Hw]. destruct d as [|kv d]; [apply (renders_empty []); constructor|]. cbn [dump_as].
    assert (Forall (fun kv => printable_string kv.1 ∧ renders kv.2 (dump_as s (S level) kv.2)) (kv :: d)) as Hall.
    { clear -IH Hw. induction IH as [|u us Hv _ IHl]; [done|]. destruct Hw as (Hk & Hw & Hws).
      constructor; [by split; [|apply Hv]|by apply IHl]. }
    rewrite !app_assoc. constructor; [|done]. rewrite <- app_assoc.
    by apply members_dump; [done|apply Hs|apply Hs|].
Qed.

Lemma loads_dump_as v : writable v → loads (dump_as s 0 v) = Ok v.
Proof.
  intros Hv. pose proof (loads_renders [] (dump_as s 0 v) [] v ltac:(constructor) (renders_dump v 0 Hv) ltac:(constructor)) as E.
  by rewrite app_nil_r in E.
Qed.
End dump_reads.

(** What [json.dump] wrote, [json.load] reads. *)
Lemma loads_dump v : writable v → loads (dump v) = Ok v.
Proof. apply loads_dump_as, blank_indented. Qed.

Lemma loads_compact v : writable v → loads (dump_compact v) = Ok v.
Proof. apply loads_dump_as, blank_compact. Qed.
