(* ===== verification/GeneratedFiles.v ===== *)
(** * Files between the targets and the scripts

    Building a target writes files for the scripts into [build/<target>/]:
    [defs.csv] with the target's name and addresses and [litedram_settings.json]
    with the settings of the memory controller.  Models [LiteDRAMSettingsEncoder]
    and [configure_generated_files] of [src/rowhammer_tester/targets/common.py],
    and the other side in [src/rowhammer_tester/scripts/utils.py]:
    [discover_generated_files_dir], [get_generated_file], [get_generated_defs],
    [ReadonlySettings], [get_litedram_settings] and [litex_server].  The file
    system is a map from absolute paths to contents, whose directories are implied
    by the paths; [sdram_init.py] is written by LiteDRAM. *)

From stdpp Require Import gmap.
From S2P Require Import Prelude PyString PyCsv PyJson Config.
#[local] Open Scope Z_scope.

(** ** Paths *)
Definition slash : ascii := "/"%char.

(** [os.path.join(a, b)] *)
Definition path_join (a b : text) : text :=
  if bool_decide (head b = Some slash) then b
  else if bool_decide (a = []) || bool_decide (last a = Some slash) then a ++ b
  else a ++ slash :: b.

(** [os.path.dirname(p)]: the text up to the last slash, less the slashes at its
    end when it has another character. *)
Definition rstrip_slashes (l : text) : text :=
  reverse ((fix go l := match l with c :: l' => if bool_decide (c = slash) then go l' else l | [] => [] end) (reverse l)).
Definition upto_slash (p : text) : text :=
  reverse ((fix go l := match l with c :: l' => if bool_decide (c = slash) then l else go l' | [] => [] end) (reverse p)).
Definition dirname (p : text) : text :=
  match rstrip_slashes (upto_slash p) with [] => upto_slash p | l => l end.

Abbreviation files := (gmap text text).

(** ** The target's side *)

(** The arguments that are written to [defs.csv], as strings. *)
Record net_args := NetArgs {
  ip_address : text;
  mac_address : text;
  udp_port : text;
  sys_clk_freq : text;
}.

(** Python objects in the settings: those of LiteDRAM's settings classes with their
    attributes, migen's signals with their reset value and constants, plain values,
    and other objects. *)
#[local] Set Warnings "-register-all".
Inductive pyobj :=
  | OSettings (vars : list (string * pyobj))
  | OSignal (reset : pyobj)
  | OConstant (value : Z)
  | ONone
  | OBool (b : bool)
  | OInt (z : Z)
  | OStr (s : string)
  | OList (l : list pyobj)
  | OOther.

Definition ignored : list string := ["self"; "refresh_cls"]%string.

(** [{k: v for k, v in vars(o).items() if k not in ignored}], with the values
    encoded by [enc]. *)
Definition encode_vars (enc : pyobj → result json) : list (string * pyobj) → result dict :=
  fix go vars :=
    match vars with
    | [] => Ok []
    | (k, v) :: vars' =>
        if bool_decide (k ∈ ignored) then go vars' else j ← enc v; d ← go vars'; Ok ((k, j) :: d)
    end.

(** The JSON value of an object, by [LiteDRAMSettingsEncoder]. *)
Fixpoint encode (o : pyobj) : result json :=
  match o with
  | OSettings vars => d ← encode_vars encode vars; Ok (JObj d)
  | OSignal (OConstant v) | OConstant v => Ok (JNum v)
  | OSignal _ | OOther => Raise TypeError
  | ONone => Ok JNull
  | OBool b => Ok (JBool b)
  | OInt z => Ok (JNum z)
  | OStr s => Ok (JStr s)
  | OList l =>
      js ← (fix go l := match l with [] => Ok [] | v :: l' => j ← encode v; js ← go l'; Ok (j :: js) end) l;
      Ok (JList js)
  end.

(** The output directory of [get_builder_kwargs], relative to where the target is
    run. *)
Definition builder_output_dir (target_name : text) : text := path_join (chars "build") target_name.

(** A builder: its output directory, the settings of its controller, the contents
    LiteDRAM gives for [sdram_init.py]; [csr_csv] is where LiteX writes the
    registers later. *)
Record builder := Builder { output_dir : text; settings : pyobj; sdram_header : text; csr_csv : option text }.

Definition defs_rows (args : net_args) (target_name : text) : list row :=
  [[chars "TARGET"; target_name]; [chars "IP_ADDRESS"; ip_address args]; [chars "MAC_ADDRESS"; mac_address args];
   [chars "UDP_PORT"; udp_port args]; [chars "SYS_CLK_FREQ"; sys_clk_freq args]].

(** An object that cannot be encoded raises; by then [partial] has been written to
    the settings file. *)
Definition configure_generated_files (partial : text) (b : builder) (args : net_args) (target_name : text) (fs : files)
    : result builder * files :=
  let b' := Builder (output_dir b) (settings b) (sdram_header b) (Some (path_join (output_dir b) (chars "csr.csv"))) in
  let fs := <[path_join (output_dir b) (chars "sdram_init.py") := sdram_header b]> fs in
  let fs := <[path_join (output_dir b) (chars "defs.csv") := writerows (defs_rows args target_name)]> fs in
  let json_file := path_join (output_dir b) (chars "litedram_settings.json") in
  match encode (settings b) with
  | Ok j => (Ok b', <[json_file := dump j]> fs)
  | Raise e => (Raise e, <[json_file := partial]> fs)
  end.

(** ** The scripts' side *)

(** [glob.glob(os.path.join(build_dir, '*', 'defs.csv'))], in some order: the star
    is one name that does not begin with a dot. *)
Definition is_candidate (build_dir p : text) : bool :=
  startswith (path_join build_dir []) p &&
  match split_on slash (drop (length (path_join build_dir [])) p) with
  | [c :: dir; file] => negb (bool_decide (c = "."%char)) && bool_decide (file = chars "defs.csv")
  | _ => false
  end.
Definition candidates (build_dir : text) (fs : files) : list text :=
  filter (fun p => is_candidate build_dir p = true) (map_to_list fs).*1.

(** [TARGET] is the environment variable. *)
Definition discover_generated_files_dir (build_dir : text) (TARGET : option text) (fs : files) : result text :=
  match candidates build_dir fs with
  | [] => Raise ImportError
  | [p] => Ok (dirname p)
  | _ => target ← of_option ImportError TARGET; Ok (path_join build_dir target)
  end.

Definition get_generated_file (GENERATED_DIR : text) (name : text) (fs : files) : result text :=
  let filename := path_join GENERATED_DIR name in
  match fs !! filename with Some _ => Ok filename | None => Raise ImportError end.

Definition read_file (filename : text) (fs : files) : result text := of_option FileNotFoundError (fs !! filename).

Definition get_generated_defs (GENERATED_DIR : text) (fs : files) : result (gmap text text) :=
  filename ← get_generated_file GENERATED_DIR (chars "defs.csv") fs;
  content ← read_file filename fs;
  rows ← reader content;
  result_fold (fun d r => match r with [name; value] => Ok (<[name := value]> d) | _ => Raise ValueError end) ∅ rows.

(** Access to an attribute of a [ReadonlySettings]; an attribute that is itself a
    dictionary is wrapped again. *)
Definition getattr (s : json) (name : string) : result json :=
  match s with JObj d => dict_item d name | _ => Raise AttributeError end.

Definition get_litedram_settings (GENERATED_DIR : text) (fs : files) : result json :=
  filename ← get_generated_file GENERATED_DIR (chars "litedram_settings.json") fs;
  content ← read_file filename fs;
  loads content.

(** The board's address and port, and where the server listens. *)
Record server := Server { comm_server : text; comm_port : Z; bind_ip : string; bind_port : Z }.

Definition litex_server (GENERATED_DIR : text) (fs : files) : result server :=
  defs ← get_generated_defs GENERATED_DIR fs;
  ip ← of_option KeyError (defs !! chars "IP_ADDRESS");
  port ← of_option KeyError (defs !! chars "UDP_PORT");
  port ← py_int 10 port;
  Ok (Server ip port "127.0.0.1" 1234).

(** ** Paths of the build directory *)
Definition component (name : text) : Prop := name ≠ [] ∧ (slash ∉ name) ∧ head name ≠ Some "."%char.

(** A directory name that does not end with a slash. *)
Definition proper_dir (d : text) : Prop := d ≠ [] ∧ last d ≠ Some slash.

Lemma path_join_relative d b : proper_dir d → head b ≠ Some slash → path_join d b = d ++ slash :: b.
Proof. intros [Hd Hl] Hn. unfold path_join. by rewrite !bool_decide_false. Qed.

Lemma path_join_proper d name : proper_dir d → slash ∉ name → path_join d name = d ++ slash :: name.
Proof.
  intros Hd Hn. apply path_join_relative; [done|].
  destruct name as [|c name]; [done|]. intros [= ->]. apply Hn. by left.
Qed.

Lemma startswith_app p l : startswith p (p ++ l) = true.
Proof. induction p as [|c p IH]; [done|]. cbn. by rewrite bool_decide_true. Qed.

Lemma last_app_cons (a : text) c b : last (a ++ c :: b) = last (c :: b).
Proof. rewrite last_app. by destruct (last (c :: b)) eqn:E; [|apply last_None in E]. Qed.

Lemma proper_join d name : proper_dir d → component name → proper_dir (path_join d name).
Proof.
  intros Hd (Hne & Hs & _). rewrite path_join_proper by done. destruct Hd as [Hd _]. split; [by destruct d|].
  rewrite last_app_cons. destruct name as [|c name] using rev_ind; [done|]. rewrite app_comm_cons, last_snoc.
  intros [= ->]. apply Hs, elem_of_app. right. by left.
Qed.

Lemma upto_slash_app a f : slash ∉ f → upto_slash (a ++ slash :: f) = a ++ [slash].
Proof.
  intros Hf. unfold upto_slash. rewrite reverse_app, reverse_cons, <- app_assoc. cbn [app].
  induction f as [|c f IH] using rev_ind.
  - rewrite reverse_nil. cbn [app]. rewrite bool_decide_true by done. by rewrite reverse_cons, reverse_involutive.
  - rewrite reverse_snoc. cbn [app]. rewrite bool_decide_false by (intros ->; apply Hf, elem_of_app; right; by left).
    apply IH. intros H. apply Hf, elem_of_app. by left.
Qed.

Lemma rstrip_proper a : proper_dir a → rstrip_slashes (a ++ [slash]) = a.
Proof.
  intros [Hd Hl]. unfold rstrip_slashes. rewrite reverse_snoc. cbn [bool_decide]. rewrite bool_decide_true by done.
  destruct a as [|c a] using rev_ind; [done|]. rewrite last_snoc in Hl. rewrite reverse_snoc.
  rewrite bool_decide_false by congruence. by rewrite reverse_cons, reverse_involutive.
Qed.

Lemma dirname_join d f : proper_dir d → slash ∉ f → dirname (d ++ slash :: f) = d.
Proof.
  intros Hd Hf. unfold dirname. rewrite upto_slash_app, rstrip_proper by done. destruct Hd as [Hd _]. by destruct d.
Qed.

Lemma is_candidate_file build_dir t f :
  proper_dir build_dir → component t → slash ∉ f →
  is_candidate build_dir (path_join (path_join build_dir t) f) = bool_decide (f = chars "defs.csv").
Proof.
  intros Hb Ht Hf. rewrite (path_join_proper (path_join build_dir t)) by (done || by apply proper_join).
  destruct Ht as (Hne & Hs & Hdot). rewrite (path_join_proper build_dir t) by done.
  unfold is_candidate. rewrite path_join_proper by (done || apply not_elem_of_nil).
  replace ((build_dir ++ slash :: t) ++ slash :: f) with ((build_dir ++ [slash]) ++ (t ++ slash :: f)) by (by rewrite <- !app_assoc).
  rewrite startswith_app, drop_app_length, split_on_word, split_on_last by done. cbn [andb].
  destruct t as [|c t]; [done|]. rewrite bool_decide_false by (intros ->; done). done.
Qed.

Lemma elem_of_candidates build_dir p fs :
  p ∈ candidates build_dir fs ↔ is_candidate build_dir p = true ∧ is_Some (fs !! p).
Proof.
  unfold candidates. rewrite list_elem_of_filter, list_elem_of_fmap. split.
  - intros (Hc & [p' v] & -> & Hp%elem_of_map_to_list). by eauto.
  - intros (Hc & v & Hv). split; [done|]. exists (p, v). split; [done|]. by apply elem_of_map_to_list.
Qed.

(** The directory of a target whose [defs.csv] is there: it is found when no other
    target was built, or when [TARGET] names it. *)
Lemma discover_target build_dir TARGET t fs :
  proper_dir build_dir → component t → is_Some (fs !! path_join (path_join build_dir t) (chars "defs.csv")) →
  TARGET = Some t ∨ (∀ p, p ∈ candidates build_dir fs → p = path_join (path_join build_dir t) (chars "defs.csv")) →
  discover_generated_files_dir build_dir TARGET fs = Ok (path_join build_dir t).
Proof.
  intros Hb Ht Hdefs Hcase. assert (slash ∉ chars "defs.csv") as Hf by (apply (bool_decide_unpack _); by vm_compute).
  set (p := path_join (path_join build_dir t) (chars "defs.csv")) in *.
  assert (p ∈ candidates build_dir fs) as Hp by (apply elem_of_candidates; split; [unfold p; by rewrite is_candidate_file, bool_decide_true|done]).
  assert (dirname p = path_join build_dir t) as Hdir.
  { subst p. rewrite (path_join_proper (path_join build_dir t)) by (done || by apply proper_join).
    apply dirname_join; [by apply proper_join|done]. }
  unfold discover_generated_files_dir.
  assert (NoDup (candidates build_dir fs)) as Hnd by (apply NoDup_filter, NoDup_fst_map_to_list).
  destruct (candidates build_dir fs) as [|p1 [|p2 l]] eqn:E; [by apply elem_of_nil in Hp| |].
  - apply list_elem_of_singleton in Hp as <-. by rewrite Hdir.
  - destruct Hcase as [-> | Hall]; [done|]. exfalso. apply NoDup_cons in Hnd as [Hnd _]. apply Hnd.
    rewrite (Hall p1), (Hall p2); [by left|right; by left|by left].
Qed.

(** With several targets built, a script that is not told the target stops. *)
Lemma discover_ambiguous build_dir p p' fs :
  p ∈ candidates build_dir fs → p' ∈ candidates build_dir fs → p ≠ p' →
  discover_generated_files_dir build_dir None fs = Raise ImportError.
Proof.
  intros Hp Hp' Hne. unfold discover_generated_files_dir.
  destruct (candidates build_dir fs) as [|p1 [|p2 l]]; [by apply elem_of_nil in Hp| |done].
  apply list_elem_of_singleton in Hp as ->. by apply list_elem_of_singleton in Hp' as ->.
Qed.

(** ** Settings *)
Fixpoint attr (vars : list (string * pyobj)) (name : string) : option pyobj :=
  match vars with
  | [] => None
  | (k, v) :: vars' => if bool_decide (name = k) then Some v else attr vars' name
  end.

(** [o.a.b ...] on the target's objects and on the scripts' settings. *)
Fixpoint obj_path (o : pyobj) (path : list string) : option pyobj :=
  match path with
  | [] => Some o
  | a :: path' => match o with OSettings vars => v ← attr vars a; obj_path v path' | _ => None end
  end.
Definition settings_path (j : json) (path : list string) : result json := result_fold getattr j path.

Lemma encode_attr vars d name v :
  encode_vars encode vars = Ok d → (name ∉ ignored) → attr vars name = Some v →
  ∃ j, encode v = Ok j ∧ dict_get d name = Some j.
Proof.
  revert d. induction vars as [|[k o] vars IH]; intros d E Hn Ha; [done|]. cbn in Ha, E.
  destruct (bool_decide (name = k)) eqn:Hk.
  - injection Ha as ->. apply bool_decide_eq_true in Hk as <-. rewrite bool_decide_false in E by done.
    apply bind_ok_inv in E as (j & Hj & (d' & _ & [= <-])%bind_ok_inv). exists j. cbn. by rewrite bool_decide_true.
  - destruct (bool_decide (k ∈ ignored)); [by apply IH|].
    apply bind_ok_inv in E as (j & _ & (d' & Hd' & [= <-])%bind_ok_inv).
    destruct (IH d' Hd' Hn Ha) as (j' & Hj' & Hd). exists j'. cbn. by rewrite Hk.
Qed.

(** Every attribute of the target's settings that is not ignored is read by the
    scripts with its value. *)
Lemma encode_path path : ∀ o j v,
  encode o = Ok j → Forall (fun a => a ∉ ignored) path → obj_path o path = Some v →
  ∃ jv, encode v = Ok jv ∧ settings_path j path = Ok jv.
Proof.
  induction path as [|a path IH]; intros o j v Ho Hp Hv; cbn in Hv.
  - injection Hv as ->. by exists j.
  - destruct o as [vars| | | | | | | |]; try done. apply Forall_cons in Hp as [Ha Hp].
    destruct (attr vars a) as [o'|] eqn:E; [|done]. cbn in Hv. apply bind_ok_inv in Ho as (d & Ho & [= <-]).
    destruct (encode_attr _ _ _ _ Ho Ha E) as (j' & Hj' & Hd). destruct (IH _ _ _ Hj' Hp Hv) as (jv & Hjv & Hr).
    exists jv. split; [done|]. unfold settings_path in *. cbn [result_fold getattr]. unfold dict_item. rewrite Hd. done.
Qed.

(** ** The files of a target *)
Definition file_names : list text := chars <$> ["defs.csv"; "litedram_settings.json"; "sdram_init.py"]%string.
Lemma file_names_plain f : f ∈ file_names → slash ∉ f.
Proof. revert f. apply Forall_forall, (bool_decide_unpack _). by vm_compute. Qed.

Lemma path_join_inj d f f' : proper_dir d → slash ∉ f → slash ∉ f' → path_join d f = path_join d f' → f = f'.
Proof. intros Hd Hf Hf'. rewrite !path_join_proper by done. by intros [= ?]%app_inv_head. Qed.

Lemma target_dir root t :
  proper_dir root → component t →
  path_join root (builder_output_dir t) = path_join (path_join root (chars "build")) t ∧ proper_dir (path_join root (chars "build")).
Proof.
  intros Hr Ht. assert (component (chars "build")) as Hc by (split_and!; [done|apply (bool_decide_unpack _); by vm_compute|done]).
  split; [|by apply proper_join]. pose proof Ht as (Hne & Hs & _). pose proof Hc as (_ & Hbs & _). unfold builder_output_dir.
  rewrite (path_join_proper (path_join root _)), (path_join_proper (chars "build")) by (done || by apply proper_join).
  rewrite !path_join_relative by done. by rewrite <- app_assoc.
Qed.

(** What the files of a target are after [configure_generated_files]. *)
Lemma configured_files partial b args t fs j dir :
  proper_dir dir → output_dir b = dir → encode (settings b) = Ok j →
  let fs' := (configure_generated_files partial b args t fs).2 in
  fs' !! path_join dir (chars "defs.csv") = Some (writerows (defs_rows args t))
  ∧ fs' !! path_join dir (chars "litedram_settings.json") = Some (dump j)
  ∧ ∀ p, is_Some (fs' !! p) → is_Some (fs !! p) ∨ p ∈ path_join dir <$> file_names.
Proof.
  intros Hd <- Hj. cbv zeta. unfold configure_generated_files. rewrite Hj. cbn [snd]. split_and!.
  - rewrite lookup_insert_ne, lookup_insert_eq; [done|]. intros E%path_join_inj; try done; apply file_names_plain; vm_compute; set_solver.
  - by rewrite lookup_insert_eq.
  - intros p. rewrite !lookup_insert_is_Some'. unfold file_names. cbn. rewrite !elem_of_cons. intros [<-|[<-|[<-|H]]]; [right|right|right|by left]; auto.
Qed.

(** The definitions of a target, as the scripts read them. *)
Definition target_defs (args : net_args) (t : text) : gmap text text :=
  list_to_map [(chars "SYS_CLK_FREQ", sys_clk_freq args); (chars "UDP_PORT", udp_port args);
               (chars "MAC_ADDRESS", mac_address args); (chars "IP_ADDRESS", ip_address args); (chars "TARGET", t)].

Lemma read_defs dir args t fs :
  fs !! path_join dir (chars "defs.csv") = Some (writerows (defs_rows args t)) →
  get_generated_defs dir fs = Ok (target_defs args t).
Proof.
  intros E. unfold get_generated_defs, get_generated_file, read_file. rewrite E. cbn [mbind result_bind].
  rewrite E. cbn [of_option]. rewrite ok_bind, reader_writerows. reflexivity.
Qed.

Lemma read_settings dir j fs :
  fs !! path_join dir (chars "litedram_settings.json") = Some (dump j) → writable j →
  get_litedram_settings dir fs = Ok j.
Proof.
  intros E Hj. unfold get_litedram_settings, get_generated_file, read_file. rewrite E. cbn [mbind result_bind].
  rewrite E. cbn [of_option]. by rewrite ok_bind, loads_dump.
Qed.

(** C16: The scripts read what the target wrote.  A target is built in the root
    directory of the repository; no other target was built, or the environment
    names this one.  Then the scripts find the target's directory, read back its
    name, addresses, port and clock frequency, whatever characters they have, start
    the server for its address, and every attribute of the controller's settings
    (except [self] and [refresh_cls]) reads in the scripts as the value the target
    has, signals and constants as their numbers. *)
Theorem scripts_read_target_files root t TARGET partial b args fs j :
  proper_dir root → component t → output_dir b = path_join root (builder_output_dir t) →
  encode (settings b) = Ok j → writable j →
  let build_dir := path_join root (chars "build") in
  let dir := path_join build_dir t in
  TARGET = Some t ∨ (∀ p, p ∈ candidates build_dir fs → p = path_join dir (chars "defs.csv")) →
  let fs' := (configure_generated_files partial b args t fs).2 in
  discover_generated_files_dir build_dir TARGET fs' = Ok dir
  ∧ get_generated_defs dir fs' = Ok (target_defs args t)
  ∧ litex_server dir fs' = (port ← py_int 10 (udp_port args); Ok (Server (ip_address args) port "127.0.0.1" 1234))
  ∧ ∀ path v, Forall (fun a => a ∉ ignored) path → obj_path (settings b) path = Some v →
      ∃ jv, encode v = Ok jv ∧ (s ← get_litedram_settings dir fs'; settings_path s path) = Ok jv.
Proof.
  intros Hr Ht Hout Hj Hw build_dir dir Hcase fs'. destruct (target_dir root t Hr Ht) as [Hdir Hb].
  rewrite Hdir in Hout. fold build_dir in Hb, Hout. fold dir in Hout.
  destruct (configured_files partial b args t fs j dir (proper_join _ _ Hb Ht) Hout Hj) as (Hdefs & Hset & Hother).
  fold fs' in Hdefs, Hset, Hother. pose proof (read_defs _ _ _ _ Hdefs) as Hread. split_and!.
  - apply discover_target; [done|done|by eexists|]. destruct Hcase as [?|Hall]; [by left|right].
    intros p [Hc Hp]%elem_of_candidates. destruct (Hother p Hp) as [Hold|(f & -> & Hf)%list_elem_of_fmap].
    + by apply Hall, elem_of_candidates.
    + unfold dir in Hc. rewrite is_candidate_file in Hc by (done || by apply file_names_plain).
      by apply bool_decide_eq_true in Hc as ->.
  - done.
  - unfold litex_server. rewrite Hread. reflexivity.
  - intros path v Hp Hv. rewrite (read_settings _ _ _ Hset Hw), ok_bind. by apply (encode_path path (settings b)).
Qed.

(** A target with two settings, one of them a signal. *)
Definition demo_builder : builder :=
  Builder (chars "/repo/build/arty")
    (OSettings [("self", OOther); ("with_refresh", OSignal (OConstant 1)); ("refresh_cls", OOther);
                ("phy", OSettings [("nphases", OInt 4); ("cwl", ONone)])]%string) [] None.
Definition demo_args : net_args := NetArgs (chars "192.168.100.50") (chars "0x10e2d5000001") (chars "1234") (chars "100e6").

Lemma scripts_read_target_files_witness :
  let fs' := (configure_generated_files [] demo_builder demo_args (chars "arty") ∅).2 in
  discover_generated_files_dir (chars "/repo/build") None fs' = Ok (chars "/repo/build/arty")
  ∧ (s ← get_litedram_settings (chars "/repo/build/arty") fs'; settings_path s ["phy"; "nphases"]%string) = Ok (JNum 4).
Proof.
  destruct (scripts_read_target_files (chars "/repo") (chars "arty") None [] demo_builder demo_args ∅
    (JObj [("with_refresh", JNum 1); ("phy", JObj [("nphases", JNum 4); ("cwl", JNull)])]%string)) as (Hd & _ & _ & Hs).
  - split; [done|]. by vm_compute.
  - split_and!; [done|apply (bool_decide_unpack _); by vm_compute|done].
  - done.
  - done.
  - assert (∀ s, forallb printable (chars s) = true → printable_string s) as Hp
      by (intros s Hs; apply Forall_forall; intros c Hc%list_elem_of_In; rewrite forallb_forall in Hs; by rewrite Hs).
    cbn [writable foldr fst snd fmap list_fmap]. split_and!; try done; try (apply Hp; by vm_compute);
      apply (bool_decide_unpack _); by vm_compute.
  - right. intros p [_ [v Hv]]%elem_of_candidates. by rewrite lookup_empty in Hv.
  - split; [exact Hd|]. destruct (Hs ["phy"; "nphases"]%string (OInt 4)) as (jv & [= <-] & E);
      [apply (bool_decide_unpack _); by vm_compute|done|exact E].
Defined.

