(* ===== verification/VisFiles.v ===== *)
(** * The files of the visualisation

    Models the files that [src/rowhammer_tester/scripts/logs2vis.py] writes for the
    viewer from the outputs of [Logs]: for every attack a file with the cells and one
    with the description of the grid that imports it, and the configuration that
    lists the descriptions ([get_vis_config], [get_vis_metadata],
    [generate_output_files] and the main program).  The directory is a map from file
    names to contents; the date of a file is a parameter.  The viewer itself is no part of
    the repository: [written_grids] is a specification of what the files say, found from
    the configuration by the references that the script puts into them. *)

From stdpp Require Import gmap.
From S2P Require Import Prelude PyString Config Logs Plots PyJson GeneratedFiles.
#[local] Open Scope Z_scope.

(** ** Names of files *)
Definition dot : ascii := "."%char.

(** The text before and after the last dot. *)
Fixpoint rsplit_dot (l : text) : option (text * text) :=
  match l with
  | [] => None
  | c :: l' =>
      match rsplit_dot l' with
      | Some (a, b) => Some (c :: a, b)
      | None => if bool_decide (c = dot) then Some ([], l') else None
      end
  end.

(** [path.suffix] is empty for a leading or a final dot; [path.stem] is the rest. *)
Definition stem (name : text) : text :=
  match rsplit_dot name with Some (c :: a, _ :: _) => c :: a | _ => name end.

(** [path.with_suffix(suffix)] *)
Definition with_suffix (name suffix : text) : result text :=
  match name with [] => Raise ValueError | _ => Ok (stem name ++ suffix) end.

(** ** Contents *)
Definition desc_json (i : desc_item) : json :=
  match i with DText s => JStr s | DColumn name dqs => JObj [(name, JStr dqs)] end.
Definition cell_json (c : cell) : json :=
  JList [JNum (c_col c); JNum (c_row c); JNum (c_width c); JStr (c_type c); JStr (c_label c); JStr (c_title c);
         JList (desc_json <$> c_desc c)].
Definition data_json (o : vis_output) : json := JList (cell_json <$> vo_data o).
Definition rows_json (r : vis_rows) : json :=
  match r with Rows l => JList (JNum <$> l) | RowsRange lo hi => JList [JList [JNum lo; JNum hi]] end.
Definition cols_json (c : Z * Z) : json := JList [JList [JNum c.1; JNum c.2]].

Definition get_vis_config (entries : list text) : json :=
  JObj [("dataFilesList"%string,
    JList ((fun e => JObj [("name", JStr (String.string_of_list_ascii (stem e))); ("url", JStr (String.string_of_list_ascii e))])%string
             <$> entries))].

Definition get_vis_metadata (date : string) (rows cols : json) (data_file : text) (rows_name : string) : json :=
  JObj [("buildDate", JStr date);
        ("grids", JObj [("rowhammer", JObj
          [("name", JStr "Rowhammer"); ("colsRange", cols); (rows_name, rows);
           ("cells", JObj
             [("fieldOrder", JList [JStr "col"; JStr "row"; JStr "width"; JStr "type"; JStr "name"; JStr "fullName"; JStr "description"]);
              ("fieldTemplates", JObj [("color", JStr "{get(COLORS, type)}")]);
              ("templateConsts", JObj [("COLORS", JObj [("OK", JNum 19); ("FLIP", JNum 1); ("TGT", JNum 3)])]);
              ("data", JObj [("@import", JStr (String.string_of_list_ascii data_file))])])])])]%string.

(** ** Writing *)
Definition rows_name (a : vis_args) : string := if va_no_empty_rows a then "rows" else "rowsRange".

(** The list of meta files and the directory; [date n] is the time at which the
    [n]-th description is written. *)
Definition generate_output_files (a : vis_args) (date : nat → string) (st : list text * files) (out : string * vis_output)
    : result (list text * files) :=
  let '(meta_files, vis_dir) := st in
  let '(output_name, o) := out in
  data_file ← with_suffix (chars output_name) (chars ".data.json");
  let vis_dir := <[data_file := dump_compact (data_json o)]> vis_dir in
  let vis_meta := get_vis_metadata (date (length meta_files)) (rows_json (vo_rows o)) (cols_json (vo_cols o)) data_file (rows_name a) in
  meta_file ← with_suffix (chars output_name) (chars ".json");
  Ok (meta_files ++ [meta_file], <[meta_file := dump_compact vis_meta]> vis_dir).

Definition config_file : text := chars "sdbv.config.json".

(** The directory after a run that does not fail. *)
Definition vis_main (a : vis_args) (cols : Z) (date : nat → string) (log_data : dict) (vis_dir : files) : result files :=
  outputs ← logs2vis a cols log_data;
  '(meta_files, vis_dir) ← result_fold (generate_output_files a date) ([], vis_dir) outputs;
  Ok (<[config_file := dump_compact (get_vis_config meta_files)]> vis_dir).

(** ** Reading *)
Definition load_file (dir : files) (name : string) : result json :=
  content ← of_option FileNotFoundError (dir !! chars name);
  loads content.

Definition attr_path (j : json) (path : list string) : result json :=
  result_fold (fun j k => d ← as_obj j; dict_item d k) j path.

Definition as_list (j : json) : result (list json) := match j with JList l => Ok l | _ => Raise TypeError end.

(** An entry of the configuration: its name, rows, columns and cells. *)
Definition view_entry (rows_name : string) (dir : files) (entry : json) : result (string * (json * json * json)) :=
  name ← (j ← attr_path entry ["name"%string]; as_str j);
  url ← (j ← attr_path entry ["url"%string]; as_str j);
  meta ← load_file dir url;
  rows ← attr_path meta ["grids"; "rowhammer"; rows_name]%string;
  cols ← attr_path meta ["grids"; "rowhammer"; "colsRange"]%string;
  data_file ← (j ← attr_path meta ["grids"; "rowhammer"; "cells"; "data"; "@import"]%string; as_str j);
  data ← load_file dir data_file;
  Ok (name, (rows, cols, data)).

Definition written_grids (rows_name : string) (dir : files) : result (list (string * (json * json * json))) :=
  config ← load_file dir (String.string_of_list_ascii config_file);
  entries ← (j ← attr_path config ["dataFilesList"%string]; as_list j);
  result_map (view_entry rows_name dir) entries.

Definition shown_entry (out : string * vis_output) : string * (json * json * json) :=
  (out.1, (rows_json (vo_rows out.2), cols_json (vo_cols out.2), data_json out.2)).

(** ** Names *)
Definition plain_name (n : string) : Prop := chars n ≠ [] ∧ (dot ∉ chars n) ∧ printable_string n.

Lemma rsplit_dot_none l : dot ∉ l → rsplit_dot l = None.
Proof.
  induction l as [|c l IH]; [done|]. rewrite not_elem_of_cons. intros [Hc Hl]. cbn. rewrite IH by done.
  by rewrite bool_decide_false.
Qed.

Lemma rsplit_dot_app a b : dot ∉ b → rsplit_dot (a ++ dot :: b) = Some (a, b).
Proof. intros Hb. induction a as [|c a IH]; cbn; [by rewrite rsplit_dot_none|by rewrite IH]. Qed.

Lemma stem_plain n : dot ∉ n → stem n = n.
Proof. intros Hn. unfold stem. by rewrite rsplit_dot_none. Qed.

Lemma stem_json n : n ≠ [] → stem (n ++ chars ".json") = n.
Proof.
  intros Hn. unfold stem. change (chars ".json") with (dot :: chars "json"). rewrite rsplit_dot_app.
  - by destruct n.
  - apply (bool_decide_unpack _). by vm_compute.
Qed.

Lemma with_suffix_plain n suffix : plain_name n → with_suffix (chars n) suffix = Ok (chars n ++ suffix).
Proof. intros (Hne & Hd & _). unfold with_suffix. rewrite stem_plain by done. by destruct (chars n). Qed.

Lemma first_split (sep : ascii) a b x y : sep ∉ a → sep ∉ b → a ++ sep :: x = b ++ sep :: y → a = b ∧ x = y.
Proof.
  revert b. induction a as [|c a IH]; intros [|d b]; rewrite ?not_elem_of_cons; intros Ha Hb E; cbn in E.
  - by injection E.
  - injection E as E _. by destruct Hb as [[] _].
  - injection E as E _. by destruct Ha as [[] _].
  - injection E as -> E. destruct (IH b) as [-> ->]; [apply Ha|apply Hb|done..].
Qed.

(** The two files of an output. *)
Definition data_of (n : string) : text := chars n ++ chars ".data.json".
Definition meta_of (n : string) : text := chars n ++ chars ".json".

Lemma files_distinct n m :
  plain_name n → plain_name m →
  (data_of n = data_of m → n = m) ∧ (meta_of n = meta_of m → n = m) ∧ data_of n ≠ meta_of m ∧ config_file ≠ data_of n ∧ config_file ≠ meta_of n.
Proof.
  intros (Hn & Hdn & _) (_ & Hdm & _). unfold data_of, meta_of, config_file.
  change (chars ".data.json") with (dot :: chars "data.json"). change (chars ".json") with (dot :: chars "json").
  change (chars "sdbv.config.json") with (chars "sdbv" ++ dot :: chars "config.json").
  assert (dot ∉ chars "sdbv") as Hs by (apply (bool_decide_unpack _); by vm_compute).
  split_and!; intros E; apply first_split in E as [E E']; (done || by apply chars_inj).
Qed.

(** ** What is written *)
Section written.
Context (a : vis_args) (date : nat → string) (Hdate : ∀ n, printable_string (date n)).

Definition metadata (d : nat) (out : string * vis_output) : json :=
  get_vis_metadata (date d) (rows_json (vo_rows out.2)) (cols_json (vo_cols out.2)) (data_of out.1) (rows_name a).

Definition written (dir : files) (out : string * vis_output) : Prop :=
  dir !! data_of out.1 = Some (dump_compact (data_json out.2))
  ∧ ∃ d, dir !! meta_of out.1 = Some (dump_compact (metadata d out)).

Definition of_outputs (outs : list (string * vis_output)) (f : text) : Prop :=
  ∃ out, out ∈ outs ∧ (f = data_of out.1 ∨ f = meta_of out.1).

Lemma generate_one metas dir out :
  plain_name out.1 →
  generate_output_files a date (metas, dir) out
  = Ok (metas ++ [meta_of out.1],
        <[meta_of out.1 := dump_compact (metadata (length metas) out)]> (<[data_of out.1 := dump_compact (data_json out.2)]> dir)).
Proof. destruct out as [n o]. intros Hn. cbn in Hn. unfold generate_output_files. by rewrite !with_suffix_plain. Qed.

Lemma generate_all outs : ∀ metas dir,
  NoDup outs.*1 → Forall (fun out => plain_name out.1) outs →
  ∃ dir', result_fold (generate_output_files a date) (metas, dir) outs = Ok (metas ++ (meta_of <$> outs.*1), dir')
    ∧ (∀ f, ¬ of_outputs outs f → dir' !! f = dir !! f) ∧ Forall (written dir') outs.
Proof.
  induction outs as [|out outs IH]; intros metas dir Hnd Hall; [exists dir; cbn; by rewrite app_nil_r|].
  cbn [fmap list_fmap] in Hnd. apply NoDup_cons in Hnd as [Hfresh Hnd]. apply Forall_cons in Hall as [Hn Hall].
  cbn [result_fold]. rewrite generate_one by done. cbn [mbind result_bind].
  edestruct (IH (metas ++ [meta_of out.1])) as (dir' & -> & Hother & Hw); [done..|].
  exists dir'. rewrite <- app_assoc. split; [done|].
  assert (∀ f, f = data_of out.1 ∨ f = meta_of out.1 → ¬ of_outputs outs f) as Hf.
  { intros f Hf (out' & Hin & Hf'). rewrite Forall_forall in Hall. specialize (Hall _ Hin).
    destruct (files_distinct out.1 out'.1 Hn Hall) as (H1 & H2 & H3 & _).
    destruct (files_distinct out'.1 out.1 Hall Hn) as (_ & _ & H4 & _).
    apply Hfresh. apply list_elem_of_fmap. exists out'. split; [|done].
    destruct Hf as [-> | ->], Hf' as [E|E]; [by apply H1|by destruct (H3 E)|by destruct (H4 (eq_sym E))|by apply H2]. }
  split; [|constructor; [|done]].
  - intros f Hnf. rewrite Hother; [|intros (o' & ? & ?); apply Hnf; exists o'; split; [by right|done]].
    rewrite !lookup_insert_ne; [done| |]; intros <-; apply Hnf; exists out; (split; [by left|auto]).
  - split; [|exists (length metas)]; rewrite Hother by auto; [|by rewrite lookup_insert_eq].
    rewrite lookup_insert_ne, lookup_insert_eq; [done|]. intros E. by destruct (files_distinct out.1 out.1 Hn Hn) as (_ & _ & [] & _).
Qed.
End written.

(** ** What is read *)
Lemma printable_app s t : printable_string s → printable_string t → printable_string (s +:+ t)%string.
Proof. intros Hs Ht. unfold printable_string. rewrite chars_app. by apply Forall_app. Qed.

Lemma printable_const s : forallb printable (chars s) = true → printable_string s.
Proof. intros H. unfold printable_string. apply Forall_forall. intros c Hc. rewrite forallb_forall in H. apply Is_true_true, H, list_elem_of_In, Hc. Qed.

Lemma printable_text (t : text) : Forall printable t → printable_string (String.string_of_list_ascii t).
Proof. unfold printable_string, chars. by rewrite String.list_ascii_of_string_of_list_ascii. Qed.

Lemma printable_file n suffix : plain_name n → forallb printable suffix = true → printable_string (String.string_of_list_ascii (chars n ++ suffix)).
Proof.
  intros (_ & _ & Hn) Hs. apply printable_text, Forall_app_2; [done|]. apply Forall_forall. intros c Hc.
  rewrite forallb_forall in Hs. apply Is_true_true, Hs, list_elem_of_In, Hc.
Qed.

Lemma writable_rows r : writable (rows_json r).
Proof. destruct r as [l|]; [|done]. cbn. by induction l. Qed.

Section reading.
Context (a : vis_args) (date : nat → string) (Hdate : ∀ n, printable_string (date n)).

Lemma writable_metadata d out : plain_name out.1 → writable (metadata a date d out).
Proof.
  intros Hn. pose proof (printable_file out.1 (chars ".data.json") Hn eq_refl) as Hf. pose proof (writable_rows (vo_rows out.2)).
  pose proof (Hdate d). unfold metadata, get_vis_metadata, rows_name.
  cbn -[rows_json printable_string String.string_of_list_ascii]. 
  destruct (va_no_empty_rows a); repeat split; try done;
    (by apply printable_const) || (apply (bool_decide_unpack _); by vm_compute).
Qed.

Definition config_entry (n : string) : json :=
  JObj [("name", JStr n); ("url", JStr (String.string_of_list_ascii (meta_of n)))]%string.

Lemma vis_config_plain names :
  Forall plain_name names →
  get_vis_config (meta_of <$> names) = JObj [("dataFilesList"%string, JList (config_entry <$> names))]
  ∧ writable (get_vis_config (meta_of <$> names)).
Proof.
  intros Hall. assert (get_vis_config (meta_of <$> names) = JObj [("dataFilesList"%string, JList (config_entry <$> names))]) as E.
  { unfold get_vis_config. do 4 f_equal. rewrite <- list_fmap_compose. induction Hall as [|n names (Hn & _) _ IH]; [done|].
    cbn. rewrite IH. f_equal. unfold config_entry, meta_of. by rewrite stem_json, string_chars by done. }
  split; [done|]. rewrite E. cbn. split; [apply (bool_decide_unpack _); by vm_compute|]. split; [by apply printable_const|]. split; [|done].
  clear E. induction Hall as [|n names Hn _ IH]; [done|]. cbn. split; [|done]. split; [apply (bool_decide_unpack _); by vm_compute|].
  split_and!; try (by apply printable_const); [apply Hn|by apply printable_file|done].
Qed.

Lemma load_written dir f v : dir !! f = Some (dump_compact v) → writable v → load_file dir (String.string_of_list_ascii f) = Ok v.
Proof.
  intros Hf Hv. unfold load_file, chars. rewrite String.list_ascii_of_string_of_list_ascii, Hf. by apply loads_compact.
Qed.

(** The attributes by which files refer to each other. *)
Lemma metadata_paths d out :
  attr_path (metadata a date d out) ["grids"; "rowhammer"; rows_name a]%string = Ok (rows_json (vo_rows out.2))
  ∧ attr_path (metadata a date d out) ["grids"; "rowhammer"; "colsRange"]%string = Ok (cols_json (vo_cols out.2))
  ∧ attr_path (metadata a date d out) ["grids"; "rowhammer"; "cells"; "data"; "@import"]%string
    = Ok (JStr (String.string_of_list_ascii (data_of out.1))).
Proof. unfold metadata, rows_name. destruct (va_no_empty_rows a); split_and!; reflexivity. Qed.

Lemma view_written dir out :
  plain_name out.1 → written a date dir out → writable (data_json out.2) →
  view_entry (rows_name a) dir (config_entry out.1) = Ok (shown_entry out).
Proof.
  intros Hn (Hdata & d & Hmeta) Hw. unfold view_entry.
  change (attr_path (config_entry out.1) ["name"%string]) with (Ok (JStr out.1)).
  change (attr_path (config_entry out.1) ["url"%string]) with (Ok (JStr (String.string_of_list_ascii (meta_of out.1)))).
  cbn [mbind result_bind as_str]. rewrite (load_written _ _ _ Hmeta) by by apply writable_metadata. cbn [mbind result_bind].
  destruct (metadata_paths d out) as (-> & -> & ->). cbn [mbind result_bind as_str]. by rewrite (load_written _ _ _ Hdata Hw).
Qed.

Lemma view_all dir outs :
  Forall (fun out => plain_name out.1) outs → Forall (fun out => writable (data_json out.2)) outs → Forall (written a date dir) outs →
  result_map (view_entry (rows_name a) dir) (config_entry <$> outs.*1) = Ok (shown_entry <$> outs).
Proof.
  intros Hp Hw Hd. induction outs as [|out outs IH]; [done|]. apply Forall_cons in Hp as [Hp Hps], Hw as [Hw Hws], Hd as [Hd Hds].
  cbn [fmap list_fmap result_map]. rewrite view_written by done. cbn [mbind result_bind]. by rewrite IH.
Qed.
End reading.

(** ** The cells of single attacks *)
Lemma printable_pretty (z : Z) : printable_string (pretty z).
Proof.
  apply Forall_forall. intros c [->|Hd]%pretty_char; [done|]. revert Hd.
  by destruct c as [[] [] [] [] [] [] [] []]; vm_compute; first [done|intros [? [=]]].
Qed.

Lemma printable_concat sep l : printable_string sep → Forall printable_string l → printable_string (String.concat sep l).
Proof.
  intros Hs. induction 1 as [|s [|s' l] Hp _ IH]; [by apply printable_const|done|].
  change (printable_string (s +:+ sep +:+ String.concat sep (s' :: l))%string). auto using printable_app.
Qed.

Create HintDb printing.
#[export] Hint Resolve printable_app printable_pretty printable_concat : printing.
#[export] Hint Extern 2 (printable_string _) => (by apply printable_const) : printing.
Ltac printing := repeat apply printable_app; eauto with printing.

Lemma printable_fromkeys l : Forall printable_string l → Forall printable_string (fromkeys l).
Proof.
  unfold fromkeys. intros Hl. set (step := fun acc x => if bool_decide (x ∈ acc) then acc else acc ++ [x]).
  enough (∀ acc, Forall printable_string acc → Forall printable_string (foldl step acc l)) as H by by apply H.
  induction Hl as [|s l Hs _ IH]; intros acc Hacc; cbn; [done|]. apply IH. unfold step. case_bool_decide; [done|]. apply Forall_app. auto.
Qed.

Lemma printable_dqs data pads l : get_dqs_on_col data pads = Ok l → Forall printable_string l.
Proof.
  unfold get_dqs_on_col. intros (dqs & Hd & [= <-])%bind_ok_inv. apply printable_fromkeys.
  eapply result_map_Forall; [|done]. intros x y (dq & _ & [= <-])%bind_ok_inv. printing.
Qed.

Lemma writable_column col dqs : printable_string col → Forall printable_string dqs → writable (desc_json (column_desc col dqs)).
Proof.
  intros Hc Hd. cbn. split; [apply NoDup_singleton|]. split_and!; [|apply printable_concat; [printing|done]|done].
  change (printable_string ("Column " +:+ col)%string). printing.
Qed.

Lemma writable_cell col row width type label title desc :
  printable_string type → printable_string label → printable_string title → Forall (fun i => writable (desc_json i)) desc →
  writable (cell_json (Cell col row width type label title desc)).
Proof.
  intros. cbn. split_and!; try done. induction desc as [|i desc IH]; [done|]. inversion H2; subst. cbn. split; [done|]. by apply IH.
Qed.

Lemma writable_chunk row_errors row col_step col c : chunk_cell row_errors row col_step col = Ok c → writable (cell_json c).
Proof.
  unfold chunk_cell. intros (cd & _ & H)%bind_ok_inv. apply bind_ok_inv in H as ([desc flips] & Hf & H).
  apply bind_ok_inv in H as (n & _ & [= <-]).
  apply writable_cell; [by destruct (0 <? flips); apply printable_const|destruct (0 <? flips); printing|printing|].
  change desc with (desc, flips).1. revert Hf. apply result_fold_inv with (P := fun st => Forall (fun i => writable (desc_json i)) st.1).
  - intros [d fl] i st Hd. unfold chunk_step. intros (errs & _ & H)%bind_ok_inv. apply bind_ok_inv in H as (d' & H & [= <-]).
    cbn. destruct errs as [|e errs]; [by injection H as <-|]. apply bind_ok_inv in H as (dqs & Hq & [= <-]).
    apply Forall_app. split; [done|]. constructor; [|constructor]. apply writable_column; [printing|by eapply printable_dqs].
  - constructor; [by apply printable_const|constructor].
Qed.

Lemma writable_cells cells : Forall (fun c => writable (cell_json c)) cells → writable (JList (cell_json <$> cells)).
Proof. cbn. by induction 1. Qed.

Lemma writable_standard data no_empty cols col_step o :
  get_vis_data (Standard data) no_empty cols col_step = Ok o → writable (data_json o).
Proof.
  unfold get_vis_data. intros (((vd & ra) & ca) & Hp & H)%bind_ok_inv.
  apply bind_ok_inv in H as (rows & _ & [= <-]). apply writable_cells. cbn [vo_data].
  unfold process_standard in Hp. apply bind_ok_inv in Hp as (rws & _ & H).
  apply bind_ok_inv in H as ([vd0 ra0] & Hf & H). apply bind_ok_inv in H as (width & _ & H).
  apply bind_ok_inv in H as ([vd1 ra1] & H & [= <- <- <-]).
  assert (Forall (fun c => writable (cell_json c)) vd0) as Hvd.
  { change vd0 with (vd0, ra0).1. revert Hf. apply result_fold_inv with (P := fun st => Forall (fun c => writable (cell_json c)) st.1); [|constructor].
    intros [v r] e st Hv. unfold row_cells. intros (re & _ & H1)%bind_ok_inv. apply bind_ok_inv in H1 as (row & _ & H1).
    apply bind_ok_inv in H1 as (starts & _ & H1). apply bind_ok_inv in H1 as (cells & Hc & [= <-]). cbn.
    apply Forall_app. split; [done|]. eapply result_map_Forall; [|done]. intros x y. apply writable_chunk. }
  destruct (dict_get data "hammer_row_1"), (dict_get data "hammer_row_2"); try (by injection H as <- <-).
  apply bind_ok_inv in H as (r1 & _ & H). apply bind_ok_inv in H as (r2 & _ & [= <- <-]).
  apply Forall_app. split; [done|]. repeat constructor; by apply printable_const.
Qed.

(** ** The names in a log *)
Definition plain_key (k : string) : Prop := (dot ∉ chars k) ∧ printable_string k.

(** Logs as the attack scripts write them: distinct keys, printable and without
    dots, and no underscore in a read count. *)
Record plain_log (log : dict) : Prop := {
  pl_keys : NoDup log.*1;
  pl_counts : Forall (fun kv => plain_key kv.1 ∧ "_"%char ∉ chars kv.1) log;
  pl_sets : ∀ k d, (k, JObj d) ∈ log → NoDup d.*1 ∧ Forall (fun kv => plain_key kv.1) d;
}.

Definition output_name (read_count attack : string) : string := (read_count +:+ "_" +:+ attack)%string.
Definition set_names (entry : string * json) : list string :=
  match entry.2 with JObj d => output_name entry.1 <$> (without_read_count d).*1 | _ => [] end.

Lemma chars_output_name k attack : chars (output_name k attack) = chars k ++ "_"%char :: chars attack.
Proof. unfold output_name. by rewrite !chars_app. Qed.

Lemma output_name_inj k k' x y :
  "_"%char ∉ chars k → "_"%char ∉ chars k' → output_name k x = output_name k' y → k = k' ∧ x = y.
Proof.
  intros Hk Hk' E. apply (f_equal chars) in E. rewrite !chars_output_name in E.
  apply first_split in E as [E1 E2]; [|done..]. split; by apply chars_inj.
Qed.

Lemma plain_output_name k attack : plain_key k → plain_key attack → plain_name (output_name k attack).
Proof.
  intros [Hk Hpk] [Ha Hpa]. split_and!; [rewrite chars_output_name; by destruct (chars k)| |unfold output_name; printing].
  rewrite chars_output_name, elem_of_app, elem_of_cons. by intros [?|[?|?]].
Qed.

Lemma elem_of_set_names n entry :
  n ∈ set_names entry → ∃ d attack, entry.2 = JObj d ∧ attack ∈ d.*1 ∧ n = output_name entry.1 attack.
Proof.
  unfold set_names. destruct entry.2 as [| | | | |d]; try (intros []%elem_of_nil). intros (attack & -> & Ha)%list_elem_of_fmap.
  exists d, attack. split_and!; [done| |done]. apply list_elem_of_fmap in Ha as (kv & -> & Hkv). apply list_elem_of_filter in Hkv as [_ Hkv].
  apply list_elem_of_fmap. by exists kv.
Qed.

Lemma plain_log_tail entry log : plain_log (entry :: log) → plain_log log.
Proof.
  intros [H1 H2 H3]. cbn in H1. apply NoDup_cons in H1 as [_ H1]. apply Forall_cons in H2 as [_ H2].
  split; [done..|]. intros k d Hin. apply (H3 k). by right.
Qed.

Lemma log_names log : plain_log log → NoDup (log ≫= set_names) ∧ Forall plain_name (log ≫= set_names).
Proof.
  induction log as [|[k set] log IH]; intros Hlog; [split; constructor|].
  destruct (IH (plain_log_tail _ _ Hlog)) as [Hnd Hp]. destruct Hlog as [H1 H2 H3]. cbn in H1.
  apply NoDup_cons in H1 as [Hk H1]. apply Forall_cons in H2 as [[Hpk Hu] H2]. cbn [fst] in *.
  change ((_ :: log) ≫= set_names) with (set_names (k, set) ++ (log ≫= set_names)).
  assert (∀ n, n ∈ set_names (k, set) → plain_name n) as Hpn.
  { intros n (d & attack & E & Ha & ->)%elem_of_set_names. cbn in E. subst set.
    destruct (H3 k d ltac:(by left)) as [_ Hd]. apply list_elem_of_fmap in Ha as (kv & -> & Hkv). rewrite Forall_forall in Hd.
    by apply plain_output_name; [|apply Hd]. }
  split; [|apply Forall_app; split; [by apply Forall_forall|done]]. apply NoDup_app. split_and!; [| |done].
  - unfold set_names. cbn. destruct set as [| | | | |d]; try constructor. destruct (H3 k d ltac:(by left)) as [Hd _].
    apply (NoDup_fmap_2_strong (output_name k)); [intros x y _ _ E; by eapply (output_name_inj k k)|].
    eapply sublist_NoDup; [done|]. apply fmap_sublist, sublist_filter.
  - intros n Hn (e & Hn' & He)%list_elem_of_bind. apply elem_of_set_names in Hn as (d & x & _ & _ & ->).
    apply elem_of_set_names in Hn' as (d' & y & _ & _ & E). rewrite Forall_forall in H2. destruct (H2 e He) as [_ Hue].
    apply output_name_inj in E as [E _]; [|done..]. cbn in E. apply Hk. rewrite E. apply list_elem_of_fmap. by exists e.
Qed.

(** ** The outputs of a log *)
Lemma vis_loop_names a cols log : ∀ collected outs collected' outs',
  va_aggr_vs_vict a = false → vis_loop a cols log collected outs = Ok (collected', outs') →
  ∃ new, outs' = outs ++ new ∧ new.*1 = log ≫= set_names ∧ Forall (fun out => writable (data_json out.2)) new.
Proof.
  induction log as [|[k set] log IH]; intros col outs col' outs' Ha H.
  - injection H as _ <-. exists []. split_and!; [by rewrite app_nil_r|done|constructor].
  - cbn [vis_loop] in H. apply bind_ok_inv in H as (attacks & Hs & H). cbv zeta in H. rewrite Ha in H.
    apply bind_ok_inv in H as (new & Hn & H). apply IH in H as (new' & -> & Hnew' & Hw'); [|done].
    exists (new ++ new'). rewrite <- app_assoc. split; [done|].
    assert (set = JObj attacks) as -> by (destruct set; try discriminate Hs; by injection Hs as ->).
    change ((_ :: log) ≫= set_names) with (set_names (k, JObj attacks) ++ (log ≫= set_names)). rewrite fmap_app, Hnew'.
    assert (∀ e out, standard_output a cols k e = Ok out → out.1 = output_name k e.1 ∧ writable (data_json out.2)) as Ho.
    { intros [attack results] out. unfold standard_output. intros (d & _ & H)%bind_ok_inv. apply bind_ok_inv in H as (st & _ & H).
      apply bind_ok_inv in H as (o & Hd & [= <-]). split; [done|]. by eapply writable_standard. }
    split; [|apply Forall_app; split; [|done]; eapply result_map_Forall; [|exact Hn]; intros e out He; by apply (Ho e)].
    f_equal. unfold set_names. cbn [fst snd]. unfold standard_outputs in Hn. revert new Hn. clear -Ho.
    induction (without_read_count attacks) as [|e l IH]; intros new; cbn; [by intros [= <-]|].
    intros (out & He & H)%bind_ok_inv. apply bind_ok_inv in H as (new' & Hn & [= <-]). apply Ho in He as [He _].
    cbn. by rewrite He, (IH _ Hn).
Qed.

Lemma vis_loop_collected a cols log : ∀ collected outs c outs',
  va_aggr_vs_vict a = true → vis_loop a cols log collected outs = Ok (Some c, outs') →
  outs' = outs ∧ (c.1 ∈ log.*1 ∨ collected = Some c).
Proof.
  induction log as [|[k set] log IH]; intros col outs c outs' Ha H; [cbn in H; injection H as -> <-; split; [done|by right]|].
  cbn [vis_loop] in H. apply bind_ok_inv in H as (attacks & _ & H). cbv zeta in H. rewrite Ha in H.
  apply bind_ok_inv in H as (aggr & _ & H). apply IH in H as [-> [Hin|[= <-]]]; [| |done]; (split; [done|]); left; cbn; [by right|by left].
Qed.

Lemma outputs_named a cols log outs :
  plain_log log → logs2vis a cols log = Ok outs →
  NoDup outs.*1 ∧ Forall (fun out => plain_name out.1) outs
  ∧ (va_aggr_vs_vict a = false → Forall (fun out => writable (data_json out.2)) outs).
Proof.
  intros Hlog. unfold logs2vis. intros ([c os] & Hl & H)%bind_ok_inv. destruct (va_aggr_vs_vict a) eqn:Ea.
  - apply bind_ok_inv in H as ([k aggr] & Hc & H). destruct c as [c|]; [|done]. injection Hc as ->.
    apply bind_ok_inv in H as (o & _ & [= <-]). apply vis_loop_collected in Hl as [-> [Hin|?]]; [|done..]. cbn.
    split_and!; [apply NoDup_singleton| |done]. constructor; [|constructor]. cbn.
    apply (plain_output_name k "aggressors_vs_victims").
    + destruct Hlog as [_ H2 _]. cbn in Hin. apply list_elem_of_fmap in Hin as (kv & -> & Hkv). rewrite Forall_forall in H2. by apply H2.
    + split; [apply (bool_decide_unpack _); by vm_compute|by apply printable_const].
  - injection H as <-. apply vis_loop_names in Hl as (new & -> & Hn & Hw); [|done]. cbn [app].
    destruct (log_names log Hlog) as [Hnd Hp]. rewrite <- Hn in Hnd, Hp. split_and!; [done| |done].
    by rewrite Forall_fmap in Hp.
Qed.

(** The files lead to every attack.  When the outputs of a log can be computed,
    the run writes its files, and following the configuration one gets the
    outputs in order, each under its name, with its rows, columns and all its cells,
    whatever the directory held before: no two outputs share a file, every
    description finds its data, and everything that is written is read back.  (In the
    aggressor mode the keys of columns are taken from the log and must be
    printable.) *)
Theorem vis_files_shown a cols date log dir outs :
  (∀ n, printable_string (date n)) → plain_log log → logs2vis a cols log = Ok outs →
  (va_aggr_vs_vict a = true → Forall (fun out => writable (data_json out.2)) outs) →
  ∃ dir', vis_main a cols date log dir = Ok dir' ∧ written_grids (rows_name a) dir' = Ok (shown_entry <$> outs).
Proof.
  intros Hdate Hlog Hout Hw. destruct (outputs_named a cols log outs Hlog Hout) as (Hnd & Hp & Hw').
  assert (Forall (fun out => writable (data_json out.2)) outs) as Hwr by (destruct (va_aggr_vs_vict a); auto).
  destruct (generate_all a date outs [] dir Hnd Hp) as (dir1 & Hg & _ & Hwritten).
  unfold vis_main. rewrite Hout. cbn [mbind result_bind]. rewrite Hg. cbn [app]. eexists. split; [done|].
  assert (Forall plain_name outs.*1) as Hp' by by apply Forall_fmap.
  destruct (vis_config_plain outs.*1 Hp') as [Hc Hcw]. unfold written_grids.
  rewrite (load_written _ _ _ (lookup_insert_eq _ _ _) Hcw). cbn [mbind result_bind]. rewrite Hc.
  change (attr_path (JObj [(_, ?l)]) _) with (Ok l). cbn [mbind result_bind as_list].
  apply (view_all a date Hdate); [done..|]. apply Forall_forall. intros out Ho. rewrite Forall_forall in Hwritten, Hp.
  destruct (Hwritten out Ho) as (Hd & d & Hm). destruct (files_distinct out.1 out.1 (Hp out Ho) (Hp out Ho)) as (_ & _ & _ & Hc1 & Hc2).
  split; [|exists d]; by rewrite lookup_insert_ne.
Qed.

Lemma plain_key_const k : bool_decide (dot ∉ chars k) && forallb printable (chars k) = true → plain_key k.
Proof. intros [H1 H2]%andb_prop. split; [by apply (bool_decide_eq_true_1 _ H1)|by apply printable_const]. Qed.

(** A log with two attacks. *)
Definition demo_row (row : Z) (flips : list Z) : string * json :=
  (pretty row, JObj [("row", JNum row); ("col", JObj [("3", JList (JNum <$> flips))]); ("bitflips", JNum (Z.of_nat (length flips)))]%string).
Definition demo_log : dict :=
  [("1000", JObj [("pair_4_6", JObj [("hammer_row_1", JNum 4); ("hammer_row_2", JNum 6); ("errors_in_rows", JObj [demo_row 5 [1; 66]])]);
                  ("sequential_attack_rows_0_9", JObj [("errors_in_rows", JObj [demo_row 7 [9]])])])]%string.

Lemma vis_files_shown_witness :
  ∃ dir', vis_main (VisArgs 4 false false) 8 (fun _ => "2024-01-01T00:00:00"%string) demo_log ∅ = Ok dir'
    ∧ fmap (M := result) (fun l => l.*1) (written_grids "rowsRange" dir') = Ok ["1000_pair_4_6"; "1000_sequential_attack_rows_0_9"]%string.
Proof.
  destruct (logs2vis (VisArgs 4 false false) 8 demo_log) as [outs|e] eqn:E; [|by vm_compute in E].
  destruct (vis_files_shown (VisArgs 4 false false) 8 (fun _ => "2024-01-01T00:00:00"%string) demo_log ∅ outs) as (dir' & Hm & Hv).
  - intros _. by apply printable_const.
  - split.
    + apply (bool_decide_unpack _). by vm_compute.
    + apply Forall_singleton. split; [by apply plain_key_const|]. apply (bool_decide_unpack _). by vm_compute.
    + intros k d [= -> ->]%list_elem_of_singleton. split; [apply (bool_decide_unpack _); by vm_compute|].
      repeat (apply Forall_cons; split; [by apply plain_key_const|]). constructor.
  - exact E.
  - done.
  - exists dir'. split; [exact Hm|]. change "rowsRange"%string with (rows_name (VisArgs 4 false false)). rewrite Hv.
    vm_compute in E. injection E as <-. reflexivity.
Defined.
