(* ===== verification/AttackLog.v ===== *)
(** * The log of an attack, from the script to the files of the viewer

    The end of [main] in [src/rowhammer_tester/scripts/rowhammer.py], which saves the
    error summary of [ErrorSummary], and the main program of
    [src/rowhammer_tester/scripts/logs2vis.py] from the texts of its two input files
    on: what an attack found is what the files of [VisFiles] lead to. *)

From stdpp Require Import gmap pretty.
From S2P Require Import Prelude PyString Config RowGenerators RowHammerHost ErrorSummary Logs LogsFacts PyJson GeneratedFiles VisFiles Plots.
#[local] Open Scope Z_scope.

(** ** Saving and loading *)
Definition summary_file (log_directory time : text) : text :=
  log_directory ++ chars "/error_summary_" ++ time ++ chars ".json".

(** Without a directory nothing is saved. *)
Definition save_summary (log_directory : option text) (time : text) (err_summary : dict) (fs : files) : files :=
  match log_directory with
  | Some dir => <[summary_file dir time := dump (JObj err_summary)]> fs
  | None => fs
  end.

(** [logs2vis.py]: the directory of the visualisation afterwards. *)
Definition vis_script (a : vis_args) (settings_file log_file : text) (date : nat → string) (fs vis_dir : files) : result files :=
  settings ← (t ← read_file settings_file fs; loads t);
  colbits ← (v ← attr_path settings ["geom"; "colbits"]%string; as_int v);
  log_data ← (t ← read_file log_file fs; loads t);
  log_data ← as_obj log_data;
  vis_main a (2 ^ colbits) date log_data vis_dir.

(** ** What is saved *)
Lemma dict_set_keys d k v : NoDup d.*1 → NoDup (dict_set d k v).*1 ∧ ∀ x, x ∈ (dict_set d k v).*1 → x = k ∨ x ∈ d.*1.
Proof.
  induction d as [|[k' v'] d IH]; intros Hd; cbn [dict_set].
  - split; [apply NoDup_singleton|]. intros x ->%list_elem_of_singleton. by left.
  - cbn in Hd. apply NoDup_cons in Hd as [Hk Hd]. case_bool_decide as E; [subst k'|].
    + cbn. split; [by constructor|]. intros x [->|?]%elem_of_cons; [by left|right; by right].
    + destruct (IH Hd) as [Hnd Hin]. cbn. split.
      * constructor; [|done]. by intros [?|?]%Hin.
      * intros x [->|[->|?]%Hin]%elem_of_cons; [right; by left|by left|right; by right].
Qed.

Lemma dict_set_Forall (P : string * json → Prop) d k v : P (k, v) → Forall P d → Forall P (dict_set d k v).
Proof. intros Hk. induction 1 as [|[k' v'] d Hv Hd IH]; cbn [dict_set]; [by constructor|]. case_bool_decide; by constructor. Qed.

Lemma writable_obj d : NoDup d.*1 → Forall (fun kv => printable_string kv.1 ∧ writable kv.2) d → writable (JObj d).
Proof. intros Hd Hall. split; [done|]. induction Hall as [|kv d [? ?] _ IH]; [done|]. cbn in Hd. apply NoDup_cons in Hd as [_ Hd]. cbn. auto. Qed.

Lemma writable_nums l : writable (JList (JNum <$> l)).
Proof. induction l as [|x l IH]; [done|]. by split. Qed.

Lemma plain_pretty (z : Z) : plain_key (pretty z) ∧ ("_"%char ∉ chars (pretty z)).
Proof.
  split_and!; [split; [|apply printable_pretty]|]; intros [E|Hd]%pretty_char; try done; destruct Hd as [v Hd]; by vm_compute in Hd.
Qed.

(** Rows once each, and in each row columns once each. *)
Definition wf_errors (cols : Z) (errors : list (Z * row_summary)) : Prop :=
  NoDup errors.*1 ∧ Forall (fun x => wf_row cols x.2) errors.

Lemma writable_errors cols errors : wf_errors cols errors → writable (errors_json errors).
Proof.
  intros [Hnd Hall]. unfold errors_json. apply writable_obj.
  - rewrite <- list_fmap_compose, (list_fmap_ext _ (pretty ∘ fst)) by (by intros ? [? ?]).
    rewrite list_fmap_compose. by apply NoDup_fmap_2; [apply _|].
  - apply Forall_fmap. eapply Forall_impl; [exact Hall|]. intros [row s] [Hc _]. cbn [fst snd compose]. split; [apply printable_pretty|].
    unfold row_json. apply writable_obj; [apply (bool_decide_unpack _); by vm_compute|].
    repeat constructor; try (by apply printable_const).
    + cbn. rewrite <- list_fmap_compose, (list_fmap_ext _ (pretty ∘ fst)) by (by intros ? [? ?]).
      rewrite list_fmap_compose. by apply NoDup_fmap_2; [apply _|].
    + cbn. clear Hc. induction (rs_col s) as [|[c fl] l IH]; [done|]. cbn.
      split_and!; [apply printable_pretty|apply writable_nums|done].
Qed.

(** *** What [main] makes of the attacks *)
Definition set_ok (d : dict) : Prop := NoDup d.*1 ∧ Forall (fun kv => plain_key kv.1 ∧ writable kv.2) d.
Definition log_ok (log : dict) : Prop :=
  NoDup log.*1 ∧ Forall (fun kv => plain_key kv.1 ∧ ("_"%char ∉ chars kv.1) ∧ ∃ d, kv.2 = JObj d ∧ set_ok d) log.

Lemma set_ok_set d k v : plain_key k → writable v → set_ok d → set_ok (dict_set d k v).
Proof. intros Hk Hv [Hnd Hall]. split; [by apply dict_set_keys|by apply dict_set_Forall]. Qed.

Lemma log_ok_set log (count : Z) d : set_ok d → log_ok log → log_ok (dict_set log (pretty count) (JObj d)).
Proof.
  intros Hd [Hnd Hall]. destruct (plain_pretty count). split; [by apply dict_set_keys|]. apply dict_set_Forall; [|done].
  split_and!; [done|done|by exists d].
Qed.

Lemma log_ok_plain log : log_ok log → plain_log log.
Proof.
  intros [Hnd Hall]. split; [done| |].
  - eapply Forall_impl; [exact Hall|]. by intros kv (? & ? & _).
  - intros k d Hin. rewrite Forall_forall in Hall. destruct (Hall _ Hin) as (_ & _ & d' & [= <-] & Hs & Hd).
    split; [done|]. eapply Forall_impl; [exact Hd|]. by intros kv [? _].
Qed.

Lemma log_ok_writable log : log_ok log → writable (JObj log).
Proof.
  intros [Hnd Hall]. apply writable_obj; [done|]. eapply Forall_impl; [exact Hall|].
  intros [k v] ([_ Hp] & _ & d & -> & Hs & Hd). split; [done|]. apply writable_obj; [done|].
  eapply Forall_impl; [exact Hd|]. by intros kv [[_ ?] ?].
Qed.

Section saved.
Context {S : Type} `{!Attacker S} (cols : Z).
Context (Hrun : ∀ pairs count s errors s', at_run pairs count s = Ok (errors, s') → wf_errors cols errors).

Lemma pair_entry_ok pair errors k j :
  wf_errors cols errors → pair_key pair = Ok k → pair_entry pair errors = Ok j → plain_key k ∧ writable j.
Proof using.
  intros He Hk Hj. split.
  - destruct pair as [|a [|b pair]]; try done. injection Hk as <-. destruct (plain_pretty a) as [[Ha Hpa] _], (plain_pretty b) as [[Hb Hpb] _].
    split; [|printing]. rewrite !chars_app, !elem_of_app.
    assert ((dot ∉ chars "pair_") ∧ (dot ∉ chars "_")) as [? ?] by (split; apply (bool_decide_unpack _); exact I). tauto.
  - unfold pair_entry in Hj. apply bind_ok_inv in Hj as (a & _ & Hj). apply bind_ok_inv in Hj as (b & _ & Hj). injection Hj as <-.
    apply writable_obj; [apply (bool_decide_unpack _); by vm_compute|]. repeat constructor; try (by apply printable_const); by eapply writable_errors.
Qed.

Lemma pair_attacks_ok count pairs : ∀ d s d' s',
  set_ok d → result_fold (pair_attack count) (d, s) pairs = Ok (d', s') → set_ok d'.
Proof using Hrun.
  induction pairs as [|pair pairs IH]; intros d s d' s' Hd; cbn [result_fold]; [by intros [= <- _]|].
  intros ([d1 s1] & H1 & H2)%bind_ok_inv. eapply IH; [|exact H2]. clear IH H2. unfold pair_attack in H1.
  apply bind_ok_inv in H1 as ([errors s2] & Hr & H1). apply bind_ok_inv in H1 as (k & Hk & H1).
  apply bind_ok_inv in H1 as (j & Hj & H1). injection H1 as <- _.
  destruct (pair_entry_ok pair errors k j) as [? ?]; [by eapply Hrun|done|done|]. by apply set_ok_set.
Qed.

Lemma count_entries_ok a pairs count s d s' :
  pair_mode (ma_pairs a) → count_entries a pairs count s = Ok (d, s') → set_ok d.
Proof using Hrun.
  intros [Hh Hmode]. unfold count_entries. rewrite Hh. cbn [negb bool_decide].
  assert (set_ok [("read_count"%string, JNum count)]) as H0.
  { split; [apply NoDup_singleton|]. apply Forall_singleton. split; [by apply plain_key_const|done]. }
  destruct (all_rows (ma_pairs a)); [by apply pair_attacks_ok|]. destruct Hmode as [?|[-> _]]; [done|].
  intros ([errors s1] & Hr & H)%bind_ok_inv. apply bind_ok_inv in H as (pair & _ & H).
  apply bind_ok_inv in H as (k & Hk & H). apply bind_ok_inv in H as (j & Hj & H).
  assert (d = dict_set [("read_count"%string, JNum count)] k j) as -> by congruence.
  destruct (pair_entry_ok pair errors k j) as [? ?]; [by eapply Hrun|done|done|]. by apply set_ok_set.
Qed.

Lemma count_loop_ok a pairs counts : ∀ log s log' s',
  pair_mode (ma_pairs a) → log_ok log → count_loop a pairs counts log s = Ok (log', s') → log_ok log'.
Proof using Hrun.
  induction counts as [|count counts IH]; intros log s log' s' Hm Hwf; cbn [count_loop]; [by intros [= <- _]|].
  intros ([log1 s1] & H1 & H2)%bind_ok_inv. rewrite pair_mode_attacks in H1 by done.
  apply bind_ok_inv in H1 as ([d s2] & Hd & H1). injection H1 as <- <-.
  assert (log_ok (dict_set log (pretty count) (JObj d))) as Hwf1 by (apply log_ok_set; [by eapply count_entries_ok|done]).
  destruct (at_bitflip_found s2 && ma_exit_on_bit_flip a); [by injection H2 as <- _|]. by eapply IH.
Qed.

(** The pairs that are attacked one after the other. *)
Definition attacked (p : pair_args) (pairs : list (list Z)) : list (list Z) := if all_rows p then pairs else take 1 pairs.

Definition has_attacks (p : pair_args) (pairs : list (list Z)) (set : json) : Prop :=
  ∃ d, set = JObj d ∧ ∀ pair k, pair ∈ attacked p pairs → pair_key pair = Ok k → k ∈ d.*1.

Lemma dict_set_has d k v x : x = k ∨ x ∈ d.*1 → x ∈ (dict_set d k v).*1.
Proof using.
  induction d as [|[k' v'] d IH]; cbn [dict_set]; [intros [->|[]%elem_of_nil]; by left|].
  case_bool_decide as E; [subst k'; cbn; rewrite elem_of_cons; tauto|]. cbn. rewrite !elem_of_cons. tauto.
Qed.

Lemma pair_attacks_has count pairs : ∀ d s d' s',
  result_fold (pair_attack count) (d, s) pairs = Ok (d', s') →
  (∀ x, x ∈ d.*1 → x ∈ d'.*1) ∧ ∀ pair k, pair ∈ pairs → pair_key pair = Ok k → k ∈ d'.*1.
Proof using.
  induction pairs as [|pair pairs IH]; intros d s d' s'; cbn [result_fold]; [intros [= <- _]; split; [done|by intros ? ? ?%elem_of_nil]|].
  intros ([d1 s1] & H1 & [H2 H3]%IH)%bind_ok_inv. unfold pair_attack in H1.
  apply bind_ok_inv in H1 as ([errors s2] & _ & H1). apply bind_ok_inv in H1 as (k & Hk & H1).
  apply bind_ok_inv in H1 as (j & _ & H1). injection H1 as <- _. split.
  - intros x Hx. apply H2, dict_set_has. by right.
  - intros p k' [->|Hp]%elem_of_cons Hk'; [|by eapply H3]. apply H2, dict_set_has. left. congruence.
Qed.

Lemma count_entries_has a pairs count s d s' :
  pair_mode (ma_pairs a) → count_entries a pairs count s = Ok (d, s') → has_attacks (ma_pairs a) pairs (JObj d).
Proof using.
  intros [Hh Hmode]. unfold count_entries, has_attacks, attacked. rewrite Hh. cbn [negb bool_decide].
  destruct (all_rows (ma_pairs a)); [intros [_ H]%pair_attacks_has; by exists d|]. destruct Hmode as [?|[-> _]]; [done|].
  intros ([errors s1] & _ & H)%bind_ok_inv. apply bind_ok_inv in H as (pair & Hp & H).
  apply bind_ok_inv in H as (k & Hk & H). apply bind_ok_inv in H as (j & _ & H).
  exists d. split; [done|]. intros pair' k' Hin Hk'. assert (d = dict_set [("read_count"%string, JNum count)] k j) as -> by congruence.
  destruct pairs as [|p pairs]; [discriminate Hp|]. injection Hp as ->. cbn in Hin. apply list_elem_of_singleton in Hin as ->.
  apply dict_set_has. left. congruence.
Qed.

(** Without [--exit-on-bit-flip] every read count gets its attacks. *)
Lemma count_loop_has a pairs counts : ∀ log s log' s',
  pair_mode (ma_pairs a) → ma_exit_on_bit_flip a = false → Forall (fun kv => has_attacks (ma_pairs a) pairs kv.2) log →
  count_loop a pairs counts log s = Ok (log', s') →
  Forall (fun kv => has_attacks (ma_pairs a) pairs kv.2) log'
  ∧ ∀ x, x ∈ log.*1 ∨ x ∈ pretty <$> counts → x ∈ log'.*1.
Proof using.
  induction counts as [|count counts IH]; intros log s log' s' Hm Hexit Hlog; cbn [count_loop].
  { intros [= <- _]. split; [done|]. by intros x [?|?%elem_of_nil]. }
  intros ([log1 s1] & H1 & H2)%bind_ok_inv. rewrite pair_mode_attacks in H1 by done.
  apply bind_ok_inv in H1 as ([d s2] & Hd & H1). injection H1 as <- <-. rewrite Hexit, andb_false_r in H2.
  apply IH in H2 as [Hall Hin]; [|done..|apply dict_set_Forall; [by eapply count_entries_has|done]].
  split; [done|]. intros x Hx. apply Hin. rewrite fmap_cons, elem_of_cons in Hx.
  destruct Hx as [?|[->|?]]; [left|left|by right]; apply dict_set_has; auto.
Qed.

Lemma attack_named p pairs log count pair k :
  Forall (fun kv => has_attacks p pairs kv.2) log → count ∈ log.*1 → pair ∈ attacked p pairs → pair_key pair = Ok k →
  output_name count k ∈ log ≫= set_names.
Proof using.
  intros Hall ([key set] & -> & Hin)%list_elem_of_fmap Hpair Hk. rewrite Forall_forall in Hall. destruct (Hall _ Hin) as (d & E & Hd). cbn in E. subst set.
  apply list_elem_of_bind. exists (key, JObj d). split; [|done]. unfold set_names. cbn [fst snd]. apply list_elem_of_fmap. exists k. split; [done|].
  specialize (Hd _ _ Hpair Hk). apply list_elem_of_fmap in Hd as (kv & -> & Hkv). apply list_elem_of_fmap. exists kv. split; [done|].
  apply list_elem_of_filter. split; [by eapply pair_key_fresh|done].
Qed.
End saved.


(** Two attacks of [--all-rows], with a flip in row 5. *)
Definition demo_settings : json := JObj [("geom", JObj [("bankbits", JNum 3); ("colbits", JNum 3)])]%string.
Definition demo_tree : files := {[ chars "/settings.json" := dump demo_settings ]}.

