(* ===== verification/SpdRead.v ===== *)
(** * Reading the SPD data of a module

    Models [read_spd] and the command [read] of the main program in
    [src/rowhammer_tester/scripts/spd_eeprom.py]: the script types commands of the
    BIOS into a console ([pexpect]), cuts the memory dump out of its output, and
    writes the parsed bytes to a file.

    The console and the BIOS are parameters.  Of [pexpect] the class [Spawn] has what
    its documentation promises: [expect] reads until the pattern is found in what has
    arrived so far, which may be any part of the output, and leaves the rest.  What
    the pattern matches therefore depends on the timing when more than one prompt is
    still unread; the theorem holds for every timing. *)

From stdpp Require Import gmap pretty.
From S2P Require Import Prelude PyString Spd SpdFacts Device HostMem ReadLevel HostScripts GeneratedFiles.
#[local] Open Scope Z_scope.

(** ** Patterns *)
Definition marker : text := chars "Memory dump:".

(** The first occurrence of [p]. *)
Fixpoint search (p l : text) : option nat :=
  if startswith p l then Some 0%nat
  else match l with [] => None | _ :: l' => S <$> search p l' end.

(** Whether [litex] comes before any [>] in a reversed text. *)
Fixpoint after_litex (l : text) : bool :=
  startswith (reverse (chars "litex")) l
  || match l with [] => false | c :: l' => negb (bool_decide (c = ">"%char)) && after_litex l' end.

(** A text that [litex[^>]*> ] matches at its end. *)
Definition ends_prompt (l : text) : bool :=
  match reverse l with
  | s :: g :: r => bool_decide (s = " "%char) && bool_decide (g = ">"%char) && after_litex r
  | _ => false
  end.

(** The length of the longest match of [^.*litex[^>]*> ], where [.] also matches
    line ends, among the first [k] characters. *)
Fixpoint longest_prompt (k : nat) (l : text) : option nat :=
  match k with
  | O => None
  | S k' => if ends_prompt (take k l) then Some k else longest_prompt k' l
  end.

Inductive pattern := Prompt | Literal (t : text).

(** Start and end of the match. *)
Definition re_search (p : pattern) (l : text) : option (nat * nat) :=
  match p with
  | Prompt => (fun e => (0%nat, e)) <$> longest_prompt (length l) l
  | Literal t => (fun i => (i, (i + length t)%nat)) <$> search t l
  end.

(** ** The console

    [unread] is what the BIOS answers to the lines sent so far, as far as it was not
    matched; [reply] is its answer to a line. *)
Class Spawn {B : Type} (reply : B → text → text * B) := {
  con : Type;
  bios : con → B;
  unread : con → text;
  sendline : text → con → con;
  expect : pattern → con → result (text * con);
  sendline_unread l c : unread (sendline l c) = unread c ++ (reply (bios c) l).1;
  sendline_bios l c : bios (sendline l c) = (reply (bios c) l).2;
  expect_found p c : re_search p (unread c) ≠ None → ∃ after c', expect p c = Ok (after, c');
  expect_match p c after c' :
    expect p c = Ok (after, c') →
    bios c' = bios c ∧
    ∃ n i e, re_search p (take n (unread c)) = Some (i, e)
      ∧ after = take (e - i) (drop i (unread c)) ∧ unread c' = drop e (unread c);
}.

(** ** The script *)
Definition SPD_COMMANDS (target : text) : option (Z * list text * bool) :=
  if bool_decide (target = chars "zcu104") then Some (1, [chars "i2c_write 0x74 0x80"], false)
  else if bool_decide (target = chars "ddr4_datacenter_test_board") then Some (0, [], false)
  else if bool_decide (target = chars "ddr5_tester") then Some (0, [], true)
  else None.

Definition page_command (page : Z) : text := chars "i2c_write 0x50 0x0b 1 " ++ [hex_char page].
Definition read_command : text := chars "i2c_read 0x50 0x80 128 0".
Definition spd_command (spd_addr : Z) : text := chars "sdram_spd " ++ chars (pretty spd_addr).

Section script.
Context {B : Type} {reply : B → text → text * B} {S : Spawn reply}.

Definition read_page (st : text * con) (page : Z) : result (text * con) :=
  let '(spd_data, console) := st in
  '(_, console) ← expect Prompt (sendline (page_command page) console);
  '(_, console) ← expect (Literal marker) (sendline read_command console);
  '(text, console) ← expect Prompt console;
  modified_dump ← add_page_to_address page text;
  Ok (spd_data ++ newline :: modified_dump, console).

Definition init_command (console : con) (cmd : text) : result con :=
  '(_, console) ← expect Prompt (sendline cmd console); Ok console.

Definition read_spd (console : con) (spd_addr : Z) (init_commands : list text) (ddr5 : bool) : result text :=
  passert ((0 <=? spd_addr) && (spd_addr <? 7)) ;;
  '(_, console) ← expect Prompt (sendline [] console);
  if ddr5 then
    '(spd_data, _) ← result_fold read_page ([], console) (zrange 8);
    Ok spd_data
  else
    console ← result_fold init_command console init_commands;
    '(_, console) ← expect (Literal marker) (sendline (spd_command spd_addr) console);
    '(spd_data, _) ← expect Prompt console;
    Ok spd_data.

(** [bytes(l)] *)
Definition bytes (l : list Z) : result text :=
  result_map (fun v => if (0 <=? v) && (v <? 256) then Ok (ascii_of_nat (Z.to_nat v)) else Raise ValueError) l.

Context `{HD : Device} `{HR : !RamOps}.

Definition wait_training (fuel : nat) : host unit :=
  loop fuel tt (fun _ =>
    if has_reg "ddrctrl_init_done" then
      done ← rd "ddrctrl_init_done";
      if negb (done =? 0) then mret (true, tt) else sleep ;; mret (false, tt)
    else mret (true, tt)).

(** The value is the directory tree afterwards. *)
Definition spd_read_main (fuel : nat) (GENERATED_DIR output_file : text) (srv : bool) (identifier_mem : Z)
    (fs : files) (console : con) : host files :=
  lift (if srv then _ ← litex_server GENERATED_DIR fs; Ok tt else Ok tt) ;;
  defs ← lift (get_generated_defs GENERATED_DIR fs);
  target ← lift (of_option KeyError (defs !! chars "TARGET"));
  '(spd_addr, init_commands, ddr5) ← lift (of_option NotImplementedError (SPD_COMMANDS target));
  read_ident identifier_mem ;;
  wait_training fuel ;;
  sleep ;;
  output ← lift (read_spd console spd_addr init_commands ddr5);
  spd_data ← lift (parse_hexdump output);
  content ← lift (bytes spd_data);
  mret (<[output_file := content]> fs).
End script.

(** ** Searching *)

(** No end of [q] is the beginning of the marker. *)
Definition closed (q : text) : Prop := ∀ k, (k < length q)%nat → startswith (drop k q) marker = false.

Lemma startswith_spec p l : startswith p l = true ↔ ∃ r, l = p ++ r.
Proof.
  revert l; induction p as [|c p IH]; intros l; cbn; [split; [by exists l|done]|].
  destruct l as [|d l]; [split; [done|by intros [r [=]]]|]. rewrite andb_true_iff, bool_decide_eq_true, IH.
  split; [intros [-> [r ->]]; by exists r|]. intros [r [= -> ->]]. split; [done|by exists r].
Qed.

Lemma startswith_overlap p q t :
  startswith p (q ++ t) = true → startswith p q = true ∨ startswith q p = true.
Proof.
  revert q; induction p as [|c p IH]; intros q; [by left|]. destruct q as [|d q]; [by right|]. cbn.
  rewrite andb_true_iff, bool_decide_eq_true. intros [-> H]. rewrite bool_decide_true by done. cbn. by apply IH.
Qed.

Lemma search_app q t : closed q → search marker q = None → search marker (q ++ t) = Nat.add (length q) <$> search marker t.
Proof.
  induction q as [|c q IH]; intros Hc Hn; [change ([] ++ t) with t; by destruct (search marker t)|].
  cbn [search] in Hn. destruct (startswith marker (c :: q)) eqn:Hs; [done|].
  assert (startswith marker ((c :: q) ++ t) = false) as E.
  { destruct (startswith marker ((c :: q) ++ t)) eqn:Ht; [|done].
    apply startswith_overlap in Ht as [Ht|Ht]; [congruence|]. specialize (Hc 0%nat). rewrite drop_0, Ht in Hc. cbn in Hc. apply Hc. lia. }
  change (search marker ((c :: q) ++ t))
    with (if startswith marker ((c :: q) ++ t) then Some 0%nat else S <$> search marker (q ++ t)). rewrite E.
  rewrite IH; [by destruct (search marker t)| |by destruct (search marker q)].
  intros k Hk. apply (Hc (S k)). cbn. lia.
Qed.

Lemma search_bound p l i : search p l = Some i → (i + length p ≤ length l)%nat.
Proof.
  revert i; induction l as [|c l IH]; intros i; cbn [search].
  - destruct (startswith p []) eqn:E; [|done]. intros [= <-]. apply startswith_spec in E as [r E%(f_equal length)].
    rewrite length_app in E. cbn in *. lia.
  - destruct (startswith p (c :: l)) eqn:E.
    + intros [= <-]. apply startswith_spec in E as [r ->]. rewrite length_app. lia.
    + destruct (search p l) as [j|] eqn:Ej; [|done]. intros [= <-]. specialize (IH j eq_refl). cbn. lia.
Qed.

(** The first occurrence in a part of a text is the first one in the text. *)
Lemma search_take p n l i : search p (take n l) = Some i → search p l = Some i.
Proof.
  revert l i; induction n as [|n IH]; intros l i.
  - rewrite take_0. destruct p; [by destruct l|done].
  - destruct l as [|c l]; [done|]. rewrite firstn_cons. cbn [search].
    destruct (startswith p (c :: take n l)) eqn:E.
    + intros [= <-]. apply startswith_spec in E as [r E]. assert (startswith p (c :: l) = true) as ->; [|done].
      apply startswith_spec. exists (r ++ drop n l). by rewrite app_assoc, <- E, <- app_comm_cons, take_drop.
    + destruct (search p (take n l)) as [j|] eqn:Ej; [|done]. intros [= <-]. rewrite (IH l j Ej).
      destruct (startswith p (c :: l)) eqn:E'; [|done]. exfalso. apply search_bound in Ej. rewrite length_take in Ej.
      apply startswith_spec in E' as [r E']. apply not_true_iff_false in E. apply E, startswith_spec.
      exists (take (S n - length p) r). apply (f_equal (take (S n))) in E'. rewrite firstn_cons, take_app in E'. rewrite E'.
      by rewrite (take_ge p) by lia.
Qed.

Lemma search_drop p l k : search p l = None → search p (drop k l) = None.
Proof.
  revert k; induction l as [|c l IH]; intros k; [by rewrite drop_nil|]. destruct k as [|k]; [done|]. cbn [search].
  destruct (startswith p (c :: l)); [done|]. destruct (search p l) eqn:E; [done|]. intros _. by apply IH.
Qed.

(** ** Prompts *)
Lemma after_litex_app l r : after_litex l = true → after_litex (l ++ r) = true.
Proof.
  assert (∀ p x, startswith p x = true → startswith p (x ++ r) = true) as Hs.
  { intros p x (y & ->)%startswith_spec. apply startswith_spec. exists (y ++ r). by rewrite app_assoc. }
  induction l as [|c l IH]; [done|]. cbn [after_litex app]. intros [H|H]%orb_true_iff; apply orb_true_iff.
  - left. by apply (Hs _ (c :: l)).
  - right. apply andb_true_iff in H as [H1 H2]. apply andb_true_iff. auto.
Qed.

Lemma ends_prompt_app q r : ends_prompt r = true → ends_prompt (q ++ r) = true.
Proof.
  unfold ends_prompt. rewrite reverse_app. destruct (reverse r) as [|s [|g x]]; [done|done|]. cbn [app].
  rewrite !andb_true_iff. intros [? ?]. split; [done|]. by apply after_litex_app.
Qed.

Lemma ends_prompt_last r : ends_prompt r = true → ∃ x, r = x ++ [">"%char; " "%char].
Proof.
  unfold ends_prompt. destruct (reverse r) as [|s [|g x]] eqn:E; [done|done|].
  rewrite !andb_true_iff, !bool_decide_eq_true. intros [[-> ->] _]. exists (reverse x).
  apply (f_equal reverse) in E. by rewrite reverse_involutive, !reverse_cons, <- app_assoc in E.
Qed.

Lemma closed_prompt r : ends_prompt r = true → closed r.
Proof.
  intros (x & ->)%ends_prompt_last k Hk. destruct (startswith _ marker) eqn:E; [|done]. exfalso.
  apply startswith_spec in E as [s E]. rewrite length_app in Hk. cbn in Hk.
  destruct (decide (k ≤ length x)%nat) as [Hx|Hx].
  - rewrite drop_app_le, <- app_assoc in E by done.
    assert (">"%char ∈ marker) as Hin by (rewrite E, !elem_of_app; right; left; by left).
    revert Hin. apply (bool_decide_unpack _). exact I.
  - replace k with (length x + 1)%nat in E by lia. rewrite drop_app_add in E. done.
Qed.

Lemma longest_prompt_found k l e :
  longest_prompt k l = Some e → (0 < e ≤ k)%nat ∧ ends_prompt (take e l) = true.
Proof.
  induction k as [|k IH]; [done|]. cbn [longest_prompt]. destruct (ends_prompt (take (S k) l)) eqn:E.
  - intros [= <-]. split; [lia|done].
  - intros [? ?]%IH. split; [lia|done].
Qed.

Lemma longest_prompt_end l : ends_prompt l = true → longest_prompt (length l) l = Some (length l).
Proof. intros E. destruct l as [|c l]; [done|]. cbn [longest_prompt length]. by rewrite take_ge, E by (cbn; lia). Qed.

(** ** What is unread

    [calm]: no dump, whatever follows.  [answers]: the reply to a command that
    shows none.  [dumps]: the reply to one that does; the dump is followed by the
    prompt and nothing else. *)
Definition calm (q : text) : Prop := closed q ∧ search marker q = None.
Definition answers (t : text) : Prop := ends_prompt t = true ∧ search marker t = None.
Definition one_prompt (t : text) : Prop :=
  ends_prompt t = true ∧ ∀ n, (n < length t)%nat → ends_prompt (take n t) = false.
Definition dumps (t dump : text) : Prop :=
  ∃ i, search marker t = Some i ∧ dump = drop (i + length marker) t ∧ one_prompt dump.

Lemma calm_nil : calm [].
Proof. split; [intros k Hk; cbn in Hk; lia|done]. Qed.

Lemma answers_calm t : answers t → calm t.
Proof. intros [? ?]. split; [by apply closed_prompt|done]. Qed.

Lemma calm_drop k q : calm q → calm (drop k q).
Proof.
  intros [Hc Hn]. split; [|by apply search_drop]. intros j Hj. rewrite length_drop in Hj. rewrite drop_drop. apply Hc. lia.
Qed.

Lemma calm_app q t : calm q → calm t → calm (q ++ t).
Proof.
  intros [Hc Hn] [Hc' Hn']. split; [|by rewrite search_app, Hn'].
  intros k Hk. rewrite length_app in Hk. destruct (decide (k < length q)%nat) as [Hq|Hq].
  - rewrite drop_app_le by lia. destruct (startswith (drop k q ++ t) marker) eqn:E; [|done].
    rewrite <- (Hc k Hq). symmetry. apply startswith_spec. apply startswith_spec in E as [r ->]. exists (t ++ r). by rewrite app_assoc.
  - rewrite drop_app_ge by lia. apply Hc'. lia.
Qed.

(** ** The console, read with any timing *)
Section console.
Context {B : Type} {reply : B → text → text * B} {S : Spawn reply}.

(** After a command without a dump some of the unread text is left. *)
Lemma expect_prompt c cmd :
  calm (unread c) → answers (reply (bios c) cmd).1 →
  ∃ after c', expect Prompt (sendline cmd c) = Ok (after, c') ∧ calm (unread c') ∧ bios c' = (reply (bios c) cmd).2.
Proof.
  intros Hq Ha. pose proof (calm_app _ _ Hq (answers_calm _ Ha)) as Hall. rewrite <- sendline_unread in Hall.
  destruct (expect_found Prompt (sendline cmd c)) as (after & c' & E).
  { cbn. rewrite longest_prompt_end; [done|]. rewrite sendline_unread. apply ends_prompt_app, Ha. }
  exists after, c'. split; [done|]. apply expect_match in E as (Hb & n & i & e & _ & _ & ->).
  split; [by apply calm_drop|]. by rewrite Hb, sendline_bios.
Qed.

(** After a command with a dump exactly the dump is taken. *)
Lemma expect_dump c cmd dump :
  calm (unread c) → dumps (reply (bios c) cmd).1 dump →
  ∃ after c1 c2, expect (Literal marker) (sendline cmd c) = Ok (after, c1) ∧ expect Prompt c1 = Ok (dump, c2)
    ∧ unread c2 = [] ∧ bios c2 = (reply (bios c) cmd).2.
Proof.
  intros [Hc Hn] (i & Hi & Hd & Hp). pose proof (search_app _ (reply (bios c) cmd).1 Hc Hn) as Hs. rewrite Hi in Hs.
  rewrite <- sendline_unread in Hs.
  destruct (expect_found (Literal marker) (sendline cmd c)) as (after & c1 & E); [unfold re_search; by rewrite Hs|].
  pose proof (expect_match _ _ _ _ E) as (Hb & n & j & e & Hm & _ & Hu). unfold re_search in Hm.
  destruct (search marker (take n _)) as [k|] eqn:Ek; [|done]. injection Hm as <- <-. apply search_take in Ek. rewrite Hs in Ek. injection Ek as <-.
  assert (unread c1 = dump) as Hu1.
  { rewrite Hu, sendline_unread, Hd, <- Nat.add_assoc. by rewrite drop_app_add. }
  destruct Hp as [He Hone]. destruct (expect_found Prompt c1) as (after2 & c2 & E2); [cbn; by rewrite Hu1, longest_prompt_end|].
  exists after, c1, c2. split; [done|]. pose proof (expect_match _ _ _ _ E2) as (Hb2 & n2 & i2 & e2 & Hm2 & Ha2 & Hu2). rewrite Hu1 in *.
  cbn in Hm2. destruct (longest_prompt _ _) as [k|] eqn:Ek; [|done]. injection Hm2 as <- <-.
  apply longest_prompt_found in Ek as [[_ Hle] Hk]. rewrite length_take in Hle. rewrite take_take, Nat.min_l in Hk by lia.
  assert (k = length dump) as ->.
  { destruct (decide (k < length dump)%nat) as [Hlt|]; [|lia]. rewrite Hone in Hk; done. }
  rewrite Nat.sub_0_r, drop_0, take_ge in Ha2 by lia. rewrite drop_ge in Hu2 by lia. subst after2.
  split_and!; [done|done|]. by rewrite Hb2, Hb, sendline_bios.
Qed.
End console.

(** ** The BIOS of a board with a module

    [rows] are the lines of the dump.  A DDR5 module has 8 pages, of which one is
    selected. *)
Record ddr5_bios {B} (reply : B → text → text * B) (rows : Z → list dump_row) (page : B → Z) : Prop := {
  d5_blank : ∀ b, answers (reply b []).1;
  d5_select : ∀ b p, 0 ≤ p < 8 → answers (reply b (page_command p)).1 ∧ page (reply b (page_command p)).2 = p;
  d5_read : ∀ b, 0 ≤ page b < 8 → ∃ dump, dumps (reply b read_command).1 dump ∧ shows dump (rows (page b));
  d5_rows : ∀ p, 0 ≤ p < 8 → page_rows (rows p);
}.

Record plain_dump (dump : text) (rows : list dump_row) (pre post : list text) : Prop := {
  pd_text : dump = PyString.join newline (pre ++ (dump_line <$> rows) ++ post);
  pd_before : Forall (fun l => is_dump_line l = false) pre;
  pd_after : ∀ l ls, post = l :: ls → is_dump_line l = false;
  pd_lines : Forall (fun l => newline ∉ l) (pre ++ post);
}.
Record spd_bios {B} (reply : B → text → text * B) (spd_addr : Z) (init : list text) (rows : list dump_row) (selected : B → Prop) : Prop := {
  db_blank : ∀ b, answers (reply b []).1;
  db_init : ∀ b cmd, cmd ∈ init → answers (reply b cmd).1;
  db_selected : ∀ b, selected (foldl (fun b cmd => (reply b cmd).2) b init);
  db_read : ∀ b, selected b → ∃ dump pre post, dumps (reply b (spd_command spd_addr)).1 dump ∧ plain_dump dump rows pre post;
  db_rows : rows ≠ [] ∧ Forall row_ok rows ∧ increasing (-1) rows;
}.

Definition has_spd {B} (reply : B → text → text * B) (target : text) (data : list Z) : Prop :=
  match SPD_COMMANDS target with
  | Some (_, _, true) => ∃ rows page, ddr5_bios reply rows page ∧ data = (zrange 8 ≫= fun p => mjoin (dr_bytes <$> rows p))
  | Some (spd_addr, init, false) => ∃ rows selected, spd_bios reply spd_addr init rows selected ∧ data = mjoin (dr_bytes <$> rows)
  | None => False
  end.

Section reading.
Context {B : Type} {reply : B → text → text * B} {S : Spawn reply}.

Lemma read_pages_text rows page (n : nat) c :
  ddr5_bios reply rows page → n ≤ 8 → calm (unread c) →
  ∃ c', result_fold read_page ([], c) (zrange n) = Ok (pages_text rows n, c') ∧ calm (unread c').
Proof.
  intros [_ Hsel Hread Hrows] Hn Hc. induction n as [|n IH]; [by exists c|]. destruct IH as (c1 & E1 & Hc1); [lia|].
  replace (Z.of_nat (Datatypes.S n)) with (Z.of_nat n + 1) by lia. rewrite zrange_succ, result_fold_app, E1, ok_bind by lia. cbn [result_fold read_page].
  destruct (Hsel (bios c1) n ltac:(lia)) as [Ha Hp].
  destruct (expect_prompt c1 _ Hc1 Ha) as (a2 & c2 & E2 & Hc2 & Hb2). rewrite E2, ok_bind. rewrite <- Hb2 in Hp.
  destruct (Hread (bios c2) ltac:(lia)) as (dump & Hd & Hs).
  destruct (expect_dump c2 _ dump Hc2 Hd) as (a3 & c3 & c4 & E3 & E4 & Hu & _). rewrite E3, ok_bind, E4, ok_bind. rewrite Hp in Hs.
  rewrite (add_page_rows dump (rows n)) by (try lia; auto; apply Hrows; lia). rewrite !ok_bind. exists c4. split.
  - rewrite pages_text_S; [done|]. intros p ?. apply Hrows. lia.
  - rewrite Hu. apply calm_nil.
Qed.

Lemma init_commands_run init c :
  (∀ b cmd, cmd ∈ init → answers (reply b cmd).1) → calm (unread c) →
  ∃ c', result_fold init_command c init = Ok c' ∧ calm (unread c') ∧ bios c' = foldl (fun b cmd => (reply b cmd).2) (bios c) init.
Proof.
  revert c; induction init as [|cmd init IH]; intros c Ha Hc; [by exists c|]. cbn [result_fold].
  destruct (expect_prompt c cmd Hc) as (a & c1 & E & Hc1 & Hb); [apply Ha; by left|]. 
  assert (init_command c cmd = Ok c1) as -> by (unfold init_command; by rewrite E). rewrite ok_bind.
  destruct (IH c1) as (c2 & E2 & Hc2 & Hb2); [intros b x Hx; apply Ha; by right|done|].
  exists c2. split_and!; [done|done|]. cbn. by rewrite Hb2, Hb.
Qed.

Lemma SPD_COMMANDS_addr target a i d : SPD_COMMANDS target = Some (a, i, d) → 0 ≤ a < 7.
Proof. unfold SPD_COMMANDS. repeat case_bool_decide; intros; simplify_eq; lia. Qed.

Lemma read_spd_bytes target data a init d c :
  SPD_COMMANDS target = Some (a, init, d) → has_spd reply target data → calm (unread c) →
  ∃ output, read_spd c a init d = Ok output ∧ parse_hexdump output = Ok data ∧ Forall (fun x => 0 ≤ x < 256) data.
Proof.
  intros Ht Hs Hc. pose proof (SPD_COMMANDS_addr _ _ _ _ Ht) as Haddr. unfold has_spd in Hs. rewrite Ht in Hs. unfold read_spd.
  rewrite (proj2 (Z.leb_le _ _)), (proj2 (Z.ltb_lt _ _)) by lia. cbn [andb passert]. rewrite ok_bind.
  assert (answers (reply (bios c) []).1) as Hblank by (destruct d; destruct Hs as (? & ? & [] & _); auto).
  destruct (expect_prompt c [] Hc Hblank) as (a1 & c1 & E1 & Hc1 & _). rewrite E1, ok_bind. destruct d.
  - destruct Hs as (rows & page & Hb & ->). destruct (read_pages_text rows page 8 c1 Hb ltac:(lia) Hc1) as (c2 & E2 & _).
    change (Z.of_nat 8) with 8 in E2. rewrite E2, ok_bind. eexists. split; [done|]. pose proof (d5_rows _ _ _ Hb) as Hrows.
    split; [by apply (pages_parsed rows 8); [lia|]|]. apply Forall_bind, Forall_forall. intros p Hp%elem_of_zrange.
    destruct (Hrows p ltac:(lia)) as (_ & _ & Hall). apply Forall_join, Forall_fmap. eapply Forall_impl; [exact Hall|]. intros r [Hr _]. apply Hr.
  - destruct Hs as (rows & sel & [_ Hinit Hsel Hread (Hne & Hok & Hinc)] & ->).
    destruct (init_commands_run init c1 Hinit Hc1) as (c2 & E2 & Hc2 & Hb2). rewrite E2, ok_bind.
    destruct (Hread (bios c2)) as (dump & pre & post & Hd & [-> Hpre Hpost Hlines]); [rewrite Hb2; apply Hsel|].
    destruct (expect_dump c2 _ _ Hc2 Hd) as (a3 & c3 & c4 & E3 & E4 & _). rewrite E3, ok_bind, E4, ok_bind.
    eexists. split; [done|]. split; [by apply hexdump_roundtrip|]. apply Forall_join, Forall_fmap. eapply Forall_impl; [exact Hok|]. intros r Hr. apply Hr.
Qed.
End reading.

(** ** The whole program *)
Lemma bytes_ok data : Forall (fun x => 0 ≤ x < 256) data → bytes data = Ok (ascii_of_nat ∘ Z.to_nat <$> data).
Proof.
  intros Hd. apply result_map_ok. eapply Forall_impl; [exact Hd|]. intros x [? ?]. cbn beta.
  by rewrite (proj2 (Z.leb_le _ _)), (proj2 (Z.ltb_lt _ _)).
Qed.

Lemma triple_wait_training `{HD : Device} left e (fuel n : nat) :
  initialises left e → (n < fuel)%nat → triple (fun d => (left d ≤ n)%nat) (wait_training fuel) (fun _ _ => True).
Proof.
  intros [Hdone Hpoll _ Helapse _] Hf. unfold wait_training.
  apply (triple_loop (fun n _ d => (left d ≤ n)%nat) (fun _ _ => True)); [|done]. intros m acc.
  destruct (has_reg "ddrctrl_init_done"); [|by apply triple_ret].
  apply (triple_bind _ _ (fun v d => v = 1 ∨ (v = 0 ∧ (left d < m)%nat))).
  - apply triple_rd. intros d Hd. specialize (Hpoll d). rewrite Hdone. destruct (Nat.eqb_spec (left d) 0); [by left|right; split; [done|lia]].
  - intros v d [-> |[-> Hd]]; [by exists (true, tt), d|]. exists (false, tt), (elapse d). split; [done|].
    exists (left d). split; [done|apply Helapse].
Qed.

(** A target without an entry in the table is refused before anything is done. *)
Lemma spd_unknown_target {B} {reply : B → text → text * B} {S : Spawn reply} `{HD : Device} `{HR : !Ram}
    fuel dir output ident fs (c : con) d args t :
  get_generated_defs dir fs = Ok (target_defs args t) → SPD_COMMANDS t = None →
  spd_read_main fuel dir output false ident fs c d = (Failed NotImplementedError, d).
Proof.
  intros Hdefs Ht. unfold spd_read_main. cbv [mbind host_bind lift]. rewrite Hdefs.
  change (target_defs args t !! chars "TARGET") with (Some t). cbn [of_option]. by rewrite Ht.
Qed.

(** C26: The SPD file is the contents of the EEPROM.  On a board of a target in the table,
    whose BIOS answers the commands with the dumps of its module, and which finishes
    its training, [read] ends, and the file it writes has exactly the bytes of the
    module, for DDR5 those of all pages in order.  This holds however the output of
    the console is cut by its timing, and whatever was printed before (short of the
    title of a memory dump). *)
Theorem spd_saved {B} {reply : B → text → text * B} {S : Spawn reply} `{HD : Device} `{HR : !Ram}
    (fuel : nat) dir output srv ident fs (c : con) d left e args t data name :
  get_generated_defs dir fs = Ok (target_defs args t) → (srv = true → ∃ sv, litex_server dir fs = Ok sv) →
  has_spd reply t data → calm (unread c) →
  read_ident ident d = (Done name, d) → initialises left e → (left d < fuel)%nat →
  ∃ d', spd_read_main fuel dir output srv ident fs c d = (Done (<[output := ascii_of_nat ∘ Z.to_nat <$> data]> fs), d').
Proof.
  intros Hdefs Hsrv Hspd Hc Hid Hi Hf. unfold spd_read_main.
  assert (∃ a init d5, SPD_COMMANDS t = Some (a, init, d5)) as (a & init & d5 & Ht).
  { unfold has_spd in Hspd. destruct (SPD_COMMANDS t) as [[[a i] b]|]; [by exists a, i, b|done]. }
  destruct (read_spd_bytes t data a init d5 c Ht Hspd Hc) as (out & Hout & Hparse & Hbytes).
  assert ((if srv then _ ← litex_server dir fs; Ok tt else Ok tt) = Ok tt) as ->.
  { destruct srv; [|done]. destruct (Hsrv eq_refl) as [sv ->]. done. }
  destruct (triple_wait_training left e fuel (left d) Hi Hf d (le_n _)) as ([] & d1 & E1 & _).
  exists (elapse d1). erewrite bind_done by done. rewrite Hdefs. erewrite bind_done by done.
  change (target_defs args t !! chars "TARGET") with (Some t). cbn [of_option]. erewrite bind_done by done.
  rewrite Ht. erewrite bind_done by done. cbn beta iota. erewrite bind_done by exact Hid. erewrite bind_done by exact E1.
  erewrite (bind_done sleep) by done. rewrite Hout. erewrite bind_done by done. rewrite Hparse. erewrite bind_done by done.
  rewrite (bytes_ok _ Hbytes). by erewrite bind_done by done.
Qed.

(** ** An example

    A console whose output arrives in pieces of [k] characters, and a BIOS with a
    DDR5 module. *)
Lemma re_search_bound p l i e : re_search p l = Some (i, e) → (e ≤ length l)%nat.
Proof.
  destruct p as [|t]; unfold re_search.
  - destruct (longest_prompt _ _) as [x|] eqn:E; [|done]. intros [= <- <-]. by apply longest_prompt_found in E as [[_ ?] _].
  - destruct (search t l) as [x|] eqn:E; [|done]. intros [= <- <-]. by apply search_bound.
Qed.

Section pieces.
Context {B : Type} (reply : B → text → text * B) (k : nat).

Record piped := Piped { pi_bios : B; pi_buffer : text; pi_coming : text }.

Fixpoint expect_pieces (fuel : nat) (p : pattern) (c : piped) : result (text * piped) :=
  match re_search p (pi_buffer c) with
  | Some (i, e) => Ok (take (e - i) (drop i (pi_buffer c)), Piped (pi_bios c) (drop e (pi_buffer c)) (pi_coming c))
  | None =>
      match fuel with
      | O => Raise RuntimeError
      | S fuel' => expect_pieces fuel' p (Piped (pi_bios c) (pi_buffer c ++ take (S k) (pi_coming c)) (drop (S k) (pi_coming c)))
      end
  end.

Definition pi_unread (c : piped) : text := pi_buffer c ++ pi_coming c.

Lemma pieces_unread c : pi_unread (Piped (pi_bios c) (pi_buffer c ++ take (S k) (pi_coming c)) (drop (S k) (pi_coming c))) = pi_unread c.
Proof. unfold pi_unread. cbn [pi_buffer pi_coming]. by rewrite <- app_assoc, take_drop. Qed.

Lemma expect_pieces_found fuel p : ∀ c,
  (length (pi_coming c) ≤ fuel)%nat → re_search p (pi_unread c) ≠ None → ∃ after c', expect_pieces fuel p c = Ok (after, c').
Proof.
  induction fuel as [|fuel IH]; intros c Hf Hm; cbn [expect_pieces]; destruct (re_search p (pi_buffer c)) as [[i e]|] eqn:E; eauto.
  - destruct c as [b buf [|x l]]; [|cbn in Hf; lia]. unfold pi_unread in Hm. cbn in *. by rewrite app_nil_r, E in Hm.
  - apply IH; [|by rewrite pieces_unread]. cbn [pi_coming]. rewrite length_drop. lia.
Qed.

Lemma expect_pieces_match fuel p : ∀ c after c',
  expect_pieces fuel p c = Ok (after, c') →
  pi_bios c' = pi_bios c ∧
  ∃ n i e, re_search p (take n (pi_unread c)) = Some (i, e)
    ∧ after = take (e - i) (drop i (pi_unread c)) ∧ pi_unread c' = drop e (pi_unread c).
Proof.
  induction fuel as [|fuel IH]; intros c after c'; cbn [expect_pieces]; destruct (re_search p (pi_buffer c)) as [[i e]|] eqn:E; try done.
  3: { intros [Hb (n & i & e & H)]%IH. rewrite pieces_unread in H. split; [done|]. by exists n, i, e. }
  all: intros [= <- <-]; split; [done|]; exists (length (pi_buffer c)), i, e; pose proof (re_search_bound _ _ _ _ E).
  all: unfold pi_unread; cbn [pi_buffer pi_coming]; rewrite take_app_length; split; [done|].
  all: split; [|by rewrite drop_app_le by lia].
  all: destruct (decide (i ≤ length (pi_buffer c))%nat); [rewrite drop_app_le by lia; by rewrite take_app_le by (rewrite length_drop; lia)|].
  all: by replace (e - i)%nat with 0%nat by lia.
Qed.

#[refine] Definition pieces : Spawn reply := {|
  con := piped; bios := pi_bios; unread := pi_unread;
  sendline l c := let '(t, b) := reply (pi_bios c) l in Piped b (pi_buffer c) (pi_coming c ++ t);
  expect p c := expect_pieces (length (pi_coming c)) p c;
|}.
Proof.
  - intros l c. unfold pi_unread. destruct (reply (pi_bios c) l) as [t b]. cbn. by rewrite app_assoc.
  - intros l c. by destruct (reply (pi_bios c) l) as [t b].
  - intros p c. by apply expect_pieces_found.
  - intros p c. apply expect_pieces_match.
Defined.
End pieces.

Definition crlf : text := [carriage_return; newline].
Definition bios_prompt : text := crlf ++ chars "litex> ".
Definition demo_pages (page : Z) : list dump_row := [DumpRow 0 (replicate 16 (7 + page)) (chars "  ................"); DumpRow 16 (replicate 16 page) []].
Definition demo_reply (page : Z) (line : text) : text * Z :=
  if startswith (chars "i2c_write 0x50 0x0b 1 ") line then
    (line ++ bios_prompt, default 0 (last line ≫= digit_value 16))
  else if bool_decide (line = read_command) then
    (line ++ crlf ++ marker ++ crlf ++ mjoin ((fun r => dump_line r ++ crlf) <$> demo_pages page) ++ bios_prompt, page)
  else (line ++ bios_prompt, page).

Lemma one_prompt_check t :
  ends_prompt t && forallb (fun n => negb (ends_prompt (take n t))) (seq 0 (length t)) = true → one_prompt t.
Proof.
  intros [He Hall]%andb_true_iff. split; [done|]. intros n Hn. rewrite forallb_forall in Hall.
  apply negb_true_iff, Hall, in_seq. lia.
Qed.

Lemma eight_pages (P : Z → Prop) : Forall P [0; 1; 2; 3; 4; 5; 6; 7] → ∀ p, 0 ≤ p < 8 → P p.
Proof. rewrite Forall_forall. intros HP p Hp. apply HP. rewrite !elem_of_cons. lia. Qed.

Lemma demo_pages_ok p : 0 ≤ p < 8 → page_rows (demo_pages p).
Proof.
  intros Hp. split_and!; [done|cbn; lia|]. apply Forall_cons; split; [|apply Forall_singleton].
  all: split; [|cbn; lia]; split; cbn; try lia; try (by intros ? ? [=]); try (by intros c l [= <- _]).
  all: try (apply (bool_decide_unpack _); exact I). all: repeat constructor; lia.
Qed.

Lemma demo_bios : ddr5_bios demo_reply demo_pages id.
Proof.
  split.
  - intros b. by split.
  - intros b. refine (eight_pages (fun p => answers (demo_reply b (page_command p)).1 ∧ (demo_reply b (page_command p)).2 = p) _).
    repeat constructor.
  - refine (eight_pages (fun p => ∃ dump, dumps (demo_reply p read_command).1 dump ∧ shows dump (demo_pages p)) _).
    repeat constructor; (eexists; split; [eexists; split; [vm_compute; reflexivity|]; split; [reflexivity|apply one_prompt_check; vm_compute; reflexivity]|vm_compute; reflexivity]).
  - apply demo_pages_ok.
Defined.

(** Two prompts are unread when the script starts. *)
Definition demo_files : files :=
  {[ path_join (chars "/b") (chars "defs.csv")
     := PyCsv.writerows (defs_rows (NetArgs (chars "192.168.100.50") (chars "0x1") (chars "1234") (chars "100e6")) (chars "ddr5_tester")) ]}.
Definition demo_piped : piped := Piped 3 (chars "Booting" ++ bios_prompt) bios_prompt.

Lemma spd_saved_witness :
  let S := pieces demo_reply 6 in
  ∃ d', spd_read_main (S := S) (HR := demo_ram_ops) 5 (chars "/b") (chars "/spd.bin") false 0 demo_files demo_piped (3%nat, fun _ => 0)
    = (Done (<[chars "/spd.bin" := ascii_of_nat ∘ Z.to_nat <$> (zrange 8 ≫= fun p => replicate 16 (7 + p) ++ replicate 16 p)]> demo_files), d').
Proof.
  intros S. refine (spd_saved (S := S) (HR := demo_ram) 5 (chars "/b") (chars "/spd.bin") false 0 demo_files demo_piped (3%nat, fun _ => 0)
    fst 0 _ (chars "ddr5_tester") _ [] (read_defs _ _ _ _ _) _ _ _ _ _ _).
  - apply lookup_singleton_eq.
  - done.
  - exists demo_pages, id. split; [exact demo_bios|]. vm_compute. reflexivity.
  - apply (calm_app (chars "Booting" ++ bios_prompt) bios_prompt); apply answers_calm; by split.
  - vm_compute. reflexivity.
  - split; cbn; intros; try case_bool_decide; cbn; try done; try lia.
  - cbn. lia.
Defined.

(** With the same text unread, the first [expect] stops at the first prompt or at the
    second one, as the timing has it. *)
Definition stop_at (k : nat) : nat :=
  match expect (Spawn := pieces demo_reply k) Prompt (Piped 3 [] (chars "Booting" ++ bios_prompt ++ bios_prompt)) with
  | Ok (after, _) => length after | Raise _ => 0 end.
Example stale_prompts : (stop_at 6, stop_at 40) = (16%nat, 25%nat).
Proof. vm_compute. reflexivity. Qed.

(** Address 7 is refused, although the message of the assertion calls it the highest. *)
Example spd_address_7 {B} (reply : B → text → text * B) (S : Spawn reply) c : read_spd (S := S) c 7 [] false = Raise AssertionError.
Proof. reflexivity. Qed.
