(* ===== verification/PlaybookMain.v ===== *)
(** * The playbook from its configuration file

    Models [main] of [src/rowhammer_tester/scripts/playbook/playbook.py]: comments
    are cut from the lines of the configuration, the rest is read as JSON, its keys
    are checked, the payload generator is looked up by name and initialised, the
    inverters of the BIST are set up, and the generator is run ([Playbook]).
    Opening the connection and reading the generated settings ([environment]) are left
    out; what [summarize] prints or writes is in [Reports]. *)

From stdpp Require Import gmap strings.
From S2P Require Import Prelude PyString PyJson Generator AddressConverter Config RowMappings RowGenerators HalfDouble.
From S2P Require Import PayloadGenerators Playbook.
#[local] Open Scope Z_scope.

(** ** The configuration file *)
Definition hash : ascii := "#"%char.
Definition nl : ascii := "010"%char.

(** [index = line.find('#'); if index >= 0: line = line[0:index] + '\n'] *)
Definition strip_comment (line : text) : text :=
  let index := PyString.find [hash] line in
  if 0 <=? index then take (Z.to_nat index) line ++ [nl] else line.

Definition config_string (config_lines : list text) : text := mjoin (strip_comment <$> config_lines).

(** ** The registered generators *)
Inductive generator :=
  | GenRowList (s : RowList.t)
  | GenLogged (s : LoggedRowList.t)
  | GenIdle (s : Idle.t)
  | GenTolerance (s : HammerTolerance.t)
  | GenHalfDouble (s : params * hd).

Section main.
Context {M : Migen}.

(** [PayloadGenerator.get_by_name(name)] and [initialize(config)]. *)
Definition initialize_by_name (name : string) (config : dict) : result generator :=
  if bool_decide (name = "RowListPayloadGenerator"%string) then GenRowList <$> RowList.initialize config
  else if bool_decide (name = "HammerTolerancePayloadGenerator"%string) then GenTolerance <$> HammerTolerance.initialize config
  else if bool_decide (name = "HalfDoubleAnalysisPayloadGenerator"%string) then GenHalfDouble <$> HalfDouble.initialize config
  else if bool_decide (name = "LoggedRowListPayloadGenerator"%string) then GenLogged <$> LoggedRowList.initialize config
  else if bool_decide (name = "IdlePayloadGenerator"%string) then GenIdle <$> Idle.initialize config
  else Raise KeyError.

#[export] Instance generator_pg : PayloadGenerator generator := {
  pg_done g := match g with
    | GenRowList s => pg_done s | GenLogged s => pg_done (LoggedRowList.base s) | GenIdle s => pg_done s
    | GenTolerance s => pg_done s | GenHalfDouble s => pg_done s end;
  pg_memset_range e g := match g with
    | GenRowList s => pg_memset_range e s | GenLogged s => pg_memset_range e (LoggedRowList.base s)
    | GenIdle s => pg_memset_range e s | GenTolerance s => pg_memset_range e s | GenHalfDouble s => pg_memset_range e s end;
  pg_payload e bank g := match g with
    | GenRowList s => pg_payload e bank s | GenLogged s => pg_payload e bank (LoggedRowList.base s)
    | GenIdle s => pg_payload e bank s | GenTolerance s => pg_payload e bank s | GenHalfDouble s => pg_payload e bank s end;
  pg_memtest_range e g := match g with
    | GenRowList s => pg_memtest_range e s | GenLogged s => pg_memtest_range e (LoggedRowList.base s)
    | GenIdle s => pg_memtest_range e s | GenTolerance s => pg_memtest_range e s | GenHalfDouble s => pg_memtest_range e s end;
  pg_process_errors e errs g := match g with
    | GenRowList s => GenRowList <$> pg_process_errors e errs s
    | GenLogged s => r ← LoggedRowList.process_errors e errs s; Ok (GenLogged r.2)
    | GenIdle s => GenIdle <$> pg_process_errors e errs s
    | GenTolerance s => GenTolerance <$> pg_process_errors e errs s
    | GenHalfDouble s => GenHalfDouble <$> pg_process_errors e errs s end;
}.

Definition valid_keys : list string :=
  ["payload_generator"; "payload_generator_config"; "inversion_divisor"; "inversion_mask"; "row_pattern"]%string.

Context {B : Board}.

(** What [main] does before the loop: the initial generator, and the divisor and mask
    of the inversion and the pattern of the rows. *)
Definition read_config (config_lines : list text) : result (generator * Z * Z * Z) :=
  j ← loads (config_string config_lines);
  config ← as_obj j;
  assert_keys config valid_keys ;;
  name ← get_str config "payload_generator";
  pg ← initialize_by_name name config;
  inversion_divisor ← get_int_default config "inversion_divisor" 0;
  inversion_mask ← (match dict_get config "inversion_mask" with
                    | Some j => s ← as_str j; py_int0 (chars s)
                    | None => py_int0 (chars "0")
                    end);
  row_pattern ← get_int_default config "row_pattern" 0;
  Ok (pg, inversion_divisor, inversion_mask, row_pattern).

(** [setup_inverters] of [utils.py]: the registers of the writer and of the reader get the
    divisor less one and the mask. *)
Class InverterRegisters := write_inverters : Z → Z → board → board.
Definition setup_inverters {I : InverterRegisters} (divisor mask : Z) (b : board) : result board :=
  passert (Z.land divisor (divisor - 1) =? 0) ;;
  Ok (write_inverters (divisor - 1) mask b).

(** [main]; [None] when [fuel] iterations of its loop are not enough. *)
Definition main {I : InverterRegisters} (e : environment) (fuel : nat)
    (config_lines : list text) (b : board) : option (result (loop_state (S := generator))) :=
  match read_config config_lines with
  | Ok (pg, divisor, mask, row_pattern) =>
      match setup_inverters divisor mask b with
      | Ok b => main_loop e row_pattern fuel (pg, b, ∅)
      | Raise x => Some (Raise x)
      end
  | Raise x => Some (Raise x)
  end.
End main.

(** ** Reading the configuration *)

(** A line: what comes before a comment, and the comment. *)
Definition config_line : Type := text * option text.
Definition line_text (x : config_line) : text :=
  x.1 ++ (match x.2 with Some comment => hash :: comment | None => [] end) ++ [nl].

Lemma find_hash code rest : hash ∉ code → PyString.find [hash] (code ++ hash :: rest) = Z.of_nat (length code).
Proof.
  unfold PyString.find. intros Hc. enough (∀ i, find_from [hash] (code ++ hash :: rest) i = i + Z.of_nat (length code)) as H by apply H.
  induction code as [|c code IH]; intros i; cbn.
  - rewrite bool_decide_true by done. cbn. lia.
  - apply not_elem_of_cons in Hc as [Hne Hc]. rewrite bool_decide_false by done. cbn. rewrite IH by done. lia.
Qed.

Lemma find_no_hash l : hash ∉ l → PyString.find [hash] l = -1.
Proof.
  unfold PyString.find. intros Hl. enough (∀ i, find_from [hash] l i = -1) as H by apply H.
  induction l as [|c l IH]; intros i; cbn; [done|].
  apply not_elem_of_cons in Hl as [Hne Hl]. rewrite bool_decide_false by done. cbn. by apply IH.
Qed.

Lemma strip_comment_line x : hash ∉ x.1 → strip_comment (line_text x) = x.1 ++ [nl].
Proof.
  destruct x as [code [comment|]]; intros Hc; unfold strip_comment, line_text; cbn [fst snd app] in *.
  - rewrite find_hash by done. rewrite (proj2 (Z.leb_le _ _)) by lia. by rewrite Nat2Z.id, take_app_length.
  - rewrite find_no_hash; [done|]. rewrite elem_of_app. intros [?|Hn%list_elem_of_singleton]; done.
Qed.

(** Reading a configuration.  When the parts of the lines before the comments, one
    per line, render a JSON value with any white space around, the value that
    the playbook reads is that one, whatever the comments are. *)
Theorem config_comments_ignored lines w t w' v :
  Forall (fun x : config_line => hash ∉ x.1) lines →
  mjoin ((fun x => x.1 ++ [nl]) <$> lines) = w ++ t ++ w' →
  white w → renders v t → white w' →
  loads (config_string (line_text <$> lines)) = Ok v.
Proof.
  intros Hl Ht Hw Hv Hw'. unfold config_string. rewrite <- list_fmap_compose.
  assert (strip_comment ∘ line_text <$> lines = (fun x => x.1 ++ [nl]) <$> lines) as ->.
  { clear Ht. induction Hl as [|x l Hx _ IH]; [done|]. cbn. rewrite strip_comment_line by done. by f_equal. }
  rewrite Ht. by apply loads_renders.
Qed.

Definition demo_lines : list config_line :=
  [(chars "{", Some (chars " the pattern")); (chars "  " ++ quoted "row_pattern" ++ chars " : 85", None); (chars "}", None)].

Lemma config_comments_ignored_witness :
  loads (config_string (line_text <$> demo_lines)) = Ok (JObj [("row_pattern"%string, JNum 85)]).
Proof.
  apply (config_comments_ignored demo_lines [] ("{"%char :: ((nl :: chars "  ") ++ quoted "row_pattern" ++ chars " " ++ ":"%char :: chars " " ++ chars "85" ++ [nl]) ++ ["}"%char]) [nl]).
  - repeat constructor; apply (bool_decide_unpack _); exact I.
  - reflexivity.
  - constructor.
  - apply renders_obj; [|apply (bool_decide_unpack _); exact I].
    apply members_one; [by repeat constructor|apply (renders_num 85)|by repeat constructor..].
  - by repeat constructor.
Defined.

(** A [#] inside a string of the configuration starts a comment, too. *)
Example hash_in_string :
  loads (config_string [chars "{" ++ quoted "log_dir" ++ chars ":" ++ quoted "run#1" ++ chars "}"]) = Raise ValueError
  ∧ loads (chars "{" ++ quoted "log_dir" ++ chars ":" ++ quoted "run#1" ++ chars "}") = Ok (JObj [("log_dir", JStr "run#1")])%string.
Proof. split; vm_compute; reflexivity. Qed.

(** ** A complete run *)
Section idle.
Context {M : Migen} {B : Board} (e : environment) (shift bank : Z) (payload : list Z) (row_pattern : Z).
Context (Henv : env_ok e shift).

(** What an iteration does to the board: fill the memory, wait, test. *)
Definition idle_round (b : board) : list bist_error * board :=
  hw_memtest 0 (main_size e) row_pattern (execute_payload payload (hw_memset 0 (main_size e) row_pattern b)).

Definition one_bank (err : bist_error) : Prop := ∃ row col, error_location e err = Ok (bank, row, col).

Lemma decode_errors_cache errors : ∀ d cache,
  cache_ok e bank cache → Forall one_bank errors →
  ∃ d' cache', result_fold (decode_error e) (d, cache) errors = Ok (d', cache') ∧ cache_ok e bank cache'.
Proof using Henv.
  induction errors as [|err errors IH]; intros d cache Hc Hall; [by eexists _, _|].
  apply Forall_cons in Hall as [Herr Hall].
  destruct (decode_error_step e shift bank cache d err Henv Hc Herr) as (row & x & c' & E & _ & Hc').
  destruct (IH (append_error row x d) c' Hc' Hall) as (d' & cache' & E' & H'). exists d', cache'.
  cbn [result_fold]. by rewrite E, ok_bind.
Qed.

(** The state of the generator: only the iteration changes. *)
Definition idle_at (s0 s : Idle.t) (k : Z) : Prop :=
  Idle.iteration s = k ∧ Idle.max_iteration s = Idle.max_iteration s0 ∧ Idle.idle_time s = Idle.idle_time s0
  ∧ Idle.log_dir s = false.

Context (s0 : Idle.t) (Hpay : Idle.get_payload e s0 = Ok payload).
Context (Hboard : ∀ b, Forall one_bank (idle_round b).1).

Lemma idle_iteration s k b cache :
  idle_at s0 s k → cache_ok e bank cache →
  ∃ s' cache', main_iteration e row_pattern (GenIdle s, b, cache) = Ok (GenIdle s', (idle_round b).2, cache')
    ∧ idle_at s0 s' (k + 1) ∧ cache_ok e bank cache'.
Proof using Henv Hpay Hboard.
  intros (Hk & Hm & Ht & Hl) Hc. unfold main_iteration. cbn [pg_memset_range pg_payload pg_memtest_range pg_process_errors generator_pg idle_pg].
  unfold Idle.get_memset_range, Idle.get_memtest_range, default_memory_range. rewrite ok_bind.
  assert (Idle.get_payload e s = Ok payload) as -> by (unfold Idle.get_payload in *; by rewrite Ht).
  rewrite !ok_bind. fold (idle_round b). specialize (Hboard b). destruct (idle_round b) as [errors b'].
  destruct (decode_errors_cache errors [] cache Hc Hboard) as (d & cache' & E & Hc').
  unfold decode_errors. rewrite E, ok_bind. unfold Idle.process_errors. rewrite Hl, !ok_bind. cbn.
  eexists _, cache'. split; [done|]. split; [|done]. by rewrite <- Hk.
Qed.

Lemma idle_loop n : ∀ s k b cache,
  idle_at s0 s k → cache_ok e bank cache → Idle.max_iteration s0 = k + Z.of_nat n →
  ∃ s' cache', main_loop e row_pattern n (GenIdle s, b, cache) = Some (Ok (GenIdle s', Nat.iter n (fun b => (idle_round b).2) b, cache'))
    ∧ idle_at s0 s' (k + Z.of_nat n).
Proof using Henv Hpay Hboard.
  induction n as [|n IH]; intros s k b cache Hs Hc Hn.
  - exists s, cache. cbn [main_loop]. destruct Hs as (Hk & Hm & Ht & Hl).
    assert (pg_done (GenIdle s) = true) as Hd by (cbn; unfold Idle.done; apply Z.leb_le; lia).
    cbn [fst]. rewrite Hd. split; [done|]. split_and!; [lia|done..].
  - assert (pg_done (GenIdle s) = false) as Hd.
    { destruct Hs as (Hk & Hm & _). cbn. unfold Idle.done. apply Z.leb_gt. lia. }
    cbn [main_loop fst]. rewrite Hd. destruct (idle_iteration s k b cache Hs Hc) as (s1 & c1 & -> & Hs1 & Hc1).
    destruct (IH s1 (k + 1) (idle_round b).2 c1 Hs1 Hc1) as (s' & c' & E & Hs'); [lia|].
    exists s', c'. rewrite E. split; [by rewrite Nat.iter_succ_r|]. by replace (k + Z.of_nat (S n)) with (k + 1 + Z.of_nat n) by lia.
Qed.
End idle.

Lemma read_config_idle {M : Migen} lines s0 divisor mask row_pattern :
  read_config lines = Ok (GenIdle s0, divisor, mask, row_pattern) → Idle.iteration s0 = 0.
Proof.
  unfold read_config. intros H. inv_result. 
  match goal with H : initialize_by_name _ _ = Ok _ |- _ => unfold initialize_by_name in H; revert H end.
  repeat case_bool_decide; try discriminate.
  all: match goal with |- ?x <$> ?y = _ → _ => destruct y eqn:E end; try discriminate.
  all: intros [= <-]. unfold Idle.initialize in E. inv_result. done.
Qed.

(** A retention test from its configuration file.  For a configuration that
    selects the idle generator without a log directory, with a divisor that is zero or a
    power of two, on a board whose errors lie in one bank, the playbook sets up the
    inverters and then fills the memory, runs the idle payload and tests the memory
    exactly [max_iteration] times, and stops. *)
Lemma idle_playbook_runs {M : Migen} {B : Board} {I : InverterRegisters} e shift bank payload lines s0 divisor mask row_pattern b :
  read_config lines = Ok (GenIdle s0, divisor, mask, row_pattern) →
  Idle.log_dir s0 = false → 0 ≤ Idle.max_iteration s0 →
  Z.land divisor (divisor - 1) = 0 →
  env_ok e shift → Idle.get_payload e s0 = Ok payload →
  (∀ b, Forall (one_bank e bank) (idle_round e payload row_pattern b).1) →
  let n := Z.to_nat (Idle.max_iteration s0) in
  ∃ s' cache, main e n lines b
      = Some (Ok (GenIdle s', Nat.iter n (fun b => (idle_round e payload row_pattern b).2) (write_inverters (divisor - 1) mask b), cache))
    ∧ Idle.iteration s' = Idle.max_iteration s0.
Proof.
  intros Hcfg Hlog Hmax Hinv Henv Hpay Hboard n. unfold main, setup_inverters. rewrite Hcfg, (proj2 (Z.eqb_eq _ _) Hinv). cbn [passert]. rewrite ok_bind.
  pose proof (read_config_idle _ _ _ _ _ Hcfg) as H0.
  destruct (idle_loop e shift bank payload row_pattern Henv s0 Hpay Hboard n s0 0 (write_inverters (divisor - 1) mask b) ∅) as (s' & c' & E & Hs & _).
  - done.
  - intros row l H. by rewrite lookup_empty in H.
  - lia.
  - exists s', c'. split; [done|]. lia.
Qed.

(** A board that records what is done to it and finds one error in every test. *)
Inductive board_op := OpInvert (divisor_mask selection_mask : Z) | OpSet (offset size pattern : Z) | OpRun (payload : list Z) | OpTest (offset size pattern : Z).
#[local] Instance demo_board : Board := {|
  board := list board_op;
  hw_memset o s p b := b ++ [OpSet o s p];
  execute_payload p b := b ++ [OpRun p];
  hw_memtest o s p b := ([(1, 0, p)], b ++ [OpTest o s p]);
|}.

#[local] Instance demo_inverters : InverterRegisters (B := demo_board) := fun d m b => b ++ [OpInvert d m].

Definition demo_config : list text :=
  line_text <$>
  [(chars "{", Some (chars " retention")); 
   (quoted "payload_generator" ++ chars " : " ++ quoted "IdlePayloadGenerator" ++ chars ",", None);
   (quoted "row_pattern" ++ chars " : 7,", None);
   (quoted "payload_generator_config" ++ chars " : {", None);
   (quoted "row_mapping" ++ chars " : " ++ quoted "TrivialRowMapping" ++ chars ", " ++ quoted "idle_time" ++ chars " : 2,", None);
   (quoted "max_iteration" ++ chars " : 3, " ++ quoted "verbose" ++ chars ": true }", None);
   (chars "}", None)].

Definition idle_ops : list board_op := [OpSet 0 1024 7; OpRun [320; 86; 65535; 1600; 86; 65535; 0]; OpTest 0 1024 7].

Lemma idle_playbook_runs_witness :
  ∃ s' cache, main demo_env 3 demo_config [] = Some (Ok (GenIdle s', OpInvert (-1) 0 :: idle_ops ++ idle_ops ++ idle_ops, cache))
  ∧ Idle.iteration s' = 3.
Proof.
  apply (idle_playbook_runs (B := demo_board) (I := demo_inverters) demo_env 2 0 [320; 86; 65535; 1600; 86; 65535; 0] demo_config
    (Idle.Mk (TrivialRowMapping) 0 2 3 true false [] 0) 0 0 7 []).
  - vm_compute. reflexivity.
  - reflexivity.
  - vm_compute. congruence.
  - reflexivity.
  - apply demo_env_ok.
  - vm_compute. reflexivity.
  - intros b. repeat constructor. eexists _, _. vm_compute. reflexivity.
Defined.
