(* ===== verification/SmallScripts.v ===== *)
(** * Small tools

    Models the running light of [src/rowhammer_tester/scripts/leds.py], the sizes of
    [benchmark.py] ([human_size], [run_etherbone]; [run_bist] is in [MemBist]), the
    register dump [dump_regs.py], and the printing helpers [memdump], [compare] and
    [memspeed] of [utils.py].  A text that is printed is the result.  The time is a class
    of its own; [Sessions] has the measurements and the main programs. *)

From Stdlib Require Import QArith Qabs Qpower.
From S2P Require Import Prelude PyString Device HostMem HostScripts.
#[local] Open Scope Z_scope.

(** ** leds.py *)
Definition leds_next (st : Z * bool) : Z * bool :=
  let '(i, left_) := st in
  let i' := if left_ then Z.shiftl i 1 else Z.shiftr i 1 in
  (i', if i' =? 1 then true else if i' =? 8 then false else left_).

(** [while True]: the fuel is the number of rounds that are observed. *)
Definition leds_main `{Device} (fuel : nat) : host (Z * bool) :=
  loop fuel (1, true) (fun st => wr "leds_out" st.1 ;; sleep ;; mret (false, leds_next st)).

(** The light runs to the left and back. *)
Definition light (k : nat) : Z := nth (k mod 6) [1; 2; 4; 8; 4; 2] 0.
Definition light_state (k : nat) : Z * bool := (light k, (k mod 6 <? 3)%nat).

Lemma leds_next_light k : leds_next (light_state k) = light_state (S k).
Proof.
  unfold light_state, light. pose proof (Nat.mod_upper_bound k 6 ltac:(lia)).
  assert (S k mod 6 = if k mod 6 =? 5 then 0 else S (k mod 6))%nat as ->.
  { destruct (Nat.eqb_spec (k mod 6) 5); pose proof (Nat.div_mod_eq k 6); pose proof (Nat.div_mod_eq (S k) 6);
      pose proof (Nat.mod_upper_bound (S k) 6 ltac:(lia)); lia. }
  assert (k mod 6 = 0 ∨ k mod 6 = 1 ∨ k mod 6 = 2 ∨ k mod 6 = 3 ∨ k mod 6 = 4 ∨ k mod 6 = 5)%nat as Hc by lia.
  destruct_or! Hc; rewrite Hc; reflexivity.
Qed.

(** The script runs for ever, and round [k] writes light [k]: one LED at a time, from
    the first to the fourth and back, with a period of six. *)
Lemma leds_run `{Device} (log : dev → list (string * Z))
    (log_write : ∀ r v d, log (reg_write r v d) = log d ++ [(r, v)]) (log_elapse : ∀ d, log (elapse d) = log d) n d :
  ∃ d', leds_main n d = (Running, d') ∧ log d' = log d ++ ((fun k => ("leds_out"%string, light k)) <$> seq 0 n).
Proof.
  unfold leds_main. change (1, true) with (light_state 0). generalize 0%nat as k. revert d.
  induction n as [|n IH]; intros d k; cbn [loop seq fmap list_fmap]; [exists d; by rewrite app_nil_r|].
  destruct (IH (elapse (reg_write "leds_out" (light k) d)) (S k)) as (d' & E & Hlog). exists d'. split.
  - rewrite <- E, <- leds_next_light. reflexivity.
  - rewrite Hlog, log_elapse, log_write, <- app_assoc. done.
Qed.

(** ** benchmark.py *)

(** Division by 1024 is exact in floating point. *)
Fixpoint scale (prefixes : list string) (num : Q) : Q * string :=
  match prefixes with
  | [] => (num, "Yi"%string)
  | p :: ps => if Qlt_le_dec (Qabs num) 1024 then (num, p) else scale ps (num / 1024)
  end.
Definition prefixes : list string := [""; "Ki"; "Mi"; "Gi"; "Ti"; "Pi"; "Ei"; "Zi"]%string.
Definition human_size (num : Q) : Q * string := scale prefixes num.

Definition exponent (p : string) : nat :=
  match list_find (fun q => q = p) prefixes with Some (k, _) => k | None => 8%nat end.

(** The size is printed with its value: scaled by the power of 1024 that the prefix
    stands for, and below 1024 unless the largest prefix is used up. *)
Lemma scale_spec ps : ∀ num, ∃ k, (k ≤ length ps)%nat ∧ ((scale ps num).1 * 1024 ^ Z.of_nat k == num)%Q
  ∧ (scale ps num).2 = default "Yi"%string (ps !! k) ∧ ((k < length ps)%nat → (Qabs (scale ps num).1 < 1024)%Q).
Proof.
  induction ps as [|p ps IH]; intros num; cbn [scale].
  - exists 0%nat. change (1024 ^ Z.of_nat 0)%Q with 1%Q. cbn. split_and!; [lia|ring|done|lia].
  - destruct (Qlt_le_dec (Qabs num) 1024) as [Hlt|Hge].
    + exists 0%nat. change (1024 ^ Z.of_nat 0)%Q with 1%Q. cbn. split_and!; [lia|ring|done|done].
    + destruct (IH (num / 1024)%Q) as (k & Hk & Hv & Hp & Hb). exists (S k). split_and!; [cbn; lia| |done|intros; apply Hb; cbn in *; lia].
      rewrite Nat2Z.inj_succ. unfold Z.succ. rewrite Qpower_plus by done. rewrite Qmult_assoc, Hv. change (1024 ^ 1)%Q with (1024 # 1)%Q. field.
Qed.

Lemma human_size_spec num :
  let '(v, p) := human_size num in
  (v * 1024 ^ Z.of_nat (exponent p) == num)%Q ∧ (p ≠ "Yi"%string → (Qabs v < 1024)%Q).
Proof.
  destruct (scale_spec prefixes num) as (k & Hk & Hv & Hp & Hb). unfold human_size.
  destruct (scale prefixes num) as [v p]. cbn [fst snd] in *. 
  assert (exponent p = k ∧ (p ≠ "Yi"%string → (k < length prefixes)%nat)) as [-> Hy].
  { subst p. cbn [length prefixes] in Hk. 
    do 9 (destruct k as [|k]; [cbn; split; [done|intros; (lia || done)]|]). lia. }
  split; [done|]. auto.
Qed.

(** Reading or writing [n] words in bursts; the value is the number of words. *)
Definition run_etherbone `{RamOps} (is_write : bool) (n burst : Z) : host Z :=
  if is_write then do_memwrite (zrange n) 1073741824 burst ;; mret n
  else data ← do_memread n 1073741824 burst; mret (Z.of_nat (length data)).

Section etherbone.
Context `{HD : Device} `{HR : !Ram}.

(** A write leaves the numbers 0, 1, ... in the memory; a read gets all words. *)
Lemma run_etherbone_write n burst d :
  0 ≤ n ≤ 2 ^ 32 → 0 < burst →
  ∃ d', run_etherbone true n burst d = (Done n, d') ∧ ram_words 1073741824 (Z.to_nat n) d' = zrange n.
Proof.
  intros Hn Hb. destruct (triple_memwrite (zrange n) 1073741824 burst Hb d I) as ([] & d' & E & Hw).
  exists d'. unfold run_etherbone. rewrite (bind_done _ _ _ _ _ E). split; [done|].
  assert (length (zrange n) = Z.to_nat n) as Hl by (unfold zrange; by rewrite length_fmap, length_seq).
  rewrite Hl in Hw. rewrite Hw. apply fmap_trunc_small. apply Forall_fmap, Forall_forall. intros k Hk%elem_of_seq. cbn. lia.
Qed.

Lemma run_etherbone_read n burst d : 0 ≤ n → 0 < burst → run_etherbone false n burst d = (Done n, d).
Proof.
  intros Hn Hb. unfold run_etherbone, do_memread. erewrite bind_done; [|by rewrite ram_memread].
  unfold words. rewrite length_fmap, length_seq, Z2Nat.id by done. done.
Qed.

End etherbone.

(** ** memspeed *)

(** [time.time()]; time may pass with every use of it. *)
Class Clock `{Device} := { time_now : dev → Q * dev }.

Definition now `{Clock} : host Q := fun d => let '(t, d') := time_now d in (Done t, d').

(** The [measure] of [memspeed]: the printed speed divides by the elapsed time. *)
Definition speed_measure `{Clock} {A} (fun_ : host A) : host A :=
  start ← now;
  ret ← fun_;
  stop ← now;
  if Qeq_dec (stop - start) 0 then lift (Raise ZeroDivisionError) else mret ret.

(** The keyword arguments go to both functions, but only [memfill] has a
    [pattern]. *)
Definition memspeed `{HD : Device} `{HR : !RamOps} {HK : Clock} (n : Z) (pattern : option Z) (base burst : Z) : host unit :=
  speed_measure (do_memwrite (replicate (Z.to_nat n) (default 2863311530 pattern)) base burst) ;;
  data ← speed_measure (if bool_decide (is_Some pattern) then lift (Raise TypeError) else do_memread n base burst);
  hassert (forallb (fun w => w =? default 2863311530 pattern) data).

Section memspeed.
Context `{HD : Device} `{HF : !FaultyRam} {HK : Clock}.
(** A clock that advances: [uptime] is the time of a board, every reading takes some, and
    neither accesses to the memory set it back nor readings change the cells. *)
Record advances (uptime : dev → Q) : Prop := {
  ad_time : ∀ d, (time_now d).1 = uptime d;
  ad_now : ∀ d, (uptime d < uptime (time_now d).2)%Q;
  ad_write : ∀ a ds d, (uptime d <= uptime (ram_write a ds d))%Q;
  ad_cell : ∀ a d, cell (time_now d).2 a = cell d a;
}.

Context (uptime : dev → Q) (Hclock : advances uptime).

Lemma speed_measure_done {A} (f : host A) a d d1 :
  f (time_now d).2 = (Done a, d1) → (uptime (time_now d).2 <= uptime d1)%Q →
  speed_measure f d = (Done a, (time_now d1).2).
Proof using Hclock.
  intros Hf Hle. unfold speed_measure, now, mbind, host_bind. pose proof (ad_time _ Hclock d) as Ht. pose proof (ad_now _ Hclock d) as Hn.
  pose proof (ad_time _ Hclock d1) as Ht1. destruct (time_now d) as [t d0]. cbn in Hf, Hle, Ht, Hn. rewrite Hf. destruct (time_now d1) as [t1 d2].
  cbn in Ht1 |- *. subst t t1. destruct (Qeq_dec _ 0) as [E|]; [|done].
  exfalso. apply (Qlt_irrefl (uptime d)). eapply Qlt_le_trans; [exact Hn|]. eapply Qle_trans; [exact Hle|].
  assert (uptime d1 == uptime d)%Q as -> by (rewrite <- (Qplus_0_l (uptime d)), <- E; ring). apply Qle_refl.
Qed.

Lemma memwrite_uptime data base burst d d' : do_memwrite data base burst d = (Done tt, d') → (uptime d <= uptime d')%Q.
Proof using Hclock.
  unfold do_memwrite, memwrite. destruct (py_range _ _) as [is_|e]; cbn; [|done]. intros [= <-].
  revert d. induction is_ as [|i is_ IH]; intros d; cbn [foldl]; [apply Qle_refl|].
  eapply Qle_trans; [apply (ad_write _ Hclock)|apply IH].
Qed.

(** The speed test of [n] words ends with an assertion when one of them does not read
    back. *)
Definition speed_words (n base : Z) : list nat := bad_words n (fun _ => 2863311530) base.

Lemma memspeed_exact n base burst d :
  0 ≤ n → 0 < burst →
  ∃ d', memspeed n None base burst d = (if bool_decide (speed_words n base = []) then Done tt else Failed AssertionError, d').
Proof using Hclock.
  intros Hn Hb. unfold memspeed. set (data := replicate _ _).
  destruct (faulty_memwrite data base burst (time_now d).2 Hb) as (d1 & E & Hcell). pose proof (memwrite_uptime _ _ _ _ _ E) as Hle.
  erewrite bind_done by exact (speed_measure_done _ _ _ _ E Hle). rewrite bool_decide_false by (intros [? ?]; done).
  erewrite bind_done by (apply speed_measure_done; [by apply faulty_memread|apply Qle_refl]).
  eexists. unfold hassert, lift.
  match goal with |- context [forallb ?f ?l] => replace (forallb f l) with (bool_decide (speed_words n base = [])) end;
    [by destruct (bool_decide _)|].
  apply eq_bool_prop_intro. rewrite bool_decide_spec, Is_true_true, forallb_forall. unfold speed_words, bad_words. split.
  - intros Hnil w (k & -> & Hk)%list_elem_of_In%list_elem_of_fmap. apply Z.eqb_eq, dec_stable. intros Hw.
    assert (k ∈ ([] : list nat)) as []%elem_of_nil. rewrite <- Hnil. apply list_elem_of_filter. split; [|done]. intros Hgood. apply Hw.
    apply elem_of_seq in Hk. rewrite !(ad_cell _ Hclock), (Hcell k 2863311530); [exact Hgood|]. apply lookup_replicate_2. lia.
  - intros Hall. apply elem_of_nil_inv. intros k [Hbad Hk]%list_elem_of_filter. apply Hbad, Z.eqb_eq, Hall, list_elem_of_In, list_elem_of_fmap.
    exists k. split; [|done]. apply elem_of_seq in Hk. rewrite !(ad_cell _ Hclock), (Hcell k 2863311530); [done|]. apply lookup_replicate_2. lia.
Qed.
End memspeed.

(** With a pattern the measurement ends with a [TypeError], if not earlier. *)
Lemma memspeed_pattern `{HD : Device} `{HR : !RamOps} {HK : Clock} n p base burst d :
  ∃ o d', memspeed n (Some p) base burst d = (o, d') ∧ (o = Failed TypeError ∨ o = Failed ValueError ∨ o = Failed ZeroDivisionError).
Proof.
  unfold memspeed, speed_measure, mbind, host_bind, now, do_memwrite, memwrite, py_range.
  destruct (time_now d) as [t d0]. destruct (burst =? 0); cbn; [eauto 10|]. destruct (burst <? 0); cbn.
  all: destruct (time_now _) as [t1 d1]; destruct (Qeq_dec _ 0); cbn; [eauto 10|]; destruct (time_now d1); eauto 10.
Qed.

(** ** dump_regs.py *)

(** [wb.regs.__dict__.items()]: names and addresses; the value is (address, value, name)
    of each register. *)
Definition dump_regs `{Device} (regs : list (string * Z)) : host (list (Z * Z * string)) :=
  for_acc regs [] (fun out reg => v ← rd reg.1; mret (out ++ [(reg.2, v, reg.1)])).

(** ** memdump *)

(** [{:0nx}] and [{:0nb}] of a non-negative number. *)
Definition digit_count (bits v : Z) : nat := if v =? 0 then 1%nat else S (Z.to_nat (Z.log2 v / bits)).
Definition hex_pad (n : nat) (v : Z) : text := hex_digits (Nat.max n (digit_count 4 v)) v.
Fixpoint bin_digits (n : nat) (v : Z) : text :=
  match n with O => [] | S n' => bin_digits n' (v / 2) ++ [if Z.odd v then "1"%char else "0"%char] end.
Definition bin_pad (n : nat) (v : Z) : text := bin_digits (Nat.max n (digit_count 1 v)) v.

Definition tochar (val : Z) : ascii := if (32 <=? val) && (val <=? 126) then ascii_of_nat (Z.to_nat val) else "."%char.

(** One line: the address, the bytes and the characters of a chunk, padded. *)
Definition dump_bytes (chunk : list Z) (chunk_len : nat) : text :=
  mjoin (imap (fun i (_ : nat) => (if (i =? 0)%nat then [] else [" "%char])
                   ++ match chunk !! i with Some b => hex_pad 2 b | None => chars "  " end) (seq 0 chunk_len)).
Definition dump_chars (chunk : list Z) (chunk_len : nat) : text :=
  (fun i => match chunk !! i with Some b => tochar b | None => " "%char end) <$> seq 0 chunk_len.
Definition dump_line (base : Z) (chunk_len : nat) (i : nat) (chunk : list Z) : text :=
  chars "0x" ++ hex_pad 8 (base + chunk_len * i) ++ chars ":  " ++ dump_bytes chunk chunk_len ++ chars "  " ++ dump_chars chunk chunk_len.

Definition memdump (data : list Z) (base : Z) (chunk_len : nat) : result (list text) :=
  cs ← chunks (word2byte data) chunk_len;
  Ok (imap (dump_line base chunk_len) cs).

Example memdump_shown :
  memdump [1819043144; 111] 1073741824 4
  = Ok [chars "0x40000000:  48 65 6c 6c  Hell"; chars "0x40000004:  6f 00 00 00  o..."].
Proof. vm_compute. reflexivity. Qed.

Lemma length_hex_digits n v : length (hex_digits n v) = n.
Proof. revert v. induction n as [|n IH]; intros v; [done|]. cbn. rewrite length_app, IH. cbn. lia. Qed.

Lemma digit_count_byte b : 0 ≤ b < 256 → (digit_count 4 b ≤ 2)%nat.
Proof.
  intros Hb. unfold digit_count. destruct (Z.eqb_spec b 0); [lia|]. assert (Z.log2 b < 8) by (apply Z.log2_lt_pow2; lia).
  assert (Z.log2 b / 4 < 2) by (apply Z.div_lt_upper_bound; lia). lia.
Qed.

Lemma length_join_const {A} (k : nat) (ls : list (list A)) :
  Forall (fun l => length l = k) ls → length (mjoin ls) = (k * length ls)%nat.
Proof.
  induction 1 as [|l ls Hl _ IH]; [cbn; lia|]. change (mjoin (l :: ls)) with (l ++ mjoin ls).
  rewrite length_app, IH, Hl. cbn. lia.
Qed.

(** The columns of the dump are aligned: every chunk of bytes takes the same space,
    also the last one. *)
Lemma dump_bytes_width chunk n :
  Forall (fun b => 0 ≤ b < 256) chunk → length (dump_bytes chunk (S n)) = (2 + 3 * n)%nat.
Proof.
  intros Hb. unfold dump_bytes.
  assert (∀ i, length (match chunk !! i with Some b => hex_pad 2 b | None => chars "  " end) = 2%nat) as H2.
  { intros i. destruct (chunk !! i) as [b|] eqn:E; [|done]. unfold hex_pad. rewrite length_hex_digits.
    rewrite Forall_lookup in Hb. pose proof (digit_count_byte b (Hb _ _ E)). lia. }
  cbn [seq imap mjoin list_join]. rewrite !length_app, H2. cbn [Nat.eqb length].
  rewrite length_join_const with (k := 3%nat); [rewrite length_imap, length_seq; lia|].
  apply Forall_lookup. intros i t. rewrite list_lookup_imap. intros (j & _ & ->)%fmap_Some. unfold compose. rewrite length_app, H2. done.
Qed.

(** ** compare *)
Definition compare (val ref : Z) (fmt : string) (nbytes : nat) : result text :=
  if bool_decide (fmt = "hex"%string) then
    Ok (chars "0x" ++ hex_pad (nbytes * 2) val ++ chars (if val =? ref then " == 0x" else " != 0x") ++ hex_pad (nbytes * 2) ref)
  else if bool_decide (fmt = "bin"%string) then
    Ok (bin_pad (nbytes * 8) val ++ chars " xor " ++ bin_pad (nbytes * 8) ref ++ chars " = " ++ bin_pad (nbytes * 8) (Z.lxor val ref))
  else Raise AssertionError.

Example compare_shown :
  compare 171 205 "hex" 1 = Ok (chars "0xab != 0xcd") ∧ compare 5 3 "bin" 1 = Ok (chars "00000101 xor 00000011 = 00000110").
Proof. split; vm_compute; reflexivity. Qed.
