(* ===== verification/Sessions.v ===== *)
(** * The command line tools

    Models the main programs that open a connection to the board, use it and close it:
    [version.py], [dump_regs.py], [execute_payload.py], [analyzer.py], [benchmark.py]
    (with [measure], [run_etherbone] and [run_bist]) and [mem.py] of
    [src/rowhammer_tester/scripts/], and [RemoteClient] of [utils.py].  What the tools
    do in between is modelled in [SmallScripts], [MemBist], [HostScripts] and
    [ExecutePayload].  The logic analyzer is LiteScope's, a class of operations.
    [sys.exit] is an exception; a value that is printed is the result. *)

From Stdlib Require Import QArith Qabs Qpower.
From stdpp Require Import gmap pretty.
From S2P Require Import Prelude PyString AddressConverter Generator Device HostMem ReadLevel HostBist BistBoard BistHost MemBist.
From S2P Require Import HostScripts ExecutePayload GeneratedFiles SmallScripts.
#[local] Open Scope Z_scope.

(** The connection. *)
Class Client `{Device} := {
  connect : dev → dev;
  disconnect : dev → dev;
}.

(** LiteScope: the signals of a file, the triggers given on the command line, and the
    operations of a [LiteScopeAnalyzerDriver]. *)
Class LiteScope `{Device} := {
  signal : Type;
  triggers : Type;
  get_signals : text → string → result (list signal);
  new_driver : string → host unit;
  configure_group : Z → host unit;
  configure_subsampler : Z → host unit;
  add_triggers : triggers → list signal → host bool;
  run_analyzer : Z → option Z → host unit;
  wait_done : host unit;
  upload : host unit;
  save : string → host unit;
}.

Section tools.
Context `{HD : Device} `{HR : !RamOps} `{HS : SdramDefs} {HC : Client} {HK : Clock}.
Context (GENERATED_DIR : text) (fs : files) (identifier_mem : Z).

Definition wb_open : host unit := fun d => (Done tt, connect d).
Definition wb_close : host unit := fun d => (Done tt, disconnect d).
Definition sys_exit {A} (code : Z) : host A := lift (Raise (SystemExit code)).

(** [try: body finally: cleanup] *)
Definition try_finally {A} (body : host A) (cleanup : host unit) : host A := fun d =>
  match body d with
  | (Running, d1) => (Running, d1)
  | (o, d1) =>
      match cleanup d1 with
      | (Done _, d2) => (o, d2)
      | (Failed e, d2) => (Failed e, d2)
      | (Running, d2) => (Running, d2)
      end
  end.

(** The table of registers that the client is made with. *)
Definition RemoteClient : result text := get_generated_file GENERATED_DIR (chars "csr.csv") fs.

(** [wb = RemoteClient(); wb.open(); print(read_ident(wb))] *)
Definition open_board : host text := lift RemoteClient ;; wb_open ;; read_ident identifier_mem.

(** ** version.py, dump_regs.py, execute_payload.py *)
Definition version_main : host text := ident ← open_board; wb_close ;; mret ident.

Definition dump_regs_main (regs : list (string * Z)) : host (list (Z * Z * string)) :=
  open_board ;; out ← dump_regs regs; wb_close ;; mret out.

(** The printed lines are a dump of the scratchpad. *)
Definition execute_payload_main {M : Migen} (fuel : nat) (conv : DRAMAddressConverter)
    (payload_base payload_size scratchpad_base : Z) : host (list text) :=
  open_board ;;
  scratchpad ← execute fuel conv payload_base payload_size scratchpad_base;
  dump ← lift (memdump scratchpad 0 16);
  wb_close ;; mret dump.

(** ** analyzer.py *)
Record analyzer_args {L : LiteScope} := AnalyzerArgs {
  aa_list : bool;
  aa_subsampling : text;
  aa_offset : text;
  aa_length : option text;
  aa_triggers : triggers;
}.

Definition int_option (t : option text) : result (option Z) :=
  match t with Some t => Some <$> py_int0 t | None => Ok None end.

(** The value: whether a trigger was added. *)
Definition analyze {L : LiteScope} (args : analyzer_args) (signals : list signal) : host bool :=
  new_driver "analyzer" ;;
  configure_group 0 ;;
  subsampling ← lift (py_int0 (aa_subsampling args));
  configure_subsampler subsampling ;;
  added ← add_triggers (aa_triggers args) signals;
  offset ← lift (py_int0 (aa_offset args));
  length ← lift (int_option (aa_length args));
  run_analyzer offset length ;;
  wait_done ;;
  upload ;;
  save "dump.vcd" ;;
  mret added.

Definition analyzer_main {L : LiteScope} (args : analyzer_args) : host bool :=
  file ← lift (get_generated_file GENERATED_DIR (chars "analyzer.csv") fs);
  signals ← lift (get_signals file "0");
  if aa_list args then sys_exit 0
  else open_board ;; try_finally (analyze args signals) wb_close.

(** ** benchmark.py *)
Record measurement := Measurement { elapsed : Q; size : Q * string; speed : Q * string }.

Definition measure (runner : host unit) (nbytes : Z) : host measurement :=
  start ← now;
  runner ;;
  stop ← now;
  let elapsed := (stop - start)%Q in
  if Qeq_dec elapsed 0 then lift (Raise ZeroDivisionError)
  else mret (Measurement elapsed (human_size (inject_Z nbytes)) (human_size (inject_Z nbytes / elapsed))).

(** [{:x}] *)
Definition hex_of (v : Z) : text := if v <? 0 then chars "-" ++ hex_pad 1 (- v) else hex_pad 1 v.

Definition profile_file (is_write : bool) (n burst : Z) : text :=
  chars "profiling/" ++ chars (if is_write then "wr" else "rd") ++ chars "_0x" ++ hex_of n ++ chars "_b" ++ chars (pretty burst) ++ chars ".profile".

(** The value: the measurement, and the file with the profile. *)
Definition bench_etherbone (is_write : bool) (n burst : Z) (profile : bool) : host (measurement * option text) :=
  m ← measure (run_etherbone is_write n burst ;; mret tt) (4 * n);
  mret (m, if profile then Some (profile_file is_write n burst) else None).

Definition bench_bist {W : MemWrite} (fuel : nat) (phy : phy_settings) (main_ram_size : Z) (is_write : bool) (pattern : Z) : host measurement :=
  (if is_write then mret tt else hw_memset fuel phy 0 main_ram_size [pattern]) ;;
  measure (if is_write then hw_memset fuel phy 0 main_ram_size [pattern]
           else hw_memtest fuel phy 0 main_ram_size [pattern] ;; mret tt) main_ram_size.

(** The arguments of the subcommands. *)
Inductive bench_args :=
  | BenchEtherbone (rw : string) (n burst : text) (profile : bool)
  | BenchBist (rw : string) (pattern : text).
Definition bench_rw (args : bench_args) : string :=
  match args with BenchEtherbone rw _ _ _ | BenchBist rw _ => rw end.

Definition transfer_type (rw : string) : result bool :=
  if bool_decide (rw = "write"%string) then Ok true
  else if bool_decide (rw = "read"%string) then Ok false
  else Raise ValueError.

(** The parser refuses other transfer types; a missing subcommand is refused when the
    connection is open. *)
Definition benchmark_main {W : MemWrite} (fuel : nat) (phy : phy_settings) (main_ram_size : Z) (args : option bench_args)
    : host (measurement * option text) :=
  match args with
  | Some a => if bool_decide (bench_rw a ∈ ["read"; "write"]%string) then mret tt else sys_exit 2
  | None => mret tt
  end ;;
  open_board ;;
  match args with
  | None => sys_exit 2
  | Some a =>
      is_write ← lift (transfer_type (bench_rw a));
      m ← match a with
          | BenchEtherbone _ n burst profile =>
              n ← lift (py_int0 n); burst ← lift (py_int0 burst);
              bench_etherbone is_write n burst profile
          | BenchBist _ pattern =>
              pattern ← lift (py_int0 pattern);
              m ← bench_bist fuel phy main_ram_size is_write pattern; mret (m, None)
          end;
      wb_close ;; mret m
  end.

(** ** mem.py *)
Record mem_args := MemArgs { ma_srv : bool; ma_size : text; ma_memspeed : bool }.

Definition memspeed_sizes : list Z := [4096 / 4; 65536 / 4; 1048576 / 4].

(** The exit code is the outcome. *)
Definition mem_script (fuel : nat) (args : mem_args) (main_ram_base : Z) (rand_generator : nat → Z) : host unit :=
  lift (if ma_srv args then _ ← litex_server GENERATED_DIR fs; Ok tt else Ok tt) ;;
  open_board ;;
  wait_init fuel ;;
  err ← rd "ddrctrl_init_error";
  if err =? 1 then sys_exit 1
  else
    memtest_size ← lift (py_int0 (ma_size args));
    errors1 ← memtest memtest_size (cycle2 2863311530 1431655765) main_ram_base 255;
    errors2 ← memtest memtest_size rand_generator main_ram_base 255;
    (if ma_memspeed args then for_each memspeed_sizes (fun n => memspeed n None 1073741824 255) else mret tt) ;;
    wb_close ;;
    sys_exit (if (errors1 =? 0) && (errors2 =? 0) then 0 else 1).
End tools.

(** ** Connections are closed *)
Section closing.
Context `{HD : Device} `{HR : !RamOps} `{HS : SdramDefs} {HC : Client} {HK : Clock}.
Context (is_open : dev → bool) (closed_after : ∀ d, is_open (disconnect d) = false).
Context (GENERATED_DIR : text) (fs : files) (identifier_mem : Z).

(** A program that ends with a value leaves no connection. *)
Definition closes {A} (m : host A) : Prop := ∀ d a d', m d = (Done a, d') → is_open d' = false.

Lemma closes_bind {A B} (m : host A) (f : A → host B) : (∀ a, closes (f a)) → closes (m ≫= f).
Proof.
  intros Hf d b d'. unfold mbind, host_bind. destruct (m d) as [[a|e|] d1]; [|done|done]. apply Hf.
Qed.

Lemma closes_end {A} (a : A) : closes (wb_close ;; mret a).
Proof. intros d b d' [= _ <-]. apply closed_after. Qed.

Lemma closes_fail {A} e : closes (lift (Raise e) : host A).
Proof. intros d a d' [=]. Qed.

Ltac closing := repeat first [apply closes_end | apply closes_fail | apply closes_bind; intros].

Lemma version_closes : closes (version_main GENERATED_DIR fs identifier_mem).
Proof. unfold version_main. closing. Qed.

Lemma dump_regs_closes regs : closes (dump_regs_main GENERATED_DIR fs identifier_mem regs).
Proof. unfold dump_regs_main. closing. Qed.

Lemma execute_payload_closes {M : Migen} fuel conv base size scratchpad :
  closes (execute_payload_main GENERATED_DIR fs identifier_mem fuel conv base size scratchpad).
Proof. unfold execute_payload_main. closing. Qed.

Lemma benchmark_closes {W : MemWrite} fuel phy size args :
  closes (benchmark_main GENERATED_DIR fs identifier_mem fuel phy size args).
Proof. unfold benchmark_main. apply closes_bind. intros []. destruct args; closing. Qed.

(** The analyzer closes the connection also when LiteScope raises: with [finally], only
    an exception before the [try] leaves it open. *)
Lemma analyzer_closes {L : LiteScope} args file signals ident d d1 o d' :
  get_generated_file GENERATED_DIR (chars "analyzer.csv") fs = Ok file → get_signals file "0" = Ok signals →
  aa_list args = false → open_board GENERATED_DIR fs identifier_mem d = (Done ident, d1) →
  analyzer_main GENERATED_DIR fs identifier_mem args d = (o, d') → o ≠ Running → is_open d' = false.
Proof.
  intros Hf Hs Hl Ho. unfold analyzer_main. rewrite Hf. erewrite bind_done by done. rewrite Hs. erewrite bind_done by done.
  rewrite Hl. erewrite bind_done by exact Ho. unfold try_finally, wb_close.
  destruct (analyze args signals d1) as [[b|e|] d2]; intros [= <- <-] Hr; (done || apply closed_after).
Qed.

(** Listing the signals needs no board. *)
Lemma analyzer_lists {L : LiteScope} args file signals d :
  get_generated_file GENERATED_DIR (chars "analyzer.csv") fs = Ok file → get_signals file "0" = Ok signals →
  aa_list args = true → analyzer_main GENERATED_DIR fs identifier_mem args d = (Failed (SystemExit 0), d).
Proof.
  intros Hf Hs Hl. unfold analyzer_main. rewrite Hf. erewrite bind_done by done. rewrite Hs. erewrite bind_done by done. by rewrite Hl.
Qed.

End closing.

(** ** mem.py *)
Section mem_script.
Context `{HD : Device} `{HF : !FaultyRam} `{HS : SdramDefs} {HC : Client} {HK : Clock}.
Context (is_open : dev → bool) (closed_after : ∀ d, is_open (disconnect d) = false).
Context (uptime : dev → Q) (Hclock : advances uptime).
Context (GENERATED_DIR : text) (fs : files) (identifier_mem : Z).

(** The tests of growing size pass when the largest does. *)
Definition slow_words (ns : list Z) (base : Z) : list nat := ns ≫= fun n => speed_words n base.

Lemma memspeeds_exact ns base d :
  Forall (fun n => 0 ≤ n) ns →
  ∃ d', for_each ns (fun n => memspeed n None base 255) d
    = (if bool_decide (slow_words ns base = []) then Done tt else Failed AssertionError, d').
Proof using Hclock.
  intros Hns. revert d. induction Hns as [|n ns Hn _ IH]; intros d; [by exists d|]. cbn [for_each].
  destruct (memspeed_exact uptime Hclock n base 255 d Hn ltac:(lia)) as [d1 E].
  unfold slow_words. rewrite bind_cons. fold (slow_words ns base). unfold mbind at 1, host_bind. rewrite E.
  destruct (speed_words n base) as [|k l]; [|exists d1; by rewrite !bool_decide_false].
  rewrite bool_decide_true by done. apply IH.
Qed.

(** The tests of [mem.py]: alternating bits, then random words. *)
Definition test_errors (n base : Z) (g : nat → Z) : list nat :=
  bad_words n (cycle2 2863311530 1431655765) base ++ bad_words n g base.

Definition mem_outcome (e : Z) (args : mem_args) (n base : Z) (g : nat → Z) : exn :=
  if e =? 1 then SystemExit 1
  else if ma_memspeed args && negb (bool_decide (slow_words memspeed_sizes 1073741824 = [])) then AssertionError
  else if bool_decide (test_errors n base g = []) then SystemExit 0
  else SystemExit 1.

(** C12: The memory test script finds the faults of a memory.  On a board that finishes its
    initialisation, whose memory keeps what is written but reads every cell through an
    arbitrary fault of that cell, with a clock that advances, the script ends, for any
    test size that the argument stands for and any random words: with exit code 1 when
    the initialisation reports an error; with an assertion when the speed test is asked
    for and a word of its pattern does not read back from the first megabyte; and
    otherwise with exit code 0 if and only if every word of both tests reads back, else
    with exit code 1, in both cases after closing the connection. *)
Theorem mem_script_exits left e (fuel : nat) args n base g ident d d1 :
  initialises left e → (left d1 < fuel)%nat → open_board GENERATED_DIR fs identifier_mem d = (Done ident, d1) →
  (ma_srv args = true → ∃ s, litex_server GENERATED_DIR fs = Ok s) → py_int0 (ma_size args) = Ok n → 0 ≤ n →
  (∀ k, 0 ≤ g k < 2 ^ 32) →
  ∃ d', mem_script GENERATED_DIR fs identifier_mem fuel args base g d = (Failed (mem_outcome e args n base g), d')
    ∧ (e ≠ 1 → mem_outcome e args n base g ≠ AssertionError → is_open d' = false).
Proof using closed_after Hclock.
  intros Hi Hf Ho Hsrv Hsize Hn Hg. unfold mem_script.
  assert ((if ma_srv args then _ ← litex_server GENERATED_DIR fs; Ok tt else Ok tt) = Ok tt) as ->.
  { destruct (ma_srv args); [|done]. by destruct (Hsrv eq_refl) as [s ->]. }
  erewrite bind_done by done. erewrite bind_done by exact Ho.
  destruct (triple_wait_init left e fuel (left d1) Hi Hf d1 (le_n _)) as ([] & d2 & E2 & Hd2). erewrite bind_done by exact E2.
  pose proof (in_error _ _ Hi d2 Hd2) as He. unfold rd at 1, mbind at 1, host_bind at 1.
  destruct (reg_read "ddrctrl_init_error" d2) as [v d3]. cbn in He. subst v. unfold mem_outcome.
  destruct (Z.eqb_spec e 1) as [->|Hne]; [by exists d3|].
  rewrite Hsize. erewrite bind_done by done.
  destruct (memtest_exact n (cycle2 2863311530 1431655765) base 255 Hn ltac:(lia)) with (d := d3) as (? & d4 & E4 & ->);
    [intros k; unfold cycle2; destruct (Nat.even k); lia|done|].
  destruct (memtest_exact n g base 255 Hn ltac:(lia) Hg d4 I) as (? & d5 & E5 & ->).
  erewrite bind_done by exact E4. erewrite bind_done by exact E5.
  assert (∃ d6, (if ma_memspeed args then for_each memspeed_sizes (fun n => memspeed n None 1073741824 255) else mret tt) d5
    = (if ma_memspeed args && negb (bool_decide (slow_words memspeed_sizes 1073741824 = [])) then Failed AssertionError else Done tt, d6)) as [d6 E6].
  { destruct (ma_memspeed args); [|by exists d5]. destruct (memspeeds_exact memspeed_sizes 1073741824 d5) as [d6 ->]; [by apply (bool_decide_unpack _)|].
    exists d6. by destruct (bool_decide _). }
  destruct (ma_memspeed args && _); [exists d6; split; [unfold mbind at 1, host_bind; by rewrite E6|done]|].
  erewrite bind_done by exact E6. exists (disconnect d6). split; [|intros _ _; apply closed_after].
  unfold test_errors. destruct (bad_words n _ base) as [|? ?], (bad_words n g base) as [|? ?]; reflexivity.
Qed.
End mem_script.

(** ** Measurements *)
Section measurements.
Context `{HD : Device} `{HR : !Ram} {HK : Clock}.

(** The number that a size with a prefix stands for. *)
Definition scaled (s : Q * string) : Q := (s.1 * 1024 ^ Z.of_nat (exponent s.2))%Q.

Lemma scaled_human_size num : (scaled (human_size num) == num)%Q.
Proof. pose proof (human_size_spec num) as H. unfold scaled. destruct (human_size num) as [v p]. apply H. Qed.

(** A measured run has the effect of the run; the printed size is the number of bytes,
    and the printed speed times the printed time too. *)
Lemma triple_measure P (runner : host unit) Q nbytes :
  triple P runner Q → (∀ d, P d → P (time_now d).2) → (∀ d, Q tt d → Q tt (time_now d).2) →
  (∀ d d', P d → runner (time_now d).2 = (Done tt, d') → ((time_now d).1 < (time_now d').1)%Q) →
  triple P (measure runner nbytes)
    (fun m d => Q tt d ∧ (0 < elapsed m)%Q ∧ (scaled (size m) == inject_Z nbytes)%Q ∧ (scaled (speed m) * elapsed m == inject_Z nbytes)%Q).
Proof using.
  intros Hr HP HQ Hc d Hd. destruct (Hr _ (HP d Hd)) as ([] & d' & E & Hq). pose proof (Hc d d' Hd E) as Hlt.
  specialize (HQ d' Hq). unfold measure, now, mbind, host_bind. destruct (time_now d) as [t d0]. cbn in E, Hlt. rewrite E.
  destruct (time_now d') as [t' d2]. cbn in Hlt, HQ. cbv beta iota zeta.
  assert (0 < t' - t)%Q as Hpos by (by apply -> Qlt_minus_iff).
  assert (~ t' - t == 0)%Q as Hne by (intros He; rewrite He in Hpos; by apply Qlt_irrefl in Hpos).
  destruct (Qeq_dec (t' - t) 0); [done|]. eexists _, d2. split; [done|]. cbn [elapsed size speed].
  rewrite !scaled_human_size. split_and!; [done|done|done|by field].
Qed.

(** A clock that does not advance ends the tool with an exception, after the work. *)
Lemma measure_no_time (runner : host unit) nbytes d d' :
  runner (time_now d).2 = (Done tt, d') → ((time_now d').1 == (time_now d).1)%Q →
  measure runner nbytes d = (Failed ZeroDivisionError, (time_now d').2).
Proof using.
  intros E Hc. unfold measure, now, mbind, host_bind. destruct (time_now d) as [t d0]. cbn in E, Hc. rewrite E.
  destruct (time_now d') as [t' d2]. cbn in Hc |- *. destruct (Qeq_dec (t' - t) 0) as [|Hne]; [done|]. destruct Hne. rewrite Hc. ring.
Qed.

Lemma measure_done (runner : host unit) nbytes m d d' :
  measure runner nbytes d = (Done m, d') → ∃ d1, runner (time_now d).2 = (Done tt, d1) ∧ d' = (time_now d1).2.
Proof using.
  unfold measure, now, mbind, host_bind. destruct (time_now d) as [t d0]. cbn.
  destruct (runner d0) as [[[]|e|] d1]; cbn; [|done|done]. intros E. exists d1. split; [done|]. revert E.
  destruct (time_now d1) as [t' d2]. cbn. destruct (Qeq_dec _ 0); cbn; [done|]. by intros [= _ ->].
Qed.

(** When reading the time leaves the board alone, a benchmark of the BIST has the effect
    of [run_bist]. *)
Lemma bench_bist_run {W : MemWrite} fuel phy n is_write pattern m d d' :
  (∀ d, (time_now d).2 = d) →
  bench_bist fuel phy n is_write pattern d = (Done m, d') → run_bist fuel phy n is_write pattern d = (Done tt, d').
Proof using.
  intros Hk. unfold bench_bist, run_bist. set (fill := if is_write then mret tt else _). unfold mbind at 1 3, host_bind at 1 3.
  destruct (fill d) as [[[]|e|] d1]; [|done|done]. intros (d2 & E & ->)%measure_done. by rewrite Hk in E |- *.
Qed.

(** Writing over Etherbone: the words arrive, and the size is that of the words. *)
Lemma bench_write n burst profile d :
  0 ≤ n ≤ 2 ^ 32 → 0 < burst → (∀ a d, ram_word (time_now d).2 a = ram_word d a) →
  (∀ d d', run_etherbone true n burst (time_now d).2 = (Done n, d') → ((time_now d).1 < (time_now d').1)%Q) →
  ∃ m d', bench_etherbone true n burst profile d = (Done (m, if profile then Some (profile_file true n burst) else None), d')
    ∧ ram_words 1073741824 (Z.to_nat n) d' = zrange n ∧ (scaled (size m) == inject_Z (4 * n))%Q.
Proof using.
  intros Hn Hb Hram Hc. set (runner := run_etherbone true n burst ;; mret tt).
  assert (triple (fun _ => True) runner (fun _ d => ram_words 1073741824 (Z.to_nat n) d = zrange n)) as Ht.
  { intros d0 _. destruct (run_etherbone_write n burst d0 Hn Hb) as (d' & E & Hw). exists tt, d'.
    split; [|done]. unfold runner. by rewrite (bind_done _ _ _ _ _ E). }
  destruct (triple_measure _ runner _ (4 * n) Ht) with (d := d) as (m & d' & E & Hw & _ & Hs & _); [done| | |done|].
  { intros d0 <-. unfold ram_words, words. apply list_fmap_ext. intros i k _. apply Hram. }
  { intros d0 d1 _. unfold runner, mbind, host_bind. destruct (run_etherbone_write n burst (time_now d0).2 Hn Hb) as (d2 & E2 & _).
    rewrite E2. intros [= <-]. by eapply Hc. }
  exists m, d'. unfold bench_etherbone. erewrite bind_done by exact E. done.
Qed.
End measurements.

Example profile_file_shown : profile_file true 4096 255 = chars "profiling/wr_0x1000_b255.profile".
Proof. vm_compute. reflexivity. Qed.

(** ** A board for the memory test *)

(** It needs [polls] polls; one bit of the word at 0x40000100 is stuck at one. *)
Record session := Session { polls : nat; opened : bool; time : Q; contents : Z → Z }.
#[local] Instance session_device : Device := {|
  dev := session;
  reg_read r d :=
    if bool_decide (r = "ddrctrl_init_done"%string)
    then (if (polls d =? 0)%nat then 1 else 0, Session (pred (polls d)) (opened d) (time d) (contents d)) else (0, d);
  reg_write _ _ d := d;
  has_reg _ := false;
  elapse d := d;
|}.
Definition stuck (a v : Z) : Z := if a =? 1073742080 then Z.lor v 1 else v.
#[local] Instance session_ram_ops : RamOps := {|
  ram_write a ds d := Session (polls d) (opened d) (time d) (wb_write (WishboneOps := ram_bus_ops) a ds (contents d));
  ram_read a n d := (fun i : nat => stuck (a + 4 * Z.of_nat i) (contents d (a + 4 * Z.of_nat i))) <$> seq 0 n;
|}.
#[local, refine] Instance session_ram : FaultyRam := {| faulty_ops := session_ram_ops; cell := contents; fault := stuck |}.
Proof.
  - intros a ds d i v Hi. cbn. by apply (word_written (Wishbone := ram_bus)).
  - intros a ds d b Hb. cbn. by apply (word_other (Wishbone := ram_bus)).
  - done.
Defined.
#[local] Existing Instance demo_defs.
#[local] Instance session_client : Client := {|
  connect d := Session (polls d) true (time d) (contents d); disconnect d := Session (polls d) false (time d) (contents d) |}.
#[local] Instance session_clock : Clock := {|
  time_now d := (time d, Session (polls d) (opened d) (time d + 1)%Q (contents d)) |}.

Lemma session_advances : advances time.
Proof.
  split; intros; try done; [|apply Qle_refl]. cbn. apply (proj2 (Qlt_minus_iff _ _)).
  assert (time d + 1 + - time d == 1)%Q as -> by ring. done.
Qed.

Definition demo_files : files := {[ chars "/build/arty/csr.csv" := [] ]}.
Definition demo_mem_args (size : string) : mem_args := MemArgs false (chars size) false.
Definition demo_session : session := Session 3 false 0%Q (fun _ => 0).

(** 64 words below the bad one pass; with one more word the test fails. *)
Lemma mem_script_exits_witness :
  (∃ d', mem_script (chars "/build/arty") demo_files 0 5 (demo_mem_args "0x40") 1073741824 (fun k => Z.of_nat k mod 7) demo_session
     = (Failed (SystemExit 0), d') ∧ opened d' = false)
  ∧ ∃ d', mem_script (chars "/build/arty") demo_files 0 5 (demo_mem_args "0x41") 1073741824 (fun k => Z.of_nat k mod 7) demo_session
     = (Failed (SystemExit 1), d') ∧ opened d' = false.
Proof.
  assert (initialises polls 0) as Hi by (split; cbn; intros; try case_bool_decide; cbn; try done; try lia).
  assert (∀ k, 0 ≤ Z.of_nat k mod 7 < 2 ^ 32) as Hg by (intros k; pose proof (Z.mod_pos_bound (Z.of_nat k) 7 ltac:(lia)); lia).
  split.
  - destruct (mem_script_exits (HF := session_ram) (HC := session_client) opened (fun _ => eq_refl) time session_advances (chars "/build/arty") demo_files 0
      polls 0 5 (demo_mem_args "0x40") 64 1073741824 (fun k => Z.of_nat k mod 7) [] demo_session (Session 3 true 0%Q (fun _ => 0)) Hi)
      as (d' & E & Hc); [cbn; lia|vm_compute; reflexivity|discriminate|vm_compute; reflexivity|lia|exact Hg|].
    assert (mem_outcome (HF := session_ram) 0 (demo_mem_args "0x40") 64 1073741824 (fun k => Z.of_nat k mod 7) = SystemExit 0) as Eo
      by (unfold mem_outcome, demo_mem_args; cbn [ma_memspeed andb]; vm_compute; reflexivity).
    rewrite Eo in E, Hc. exists d'. split; [exact E|apply Hc; discriminate].
  - destruct (mem_script_exits (HF := session_ram) (HC := session_client) opened (fun _ => eq_refl) time session_advances (chars "/build/arty") demo_files 0
      polls 0 5 (demo_mem_args "0x41") 65 1073741824 (fun k => Z.of_nat k mod 7) [] demo_session (Session 3 true 0%Q (fun _ => 0)) Hi)
      as (d' & E & Hc); [cbn; lia|vm_compute; reflexivity|discriminate|vm_compute; reflexivity|lia|exact Hg|].
    assert (mem_outcome (HF := session_ram) 0 (demo_mem_args "0x41") 65 1073741824 (fun k => Z.of_nat k mod 7) = SystemExit 1) as Eo
      by (unfold mem_outcome, demo_mem_args; cbn [ma_memspeed andb]; vm_compute; reflexivity).
    rewrite Eo in E, Hc. exists d'. split; [exact E|apply Hc; discriminate].
Defined.
