(* ===== verification/Targets.v ===== *)
(** * The boards

    The parts of [src/rowhammer_tester/targets/] in which a board differs from the
    others: the clocks its clock generator makes ([CRG]), the type and clock ratio of
    its memory ([get_ddrphy], [get_sdram_ratio]), on the DDR5 boards the clock
    domains of the pins ([get_ddr_pin_domains]) and those the PHY's clock generator
    makes, the bridge to the host ([add_host_bridge]), the defaults of its main
    program, and the network constants of [ddr5_tester_linux].  Frequencies are whole
    numbers of Hz.  PLLs, PHYs and buffers are library code: a clock is recorded with
    the frequency and phase it is asked for. *)

From S2P Require Import Prelude.
From S2P Require Import PyString.
#[local] Open Scope Z_scope.

(** ** Clocks *)

(** [pll.create_clkout(domain, freq, phase=phase)] *)
Record clkout := Clkout { domain : string; freq : Z; phase : Z }.

Module Arty.
Definition CRG (sys_clk_freq : Z) : list clkout :=
  [Clkout "sys" sys_clk_freq 0; Clkout "eth" 25000000 0; Clkout "sys4x" (4 * sys_clk_freq) 0;
   Clkout "sys4x_dqs" (4 * sys_clk_freq) 90; Clkout "clk200" 200000000 0].
Definition memtype : string := "DDR3".
Definition get_sdram_ratio : string := "1:4".
End Arty.

Module DDR4Datacenter.
Definition CRG (sys_clk_freq iodelay_clk_freq : Z) : list clkout :=
  [Clkout "sys" sys_clk_freq 0; Clkout "sys2x" (2 * sys_clk_freq) 0; Clkout "sys4x" (4 * sys_clk_freq) 0;
   Clkout "sys4x_dqs" (4 * sys_clk_freq) 90; Clkout "idelay" iodelay_clk_freq 0].
Definition memtype : string := "DDR4".
Definition get_sdram_ratio : string := "1:4".
End DDR4Datacenter.

Module LPDDR4.
Definition CRG (sys_clk_freq iodelay_clk_freq : Z) : list clkout :=
  [Clkout "sys" sys_clk_freq 0; Clkout "sys2x" (2 * sys_clk_freq) 0; Clkout "sys8x" (8 * sys_clk_freq) 0;
   Clkout "idelay" iodelay_clk_freq 0].
Definition get_sdram_ratio : string := "1:8".
End LPDDR4.

(** On both DDR5 boards the raw clocks go to the PHY's own clock generator. *)
Module DDR5.
(** The reset domain and the sources of the PHY's clock generator, the domains it
    is asked to create, and the banks. *)
Record phycrg := PhyCrg {
  reset_clock_domain : string;
  source_4x : string;
  source_4x_90 : string;
  clock_domains : list string;
  io_banks : list string;
}.

(** A pin: its output and its input domains, each a pair of the slow and the fast
    clock of a serialiser. *)
Abbreviation pin_domains := (list (string * (option (string * string) * option (string * string)))).
End DDR5.

Module DDR5TestBoard.
Import DDR5.
Definition CRG (sys_clk_freq iodelay_clk_freq : Z) : list clkout :=
  [Clkout "sys4x_raw" (4 * sys_clk_freq) 0; Clkout "sys4x_90_raw" (4 * sys_clk_freq) 90;
   Clkout "sys2x_90_rst" (2 * sys_clk_freq) 90; Clkout "sys" sys_clk_freq 0; Clkout "sys2x" (sys_clk_freq * 2) 0;
   Clkout "idelay" iodelay_clk_freq 0].
Definition get_ddr_pin_domains : pin_domains :=
  [("ck_t", (Some ("sys2x_io", "sys4x_io"), None));
   ("ck_c", (Some ("sys2x_io", "sys4x_io"), None));
   ("ca", (Some ("sys2x_io", "sys4x_io"), None));
   ("par", (Some ("sys2x_io", "sys4x_io"), None));
   ("cs_n", (Some ("sys2x_io", "sys4x_io"), None));
   ("reset_n", (Some ("sys2x_io", "sys4x_io"), None));
   ("alert_n", (None, Some ("sys_io", "sys4x_io")));
   ("dq", (Some ("sys2x_90_io", "sys4x_90_io"), Some ("sys_io", "sys4x_io")));
   ("dm_n", (Some ("sys2x_90_io", "sys4x_90_io"), Some ("sys_io", "sys4x_io")));
   ("dqs_t", (Some ("sys2x_io", "sys4x_io"), Some ("sys_io", "sys4x_io")));
   ("dqs_c", (Some ("sys2x_io", "sys4x_io"), Some ("sys_io", "sys4x_io")))]%string.
Definition PHYCRG : phycrg :=
  PhyCrg "sys2x_90_rst" "sys4x_raw" "sys4x_90_raw"
    ["sys_io"; "sys2x_io"; "sys2x_90_io"; "sys4x_io"; "sys4x_90_io"] ["bank34"].
Definition with_sub_channels : bool := false.
Definition get_sdram_ratio : string := "1:4".
End DDR5TestBoard.

Module DDR5Tester.
Import DDR5.
Definition CRG (sys_clk_freq iodelay_clk_freq : Z) : list clkout :=
  [Clkout "sys4x_raw" (4 * sys_clk_freq) 0; Clkout "sys4x_90_raw" (4 * sys_clk_freq) 90;
   Clkout "sys2x_90_rst" (2 * sys_clk_freq) 90; Clkout "sys" sys_clk_freq 0; Clkout "sys2x" (sys_clk_freq * 2) 0;
   Clkout "idelay" iodelay_clk_freq 0].
Definition get_ddr_pin_domains : pin_domains :=
  [("ck_t", (Some ("sys2x_io", "sys4x_io"), None));
   ("ck_c", (Some ("sys2x_io", "sys4x_io"), None));
   ("A_ca", (Some ("sys2x_io", "sys4x_io"), None));
   ("A_par", (Some ("sys2x_io", "sys4x_io"), None));
   ("A_cs_n", (Some ("sys2x_io", "sys4x_io"), None));
   ("B_ca", (Some ("sys2x_io", "sys4x_io"), None));
   ("B_par", (Some ("sys2x_io", "sys4x_io"), None));
   ("B_cs_n", (Some ("sys2x_io", "sys4x_io"), None));
   ("reset_n", (Some ("sys2x_io", "sys4x_io"), None));
   ("alert_n", (None, Some ("sys_io", "sys4x_io")));
   ("A_dq", (Some ("sys2x_90_io", "sys4x_90_io"), Some ("sys_io", "sys4x_io")));
   ("A_dqs_t", (Some ("sys2x_io", "sys4x_io"), Some ("sys_io", "sys4x_io")));
   ("A_dqs_c", (Some ("sys2x_io", "sys4x_io"), Some ("sys_io", "sys4x_io")));
   ("B_dq", (Some ("sys2x_90_io", "sys4x_90_io"), Some ("sys_io", "sys4x_io")));
   ("B_dqs_t", (Some ("sys2x_io", "sys4x_io"), Some ("sys_io", "sys4x_io")));
   ("B_dqs_c", (Some ("sys2x_io", "sys4x_io"), Some ("sys_io", "sys4x_io")))]%string.
Definition PHYCRG : phycrg :=
  PhyCrg "sys2x_90_rst" "sys4x_raw" "sys4x_90_raw"
    ["sys_io"; "sys2x_io"; "sys2x_90_io"; "sys4x_io"; "sys4x_90_io"] ["bank32"; "bank33"; "bank34"].
Definition with_sub_channels : bool := true.
Definition get_sdram_ratio : string := "1:4".
End DDR5Tester.

(** The ZCU104 divides its system clock from the clock of the memory: a
    [BUFGCE_DIV] and a plain buffer behind the same output of the PLL. *)
Module ZCU104.
Definition divided (f : Z) (divide : Z) : Z := f / divide.
Definition CRG (sys_clk_freq iodelay_clk_freq : Z) : list clkout :=
  let pll4x := sys_clk_freq * 4 in
  [Clkout "pll4x" pll4x 0; Clkout "idelay" iodelay_clk_freq 0; Clkout "uart" sys_clk_freq 0;
   Clkout "sys" (divided pll4x 4) 0; Clkout "sys4x" pll4x 0].
Definition memtype : string := "DDR4".
Definition get_sdram_ratio : string := "1:4".
End ZCU104.

(** ** Bridges to the host *)
Inductive bridge :=
  | Etherbone (buffer_depth : Z) (ip_address : text) (mac_address udp_port : Z)
  | Ethernet
  | Uartbone (name : string) (clk_freq baudrate : Z) (cd : string)
  | NoBridge.

(** The registers that [add_host_bridge] adds itself, and the bridge. *)
Definition Arty_add_host_bridge (ip : text) (mac port : Z) : list string * bridge :=
  (["ethphy"%string], Etherbone 256 ip mac port).
Definition add_host_bridge (ip : text) (mac port : Z) : list string * bridge := ([], Etherbone 256 ip mac port).
Definition ZCU104_add_host_bridge (sys_clk_freq : Z) : list string * bridge := ([], Uartbone "serial" sys_clk_freq 1000000 "uart").
Definition Linux_add_host_bridge (with_ethernet with_etherbone : bool) (ip : text) (mac port : Z) : list string * bridge :=
  if with_ethernet then ([], Ethernet)
  else if with_etherbone then add_host_bridge ip mac port
  else ([], NoBridge).

(** ** Network constants of the Linux target *)
Definition ip_constant (name : string) (parts : list text) (i : nat) : result (string * Z) :=
  part ← of_option IndexError (parts !! i);
  v ← py_int 10 part;
  Ok (name, v).

(** The constants in the order in which they are added; the first part that is
    missing or not a number raises. *)
Definition configure_ethernet (local_ip remote_ip : text) : result (list (string * Z)) :=
  let local_ip := split_on "."%char local_ip in
  let remote_ip := split_on "."%char remote_ip in
  result_map (fun '(name, parts, i) => ip_constant name parts i)
    [("LOCALIP1", local_ip, 0%nat); ("LOCALIP2", local_ip, 1%nat); ("LOCALIP3", local_ip, 2%nat); ("LOCALIP4", local_ip, 3%nat);
     ("REMOTEIP1", remote_ip, 0%nat); ("REMOTEIP2", remote_ip, 1%nat); ("REMOTEIP3", remote_ip, 2%nat);
     ("REMOTEIP4", remote_ip, 3%nat)]%string.

(** ** Defaults of the main programs *)
Record board := Board {
  b_name : string;
  b_sys_clk_freq : string;
  b_module : string;
  b_clocks : Z → Z → list clkout;
  b_ratio : string;
  b_pins : DDR5.pin_domains;
  b_phycrg : option DDR5.phycrg;
}.

Definition arty : board := Board "arty" "100e6" "MT41K128M16" (fun f _ => Arty.CRG f) Arty.get_sdram_ratio [] None.
Definition ddr4_datacenter_test_board : board :=
  Board "ddr4_datacenter_test_board" "100e6" "MTA18ASF2G72PZ" DDR4Datacenter.CRG DDR4Datacenter.get_sdram_ratio [] None.
Definition lpddr4_test_board : board :=
  Board "lpddr4_test_board" "50e6" "MT53E256M16D1" LPDDR4.CRG LPDDR4.get_sdram_ratio [] None.
Definition ddr5_test_board : board :=
  Board "ddr5_test_board" "200e6" "MT60B2G8HB48B" DDR5TestBoard.CRG DDR5TestBoard.get_sdram_ratio DDR5TestBoard.get_ddr_pin_domains
    (Some DDR5TestBoard.PHYCRG).
Definition ddr5_tester : board :=
  Board "ddr5_tester" "200e6" "M329R8GA0BB0" DDR5Tester.CRG DDR5Tester.get_sdram_ratio DDR5Tester.get_ddr_pin_domains
    (Some DDR5Tester.PHYCRG).
Definition ddr5_tester_linux : board :=
  Board "ddr5_tester_linux" "200e6" "M329R8GA0BB0" DDR5Tester.CRG DDR5Tester.get_sdram_ratio DDR5Tester.get_ddr_pin_domains
    (Some DDR5Tester.PHYCRG).
Definition zcu104 : board := Board "zcu104" "125e6" "MTA4ATF51264HZ" ZCU104.CRG ZCU104.get_sdram_ratio [] None.

Definition boards : list board :=
  [arty; ddr4_datacenter_test_board; lpddr4_test_board; ddr5_test_board; ddr5_tester; ddr5_tester_linux; zcu104].

(** ** Clocks of the boards *)

(** The ratio ["1:n"] that the memory module is built with. *)
Definition ratio_of (ratio : string) : result Z :=
  match split_on ":"%char (chars ratio) with
  | [one; n] => if bool_decide (one = ["1"%char]) then py_int 10 n else Raise ValueError
  | _ => Raise ValueError
  end.

(** The names of the domains of the PHY's clock generator give the multiple of the
    system clock and the phase. *)
Definition io_clock (name : string) : option (Z * Z) :=
  match name with
  | "sys_io" => Some (1, 0) | "sys2x_io" => Some (2, 0) | "sys2x_90_io" => Some (2, 90)
  | "sys4x_io" => Some (4, 0) | "sys4x_90_io" => Some (4, 90) | _ => None
  end%string.

(** A serialiser: both of its clocks exist, have the same phase, and the fast one is
    a multiple of the slow one. *)
Definition serialiser_ok (created : list string) (c : string * string) : bool :=
  match io_clock c.1, io_clock c.2 with
  | Some (slow, p), Some (fast, q) =>
      bool_decide (c.1 ∈ created) && bool_decide (c.2 ∈ created) && (p =? q) && (slow <? fast) && (fast mod slow =? 0)
  | _, _ => false
  end.

Definition pin_ok (created : list string) (pin : string * (option (string * string) * option (string * string))) : bool :=
  let check o := match o with Some c => serialiser_ok created c | None => true end in
  check pin.2.1 && check pin.2.2.

(** A phase-0 clock of a multiple of the system clock. *)
Definition has_clock (clocks : list clkout) (dom : option string) (f : Z) : Prop :=
  ∃ c, c ∈ clocks ∧ freq c = f ∧ phase c = 0 ∧ (∀ d, dom = Some d → domain c = d).

Lemma has_clock_here c clocks dom f :
  freq c = f → phase c = 0 → (∀ d, dom = Some d → domain c = d) → has_clock (c :: clocks) dom f.
Proof. intros. exists c. split_and!; [by left|done..]. Qed.

Lemma has_clock_further c clocks dom f : has_clock clocks dom f → has_clock (c :: clocks) dom f.
Proof. intros (c' & Hc & H). exists c'. split; [by right|done]. Qed.

Ltac find_clock :=
  repeat first [apply has_clock_here; [cbn; unfold ZCU104.divided; (lia || (rewrite Z.div_mul; lia))|done|by intros ? [= <-]]
               | apply has_clock_further].

(** The clocks of the boards.  On every board, for every frequency of the system
    clock: no two clocks share a domain, the system clock has the frequency asked
    for, and there is a clock for the memory with the multiple that the ratio given
    to the memory module says.  On the DDR5 boards every pin's serialisers use
    domains that the PHY's clock generator creates, with equal phases and the fast
    clock a multiple of the slow one, no two pins are the same, and the sources of
    that generator are clocks of the board. *)
Theorem boards_clocked b f iodelay :
  b ∈ boards →
  NoDup (domain <$> b_clocks b f iodelay)
  ∧ has_clock (b_clocks b f iodelay) (Some "sys"%string) f
  ∧ (∃ n, ratio_of (b_ratio b) = Ok n ∧ has_clock (b_clocks b f iodelay) None (n * f))
  ∧ (∀ crg, b_phycrg b = Some crg →
       Forall (pin_ok (DDR5.clock_domains crg)) (b_pins b) ∧ NoDup (b_pins b).*1
       ∧ Forall (fun d => d ∈ domain <$> b_clocks b f iodelay)
           [DDR5.reset_clock_domain crg; DDR5.source_4x crg; DDR5.source_4x_90 crg]).
Proof.
  intros Hb. unfold boards in Hb. rewrite !elem_of_cons in Hb. destruct_or! Hb; [subst b..|by apply elem_of_nil in Hb];
    (split_and!; [cbn; apply (bool_decide_unpack _); by vm_compute|cbn; find_clock|
       eexists; split; [vm_compute; reflexivity|cbn; find_clock]|]);
    intros crg Hc; try discriminate Hc; injection Hc as <-;
    split_and!; cbn; apply (bool_decide_unpack _); by vm_compute.
Qed.

Lemma boards_clocked_witness : ∃ n, ratio_of (b_ratio lpddr4_test_board) = Ok n ∧ has_clock (b_clocks lpddr4_test_board 50000000 200000000) None (n * 50000000).
Proof. apply (boards_clocked lpddr4_test_board 50000000 200000000). unfold boards. do 2 right. by left. Defined.

(** ** Addresses *)
Definition dotted (a b c d : Z) : text :=
  chars (pretty a) ++ "."%char :: chars (pretty b) ++ "."%char :: chars (pretty c) ++ "."%char :: chars (pretty d).

Lemma pretty_no_dot n : 0 ≤ n → "."%char ∉ chars (pretty n).
Proof.
  intros Hn. destruct n as [|p|p]; [by apply (bool_decide_unpack _); vm_compute| |lia].
  destruct (pretty_N_go_chars (Npos p) "") as (l & E & _ & _ & _ & Hv). change (pretty (Z.pos p)) with (pretty_N_go (Npos p) "").
  rewrite E. cbn. rewrite app_nil_r. intros Hin. apply digits_value_digits in Hv. rewrite Forall_forall in Hv.
  by destruct (Hv _ Hin).
Qed.

Lemma split_dotted a b c d :
  0 ≤ a → 0 ≤ b → 0 ≤ c → 0 ≤ d →
  split_on "."%char (dotted a b c d) = [chars (pretty a); chars (pretty b); chars (pretty c); chars (pretty d)].
Proof. intros. unfold dotted. by rewrite !split_on_word, split_on_last by (by apply pretty_no_dot). Qed.

(** The eight constants are the numbers of the two addresses. *)
Lemma configure_ethernet_quads a b c d e f g h :
  Forall (Z.le 0) [a; b; c; d; e; f; g; h] →
  configure_ethernet (dotted a b c d) (dotted e f g h)
  = Ok [("LOCALIP1", a); ("LOCALIP2", b); ("LOCALIP3", c); ("LOCALIP4", d);
        ("REMOTEIP1", e); ("REMOTEIP2", f); ("REMOTEIP3", g); ("REMOTEIP4", h)]%string.
Proof.
  rewrite !Forall_cons. intros (Ha & Hb & Hc & Hd & He & Hf & Hg & Hh & _). unfold configure_ethernet.
  rewrite !split_dotted by done. cbn [result_map ip_constant lookup list_lookup of_option].
  unfold ip_constant. cbn [lookup list_lookup of_option]. rewrite !ok_bind, !py_int_pretty by done. reflexivity.
Qed.

(** An address with fewer than four parts raises; further parts are ignored. *)
Lemma configure_ethernet_short a b remote :
  0 ≤ a → 0 ≤ b → configure_ethernet (chars (pretty a) ++ "."%char :: chars (pretty b)) remote = Raise IndexError.
Proof.
  intros Ha Hb. unfold configure_ethernet. rewrite split_on_word, split_on_last by (by apply pretty_no_dot).
  cbn [result_map]. unfold ip_constant. cbn [lookup list_lookup of_option]. by rewrite !ok_bind, !py_int_pretty.
Qed.
