(* ===== verification/FifoDut.v ===== *)
(** * FIFO test modules of the DDR5 test board

    Models [AsyncFIFOWithoutALMOSTEMPTYDUT] and [AsyncFIFOWraperDUT] of
    [src/rowhammer_tester/targets/ddr5_test_board.py]: a counter written in one clock
    domain and read in another through a FIFO of the FPGA.  Edges of the two clocks
    come in any order; the FIFO primitive is a parameter of which nothing is assumed. *)

From S2P Require Import Prelude.
#[local] Open Scope Z_scope.

(** ** AsyncFIFOWithoutALMOSTEMPTYDUT *)
Record dut := Dut {
  w_data : Z;       (* 36 bits *)
  rd : bool;
  rst : bool;
}.

(** An edge of the input clock; [start] is the CSR. *)
Definition i_cd (start : bool) (d : dut) : dut :=
  if start then Dut (trunc 36 (w_data d + 1)) (rd d) (rst d) else d.
(** An edge of the output clock; [empty] is the FIFO's [EMPTY] ([re] in the code). *)
Definition o_cd (rst_csr empty : bool) (d : dut) : dut :=
  let rd' := if rd d && negb empty then false else if negb (rd d) then true else rd d in
  Dut (w_data d) rd' rst_csr.

(** Combinational outputs to the FIFO. *)
Definition we (start : bool) : bool := start.
Definition rden (empty : bool) (d : dut) : bool := negb empty && rd d.

(** ** With the primitive *)

(** The ports of a [FIFO18E1] that the module uses; nothing is assumed of what it does at
    the edges of its two clocks. *)
Class FIFO18E1 := {
  fifo : Type;
  EMPTY : fifo → bool;
  WRCLK : bool → bool → Z → fifo → fifo;     (* RST, WREN, DI with DIP *)
  RDCLK : bool → bool → fifo → fifo;         (* RST, RDEN *)
}.

Section system.
Context {F : FIFO18E1}.

(** The module, the primitive, the words offered to it so far, and for the edges of the
    read clock so far, the last one first, whether the primitive was empty and read. *)
Record system := System { s_dut : dut; s_fifo : fifo; offered : list Z; reads : list (bool * bool) }.

Definition write_edge (start : bool) (s : system) : system :=
  System (i_cd start (s_dut s)) (WRCLK (rst (s_dut s)) (we start) (w_data (s_dut s)) (s_fifo s))
    (if we start then offered s ++ [w_data (s_dut s)] else offered s) (reads s).

Definition read_edge (rst_csr : bool) (s : system) : system :=
  let empty := EMPTY (s_fifo s) in
  System (o_cd rst_csr empty (s_dut s)) (RDCLK (rst (s_dut s)) (rden empty (s_dut s)) (s_fifo s))
    (offered s) ((empty, rden empty (s_dut s)) :: reads s).

Inductive edge := WriteEdge (start : bool) | ReadEdge (rst_csr : bool).
Definition apply_edge (s : system) (e : edge) : system :=
  match e with WriteEdge start => write_edge start s | ReadEdge r => read_edge r s end.
Definition run (s : system) (es : list edge) : system := foldl apply_edge s es.

Definition init (f : fifo) : system := System (Dut 0 false false) f [] [].

(** The words offered are those of the counter; the primitive is never read when it is
    empty, nor at two edges in succession. *)
Definition apart (l : list (bool * bool)) : Prop := ∀ i a b, l !! i = Some a → l !! S i = Some b → a.2 && b.2 = false.

Record protocol (s : system) : Prop := {
  pr_offered : offered s = (fun k : nat => trunc 36 k) <$> seq 0 (length (offered s));
  pr_counter : w_data (s_dut s) = trunc 36 (length (offered s));
  pr_empty : Forall (fun x => x.1 && x.2 = false) (reads s);
  pr_rest : ∀ a, reads s !! 0%nat = Some a → a.2 = true → rd (s_dut s) = false;
  pr_apart : apart (reads s);
}.

Lemma write_protocol start s : protocol s → protocol (write_edge start s).
Proof.
  intros [Ho Hc He Hr Ha]. unfold write_edge, i_cd, we. destruct start; split; cbn; try done.
  - rewrite length_app, Nat.add_1_r, seq_S, fmap_app, <- Ho, Hc. done.
  - rewrite length_app, Hc. unfold trunc. rewrite Zplus_mod_idemp_l. f_equal. cbn. lia.
Qed.

Lemma read_protocol r s : protocol s → protocol (read_edge r s).
Proof.
  intros [Ho Hc He Hr Ha]. split; cbn; [done|done| | |].
  - constructor; [|done]. cbn. unfold rden. by destruct (EMPTY _).
  - intros a [= <-] Hread. cbn in Hread. unfold rden in Hread. apply andb_prop in Hread as [Hne Hrd]. by rewrite Hrd, Hne.
  - intros [|i] a b Hi Hb; cbn in Hi, Hb; [|by eapply Ha]. injection Hi as <-. cbn. unfold rden.
    destruct (b.2) eqn:E; [|by rewrite andb_false_r]. rewrite (Hr b Hb E), andb_false_r. done.
Qed.

(** The FIFO test module keeps the protocol of the primitive, whatever the primitive does,
    for every order of the edges of both clocks and with resets at any time. *)
Lemma dut_protocol f es : protocol (run (init f) es).
Proof.
  unfold run. assert (protocol (init f)) as Hi by (split; cbn; try done; constructor).
  revert Hi. generalize (init f). induction es as [|[start|r] es IH]; intros s Hs; cbn [foldl]; [done|..];
    apply IH; [by apply write_protocol|by apply read_protocol].
Qed.
End system.

(** ** AsyncFIFOWraperDUT *)
Module Wrapper.
Record dut := Dut { w_data : Z; r_cnt : Z }.

(** Edges of both clocks; both counters are cleared when the test is stopped. *)
Definition i_cd (start : bool) (d : dut) : dut := Dut (if start then trunc 36 (w_data d + 1) else 0) (r_cnt d).
Definition o_cd (start : bool) (d : dut) : dut := Dut (w_data d) (if start then trunc 6 (r_cnt d + 1) else 0).

(** Outputs to the FIFO: write enable, reset, data and read enable; the FIFO is read
    whenever it is readable. *)
Definition comb (start rst_csr readable : bool) (d : dut) : bool * bool * Z * bool := (start, rst_csr, w_data d, readable).

Lemma counts (n : nat) d :
  w_data d = 0 → r_cnt d = 0 →
  w_data (Nat.iter n (i_cd true) d) = trunc 36 n ∧ r_cnt (Nat.iter n (o_cd true) d) = trunc 6 n.
Proof.
  intros Hw Hr. induction n as [|n [IHw IHr]]; [done|].
  change (Nat.iter (S n) ?f d) with (f (Nat.iter n f d)). cbn [i_cd o_cd w_data r_cnt]. rewrite IHw, IHr.
  unfold trunc. rewrite !Zplus_mod_idemp_l. split; f_equal; lia.
Qed.
End Wrapper.
