(* ===== verification/Console.v ===== *)
(** * The console of the BIOS

    Models [src/rowhammer_tester/scripts/bios_console.py]: two threads copy bytes
    between a pseudo terminal and the crossover UART of the system, one in each
    direction, and the script chooses a terminal program.  The threads are programs
    of single accesses that interleave in any order with each other, with the user
    and with the system on chip: a step relation on both queues of the UART, both
    directions of the terminal and the bytes each thread holds.  The UART never
    loses a byte here ([rxtx] is written only by this script). *)

From S2P Require Import Prelude.
From S2P Require Import PyString.
#[local] Open Scope Z_scope.

(** ** Bytes *)

(** [bytes(chr(r).encode("utf-8"))] for a register value below 256. *)
Definition utf8 (r : Z) : list Z := if r <? 128 then [r] else [192 + r / 64; 128 + r mod 64].

(** ** The threads *)

(** [pty2crossover]: waiting for a byte, or with one to write; [ord(b'')] of a closed
    terminal raises [TypeError], which ends the thread. *)
Inductive to_uart := ReadPty | WriteUart (b : Z) | ToUartEnded (e : option exn).
(** [crossover2pty]: polling [rxempty], reading [rxtx], writing to the terminal. *)
Inductive to_pty := PollUart | ReadUart | WritePty (b : Z) | ToPtyEnded.

Record console := Console {
  typed : list Z;          (* bytes of the terminal not yet read *)
  hung_up : bool;          (* the terminal is closed *)
  uart_rx : list Z;        (* bytes for the system *)
  uart_tx : list Z;        (* bytes of the system *)
  screen : list Z;         (* bytes written to the terminal *)
  stop : bool;
  up : to_uart;
  down : to_pty;
}.

Definition initial : console := Console [] false [] [] [] false ReadPty PollUart.

(** One access of each thread; [None]: the thread waits. *)
Definition pty2crossover (c : console) : option console :=
  match up c with
  | ReadPty =>
      match typed c with
      | b :: rest => Some (Console rest (hung_up c) (uart_rx c) (uart_tx c) (screen c) (stop c) (WriteUart b) (down c))
      | [] => if hung_up c then Some (Console [] true (uart_rx c) (uart_tx c) (screen c) (stop c) (ToUartEnded (Some TypeError)) (down c))
              else None
      end
  | WriteUart b =>
      Some (Console (typed c) (hung_up c) (uart_rx c ++ [b]) (uart_tx c) (screen c) (stop c)
              (if stop c then ToUartEnded None else ReadPty) (down c))
  | ToUartEnded _ => None
  end.

Definition crossover2pty (c : console) : option console :=
  let next s := if stop c then ToPtyEnded else s in
  match down c with
  | PollUart =>
      Some (Console (typed c) (hung_up c) (uart_rx c) (uart_tx c) (screen c) (stop c) (up c)
              (match uart_tx c with [] => next PollUart | _ => ReadUart end))
  | ReadUart =>
      match uart_tx c with
      | b :: rest => Some (Console (typed c) (hung_up c) (uart_rx c) rest (screen c) (stop c) (up c) (WritePty b))
      | [] => None
      end
  | WritePty b =>
      Some (Console (typed c) (hung_up c) (uart_rx c) (uart_tx c) (screen c ++ utf8 b) (stop c) (up c) (next PollUart))
  | ToPtyEnded => None
  end.

(** ** Interleaving *)
Inductive event :=
  | Typed (b : Z)         (* the user types *)
  | Sent (b : Z)          (* the system writes to its UART *)
  | Took (b : Z)          (* the system reads from its UART *)
  | HungUp
  | StopSet
  | RunUp
  | RunDown.

Inductive step : console → event → console → Prop :=
  | step_typed c b :
      hung_up c = false → step c (Typed b) (Console (typed c ++ [b]) false (uart_rx c) (uart_tx c) (screen c) (stop c) (up c) (down c))
  | step_sent c b :
      0 ≤ b < 256 →
      step c (Sent b) (Console (typed c) (hung_up c) (uart_rx c) (uart_tx c ++ [b]) (screen c) (stop c) (up c) (down c))
  | step_took c b rest :
      uart_rx c = b :: rest →
      step c (Took b) (Console (typed c) (hung_up c) rest (uart_tx c) (screen c) (stop c) (up c) (down c))
  | step_hung_up c :
      step c HungUp (Console (typed c) true (uart_rx c) (uart_tx c) (screen c) (stop c) (up c) (down c))
  | step_stop c :
      step c StopSet (Console (typed c) (hung_up c) (uart_rx c) (uart_tx c) (screen c) true (up c) (down c))
  | step_up c c' : pty2crossover c = Some c' → step c RunUp c'
  | step_down c c' : crossover2pty c = Some c' → step c RunDown c'.

Inductive steps : console → list event → console → Prop :=
  | steps_refl c : steps c [] c
  | steps_snoc c l c' e c'' : steps c l c' → step c' e c'' → steps c (l ++ [e]) c''.

(** Bytes typed, sent and taken in a run. *)
Definition typed_in (l : list event) : list Z := omap (fun e => match e with Typed b => Some b | _ => None end) l.
Definition sent_in (l : list event) : list Z := omap (fun e => match e with Sent b => Some b | _ => None end) l.
Definition taken_in (l : list event) : list Z := omap (fun e => match e with Took b => Some b | _ => None end) l.

Definition held_up (c : console) : list Z := match up c with WriteUart b => [b] | _ => [] end.
Definition held_down (c : console) : list Z := match down c with WritePty b => [b] | _ => [] end.

(** A read of [rxtx] finds a byte: the thread is the only reader. *)
Record carried (l : list event) (c : console) : Prop := {
  ca_up : typed_in l = taken_in l ++ uart_rx c ++ held_up c ++ typed c;
  ca_down : sent_in l ≫= utf8 = screen c ++ (held_down c ≫= utf8) ++ (uart_tx c ≫= utf8);
  ca_ready : down c = ReadUart → uart_tx c ≠ [];
}.

Lemma omap_snoc {A B} (f : A → option B) l x : omap f (l ++ [x]) = omap f l ++ option_list (f x).
Proof. rewrite omap_app. cbn. by destruct (f x). Qed.

Lemma carried_up l c c' : pty2crossover c = Some c' → carried l c → carried (l ++ [RunUp]) c'.
Proof.
  intros E [Hu Hd Hr]. unfold typed_in, sent_in, taken_in, held_up, held_down in *.
  split; unfold typed_in, sent_in, taken_in, held_up, held_down; rewrite ?omap_snoc; cbn [option_list]; rewrite ?app_nil_r;
    revert E; unfold pty2crossover; destruct (up c) as [|b|e].
  - destruct (typed c) as [|b rest] eqn:Et; [destruct (hung_up c); [|done]|]; intros [= <-]; cbn; by rewrite Hu.
  - intros [= <-]. cbn. rewrite Hu. destruct (stop c); by rewrite <- !app_assoc.
  - done.
  - destruct (typed c) as [|b rest] eqn:Et; [destruct (hung_up c); [|done]|]; intros [= <-]; cbn; done.
  - intros [= <-]. done.
  - done.
  - destruct (typed c) as [|b rest] eqn:Et; [destruct (hung_up c); [|done]|]; intros [= <-]; cbn; done.
  - intros [= <-]. done.
  - done.
Qed.

Lemma carried_down l c c' : crossover2pty c = Some c' → carried l c → carried (l ++ [RunDown]) c'.
Proof.
  intros E [Hu Hd Hr]. unfold typed_in, sent_in, taken_in, held_up, held_down in *.
  split; unfold typed_in, sent_in, taken_in, held_up, held_down; rewrite ?omap_snoc; cbn [option_list]; rewrite ?app_nil_r;
    revert E; unfold crossover2pty; destruct (down c) as [| |b|].
  - by intros [= <-].
  - destruct (uart_tx c) as [|b rest]; [done|]. by intros [= <-].
  - by intros [= <-].
  - done.
  - intros [= <-]. cbn [screen down uart_tx]. rewrite Hd. destruct (uart_tx c), (stop c); done.
  - destruct (uart_tx c) as [|b rest]; [done|]. intros [= <-]. cbn [screen down uart_tx]. rewrite Hd. cbn. by rewrite app_nil_r.
  - intros [= <-]. cbn [screen down uart_tx]. rewrite Hd. destruct (stop c); cbn; by rewrite app_nil_r, <- app_assoc.
  - done.
  - intros [= <-]. cbn. by destruct (uart_tx c), (stop c).
  - destruct (uart_tx c) as [|b rest]; [done|]. by intros [= <-].
  - intros [= <-]. cbn. by destruct (stop c).
  - done.
Qed.

(** C35: The console carries bytes in order.  In every interleaving of the two threads
    with the user and the system: what the system has taken from its UART is a prefix
    of what was typed, and the rest is in the UART, in the hand of the thread or still
    in the terminal, in order, nothing lost or doubled; what is on the screen is a
    prefix of what the system sent, each byte in the encoding of the script, and the
    rest is on its way; and the thread never reads the UART when it is empty. *)
Theorem console_in_order l c : steps initial l c → carried l c.
Proof.
  intros H. remember initial as c0 eqn:E0. induction H as [c|c l c' e c'' _ IH Hs]; [by subst|].
  specialize (IH E0). destruct Hs as [c' b Hh|c' b Hb|c' b rest Hq|c'|c'|c' c'' Hup|c' c'' Hdown];
    [..|by eapply carried_up|by eapply carried_down]; destruct IH as [Hu Hd Hr];
    unfold typed_in, sent_in, taken_in, held_up, held_down in *; split;
    unfold typed_in, sent_in, taken_in, held_up, held_down; rewrite ?omap_snoc; cbn; rewrite ?app_nil_r; try done.
  - rewrite Hu. by rewrite <- !app_assoc.
  - rewrite bind_app, Hd, bind_app. cbn. by rewrite app_nil_r, <- !app_assoc.
  - intros _ E. by apply app_eq_nil in E as [_ ?].
  - rewrite Hu, Hq. by rewrite <- !app_assoc.
Qed.

(** ** Delivery *)

(** One access of each thread in turn. *)
Definition round (c : console) : console :=
  let c1 := default c (pty2crossover c) in default c1 (crossover2pty c1).

(** The threads run: nobody closed the terminal or stopped them. *)
Record running (c : console) : Prop := {
  ru_stop : stop c = false;
  ru_hung : hung_up c = false;
  ru_up : ∀ e, up c ≠ ToUartEnded e;
  ru_down : down c ≠ ToPtyEnded;
  ru_ready : down c = ReadUart → uart_tx c ≠ [];
}.

(** Accesses that are left for each direction. *)
Definition work_up (c : console) : nat := 2 * length (typed c) + length (held_up c).
Definition work_down (c : console) : nat :=
  match down c with ReadUart => 3 * length (uart_tx c) - 1 | WritePty _ => 3 * length (uart_tx c) + 1 | _ => 3 * length (uart_tx c) end.

Definition all_up (c : console) : list Z := uart_rx c ++ held_up c ++ typed c.
Definition all_down (c : console) : list Z := screen c ++ (held_down c ≫= utf8) ++ (uart_tx c ≫= utf8).

Lemma up_progress c :
  running c → let c' := default c (pty2crossover c) in
  running c' ∧ work_up c' = pred (work_up c) ∧ all_up c' = all_up c
  ∧ work_down c' = work_down c ∧ all_down c' = all_down c.
Proof.
  intros [Hs Hh Hu Hd Hr]. unfold work_up, all_up, held_up, pty2crossover. destruct (up c) as [|b|e] eqn:Eu.
  - destruct (typed c) as [|b rest] eqn:Et; [rewrite Hh; cbn; rewrite ?Eu, ?Et; split_and!; try done; split; try done; by rewrite Eu|].
    cbn. split_and!; [by split|lia|done|done|done].
  - cbn. rewrite Hs. cbn. split_and!; [by split|lia|by rewrite <- app_assoc|done|done].
  - by destruct (Hu e).
Qed.

Lemma down_progress c :
  running c → let c' := default c (crossover2pty c) in
  running c' ∧ work_down c' = pred (work_down c) ∧ all_down c' = all_down c
  ∧ work_up c' = work_up c ∧ all_up c' = all_up c.
Proof.
  intros [Hs Hh Hu Hd Hr]. unfold work_down, all_down, held_down, crossover2pty. destruct (down c) as [| |b|] eqn:Ed.
  - destruct (uart_tx c) as [|b rest] eqn:Et; cbn; rewrite ?Hs, ?Et; cbn; split_and!; try done; try lia; by split.
  - destruct (uart_tx c) as [|b rest] eqn:Et; [by destruct (Hr eq_refl)|]. cbn.
    split_and!; [by split|lia|by rewrite app_nil_r|done|done].
  - cbn. rewrite Hs. cbn. split_and!; [by split|lia|by rewrite app_nil_r, <- app_assoc|done|done].
  - done.
Qed.

(** C36: Every byte arrives.  When the threads run undisturbed, every byte that is
    typed or sent reaches the other side: after as many accesses of each thread as
    its work (two for a byte typed, three for a byte sent), nothing is left on the
    way. *)
Theorem console_delivers c (n : nat) :
  running c → (work_up c ≤ n)%nat → (work_down c ≤ n)%nat →
  let c' := Nat.iter n round c in
  typed c' = [] ∧ uart_tx c' = [] ∧ uart_rx c' = uart_rx c ++ held_up c ++ typed c
  ∧ screen c' = screen c ++ (held_down c ≫= utf8) ++ (uart_tx c ≫= utf8).
Proof.
  intros Hc Hu Hd. cbv zeta.
  assert (running (Nat.iter n round c) ∧ work_up (Nat.iter n round c) = (work_up c - n)%nat
    ∧ work_down (Nat.iter n round c) = (work_down c - n)%nat
    ∧ all_up (Nat.iter n round c) = all_up c ∧ all_down (Nat.iter n round c) = all_down c) as (Hc' & Hu' & Hd' & Eu & Ed).
  { clear Hu Hd. induction n as [|n (IH & Hu & Hd & Eu & Ed)]; [rewrite !Nat.sub_0_r; done|].
    change (Nat.iter (S n) round c) with (round (Nat.iter n round c)).
    set (d := Nat.iter n round c) in *. unfold round. destruct (up_progress d IH) as (H1 & W1 & A1 & V1 & B1).
    destruct (down_progress _ H1) as (H2 & W2 & A2 & V2 & B2). cbv zeta in *.
    split_and!; [done|rewrite V2, W1, Hu; lia|rewrite W2, V1, Hd; lia|congruence|congruence]. }
  set (c' := Nat.iter n round c) in *. clearbody c'. unfold all_up, all_down, work_up, work_down in *.
  assert (typed c' = []) as Et by (destruct (typed c'); [done|cbn [length] in Hu'; lia]).
  assert (uart_tx c' = [] ∧ held_down c' = []) as [Ex Eh].
  { unfold held_down. destruct Hc' as [_ _ _ _ Hr]. destruct (down c'), (uart_tx c') eqn:E; cbn [length] in Hd'; try lia; try done. }
  assert (held_up c' = []) as Ehu by (destruct (held_up c'); [done|cbn [length] in Hu'; lia]).
  rewrite Et, Ehu in Eu. rewrite Ex, Eh in Ed. cbn in Eu, Ed. rewrite !app_nil_r in *. done.
Qed.

Lemma console_delivers_witness :
  let c := Console [104; 105] false [] [111; 107] [] false ReadPty PollUart in
  uart_rx (Nat.iter 6 round c) = [104; 105] ∧ screen (Nat.iter 6 round c) = [111; 107].
Proof.
  destruct (console_delivers (Console [104; 105] false [] [111; 107] [] false ReadPty PollUart) 6) as (_ & _ & Hrx & Hs).
  - by split.
  - cbn. lia.
  - cbn. lia.
  - split; [exact Hrx|exact Hs].
Defined.

Lemma console_in_order_witness : carried [Sent 65] (Console [] false [] [65] [] false ReadPty PollUart).
Proof.
  apply console_in_order. apply (steps_snoc _ [] initial); [constructor|]. apply (step_sent initial 65). lia.
Defined.

(** A byte above 127 arrives as two bytes: text that is already UTF-8 is encoded
    twice. *)
Example high_bytes_doubled : [195; 169] ≫= utf8 = [195; 131; 194; 169].
Proof. reflexivity. Qed.

(** ** The terminal program *)
Definition term_priority : list string := ["picocom"; "minicom"; "litex_term"]%string.

(** [which] is [shutil.which(t) is not None]. *)
Definition choose_term (which : string → bool) (arg : string) : string :=
  if bool_decide (arg = "auto"%string) then default "litex_term"%string (head (filter (fun t => which t = true) term_priority))
  else arg.

Inductive terminal := LiteXTerm | Picocom (baudrate : Z) | Minicom (baudrate : Z).
Definition start_term (which : string → bool) (arg : string) (baudrate : Z) : result terminal :=
  let term := choose_term which arg in
  if bool_decide (term = "litex_term"%string) then Ok LiteXTerm
  else if bool_decide (term = "picocom"%string) then Ok (Picocom baudrate)
  else if bool_decide (term = "minicom"%string) then Ok (Minicom baudrate)
  else Raise ValueError.

(** Every choice that the arguments allow starts a terminal. *)
Lemma start_term_ok which arg baudrate :
  arg = "auto"%string ∨ arg ∈ term_priority → ∃ t, start_term which arg baudrate = Ok t.
Proof.
  intros Harg. assert (choose_term which arg ∈ term_priority) as Ht.
  { unfold choose_term. case_bool_decide as E; [|destruct Harg; done].
    destruct (head _) as [t|] eqn:Eh; cbn; [|apply (bool_decide_unpack _); by vm_compute].
    assert (t ∈ filter (fun t => which t = true) term_priority) as [_ ?]%list_elem_of_filter; [|done].
    destruct (filter _ _); [done|]. injection Eh as ->. by left. }
  unfold start_term. unfold term_priority in Ht. rewrite !elem_of_cons in Ht.
  destruct Ht as [->|[->|[->|Ht%elem_of_nil]]]; [by eexists..|done].
Qed.
