(* ===== verification/Soc.v ===== *)
(** * Construction of the system on chip (targets/common.py, targets/zcu104.py)

    The parts of the targets that compute: the sizes and address ranges of the
    pattern, payload and scratchpad memories with the checks of the command line's
    sizes, the position of the row bits for the data inversion of the BIST, and on
    the ZCU104 the reference clock of the input delays, the ports of the
    processing system and the base address of its bus.  Command-line sizes appear
    as the numbers [int(s, 0)] gives, frequencies as whole numbers of Hz.  LiteX's
    bus, memories and clock generators are library code: [add_memory] records the
    region it is called with. *)

From stdpp Require Import strings pretty.
From S2P Require Import Prelude Generator Bist HostBist AddressConverter.
#[local] Open Scope Z_scope.

(** ** Memories *)
Record soc_args := SocArgs {
  no_memory_bist : bool;
  pattern_data_size : Z;
  bist_inversion_rowbits : Z;
  no_payload_executor : bool;
  payload_size : Z;
  scratchpad_size : Z;
}.

(** What the construction reads from LiteDRAM: PHY and geometry settings, the
    alignment of the controller's addresses, and the widths of the DMA ports. *)
Record controller := Controller {
  c_phy : phy_settings;
  c_bankbits : Z;
  c_colbits : Z;
  c_address_mapping : string;
  c_address_align : Z;
  c_port_width : Z;
  c_port_address_width : Z;
}.

(** A migen [Memory(width, depth)]. *)
Record Memory := MkMemory { width : Z; depth : Z }.

(** A bus region, [SoCRegion(origin, size, mode)] under a name. *)
Record region := Region { r_name : string; origin : Z; size : Z; mode : string }.

Definition add_memory (mem : Memory) (name : string) (origin : Z) (mode : string) (bus : list region) : list region :=
  bus ++ [Region name origin (width mem / 8 * depth mem) mode].

Definition PatternMemory (data_width mem_depth : Z) : Memory * Memory :=
  (MkMemory data_width mem_depth, MkMemory 32 mem_depth).

(** The section "Bist" of [RowHammerSoC.__init__]: the regions, and the parameters
    of the writer and the reader. *)
Definition add_bist (args : soc_args) (c : controller) (bus : list region) : result (list region * bist_cfg) :=
  let pattern_data_width := dfi_databits (c_phy c) * nphases (c_phy c) in
  pattern_length ← pdiv (pattern_data_size args) (pattern_data_width / 8);
  passert (pattern_data_size args mod (pattern_data_width / 8) =? 0) ;;
  let '(wdata, waddr) := PatternMemory pattern_data_width pattern_length in
  let bus := add_memory wdata "writer_pattern_data" 536870912 "rw" bus in
  let bus := add_memory waddr "writer_pattern_addr" 553648128 "rw" bus in
  let '(rdata, raddr) := PatternMemory pattern_data_width pattern_length in
  let bus := add_memory rdata "reader_pattern_data" 570425344 "rw" bus in
  let bus := add_memory raddr "reader_pattern_addr" 587202560 "rw" bus in
  passert (bool_decide (c_address_mapping c = "ROW_BANK_COL"%string)) ;;
  let row_offset := c_bankbits c + c_colbits c in
  let rowbits := bist_inversion_rowbits args in
  let row_shift := row_offset - c_address_align c in
  RowDataInverter_init rowbits ;;
  passert (pattern_data_width =? c_port_width c) ;;
  Ok (bus, BistCfg pattern_length (c_port_address_width c) pattern_data_width rowbits row_shift).

(** The section "Payload executor". *)
Definition add_payload_executor (args : soc_args) (c : controller) (bus : list region) : result (list region) :=
  let scratchpad_width := dfi_databits (c_phy c) * nphases (c_phy c) in
  passert (payload_size args mod 4 =? 0) ;;
  scratchpad_depth ← pdiv (scratchpad_size args) (scratchpad_width / 8);
  passert (scratchpad_size args mod (scratchpad_width / 8) =? 0) ;;
  let payload_mem := MkMemory 32 (payload_size args / 4) in
  let scratchpad_mem := MkMemory scratchpad_width scratchpad_depth in
  let bus := add_memory payload_mem "payload" 805306368 "rw" bus in
  Ok (add_memory scratchpad_mem "scratchpad" 822083584 "r" bus).

(** Both sections, on the bus that the rest of the construction leaves. *)
Definition add_testers (args : soc_args) (c : controller) (bus : list region)
    : result (list region * option bist_cfg) :=
  b ← (if no_memory_bist args then Ok (bus, None)
       else x ← add_bist args c bus; Ok (x.1, Some x.2));
  if no_payload_executor args then Ok b
  else bus' ← add_payload_executor args c b.1; Ok (bus', b.2).

(** ** ZCU104: reference clock of the input delays *)
Definition IODELAYCTRL_REFCLK_RANGE : Z * Z := (300000000, 800000000).

(** The two loops of [CRG.find_iodelay_clk_freq]; [None] when the fuel is used up. *)
Fixpoint raise_mul (fuel : nat) (f mul : Z) : option Z :=
  if f * mul <? IODELAYCTRL_REFCLK_RANGE.1 then
    match fuel with O => None | S fuel' => raise_mul fuel' f (mul * 2) end
  else Some mul.
Fixpoint lower_mul (fuel : nat) (f mul : Z) : option Z :=
  if (IODELAYCTRL_REFCLK_RANGE.2 <? f * mul) && (1 <=? mul) then
    match fuel with O => None | S fuel' => lower_mul fuel' f (mul / 2) end
  else Some mul.

Definition find_iodelay_clk_freq (fuel : nat) (sys_clk_freq : Z) : option Z :=
  mul ← raise_mul fuel sys_clk_freq 4;
  mul ← lower_mul fuel sys_clk_freq mul;
  Some (sys_clk_freq * mul).

(** The check of [CRG.__init__]. *)
Definition CRG_check (iodelay_clk_freq : Z) : result unit :=
  let '(fmin, fmax) := IODELAYCTRL_REFCLK_RANGE in
  passert ((fmin <=? iodelay_clk_freq) && (iodelay_clk_freq <=? fmax)).

(** ** ZCU104: ports of the processing system *)
Inductive axi_list := fpd_masters | lpd_masters | fpd_slaves | lpd_slaves | acp_slaves.
#[global] Instance axi_list_eq_dec : EqDecision axi_list.
Proof. solve_decision. Defined.

(** The lists of ports, each with its name and widths; the dictionary [params] has
    the keys [axi_params] of every port. *)
Record axi := Axi { ax_name : string; ax_data_width : Z; ax_address_width : Z; ax_id_width : Z }.
Definition ZynqUSPS := axi_list → list axi.
Definition ZynqUSPS_init : ZynqUSPS := fun _ => [].

Definition maxn (attr : axi_list) : nat :=
  match attr with fpd_masters => 2 | lpd_masters => 1 | fpd_slaves => 6 | lpd_slaves => 1 | acp_slaves => 1 end.

(** The [name] of each kind of port, formatted with the number [n]. *)
Definition axi_name (attr : axi_list) (n : nat) : string :=
  match attr with
  | fpd_masters => ("MAXIGP" +:+ pretty n)%string
  | lpd_masters => "MAXIGP2"
  | fpd_slaves => ("SAXIGP" +:+ pretty n)%string
  | lpd_slaves => "SAXIGP6"
  | acp_slaves => "SAXIACP"
  end.

(** The parameters of the instance that a port sets: direction and signal. *)
Definition axi_signals : list (string * string) :=
  [("o_", "ACLK"); ("o_", "AWVALID"); ("i_", "AWREADY"); ("o_", "AWADDR"); ("o_", "AWBURST"); ("o_", "AWLEN");
   ("o_", "AWSIZE"); ("o_", "AWID"); ("o_", "AWLOCK"); ("o_", "AWPROT"); ("o_", "AWCACHE"); ("o_", "AWQOS");
   ("o_", "WVALID"); ("o_", "WLAST"); ("i_", "WREADY"); ("o_", "WDATA"); ("o_", "WSTRB"); ("i_", "BVALID");
   ("o_", "BREADY"); ("i_", "BID"); ("i_", "BRESP"); ("o_", "ARVALID"); ("i_", "ARREADY"); ("o_", "ARADDR");
   ("o_", "ARBURST"); ("o_", "ARLEN"); ("o_", "ARID"); ("o_", "ARLOCK"); ("o_", "ARSIZE"); ("o_", "ARPROT");
   ("o_", "ARCACHE"); ("o_", "ARQOS"); ("i_", "RVALID"); ("o_", "RREADY"); ("i_", "RLAST"); ("i_", "RID"); ("i_",
   "RRESP"); ("i_", "RDATA")]%string.
Definition axi_params (name : string) : list string := (fun '(dir, signal) => (dir +:+ name +:+ signal)%string) <$> axi_signals.

Definition _add_axi (name : string) (data_width address_width id_width : Z) : result axi :=
  passert (data_width <=? 128) ;; passert (address_width <=? 40) ;; passert (id_width <=? 16) ;;
  Ok (Axi name data_width address_width id_width).

Definition _append_axi (attr : axi_list) (data_width address_width id_width : Z) (ps : ZynqUSPS) : result (axi * ZynqUSPS) :=
  let n := length (ps attr) in
  passert (bool_decide (n < maxn attr)%nat) ;;
  ax ← _add_axi (axi_name attr n) data_width address_width id_width;
  Ok (ax, fun a => if decide (a = attr) then ps a ++ [ax] else ps a).

(** ** ZCU104: base address of the bus *)
Definition fpd_master_regions : list (Z * Z) :=
  [(2751463424, 192 * 2 ^ 20); (17179869184, 4 * 2 ^ 30); (68719476736, 224 * 2 ^ 30)].

(** The loop of [SoC.__init__] with its assertion. *)
Definition find_base_address (regions : list (Z * Z)) : result Z :=
  of_option AssertionError (fst <$> List.find (fun r => 2 ^ 30 - 1 <=? r.2) regions).
