(* ===== verification/SocFacts.v ===== *)
(** * Properties of the construction of the system

    The memories of the testers have the requested sizes and do not overlap; the
    row bits given to the BIST are those of the DRAM addresses, so that data are
    inverted in the rows the documentation says; the clock search ends in the
    range of the delay control; ports of the processing system are distinct. *)

From stdpp Require Import strings pretty.
From S2P Require Import Prelude Generator Bist BistFacts HostBist AddressConverter Soc.
#[local] Open Scope Z_scope.

(** ** Memory regions *)
Definition disjoint (r r' : region) : Prop := origin r + size r ≤ origin r' ∨ origin r' + size r' ≤ origin r.

(** The 16 MiB that the construction leaves between two regions. *)
Definition region_space : Z := 16777216.

(** The regions of an accepted configuration. *)
Definition bist_regions (args : soc_args) (w : Z) : list region :=
  let addr := 4 * (pattern_data_size args / (w / 8)) in
  [Region "writer_pattern_data" 536870912 (pattern_data_size args) "rw"; Region "writer_pattern_addr" 553648128 addr "rw";
   Region "reader_pattern_data" 570425344 (pattern_data_size args) "rw"; Region "reader_pattern_addr" 587202560 addr "rw"].
Definition payload_regions (args : soc_args) : list region :=
  [Region "payload" 805306368 (payload_size args) "rw"; Region "scratchpad" 822083584 (scratchpad_size args) "r"].
Definition tester_regions (args : soc_args) (w : Z) : list region :=
  (if no_memory_bist args then [] else bist_regions args w)
  ++ (if no_payload_executor args then [] else payload_regions args).

Lemma pdiv_ok_inv x y q : pdiv x y = Ok q → y ≠ 0 ∧ q = x / y.
Proof. unfold pdiv. destruct (Z.eqb_spec y 0); [done|]. by intros [= <-]. Qed.

Lemma exact_size x y : y ≠ 0 → x mod y = 0 → y * (x / y) = x.
Proof. intros Hy Hm. pose proof (Z.div_mod x y Hy). lia. Qed.

Lemma add_bist_inv args c bus bus' cfg :
  let w := dfi_databits (c_phy c) * nphases (c_phy c) in
  add_bist args c bus = Ok (bus', cfg) →
  bus' = bus ++ bist_regions args w ∧ w = c_port_width c ∧ c_address_mapping c = "ROW_BANK_COL"%string
  ∧ cfg = BistCfg (pattern_data_size args / (w / 8)) (c_port_address_width c) w (bist_inversion_rowbits args)
            (c_bankbits c + c_colbits c - c_address_align c)
  ∧ bist_inversion_rowbits args ≤ 6.
Proof.
  intros w. unfold add_bist. fold w. cbn [PatternMemory]. intros H. inv_result.
  match goal with H : pdiv _ _ = _ |- _ => apply pdiv_ok_inv in H as [Hw ->] end.
  unfold RowDataInverter_init in *. inv_result.
  repeat match goal with
    | H : (_ =? _) = true |- _ => apply Z.eqb_eq in H
    | H : (_ <=? _) = true |- _ => apply Z.leb_le in H
    | H : bool_decide _ = true |- _ => apply bool_decide_eq_true in H
    end.
  split_and!; try done. unfold add_memory, bist_regions. cbn [width depth].
  rewrite exact_size by done. change (32 / 8) with 4. by rewrite <- !app_assoc.
Qed.

Lemma add_payload_inv args c bus bus' :
  add_payload_executor args c bus = Ok bus' → bus' = bus ++ payload_regions args.
Proof.
  unfold add_payload_executor. intros H. inv_result.
  match goal with H : pdiv _ _ = _ |- _ => apply pdiv_ok_inv in H as [Hw ->] end.
  repeat match goal with H : (_ =? _) = true |- _ => apply Z.eqb_eq in H end.
  unfold add_memory, payload_regions. cbn [width depth]. change (32 / 8) with 4.
  rewrite !exact_size by done. by rewrite <- app_assoc.
Qed.

Lemma add_testers_inv args c bus bus' cfg :
  add_testers args c bus = Ok (bus', cfg) →
  bus' = bus ++ tester_regions args (dfi_databits (c_phy c) * nphases (c_phy c))
  ∧ (no_memory_bist args = false → ∃ cfg', cfg = Some cfg' ∧ ∃ bus1, add_bist args c bus = Ok (bus1, cfg')).
Proof.
  unfold add_testers, tester_regions. intros H. apply bind_ok_inv in H as ([bus1 cfg1] & H1 & H2).
  assert (bus1 = bus ++ (if no_memory_bist args then [] else bist_regions args (dfi_databits (c_phy c) * nphases (c_phy c)))
    ∧ (no_memory_bist args = false → ∃ cfg', cfg1 = Some cfg' ∧ ∃ b, add_bist args c bus = Ok (b, cfg'))) as [-> Hb].
  { destruct (no_memory_bist args); [injection H1 as <- <-; by rewrite app_nil_r|].
    apply bind_ok_inv in H1 as ([b x] & Hb & [= <- <-]). cbn [fst snd]. split; [by apply add_bist_inv in Hb as [-> _]|eauto]. }
  destruct (no_payload_executor args); [injection H2 as <- <-; by rewrite app_nil_r|].
  apply bind_ok_inv in H2 as (b & ->%add_payload_inv & [= <- <-]). cbn [fst snd]. split; [by rewrite <- app_assoc|done].
Qed.

Lemma pattern_addr_size s w : 32 ≤ w → 0 ≤ s → 0 ≤ 4 * (s / (w / 8)) ≤ s.
Proof.
  intros Hw Hs. assert (4 ≤ w / 8) by (apply Z.div_le_lower_bound; lia).
  assert (w / 8 * (s / (w / 8)) ≤ s) by (apply Z.mul_div_le; lia).
  assert (0 ≤ s / (w / 8)) by (apply Z.div_pos; lia). nia.
Qed.

(** C34: The memories of the testers.  When the construction accepts the sizes, the bus
    gets a region of exactly the requested size for the pattern data, the payload
    and the scratchpad, and one of four bytes per pattern entry for the pattern
    addresses; and when no memory is larger than 16 MiB, no two of the regions
    overlap. *)
Theorem tester_regions_exact args c bus bus' cfg :
  let w := dfi_databits (c_phy c) * nphases (c_phy c) in
  32 ≤ w →
  Forall (fun s => 0 ≤ s ≤ region_space) [pattern_data_size args; payload_size args; scratchpad_size args] →
  add_testers args c bus = Ok (bus', cfg) →
  bus' = bus ++ tester_regions args w
  ∧ List.ForallOrdPairs disjoint (tester_regions args w).
Proof.
  intros w Hw Hs [-> _]%add_testers_inv. split; [done|].
  rewrite !Forall_cons in Hs. destruct Hs as (Hs1 & Hs2 & Hs3 & _).
  pose proof (pattern_addr_size (pattern_data_size args) w Hw ltac:(lia)) as Ha.
  unfold tester_regions, bist_regions, payload_regions, region_space in *.
  destruct (no_memory_bist args), (no_payload_executor args); cbn [app];
    repeat (first [apply List.FOP_nil | apply List.FOP_cons | apply Forall_nil_2 | apply Forall_cons_2]);
    unfold disjoint; cbn [origin size]; lia.
Qed.

(** The defaults of the command line on a board with a 128-bit DMA port. *)
Definition demo_args : soc_args := SocArgs false 1024 5 false 32768 1024.
Definition demo_controller : controller := Controller (PhySettings 32 4) 3 10 "ROW_BANK_COL" 3 128 24.

Lemma tester_regions_exact_witness :
  ∃ bus' cfg, add_testers demo_args demo_controller [] = Ok (bus', cfg)
  ∧ size <$> bus' = [1024; 256; 1024; 256; 32768; 1024] ∧ List.ForallOrdPairs disjoint bus'.
Proof.
  destruct (add_testers demo_args demo_controller []) as [[bus' cfg]|] eqn:E; [|vm_compute in E; discriminate].
  destruct (tester_regions_exact demo_args demo_controller [] bus' cfg) as [-> Hd].
  - vm_compute. congruence.
  - repeat constructor; vm_compute; congruence.
  - exact E.
  - exists (tester_regions demo_args 128), cfg. split_and!; [reflexivity|vm_compute; reflexivity|exact Hd].
Defined.

(** ** Rows with inverted data *)
Lemma row_bits_of_dma c bank row col a rb :
  geometry_ok c → location_ok c bank row col → 0 ≤ rb → address_align c ≤ bankbits c + colbits c →
  encode_dma c bank row col = Ok a →
  slice a (bankbits c + colbits c - address_align c) rb = row mod 2 ^ rb.
Proof.
  intros Hg Hl Hrb Ha. unfold encode_dma. rewrite encode_flat, ok_bind by done. intros [= <-].
  destruct Hg as (Hc & Hr & Hb & Hal), Hl as (Hbank & Hrow & Hcol).
  unfold slice. rewrite Z.land_ones, Z.shiftr_shiftr by lia.
  replace (address_align c + (bankbits c + colbits c - address_align c)) with (bankbits c + colbits c) by lia.
  f_equal. rewrite Z.shiftr_div_pow2, Z.pow_add_r by lia. unfold flat.
  rewrite (Z.mul_comm (2 ^ bankbits c)), <- Z.div_div by (apply Z.pow_nonzero || apply Z.pow_pos_nonneg; lia).
  rewrite Z.div_add, (Z.div_small col), Z.add_0_l by (lia || apply Z.pow_nonzero; lia).
  rewrite Z.div_add, (Z.div_small bank) by (lia || apply Z.pow_nonzero; lia). lia.
Qed.

(** The inverter gateware with its address and data applied for [n] cycles. *)
Definition inverter_output {M : Migen} (cfg : bist_cfg) (csr : bist_csr) (addr data : Z) (n : nat) (r : inv_regs) : Z :=
  data_out (Nat.iter n (RowDataInverter_cycle cfg csr addr data) r).

(** Three cycles after address and data are stable the output is too, whatever the
    registers held before: the decoder's input, the selection and the data are
    registered one after the other. *)
Lemma inverter_settles {M : Migen} cfg csr addr data n r :
  0 ≤ Bist.rowbits cfg → inverter_output cfg csr addr data (3 + n) r = inverted cfg csr addr data.
Proof.
  intros Hrb. unfold inverter_output. rewrite Nat.iter_add. set (r' := Nat.iter n _ r).
  cbn [Nat.iter nat_rect RowDataInverter_cycle AddressSelector_cycle data_out selected decoder_i]. unfold inverted, row_selected.
  rewrite selected_bit; [done|]. apply Z.land_nonneg. left. by apply slice_bound.
Qed.

(** C8: Inverted rows.  On a system that passed the construction's checks, after
    [setup_inverters] with a divisor [2^k] (at most the number of rows that the
    BIST tells apart) and a mask, the inverters of the writer and of the reader, given
    the DMA address of a DRAM location and a word, have from the third cycle on the
    inverted word at their outputs if bit [row mod 2^k] of the mask is set, and
    otherwise the word itself, whatever the bank and the column: what the
    documentation of the playbook says. *)
Theorem inverted_rows_documented {M : Migen} args c conv bus bus' cfg k mask b b' bank row col a data n r :
  add_testers args c bus = Ok (bus', Some cfg) → no_memory_bist args = false →
  bankbits conv = c_bankbits c → colbits conv = c_colbits c → address_align conv = c_address_align c →
  geometry_ok conv → address_align conv ≤ bankbits conv + colbits conv →
  0 ≤ k ≤ bist_inversion_rowbits args →
  setup_inverters (bist_inversion_rowbits args) (2 ^ k) mask b = Ok b' →
  location_ok conv bank row col → encode_dma conv bank row col = Ok a → (3 ≤ n)%nat →
  let data' := if Z.testbit mask (row mod 2 ^ k) then trunc (data_width cfg) (Z.lnot data) else data in
  inverter_output cfg (csr (writer b')) a data n r = data' ∧ inverter_output cfg (csr (reader b')) a data n r = data'.
Proof.
  intros Ht Hbist Eb Ec Ea Hg Ha Hk Hsetup Hl Henc Hn.
  apply add_testers_inv in Ht as [_ Ht]. destruct (Ht Hbist) as (cfg' & [= <-] & bus1 & Hb).
  apply add_bist_inv in Hb as (_ & _ & _ & -> & _). apply setup_inverters_ok in Hsetup as ->.
  set (rb := bist_inversion_rowbits args) in *.
  assert (Z.land (row mod 2 ^ rb) (trunc rb (2 ^ k - 1)) = row mod 2 ^ k) as Hidx.
  { unfold trunc. rewrite (Z.mod_small (2 ^ k - 1)).
    2: { pose proof (pow2_pos k). pose proof (Z.pow_le_mono_r 2 k rb). lia. }
    rewrite land_mask by lia. replace rb with (k + (rb - k)) by lia.
    rewrite Z.pow_add_r by lia. rewrite Z.rem_mul_r by (pose proof (pow2_pos k); pose proof (pow2_pos (rb - k)); lia).
    rewrite Z.mul_comm, Z_mod_plus_full. by rewrite Z.mod_mod by (pose proof (pow2_pos k); lia). }
  assert (∀ m, row_selected (BistCfg (pattern_data_size args / (dfi_databits (c_phy c) * nphases (c_phy c) / 8)) (c_port_address_width c)
      (dfi_databits (c_phy c) * nphases (c_phy c)) rb (c_bankbits c + c_colbits c - c_address_align c))
      (csr (set_inverter rb (2 ^ k) mask m)) a = Z.testbit mask (row mod 2 ^ k)) as Hsel.
  { intros m. unfold row_selected. cbn [Bist.rowbits row_shift csr set_inverter selection_mask divisor_mask].
    rewrite <- Eb, <- Ec, <- Ea. rewrite (row_bits_of_dma conv bank row col), Hidx by (done || lia).
    unfold trunc. rewrite Z.mod_pow2_bits_low; [done|].
    pose proof (Z.mod_pos_bound row (2 ^ k) ltac:(apply pow2_pos; lia)). pose proof (Z.pow_le_mono_r 2 k rb). lia. }
  intros data'. replace n with (3 + (n - 3))%nat by lia.
  rewrite !inverter_settles by (cbn [Bist.rowbits]; lia). unfold inverted. cbn [writer reader]. by rewrite !Hsel.
Qed.

(** The documentation's example: divisor 8, mask 0b10010010, rows 17 and 18. *)
Lemma inverted_rows_documented_witness :
  let m := Module_ (BistCsr false 0 0 0 0 0 0) (fun _ => 0) (fun _ => 0) in
  let b' := ok_or (Bist_ m m) (setup_inverters 5 8 146 (Bist_ m m)) in
  let cfg := BistCfg 64 24 128 5 10 in
  inverter_output cfg (csr (writer b')) (ok_or 0 (encode_dma demo_conv 5 17 8)) 0 3 (InvRegs 7 true 1) = 2 ^ 128 - 1
  ∧ inverter_output cfg (csr (writer b')) (ok_or 0 (encode_dma demo_conv 2 18 16)) 0 3 (InvRegs 7 true 1) = 0.
Proof.
  intros m b' cfg.
  assert (∀ bank row col a, location_ok demo_conv bank row col → encode_dma demo_conv bank row col = Ok a →
    inverter_output cfg (csr (writer b')) a 0 3 (InvRegs 7 true 1) = if Z.testbit 146 (row mod 2 ^ 3) then trunc 128 (Z.lnot 0) else 0) as H.
  { intros bank row col a Hl Ha.
    destruct (inverted_rows_documented demo_args demo_controller demo_conv [] (tester_regions demo_args 128) cfg 3 146
      (Bist_ m m) b' bank row col a 0 3 (InvRegs 7 true 1)) as [H _]; [reflexivity..| | | |reflexivity|exact Hl|exact Ha|lia|exact H].
    - vm_compute. intuition congruence.
    - vm_compute. congruence.
    - vm_compute. intuition congruence. }
  split.
  - eapply eq_trans; [apply (H 5 17 8); [vm_compute; intuition congruence|reflexivity]|vm_compute; reflexivity].
  - eapply eq_trans; [apply (H 2 18 16); [vm_compute; intuition congruence|reflexivity]|vm_compute; reflexivity].
Defined.

(** ** The reference clock of the delays *)
Lemma raise_mul_spec f (fuel : nat) : ∀ k,
  0 < f → f * 2 ^ k < 2 * IODELAYCTRL_REFCLK_RANGE.1 ∨ k = 2 → 0 ≤ k → IODELAYCTRL_REFCLK_RANGE.1 ≤ f * 2 ^ (k + fuel) →
  ∃ k', k ≤ k' ∧ raise_mul fuel f (2 ^ k) = Some (2 ^ k') ∧ IODELAYCTRL_REFCLK_RANGE.1 ≤ f * 2 ^ k'
        ∧ (k' = 2 ∨ f * 2 ^ k' < 2 * IODELAYCTRL_REFCLK_RANGE.1).
Proof.
  induction fuel as [|fuel IH]; intros k Hf Hk H0 Hb; cbn [raise_mul].
  - destruct (Z.ltb_spec (f * 2 ^ k) IODELAYCTRL_REFCLK_RANGE.1); [replace (k + 0%nat) with k in Hb by lia; lia|].
    exists k. split_and!; [lia|done|done|tauto].
  - destruct (Z.ltb_spec (f * 2 ^ k) IODELAYCTRL_REFCLK_RANGE.1); [|exists k; split_and!; [lia|done|done|tauto]].
    replace (2 ^ k * 2) with (2 ^ (k + 1)) by (rewrite Z.pow_add_r by lia; lia).
    destruct (IH (k + 1)) as (k' & ? & ? & ? & ?); [done| |lia| |].
    + left. rewrite Z.pow_add_r by lia. lia.
    + by replace (k + 1 + fuel) with (k + S fuel) by lia.
    + exists k'. split_and!; [lia|done..].
Qed.

(** The search for the reference clock of the input delays ends.  For a system
    clock of 1 Hz to 800 MHz it gives a multiple by a power of two that lies in
    the range of the delay control, so that the check of the clock generator
    passes; above 800 MHz it gives 0, which the check refuses. *)
Theorem iodelay_in_range f :
  0 < f →
  ∃ freq, find_iodelay_clk_freq 30 f = Some freq
  ∧ if f <=? 800000000 then (∃ k, 0 ≤ k ∧ freq = f * 2 ^ k) ∧ CRG_check freq = Ok tt
    else freq = 0 ∧ CRG_check freq = Raise AssertionError.
Proof.
  intros Hf. unfold find_iodelay_clk_freq.
  destruct (raise_mul_spec f 30 2) as (k & Hk & E & Hlo & Hhi); [done|by right|lia| |].
  { change (2 + 30%nat) with 32. change (IODELAYCTRL_REFCLK_RANGE.1) with 300000000. lia. }
  change 4 with (2 ^ 2) at 1. rewrite E. cbn [mbind option_bind]. unfold CRG_check. cbn [IODELAYCTRL_REFCLK_RANGE fst snd] in *.
  destruct Hhi as [-> | Hhi].
  - change (2 ^ 2) with 4 in *. 
    assert (lower_mul 30 f 4 = Some (if f * 4 <=? 800000000 then 4 else if f * 2 <=? 800000000 then 2
       else if f <=? 800000000 then 1 else 0)) as ->.
    { cbn [lower_mul IODELAYCTRL_REFCLK_RANGE snd]. change (4 / 2) with 2. change (2 / 2) with 1. change (1 / 2) with 0.
      change (1 <=? 0) with false. rewrite !andb_false_r, !andb_true_r.
      repeat case_match; try done; lia. }
    cbn [mbind option_bind]. eexists. split; [done|].
    destruct (Z.leb_spec f 800000000); [destruct (Z.leb_spec (f * 4) 800000000);
      [|destruct (Z.leb_spec (f * 2) 800000000)]|].
    + split; [exists 2; lia|]. unfold passert. case_match; [done|lia].
    + split; [exists 1; lia|]. unfold passert. case_match; [done|lia].
    + split; [exists 0; lia|]. unfold passert. case_match; [done|lia].
    + split; [case_match; [lia|]; case_match; lia|]. unfold passert. repeat case_match; try done; lia.
  - pose proof (pow2_pos k ltac:(lia)) as Hp.
    assert (lower_mul 30 f (2 ^ k) = Some (2 ^ k)) as ->.
    { cbn [lower_mul IODELAYCTRL_REFCLK_RANGE snd]. rewrite (proj2 (Z.ltb_ge _ _)) by lia. done. }
    cbn [mbind option_bind]. eexists. split; [done|]. rewrite (proj2 (Z.leb_le f _)) by nia.
    split; [exists k; lia|]. unfold passert. case_match; [done|lia].
Qed.

Lemma iodelay_in_range_witness :
  find_iodelay_clk_freq 30 125000000 = Some 500000000 ∧ CRG_check 500000000 = Ok tt.
Proof.
  destruct (iodelay_in_range 125000000) as (freq & E & _ & H); [lia|].
  vm_compute in E. injection E as <-. split; [reflexivity|exact H].
Defined.

(** A clock of 0 Hz is searched forever. *)
Lemma iodelay_diverges fuel : find_iodelay_clk_freq fuel 0 = None.
Proof.
  unfold find_iodelay_clk_freq. assert (∀ m, raise_mul fuel 0 m = None) as H; [|by rewrite H].
  induction fuel as [|fuel IH]; intros m; [done|]. cbn. apply IH.
Qed.

(** ** Ports of the processing system *)
Inductive ps_reachable : ZynqUSPS → Prop :=
  | ps_init : ps_reachable ZynqUSPS_init
  | ps_append attr dw aw iw ps ax ps' :
      ps_reachable ps → _append_axi attr dw aw iw ps = Ok (ax, ps') → ps_reachable ps'.

Definition axi_kinds : list axi_list := [fpd_masters; lpd_masters; fpd_slaves; lpd_slaves; acp_slaves].
Definition port_names (ps : ZynqUSPS) : list string := axi_kinds ≫= fun attr => ax_name <$> ps attr.
Definition all_port_names : list string := axi_kinds ≫= fun attr => axi_name attr <$> seq 0 (maxn attr).

Definition ports_ok (ps : ZynqUSPS) : Prop :=
  ∀ attr, (length (ps attr) ≤ maxn attr)%nat ∧ ax_name <$> ps attr = axi_name attr <$> seq 0 (length (ps attr))
    ∧ Forall (fun ax => ax_data_width ax ≤ 128 ∧ ax_address_width ax ≤ 40 ∧ ax_id_width ax ≤ 16) (ps attr).

Lemma _append_axi_inv attr dw aw iw ps ax ps' :
  _append_axi attr dw aw iw ps = Ok (ax, ps') →
  (length (ps attr) < maxn attr)%nat ∧ ax = Axi (axi_name attr (length (ps attr))) dw aw iw
  ∧ dw ≤ 128 ∧ aw ≤ 40 ∧ iw ≤ 16 ∧ ps' = fun a => if decide (a = attr) then ps a ++ [ax] else ps a.
Proof.
  unfold _append_axi, _add_axi. intros H. inv_result.
  repeat match goal with
    | H : (_ <=? _) = true |- _ => apply Z.leb_le in H
    | H : bool_decide _ = true |- _ => apply bool_decide_eq_true in H
    end. done.
Qed.

Lemma ports_ok_reachable ps : ps_reachable ps → ports_ok ps.
Proof.
  induction 1 as [|attr dw aw iw ps ax ps' _ IH H]; [intros attr; cbn; split_and!; [lia|done|constructor]|].
  apply _append_axi_inv in H as (Hn & -> & Hd & Ha & Hi & ->). intros a. destruct (IH a) as (Hl & Hnames & Hw).
  destruct (decide (a = attr)) as [->|]; [|done]. rewrite length_app, fmap_app, Hnames. cbn [length].
  rewrite Nat.add_1_r, seq_S, fmap_app. split_and!; [lia|done|]. apply Forall_app. by repeat constructor.
Qed.

Lemma all_port_names_nodup : NoDup all_port_names.
Proof. apply (bool_decide_unpack _). vm_compute. exact I. Qed.

Lemma all_params_nodup : NoDup (all_port_names ≫= axi_params).
Proof. apply (bool_decide_unpack _). vm_compute. exact I. Qed.

Lemma port_names_all ps : ports_ok ps → port_names ps `sublist_of` all_port_names.
Proof.
  intros Hok. unfold port_names, all_port_names. induction axi_kinds as [|attr l IH]; cbn; [done|].
  apply sublist_app; [|done]. destruct (Hok attr) as (Hl & -> & _). apply fmap_sublist.
  replace (maxn attr) with (length (ps attr) + (maxn attr - length (ps attr)))%nat by lia. rewrite seq_app.
  apply sublist_inserts_r. done.
Qed.

Lemma bind_sublist {A B} (f : A → list B) l k : l `sublist_of` k → l ≫= f `sublist_of` k ≫= f.
Proof.
  induction 1 as [|x l k _ IH|x l k _ IH]; [done| |]; rewrite !bind_cons.
  - by apply sublist_app.
  - by apply sublist_inserts_l.
Qed.

(** Ports of the processing system.  In every state that the [add_axi] methods can
    reach, no two ports have the same name, no parameter of the instance is set by
    two ports (or twice by one), no list has more ports than the hardware, and the
    widths are within its limits. *)
Theorem ps_ports_distinct ps :
  ps_reachable ps → NoDup (port_names ps) ∧ NoDup (port_names ps ≫= axi_params) ∧ ports_ok ps.
Proof.
  intros Hok%ports_ok_reachable. pose proof (port_names_all ps Hok) as Hsub. split_and!; [| |done].
  - by eapply sublist_NoDup; [apply all_port_names_nodup|].
  - eapply sublist_NoDup; [apply all_params_nodup|]. by apply bind_sublist.
Qed.

Lemma ps_ports_distinct_witness :
  ∃ ax ps1, _append_axi fpd_masters 32 40 16 ZynqUSPS_init = Ok (ax, ps1) ∧ NoDup (port_names ps1)
  ∧ port_names ps1 = ["MAXIGP0"%string].
Proof.
  destruct (_append_axi fpd_masters 32 40 16 ZynqUSPS_init) as [[ax ps1]|] eqn:E; [|vm_compute in E; discriminate].
  exists ax, ps1. split; [reflexivity|]. destruct (ps_ports_distinct ps1) as [H _].
  - exact (ps_append _ _ _ _ _ _ _ ps_init E).
  - split; [exact H|]. injection E as <- <-. vm_compute. reflexivity.
Defined.

(** The bus of the FPGA goes to the second region, which is the first that is
    large enough. *)
Example base_address : find_base_address fpd_master_regions = Ok 17179869184.
Proof. reflexivity. Qed.
