(* ===== verification/Build.v ===== *)
(** * Building a target

    Models the construction of the system in [src/rowhammer_tester/targets/common.py]
    around [Soc]: [get_sdram_module], [get_soc_kwargs], [get_builder_kwargs],
    [get_sim_kwargs], [RowHammerSoC.__init__] (the choice of the memory module, the
    check of its type, the peripherals with registers in the order they are added)
    and [run], which generates the files, builds, writes the documentation, loads or
    flashes the board and can reload the BIOS through the bus.  Modules of LiteDRAM
    are a parameter, and so is [int(float(s))] of the clock frequency; building and
    programming are actions that are recorded. *)

From stdpp Require Import gmap.
From S2P Require Import Prelude PyString Config Device HostMem HostScripts Generator Bist HostBist AddressConverter Soc GeneratedFiles Targets SmallScripts.
#[local] Open Scope Z_scope.

(** ** Arguments *)
Record build_args := BuildArgs {
  net : net_args;
  module : string;
  from_spd : option text;
  speedgrade : option string;
  build : bool;
  load : bool;
  load_bios : bool;
  flash : bool;
  docs : bool;
  sim : bool;
  rw_bios_mem : bool;
  no_compile_gateware : bool;
  keep_going_on_dram_error : bool;
  no_sdram_hw_test : bool;
  testers : soc_args;
}.

(** The arguments without options, [ArgumentParser._add_common]; the Linux target
    disables the testers by default. *)
Definition default_args (sys_clk_freq : text) (module : string) : build_args :=
  BuildArgs (NetArgs (chars "192.168.100.50") (chars "0x10e2d5000001") (chars "1234") sys_clk_freq) module None None
    false false false false false false false false false false (SocArgs false 1024 5 false 32768 1024).
Definition linux_default_args : build_args :=
  BuildArgs (NetArgs (chars "192.168.100.50") (chars "0x10e2d5000001") (chars "1234") (chars "200e6")) "M329R8GA0BB0" None None
    false false false false false false false false false false (SocArgs true 1024 5 true 32768 1024).

(** ** Keyword arguments *)
Section kwargs.
Context {M : Type} (upstream local : string → option M) (float_int : text → result Z).

(** The module, and how many warnings are logged. *)
Definition get_sdram_module (name : string) : result (M * nat) :=
  match upstream name, local name with
  | None, None => Raise RuntimeError
  | Some _, Some m => Ok (m, 2%nat)
  | None, Some m => Ok (m, 1%nat)
  | Some m, None => Ok (m, 0%nat)
  end.

Inductive kwarg :=
  | KStr (s : string)
  | KText (s : text)
  | KInt (z : Z)
  | KBool (b : bool)
  | KModule (m : M)
  | KNone
  | KArgs.

Definition KOption {A} (k : A → kwarg) (o : option A) : kwarg := match o with Some a => k a | None => KNone end.

(** [soc_core_argdict(args)] is LiteX's: [litex]. *)
Definition get_soc_kwargs (litex : gmap string kwarg) (args : build_args) : result (gmap string kwarg) :=
  let defaults : gmap string kwarg := list_to_map
    [("cpu_type", KStr "vexriscv"); ("cpu_variant", KStr "lite"); ("no_timer", KBool false); ("no_ctrl", KBool false);
     ("no_uart", KBool false); ("uart_name", KStr "crossover"); ("integrated_rom_size", KInt 131072);
     ("integrated_sram_size", KInt 8192); ("integrated_main_ram_size", KInt 0)]%string in
  m ← match from_spd args with
      | None => x ← get_sdram_module (module args); Ok (Some x.1)
      | Some _ => Ok None
      end;
  freq ← float_int (sys_clk_freq (net args));
  mac ← py_int0 (mac_address (net args));
  port ← py_int0 (udp_port (net args));
  let common : gmap string kwarg := list_to_map
    [("args", KArgs); ("sys_clk_freq", KInt freq); ("sdram_module_cls", KOption KModule m);
     ("sdram_module_speedgrade", KOption KStr (speedgrade args)); ("sdram_module_spd_file", KOption KText (from_spd args));
     ("ip_address", KText (ip_address (net args))); ("mac_address", KInt mac); ("udp_port", KInt port)]%string in
  Ok (common ∪ (defaults ∪ litex)).

(** The arguments of the Linux target on top of them. *)
Definition get_bare_ddr5_tester_kwargs (litex : gmap string kwarg) (args : build_args) (with_ethernet with_etherbone : bool)
    : result (gmap string kwarg) :=
  soc_kwargs ← get_soc_kwargs litex args;
  Ok (list_to_map [("cpu_type", KStr "vexriscv_smp"); ("cpu_variant", KStr "linux"); ("uart_name", KStr "serial");
                   ("with_ethernet", KBool with_ethernet); ("with_etherbone", KBool with_etherbone)]%string ∪ soc_kwargs).

(** The output directory ([builder_output_dir]); software is not compiled for the
    documentation. *)
Definition get_builder_kwargs (litex : gmap string kwarg) (args : build_args) (target_name : text) : gmap string kwarg :=
  let kw := <["output_dir"%string := KText (builder_output_dir target_name)]> litex in
  if docs args then <["compile_software"%string := KBool false]> kw else kw.

(** The simulated clock and the address of the simulated Ethernet interface. *)
Record sim_kwargs := SimKwargs { clocker : string * Z; eth_interface : string; eth_ip : text; trace : bool; trace_fst : bool }.
Definition get_sim_kwargs (args : build_args) : result sim_kwargs :=
  freq ← float_int (sys_clk_freq (net args));
  Ok (SimKwargs ("sys_clk"%string, freq) "litex-sim" (ip_address (net args)) true true).
End kwargs.

(** ** The system *)

(** What a board and its PHY give: the name of its platform, the PHY's memory type,
    sub channels and nibbles (in simulation those of the model's settings), and the
    registers of its bridge. *)
Record backend := Backend {
  platform_name : string;
  phy_memtype : string;
  with_sub_channels : bool;
  nibbles : Z;
  bridge_csrs : list string;
}.

(** A memory module as LiteDRAM makes it. *)
Record sdram := Sdram { memtype : string; sdram_source : option text }.

Record system := System {
  csrs : list string;
  constants : list string;
  rom_mode : string;
  main_ram_size : Z;
  l2_cache_size : Z;
  l2_full_memory_we : bool;
  with_bist : bool;
  remapping : list (string * Z);
  regions : list region;
  bist : option bist_cfg;
}.

Section init.
Context {M : Type} (from_spd_data : text → result sdram) (make_module : M → option string → result sdram).

(** The module is made from the SPD file when there is one. *)
Definition sdram_module (sdram_module_cls : option M) (grade : option string) (spd_file : option text) : result sdram :=
  match spd_file with
  | Some file => from_spd_data file
  | None => cls ← of_option AttributeError sdram_module_cls; make_module cls grade
  end.

(** [kwargs.get(k, default)] for the options of the controller. *)
Record sdram_kwargs := SdramKwargs { max_sdram_size : option Z; l2_size : option Z; masked_write : option bool }.

(** [RowHammerSoC.__init__]; [c] are the settings LiteDRAM derives.  In simulation
    the PHY is a model for the module's memory type. *)
Definition RowHammerSoC_init (args : build_args) (hw : backend) (cls : option M) (kw : sdram_kwargs)
    (c : controller) (bus : list region) : result system :=
  let csrs := ["leds"%string] in
  let constants := if keep_going_on_dram_error args then ["KEEP_GOING_ON_DRAM_ERROR"%string] else [] in
  m ← sdram_module cls (speedgrade args) (from_spd args);
  let ddrphy_memtype := if sim args then memtype m else phy_memtype hw in
  let csrs := csrs ++ ["ddrphy"; "controller_settings"]%string in
  passert (bool_decide (ddrphy_memtype = memtype m)) ;;
  let remap :=
    if bool_decide (ddrphy_memtype = "DDR5"%string) then
      (fun prefix => ((prefix +:+ "DQ_remapping")%string, 8 * nibbles hw * 4))
        <$> (if with_sub_channels hw then ["A_"; "B_"] else [""])%string
    else [] in
  let csrs := csrs ++ ["ddrctrl"%string] in
  let csrs := csrs ++ (if sim args then ["ethphy"%string] else bridge_csrs hw) in
  let csrs := csrs ++ ["rowhammer"%string] in
  x ← add_testers (testers args) c bus;
  let csrs := csrs ++ (if no_memory_bist (testers args) then [] else ["writer"; "reader"]%string) in
  let csrs := csrs ++ (if no_payload_executor (testers args) then [] else ["dfi_switch"; "payload_executor"]%string) in
  Ok (System csrs constants (if rw_bios_mem args then "rw" else "r")
        (default 1073741824 (max_sdram_size kw)) (default 256 (l2_size kw)) (default false (masked_write kw))
        (negb (no_sdram_hw_test args)) remap x.1 x.2).
End init.

(** ** What the boards add

    The boards with an EEPROM on the module add an I2C master after the common part:
    the DDR4 and the DDR5 tester always (in simulation with its input tied), the
    ZCU104 on hardware. *)
Definition add_i2c (s : system) : system :=
  System (csrs s ++ ["i2c"%string]) (constants s) (rom_mode s) (main_ram_size s) (l2_cache_size s) (l2_full_memory_we s)
    (with_bist s) (remapping s) (regions s) (bist s).

(** The ZCU104 needs a minimal size of the ROM. *)
Definition ZCU104_rom_size (integrated_rom_size : Z) : Z := if integrated_rom_size <? 36864 then 36864 else integrated_rom_size.

(** The address as it is logged, ['_'.join(chunks('{:012x}'.format(base), 4))]. *)
Definition address_string (base_address : Z) : result text :=
  parts ← HostMem.chunks (hex_pad 12 base_address) 4;
  Ok (PyString.join "_"%char parts).

(** On hardware the processing system gets a master port on the bus, at the base
    address of the first large enough region. *)
Definition ZCU104_init (args : build_args) (s : system) : result (system * option (Z * text)) :=
  if sim args then Ok (s, None)
  else
    base_address ← find_base_address fpd_master_regions;
    addr_str ← address_string base_address;
    Ok (add_i2c s, Some (base_address, addr_str)).

Example ZCU104_address : address_string 17179869184 = Ok (chars "0004_0000_0000").
Proof. reflexivity. Qed.

(** ** Running a target *)
Definition target_name_to_fancy_string : list (string * string) :=
  [("arty", "Arty-A7"); ("zcu104", "ZCU104"); ("lpddr4_test_board", "LPDDR4 Test Board");
   ("ddr4_datacenter_test_board", "Data Center DRAM Tester"); ("ddr5_tester", "DDR5 Tester");
   ("ddr5_test_board", "DDR5 Test Board")]%string.
Definition fancy_name (t : string) : option string := 
  snd <$> head (filter (fun kv => kv.1 = t) target_name_to_fancy_string).

Inductive action :=
  | GenerateFiles
  | BuildHardware (run : bool)
  | BuildSimulation (run : bool) (kw : sim_kwargs)
  | GenerateDocs (base_dir project_name : string)
  | LoadBitstream (file : string)
  | LoadBios
  | FlashBitstream (file : string).

(** A step of [run]: its actions, or the exception that it ends with. *)
Definition run_steps (float_int : text → result Z) (args : build_args) (target_name build_name : string) : list (result (list action)) :=
  let only (b : bool) (a : result (list action)) := if b then a else Ok [] in
  [Ok [GenerateFiles];
   (if sim args then kw ← get_sim_kwargs float_int args; Ok [BuildSimulation (build args) kw]
    else Ok [BuildHardware (build args && negb (no_compile_gateware args))]);
   only (docs args)
     (name ← of_option KeyError (fancy_name target_name);
      Ok [GenerateDocs ("build/" +:+ target_name +:+ "/documentation") ("Row Hammer Tester " +:+ name)]);
   only (load args) (Ok [LoadBitstream (build_name +:+ ".bit")]);
   only (load_bios args) (passert (rw_bios_mem args) ;; Ok [LoadBios]);
   only (flash args) (Ok [FlashBitstream (build_name +:+ ".bin")])]%string.

(** The actions that are done, and the exception, if any. *)
Fixpoint perform (steps : list (result (list action))) : list action * option exn :=
  match steps with
  | [] => ([], None)
  | Raise e :: _ => ([], Some e)
  | Ok a :: steps' => let '(l, e) := perform steps' in (a ++ l, e)
  end.

Definition run (float_int : text → result Z) (args : build_args) (target_name build_name : string) : list action * option exn :=
  perform (run_steps float_int args target_name build_name).

(** The main program of [ddr5_tester_linux], which does not call [run]. *)
Definition linux_steps (with_ethernet : bool) (local_ip remote_ip : text) (args : build_args) : list (result (list action)) :=
  [(if with_ethernet then configure_ethernet local_ip remote_ip ;; Ok [] else Ok []);
   Ok [GenerateFiles];
   Ok (if build args then [BuildHardware (build args)] else [])].
Definition linux_main (with_ethernet : bool) (local_ip remote_ip : text) (args : build_args) : list action * option exn :=
  perform (linux_steps with_ethernet local_ip remote_ip args).

(** Reloading the BIOS: the CPU is held in reset while its memory is written. *)
Section bios.
Context `{HD : Device} `{HR : !RamOps}.
Definition reload_bios (rom_data : list Z) (rom_base : Z) : host unit :=
  wr "ctrl__reset" 2 ;;
  do_memwrite rom_data rom_base 255 ;;
  (fun d => (Done (ram_read rom_base 1 d), d)) ;;
  wr "ctrl__reset" 0.
End bios.

(** ** Arguments of the system *)
Section kwargs_facts.
Context {M : Type} (upstream local : string → option M) (float_int : text → result Z).
Abbreviation soc_kwargs := (get_soc_kwargs upstream local float_int).

(** When the arguments are accepted, they have an SPD file or a memory module, so
    that the construction of the system has one to use. *)
Lemma soc_kwargs_module litex args kw :
  soc_kwargs litex args = Ok kw →
  (∃ file, from_spd args = Some file ∧ kw !! "sdram_module_spd_file"%string = Some (KText file))
  ∨ ∃ m n, from_spd args = None ∧ get_sdram_module upstream local (module args) = Ok (m, n)
      ∧ kw !! "sdram_module_cls"%string = Some (KModule m).
Proof.
  unfold get_soc_kwargs. intros (m & Hm & (freq & _ & (mac & _ & (port & _ & [= <-])%bind_ok_inv)%bind_ok_inv)%bind_ok_inv)%bind_ok_inv.
  destruct (from_spd args) as [file|].
  - left. exists file. split; [done|]. by apply lookup_union_Some_l.
  - right. apply bind_ok_inv in Hm as ([m' n] & Hm & [= <-]). exists m', n. split_and!; [done|done|].
    by apply lookup_union_Some_l.
Qed.

(** The port of the gateware and the port of the scripts. *)
Lemma soc_kwargs_port litex args kw :
  soc_kwargs litex args = Ok kw → ∃ port, kw !! "udp_port"%string = Some (KInt port) ∧ py_int0 (udp_port (net args)) = Ok port.
Proof.
  unfold get_soc_kwargs. intros (m & _ & (freq & _ & (mac & _ & (port & Hp & [= <-])%bind_ok_inv)%bind_ok_inv)%bind_ok_inv)%bind_ok_inv.
  exists port. split; [|done]. by apply lookup_union_Some_l.
Qed.

(** The scripts' server talks to the port of the gateware.  When a target accepts
    its arguments, the server that the scripts start from the target's files uses
    the address and the very port that the gateware listens on, or it raises
    [ValueError]: the target reads the port with [int(s, 0)], the scripts with
    [int(s)], which refuses a number with a prefix such as [0x]. *)
Theorem server_matches_gateware litex args kw t dir fs :
  soc_kwargs litex args = Ok kw → get_generated_defs dir fs = Ok (target_defs (net args) t) →
  litex_server dir fs = Raise ValueError
  ∨ ∃ server, litex_server dir fs = Ok server
      ∧ kw !! "udp_port"%string = Some (KInt (comm_port server)) ∧ kw !! "ip_address"%string = Some (KText (comm_server server)).
Proof.
  intros Hkw Hdefs. destruct (soc_kwargs_port _ _ _ Hkw) as (port & Hport & Hint).
  assert (kw !! "ip_address"%string = Some (KText (ip_address (net args)))) as Hip.
  { revert Hkw. unfold get_soc_kwargs.
    intros (m & _ & (freq & _ & (mac & _ & (p & _ & [= <-])%bind_ok_inv)%bind_ok_inv)%bind_ok_inv)%bind_ok_inv. by apply lookup_union_Some_l. }
  assert (litex_server dir fs = (port ← py_int 10 (udp_port (net args)); Ok (Server (ip_address (net args)) port "127.0.0.1" 1234))) as E
    by (unfold litex_server; by rewrite Hdefs).
  rewrite E. destruct (py_int0_decimal _ _ Hint) as [-> | ->]; [right|by left]. eexists. split; [done|]. done.
Qed.
End kwargs_facts.

(** A port given in hexadecimal. *)
Lemma hex_port_refused : py_int0 (chars "0x4d2") = Ok 1234 ∧ py_int 10 (chars "0x4d2") = Raise ValueError.
Proof. split; by vm_compute. Qed.

Lemma demo_defs :
  get_generated_defs (chars "/repo/build/arty") (configure_generated_files [] demo_builder demo_args (chars "arty") ∅).2
  = Ok (target_defs demo_args (chars "arty")).
Proof.
  apply read_defs. apply (configured_files [] demo_builder demo_args (chars "arty") ∅
    (JObj [("with_refresh", JNum 1); ("phy", JObj [("nphases", JNum 4); ("cwl", JNull)])]%string)); [|done|done].
  split; [done|]. by vm_compute.
Qed.

Lemma server_matches_gateware_witness :
  ∃ server, litex_server (chars "/repo/build/arty") (configure_generated_files [] demo_builder demo_args (chars "arty") ∅).2 = Ok server
    ∧ comm_port server = 1234.
Proof.
  destruct (server_matches_gateware (fun _ => Some tt) (fun _ => None) (fun _ => Ok 100000000) ∅
    (BuildArgs demo_args "MT41K128M16" None None true false false false false false false false false false
       (SocArgs false 1024 5 false 32768 1024))
    _ (chars "arty") _ _ eq_refl demo_defs) as [E|(server & E & Hp & _)].
  - unfold litex_server in E. rewrite demo_defs in E. discriminate E.
  - exists server. split; [exact E|]. by injection Hp.
Defined.

(** ** Registers of the system *)

Lemma elem_of_perform a steps : a ∈ (perform steps).1 → ∃ l, Ok l ∈ steps ∧ a ∈ l.
Proof.
  induction steps as [|[l|e] steps IH]; cbn; [by intros ?%elem_of_nil| |by intros ?%elem_of_nil].
  destruct (perform steps) as [l' e]. cbn in *. intros [H|H]%elem_of_app; [exists l; split; [by left|done]|].
  destruct (IH H) as (l'' & Hin & Ha). exists l''. split; [by right|done].
Qed.

(** The Linux target accepts the options for simulation, documentation, loading and
    flashing, but only generates the files and builds. *)
Lemma linux_only_builds with_ethernet local_ip remote_ip args a :
  a ∈ (linux_main with_ethernet local_ip remote_ip args).1 → a = GenerateFiles ∨ a = BuildHardware true.
Proof.
  unfold linux_main, linux_steps. intros (l & Hl & Ha)%elem_of_perform. rewrite !elem_of_cons in Hl.
  destruct_or! Hl; [|injection Hl as ->|injection Hl as ->|by apply elem_of_nil in Hl].
  - destruct with_ethernet; [destruct (configure_ethernet _ _); [|done]|]; injection Hl as ->; by apply elem_of_nil in Ha.
  - left. by apply list_elem_of_singleton in Ha.
  - destruct (build args); [right; by apply list_elem_of_singleton in Ha|by apply elem_of_nil in Ha].
Qed.

Section init_facts.
Context {M : Type} (from_spd_data : text → result sdram) (make_module : M → option string → result sdram).
Abbreviation init := (RowHammerSoC_init from_spd_data make_module).

(** What a system that was built is. *)
Lemma init_inv args hw cls kw c bus s :
  init args hw cls kw c bus = Ok s →
  ∃ m x, sdram_module from_spd_data make_module cls (speedgrade args) (from_spd args) = Ok m
    ∧ (sim args = false → phy_memtype hw = memtype m)
    ∧ add_testers (testers args) c bus = Ok x ∧ regions s = x.1 ∧ bist s = x.2
    ∧ rom_mode s = (if rw_bios_mem args then "rw" else "r")%string
    ∧ csrs s = ["leds"; "ddrphy"; "controller_settings"; "ddrctrl"]%string
        ++ (if sim args then ["ethphy"%string] else bridge_csrs hw) ++ ["rowhammer"%string]
        ++ (if no_memory_bist (testers args) then [] else ["writer"; "reader"]%string)
        ++ (if no_payload_executor (testers args) then [] else ["dfi_switch"; "payload_executor"]%string).
Proof.
  unfold RowHammerSoC_init. intros (m & Hm & H)%bind_ok_inv. cbv zeta in H.
  apply bind_ok_inv in H as ([] & Ha & (x & Hx & [= <-])%bind_ok_inv). exists m, x. cbn.
  split_and!; [done| |done|done|done|done|by rewrite <- !app_assoc].
  intros Hs. rewrite Hs in Ha. unfold passert in Ha. by case_bool_decide.
Qed.

(** The BIOS is reloaded after the check that its memory is writable. *)
Lemma load_bios_checked float_int args target build_name :
  LoadBios ∈ (run float_int args target build_name).1 → rw_bios_mem args = true.
Proof.
  intros (l & Hl & Ha)%elem_of_perform. unfold run_steps in Hl. rewrite !elem_of_cons in Hl.
  assert (∀ a : action, a ≠ LoadBios → LoadBios ∉ [a]) as Hone by (intros a Hne; rewrite list_elem_of_singleton; congruence).
  destruct Hl as [Hl|[Hl|[Hl|[Hl|[Hl|[Hl|Hl%elem_of_nil]]]]]]; [..|done].
  - injection Hl as ->. by apply Hone in Ha.
  - destruct (sim args); [destruct (get_sim_kwargs float_int args); [|done]|]; injection Hl as ->; by apply Hone in Ha.
  - destruct (docs args); [destruct (fancy_name target); [|done]|]; injection Hl as ->; [by apply Hone in Ha|by apply elem_of_nil in Ha].
  - destruct (load args); injection Hl as ->; [by apply Hone in Ha|by apply elem_of_nil in Ha].
  - destruct (load_bios args); [by destruct (rw_bios_mem args)|]. injection Hl as ->. by apply elem_of_nil in Ha.
  - destruct (flash args); injection Hl as ->; [by apply Hone in Ha|by apply elem_of_nil in Ha].
Qed.

(** The names of the peripherals are distinct on the boards, whose bridges add registers
    for the Ethernet PHY at most, also with the I2C master that some boards add. *)
Lemma csrs_distinct args hw cls kw c bus s :
  init args hw cls kw c bus = Ok s → bridge_csrs hw ∈ [[]; ["ethphy"%string]] → NoDup (csrs (add_i2c s)).
Proof.
  intros (m & x & _ & _ & _ & _ & _ & _ & Hcsrs)%init_inv Hb. unfold add_i2c. cbn [csrs]. rewrite Hcsrs.
  rewrite !elem_of_cons in Hb. destruct Hb as [->|[->|Hb%elem_of_nil]]; [..|done];
    destruct (sim args), (no_memory_bist _), (no_payload_executor _); apply (bool_decide_unpack _); by vm_compute.
Qed.
End init_facts.

(** ** Reloading the BIOS *)
Section bios_facts.
Context `{HD : Device} `{HR : !Ram}.

(** Accesses to the bus in their order. *)
Inductive access := RegWrite (r : string) (v : Z) | RamWrite (a : Z) (data : list Z).
Context (log : dev → list access).
Context (log_reg : ∀ r v d, log (reg_write r v d) = log d ++ [RegWrite r v]).
Context (log_ram : ∀ a ds d, log (ram_write a ds d) = log d ++ [RamWrite a ds]).
(** The reset of the CPU leaves the memories as they are. *)
Context (reset_ram : ∀ v d a, ram_word (reg_write "ctrl__reset" v d) a = ram_word d a).

Definition inside (base : Z) (n : nat) (e : access) : Prop :=
  match e with RamWrite a data => base ≤ a ∧ a + 4 * length data ≤ base + 4 * n | RegWrite _ _ => False end.

Lemma memwrite_fold_log (data : list Z) (base burst : Z) is_ (d : dev) :
  Forall (fun i => 0 ≤ i < length data) is_ →
  ∃ ws, log (foldl (fun d (i : Z) => wb_write (WishboneOps := ram_wishbone_ops) (base + 4 * i) (HostMem.py_slice i (Z.min (i + burst) (length data)) data) d) d is_)
      = log d ++ ws ∧ Forall (inside base (length data)) ws.
Proof.
  intros His. revert d. induction His as [|i is_ Hi _ IH]; intros d; cbn [foldl]; [exists []; by rewrite app_nil_r|].
  destruct (IH (ram_write (base + 4 * i) (HostMem.py_slice i (Z.min (i + burst) (length data)) data) d)) as (ws & E & Hws).
  eexists (_ :: ws). split; [etrans; [exact E|]; by rewrite log_ram, <- app_assoc|]. constructor; [|done].
  cbn. unfold HostMem.py_slice. rewrite length_take, length_drop. lia.
Qed.

Lemma memwrite_log data base burst d :
  0 < burst →
  ∃ d' ws, do_memwrite data base burst d = (Done tt, d') ∧ log d' = log d ++ ws ∧ Forall (inside base (length data)) ws
    ∧ ram_words base (length data) d' = trunc 32 <$> data.
Proof.
  intros Hb. destruct (triple_memwrite data base burst Hb d I) as ([] & d' & E & Hw).
  assert (∃ ws, log d' = log d ++ ws ∧ Forall (inside base (length data)) ws) as (ws & Hlog & Hin); [|by exists d', ws].
  revert E. unfold do_memwrite, memwrite. rewrite py_range_pos, ok_bind by done. intros [= <-].
  apply memwrite_fold_log. apply Forall_fmap, Forall_forall. intros k Hk%elem_of_seq.
  split; cbn; [lia|]. apply py_range_inside; lia.
Qed.

(** C38: Reloading the BIOS.  The CPU is put into reset, then the words of the BIOS are
    written, all of them inside of its memory, and only then the CPU is released;
    after that the memory holds the BIOS. *)
Theorem bios_reloaded rom_data base d :
  ∃ d' ws, reload_bios rom_data base d = (Done tt, d')
    ∧ log d' = log d ++ [RegWrite "ctrl__reset" 2] ++ ws ++ [RegWrite "ctrl__reset" 0]
    ∧ Forall (inside base (length rom_data)) ws
    ∧ ram_words base (length rom_data) d' = trunc 32 <$> rom_data.
Proof.
  destruct (memwrite_log rom_data base 255 (reg_write "ctrl__reset" 2 d) ltac:(lia)) as (d1 & ws & E & Hlog & Hin & Hw).
  exists (reg_write "ctrl__reset" 0 d1), ws. split_and!; [|by rewrite log_reg, Hlog, log_reg, <- !app_assoc|done|].
  - unfold reload_bios. unfold wr at 1. erewrite bind_done; [|done]. by erewrite bind_done.
  - rewrite <- Hw. unfold ram_words, words. apply list_fmap_ext. intros i a _. cbn. apply reset_ram.
Qed.
End bios_facts.

(** A board with a memory that records the accesses. *)
#[local] Instance demo_bios_device : Device := {|
  dev := list access * (Z → Z);
  reg_read _ d := (0, d);
  reg_write r v d := (d.1 ++ [RegWrite r v], d.2);
  has_reg _ := false;
  elapse d := d;
|}.
#[local] Instance demo_bios_ops : RamOps := {|
  ram_write a ds d := (d.1 ++ [RamWrite a ds], wb_write (WishboneOps := ram_bus_ops) a ds d.2);
  ram_read a n d := (fun i : nat => d.2 (a + 4 * Z.of_nat i)) <$> seq 0 n;
|}.
#[local, refine] Instance demo_bios_ram : Ram := {| ram_ops := demo_bios_ops; ram_word d a := d.2 a |}.
Proof.
  - intros a ds d i v Hi. cbn. by apply (word_written (Wishbone := ram_bus)).
  - intros a ds d b Hb. cbn. by apply (word_other (Wishbone := ram_bus)).
  - done.
Defined.

Lemma bios_reloaded_witness :
  ∃ d' ws, reload_bios (HR := demo_bios_ops) [1; 2; 3] 0 ([], fun _ => 0) = (Done tt, d')
    ∧ d'.1 = [RegWrite "ctrl__reset" 2] ++ ws ++ [RegWrite "ctrl__reset" 0].
Proof.
  destruct (bios_reloaded (HR := demo_bios_ram) fst ltac:(done) ltac:(done) ltac:(done) [1; 2; 3] 0 ([], fun _ => 0))
    as (d' & ws & E & Hlog & _). by exists d', ws.
Defined.

(** An Arty with both testers. *)
Definition demo_build_args : build_args :=
  BuildArgs demo_args "MT41K128M16" None None true false true false false false true false false false
    (SocArgs false 1024 5 false 32768 1024).
Definition demo_arty : backend := Backend "arty" "DDR3" false 0 ["ethphy"%string].
Definition demo_arty_controller : controller :=
  Controller (PhySettings 32 4) 3 10 "ROW_BANK_COL" 3 128 24.

