(* ===== verification/Registers.v ===== *)
(** * The registers of a system and the programs that use them

    The registers that the peripherals of the repository declare: [add_csrs] of the
    BIST modules and the row inverter in [src/rowhammer_tester/gateware/bist.py], of
    [DFISwitch] and [PayloadExecutor] in [payload_executor.py], [RowHammerDMA] in
    [rowhammer.py], and the settings of the controller in
    [src/rowhammer_tester/targets/common.py].  LiteX names a register after its
    peripheral, the submodules on the way and its attribute, without a leading
    underscore.  The registers of LiteX's own peripherals are a parameter.  On the other
    side are the programs of [BistHost], [HwRun], [HwAttack] and [ExecHost] and the attack
    of [src/rowhammer_tester/scripts/rowhammer.py], whose accesses are observed. *)

From stdpp Require Import gmap.
From S2P Require Import Prelude PyString Device Generator AddressConverter Bist HostBist BistBoard BistHost ExecHost RowHammerHost HwAttack HwRun Soc SocFacts Build.
#[local] Open Scope Z_scope.

(** ** Registers *)
Definition under (name : string) (registers : list string) : list string := (fun r => (name +:+ "_" +:+ r)%string) <$> registers.

Definition RowDataInverter_csrs : list string := ["divisor_mask"; "selection_mask"]%string.
Definition BISTModule_csrs : list string :=
  ["start"; "ready"; "modulo"; "count"; "done"; "mem_mask"; "data_mask"; "data_div"]%string.
Definition Writer_csrs : list string := BISTModule_csrs ++ under "inverter" RowDataInverter_csrs ++ ["last_address"%string].
Definition Reader_csrs : list string :=
  BISTModule_csrs ++ under "inverter" RowDataInverter_csrs
  ++ ["error_count"; "skip_fifo"; "error_offset"; "error_data"; "error_expected"; "error_ready"; "error_continue"]%string.
Definition DFISwitch_csrs : list string := ["refresh_count"; "at_refresh"; "refresh_update"]%string.
Definition PayloadExecutor_csrs : list string := ["start"; "status"; "read_count"]%string.
Definition RowHammerDMA_csrs : list string := ["enabled"; "address1"; "address2"; "count"]%string.
Definition ControllerDynamicSettings_csrs : list string := ["refresh"%string].

(** The peripherals of [RowHammerSoC] by name; [litex] has those of the libraries. *)
Definition peripherals : list (string * list string) :=
  [("controller_settings", ControllerDynamicSettings_csrs); ("rowhammer", RowHammerDMA_csrs); ("writer", Writer_csrs);
   ("reader", Reader_csrs); ("dfi_switch", DFISwitch_csrs); ("payload_executor", PayloadExecutor_csrs)]%string.
Definition peripheral_csrs (litex : string → list string) (p : string) : list string :=
  match list_find (fun kv => kv.1 = p) peripherals with Some (_, (_, l)) => l | None => litex p end.

Definition registers (litex : string → list string) (s : system) : list string :=
  csrs s ≫= fun p => under p (peripheral_csrs litex p).

(** ** The attack through the DMA *)
Definition dma_attack `{Device} (fuel : nat) (r : RowHammer) (row_tuple : list Z) (read_count : Z) : host unit :=
  wr "rowhammer_enabled" 0 ;;
  rd "rowhammer_count" ;;
  '(a1, a2) ← lift (RowHammerHost.attack_addresses r row_tuple);
  wr "rowhammer_address1" a1 ;;
  wr "rowhammer_address2" a2 ;;
  wr "rowhammer_enabled" 1 ;;
  loop fuel tt (fun _ => count ← rd "rowhammer_count"; mret (read_count <=? count, tt)) ;;
  wr "rowhammer_enabled" 0 ;;
  rd "rowhammer_count" ;;
  mret tt.

(** ** Accesses *)

(** What a program needs: a register, or a memory of [wb.mems]. *)
Inductive resource := Reg (r : string) | Mem (m : string).

Section accesses.
Context {D : Device} {W : MemWrite} {P : PayloadWrite} (touched : dev → list resource).
(** [touched] records the accesses. *)
Class Recorded : Prop := {
  read_recorded r d : touched (reg_read r d).2 = touched d ++ [Reg r];
  write_recorded r v d : touched (reg_write r v d) = touched d ++ [Reg r];
  elapse_recorded d : touched (elapse d) = touched d;
  mem_recorded m l d : touched (mem_write m l d).2 = touched d ++ [Mem m];
  payload_recorded l d : touched (write_payload l d).2 = touched d ++ [Mem "payload"];
}.
Context {HR : Recorded} (R : resource → Prop).

(** A program that uses only resources in [R], however it ends. *)
Definition confined {A} (m : host A) : Prop := ∀ d, Forall R (touched d) → Forall R (touched (m d).2).

Lemma confined_ret {A} (a : A) : confined (mret a).
Proof using. by intros d. Qed.
Lemma confined_lift {A} (a : result A) : confined (lift a).
Proof using. intros d. unfold lift. by destruct a. Qed.
Lemma confined_rd r : R (Reg r) → confined (rd r).
Proof using HR.
  intros Hr d Hd. unfold rd. pose proof (read_recorded r d) as E. destruct (reg_read r d) as [v d']. cbn in E |- *. rewrite E.
  apply Forall_app; split; [done|by constructor].
Qed.
Lemma confined_wr r v : R (Reg r) → confined (wr r v).
Proof using HR. intros Hr d Hd. unfold wr. cbn. rewrite write_recorded. apply Forall_app; split; [done|by constructor]. Qed.
Lemma confined_sleep : confined sleep.
Proof using HR. intros d Hd. unfold sleep. cbn. by rewrite elapse_recorded. Qed.
Lemma confined_mem m l : R (Mem m) → confined (mem_write m l).
Proof using HR. intros Hm d Hd. rewrite mem_recorded. apply Forall_app; split; [done|by constructor]. Qed.
Lemma confined_payload l : R (Mem "payload") → confined (write_payload l).
Proof using HR. intros Hm d Hd. rewrite payload_recorded. apply Forall_app; split; [done|by constructor]. Qed.
Lemma confined_bind {A B} (m : host A) (f : A → host B) : confined m → (∀ a, confined (f a)) → confined (m ≫= f).
Proof using.
  intros Hm Hf d Hd. specialize (Hm d Hd). unfold mbind, host_bind. destruct (m d) as [[a|e|] d']; [by apply Hf|done..].
Qed.
Lemma confined_if {A} (b : bool) (m n : host A) : confined m → confined n → confined (if b then m else n).
Proof using. by destruct b. Qed.
Lemma confined_pair {A B C} (x : A * B) (f : A → B → host C) : (∀ a b, confined (f a b)) → confined (let '(a, b) := x in f a b).
Proof using. destruct x. auto. Qed.
Lemma confined_loop {B} fuel (body : B → host (bool * B)) : ∀ acc, (∀ acc, confined (body acc)) → confined (loop fuel acc body).
Proof using.
  induction fuel as [|fuel IH]; intros acc Hb; cbn [loop]; [by intros d|]. apply confined_bind; [done|]. intros [stop acc'].
  apply confined_if; [apply confined_ret|by apply IH].
Qed.

(** The resources that the programs name. *)
Definition needs (l : list resource) : Prop := ∀ x, x ∈ l → R x.
Lemma needs_app l k : needs (l ++ k) → needs l ∧ needs k.
Proof using. intros Hl. split; intros x Hx; apply Hl; apply elem_of_app; auto. Qed.

Definition writer_uses : list resource :=
  (Reg <$> under "writer" ["ready"; "mem_mask"; "data_mask"; "count"; "start"; "done"]%string)
  ++ (Mem <$> ["writer_pattern_data"; "writer_pattern_addr"; "reader_pattern_data"; "reader_pattern_addr"]%string).
Definition reader_uses : list resource :=
  (Reg <$> under "reader" ["ready"; "skip_fifo"; "mem_mask"; "data_mask"; "count"; "start"; "done"; "error_ready"; "error_offset";
                           "error_data"; "error_expected"; "error_continue"; "modulo"; "data_div"]%string).
Definition inverter_uses : list resource :=
  Reg <$> (under "writer_inverter" RowDataInverter_csrs ++ under "reader_inverter" RowDataInverter_csrs).
Definition executor_uses : list resource :=
  Mem "payload" :: (Reg <$> ["controller_settings_refresh"; "payload_executor_status"; "payload_executor_start";
                             "dfi_switch_at_refresh"; "dfi_switch_refresh_update"; "dfi_switch_refresh_count"]%string).
Definition dma_uses : list resource := Reg <$> under "rowhammer" ["enabled"; "count"; "address1"; "address2"]%string.

Ltac member := match goal with H : needs _ |- _ => solve [apply H; apply (bool_decide_unpack _); vm_compute; exact I] end.
Ltac confining :=
  repeat first [apply confined_bind; [|intros] | apply confined_if | apply confined_pair; intros | apply confined_ret | apply confined_lift
    | apply confined_sleep | apply confined_loop; intros | apply confined_rd; member | apply confined_wr; member
    | apply confined_mem; member | apply confined_payload; member ].

#[local] Instance resource_eq_dec : EqDecision resource.
Proof using. solve_decision. Defined.

Lemma hw_memset_confined fuel phy offset size patterns :
  needs (writer_uses ++ reader_uses) → confined (BistHost.hw_memset fuel phy offset size patterns).
Proof using HR. intros Hn. unfold BistHost.hw_memset, write_patterns, wait_writer, progress, hassert. confining. Qed.

Lemma hw_memtest_confined fuel phy offset size patterns :
  needs (writer_uses ++ reader_uses) → confined (BistHost.hw_memtest fuel phy offset size patterns).
Proof using HR.
  intros Hn. unfold BistHost.hw_memtest, read_errors, poll_reader, append_errors, flush_errors, write_patterns, progress, hassert. confining.
Qed.

Lemma setup_inverters_confined divisor mask : needs inverter_uses → confined (HwRun.setup_inverters divisor mask).
Proof using HR. intros Hn. unfold HwRun.setup_inverters, hassert. confining. Qed.

Lemma attack_confined fuel r row_tuple read_count :
  needs (writer_uses ++ reader_uses) → confined (HwAttack.attack fuel r row_tuple read_count).
Proof using HR. intros Hn. unfold HwAttack.attack, wait_attack, hassert. confining. Qed.

Lemma execute_payload_confined fuel payload : needs executor_uses → confined (ExecHost.execute_payload fuel payload).
Proof using HR.
  intros Hn. unfold ExecHost.execute_payload, executor_ready, track_refresh, check_refresh_at, hassert. confining.
Qed.

Lemma dma_attack_confined fuel r row_tuple read_count : needs dma_uses → confined (dma_attack fuel r row_tuple read_count).
Proof using HR. intros Hn. unfold dma_attack. confining. Qed.
End accesses.
#[export] Existing Instance resource_eq_dec.

(** ** The resources of a system *)
Definition available (litex : string → list string) (s : system) (x : resource) : Prop :=
  match x with Reg r => r ∈ registers litex s | Mem m => m ∈ r_name <$> regions s end.

Lemma available_peripheral litex s p : p ∈ csrs s → needs (available litex s) (Reg <$> under p (peripheral_csrs litex p)).
Proof. intros Hp x (r & -> & Hr)%list_elem_of_fmap. cbn. apply list_elem_of_bind. by exists p. Qed.

Lemma needs_all R l k : needs R l → needs R k → needs R (l ++ k).
Proof. intros Hl Hk x [?|?]%elem_of_app; auto. Qed.

(** A part of what is there. *)
Lemma needs_part R l k : forallb (fun x => bool_decide (x ∈ l)) k = true → needs R l → needs R k.
Proof.
  intros Hk Hl x Hx. apply Hl. rewrite forallb_forall in Hk. apply (bool_decide_eq_true_1 _), Hk, list_elem_of_In, Hx.
Qed.

Section system.
Context {M : Type} (from_spd_data : text → result sdram) (make_module : M → option string → result sdram).
Context (litex : string → list string).
Abbreviation init := (RowHammerSoC_init from_spd_data make_module).

Lemma system_memories args hw cls kw c bus s :
  init args hw cls kw c bus = Ok s →
  (no_memory_bist (testers args) = false →
     needs (available litex s) (Mem <$> ["writer_pattern_data"; "writer_pattern_addr"; "reader_pattern_data"; "reader_pattern_addr"]%string))
  ∧ (no_payload_executor (testers args) = false → needs (available litex s) [Mem "payload"]).
Proof.
  intros (m & [bus' cfg] & _ & _ & Hx & Hreg & _)%init_inv. apply add_testers_inv in Hx as [-> _]. cbn in Hreg.
  assert (∀ n, n ∈ r_name <$> tester_regions (testers args) (dfi_databits (c_phy c) * nphases (c_phy c)) → available litex s (Mem n)) as Hav.
  { intros n Hn. cbn. rewrite Hreg, fmap_app. apply elem_of_app. by right. }
  unfold tester_regions in Hav. rewrite fmap_app in Hav. split; intros E; rewrite E in Hav.
  - intros x (n & -> & Hn)%list_elem_of_fmap. apply Hav, elem_of_app. by left.
  - intros x ->%list_elem_of_singleton. apply Hav, elem_of_app. right. by left.
Qed.

Lemma system_resources args hw cls kw c bus s :
  init args hw cls kw c bus = Ok s →
  needs (available litex s) dma_uses
  ∧ (no_memory_bist (testers args) = false → needs (available litex s) (writer_uses ++ reader_uses) ∧ needs (available litex s) inverter_uses)
  ∧ (no_payload_executor (testers args) = false → needs (available litex s) executor_uses).
Proof.
  intros Hs. destruct (system_memories _ _ _ _ _ _ _ Hs) as [Hbist Hpay].
  apply init_inv in Hs as (m & x & _ & _ & _ & _ & _ & _ & Hcsrs).
  assert (∀ p, p ∈ csrs s → needs (available litex s) (Reg <$> under p (peripheral_csrs litex p))) as Hp by (intros p; apply available_peripheral).
  rewrite Hcsrs in Hp. split_and!.
  - eapply needs_part, (Hp "rowhammer"%string); [reflexivity|]. rewrite !elem_of_app, !elem_of_cons. auto 8.
  - intros E. rewrite E in Hp. specialize (Hbist E).
    assert (needs (available litex s) (Reg <$> under "writer" Writer_csrs)) as Hw by (apply (Hp "writer"%string); rewrite !elem_of_app, !elem_of_cons; auto 8).
    assert (needs (available litex s) (Reg <$> under "reader" Reader_csrs)) as Hr by (apply (Hp "reader"%string); rewrite !elem_of_app, !elem_of_cons; auto 8).
    split; [eapply needs_part; [|apply needs_all; [exact Hbist|apply needs_all; [exact Hw|exact Hr]]]|eapply needs_part, (needs_all _ _ _ Hw Hr)]; reflexivity.
  - intros E. rewrite E in Hp. specialize (Hpay E).
    assert (needs (available litex s) (Reg <$> under "controller_settings" ControllerDynamicSettings_csrs)) as Hc by (apply (Hp "controller_settings"%string); rewrite !elem_of_app, !elem_of_cons; auto 8).
    assert (needs (available litex s) (Reg <$> under "dfi_switch" DFISwitch_csrs)) as Hd by (apply (Hp "dfi_switch"%string); rewrite !elem_of_app, !elem_of_cons; auto 8).
    assert (needs (available litex s) (Reg <$> under "payload_executor" PayloadExecutor_csrs)) as He by (apply (Hp "payload_executor"%string); rewrite !elem_of_app, !elem_of_cons; auto 8).
    eapply needs_part, (needs_all _ _ _ Hpay (needs_all _ _ _ Hc (needs_all _ _ _ Hd He))). reflexivity.
Qed.

(** C37: The system has the registers and memories that the programs use.  When the
    construction succeeds: the names of the peripherals are distinct on the boards, whose
    bridges add registers for the Ethernet PHY at most, also with the I2C master that some
    boards add; the attack through the DMA accesses, on every board and however it ends,
    only registers of the system; so do, and access only memories of the system, the
    memory test and fill, the setup of the inverters and the attack through the BIST
    unless the BIST was disabled, and the execution of a payload unless the executor was
    disabled; and a run of the target with the same arguments reloads the BIOS only when
    its memory was made writable. *)
Theorem system_serves_scripts {D : Device} {W : MemWrite} {P : PayloadWrite} touched {HR : Recorded touched}
    args hw cls kw c bus s float_int target build_name :
  init args hw cls kw c bus = Ok s →
  bridge_csrs hw ∈ [[]; ["ethphy"%string]] →
  NoDup (csrs (add_i2c s))
  ∧ (∀ fuel r row_tuple read_count, confined touched (available litex s) (dma_attack fuel r row_tuple read_count))
  ∧ (no_memory_bist (testers args) = false → ∀ fuel phy offset size patterns divisor mask r row_tuple read_count,
       confined touched (available litex s) (BistHost.hw_memset fuel phy offset size patterns)
       ∧ confined touched (available litex s) (BistHost.hw_memtest fuel phy offset size patterns)
       ∧ confined touched (available litex s) (HwRun.setup_inverters divisor mask)
       ∧ confined touched (available litex s) (HwAttack.attack fuel r row_tuple read_count))
  ∧ (no_payload_executor (testers args) = false → ∀ fuel payload,
       confined touched (available litex s) (ExecHost.execute_payload fuel payload))
  ∧ (LoadBios ∈ (Build.run float_int args target build_name).1 → rom_mode s = "rw"%string).
Proof.
  intros Hs Hb. destruct (system_resources _ _ _ _ _ _ _ Hs) as (Hdma & Hbist & Hexec). split_and!.
  - by eapply csrs_distinct.
  - intros. by apply dma_attack_confined.
  - intros E. destruct (Hbist E) as [Hn Hi]. intros. split_and!; [by apply hw_memset_confined|by apply hw_memtest_confined|by apply setup_inverters_confined|by apply attack_confined].
  - intros E fuel payload. apply execute_payload_confined; auto.
  - intros Hl. apply load_bios_checked in Hl. apply init_inv in Hs as (m & x & _ & _ & _ & _ & _ & -> & _). by rewrite Hl.
Qed.
End system.

(** ** An Arty whose board records the accesses *)
#[local] Instance recording_device : Device := {|
  dev := list resource;
  reg_read r d := (0, d ++ [Reg r]);
  reg_write r _ d := d ++ [Reg r];
  has_reg _ := true;
  elapse d := d;
|}.
#[local] Instance recording_mem : MemWrite := fun m _ d => (Done tt, d ++ [Mem m]).
#[local] Instance recording_payload : PayloadWrite := fun _ d => (Done tt, d ++ [Mem "payload"]).
#[local] Instance recording : Recorded (D := recording_device) id.
Proof. by split. Qed.

Lemma system_serves_scripts_witness :
  match RowHammerSoC_init (fun _ => Raise ValueError) (fun (_ : unit) _ => Ok (Sdram "DDR3" None)) demo_build_args demo_arty
          (Some tt) (SdramKwargs None None None) demo_arty_controller [] with
  | Ok s => NoDup (csrs (add_i2c s))
      ∧ Forall (available (fun _ => []) s) (ExecHost.execute_payload 3 [] ([] : list resource)).2
  | Raise _ => False
  end.
Proof.
  destruct (RowHammerSoC_init _ _ _ _ _ _ _ _) as [s|] eqn:E; [|by vm_compute in E].
  destruct (system_serves_scripts (fun _ => Raise ValueError) (fun (_ : unit) _ => Ok (Sdram "DDR3" None)) (fun _ => []) (D := recording_device) id demo_build_args demo_arty
    (Some tt) (SdramKwargs None None None) demo_arty_controller [] s (fun _ => Ok 0) "arty" "arty" E) as (Hd & _ & _ & He & _); [right; by left|].
  split; [exact Hd|]. apply (He eq_refl 3%nat [] ([] : list resource)). constructor.
Defined.
