(* ===== verification/SimRunner.v ===== *)
(** * The simulation log (scripts/sim_runner.py)

    The script runs the simulated SoC, reads the DRAM commands from its output and
    counts the activations between refreshes.  A regular expression is the
    function that gives all its matches at the start of a text, the one that
    Python's backtracking matcher prefers first; [search] is [re.search].  Texts
    are ASCII ([\d] and [\s] of other characters are left out).  Reading the
    output of the process and printing the statistics are not modelled. *)

From S2P Require Import Prelude.
From S2P Require Import PyString.
#[local] Open Scope Z_scope.

(** ** Regular expressions with priorities *)
Definition re (A : Type) : Type := text → list (A * text).

Definition re_ret {A} (a : A) : re A := fun l => [(a, l)].
Definition re_bind {A B} (m : re A) (f : A → re B) : re B :=
  fun l => m l ≫= fun r => f r.1 r.2.

(** One character of a class; a literal text. *)
Definition re_char (p : ascii → bool) : re ascii := fun l =>
  match l with
  | c :: l' => if p c then [(c, l')] else []
  | [] => []
  end.
Fixpoint re_lit (w : text) : re unit :=
  match w with
  | [] => re_ret tt
  | c :: w' => re_bind (re_char (fun d => bool_decide (d = c))) (fun _ => re_lit w')
  end.

(** Greedy repetition of a character class: [p*] and [p+]. *)
Fixpoint re_star (p : ascii → bool) (l : text) : list (text * text) :=
  match l with
  | c :: l' => (if p c then (fun r => (c :: r.1, r.2)) <$> re_star p l' else []) ++ [([], l)]
  | [] => [([], [])]
  end.
Definition re_plus (p : ascii → bool) : re text :=
  re_bind (re_char p) (fun c => re_bind (re_star p) (fun w => re_ret (c :: w))).

(** [(r)?] and [r|r']. *)
Definition re_opt {A} (r : re A) : re (option A) :=
  fun l => ((fun x => (Some x.1, x.2)) <$> r l) ++ [(None, l)].
Definition re_alt {A} (r r' : re A) : re A := fun l => r l ++ r' l.

(** [re.search]: the preferred match at the first position that has one. *)
Fixpoint search {A} (r : re A) (l : text) : option A :=
  match r l with
  | (a, _) :: _ => Some a
  | [] => match l with [] => None | _ :: l' => search r l' end
  end.

Notation "x ⟵ m ;; f" := (re_bind m (fun x => f)) (at level 20, m at level 99, f at level 200, right associativity).

(** ** Commands *)
Definition is_digit (c : ascii) : bool := bool_decide (is_Some (digit_value 10 c)).
Definition is_upper (c : ascii) : bool := (65 <=? nat_of_ascii c)%nat && (nat_of_ascii c <=? 90)%nat.
(** [\s] also has the separators 28 to 31. *)
Definition re_space (c : ascii) : bool :=
  is_space c || ((28 <=? nat_of_ascii c)%nat && (nat_of_ascii c <=? 31)%nat).

(** [\s+key=\s*value] *)
Definition field {A} (key : string) (value : re A) : re A :=
  _ ⟵ re_plus re_space;; _ ⟵ re_lit (chars key);; _ ⟵ re_lit (chars "=");; _ ⟵ re_star re_space;; value.

Record groups := Groups {
  g_time : text; g_cmd : text; g_phase : text;
  g_bank : option text; g_row : option text; g_col : option text; g_apre : option text }.

Definition re_all : re text := _ ⟵ re_lit (chars "all");; re_ret (chars "all").
Definition re_bit : re text := c ⟵ re_char (fun c => bool_decide (c = "0"%char) || bool_decide (c = "1"%char));; re_ret [c].

(** [Command.PATTERN] *)
Definition PATTERN : re groups :=
  _ ⟵ re_lit (chars "[");; _ ⟵ re_star re_space;; time ⟵ re_plus is_digit;;
  _ ⟵ re_star re_space;; _ ⟵ re_lit (chars "ps]");;
  _ ⟵ re_plus re_space;; cmd ⟵ re_plus is_upper;;
  phase ⟵ field "phase" (re_plus is_digit);;
  bank ⟵ re_opt (field "bank" (re_alt (re_plus is_digit) re_all));;
  row ⟵ re_opt (field "row" (re_plus is_digit));;
  col ⟵ re_opt (field "col" (re_plus is_digit));;
  apre ⟵ re_opt (field "apre" re_bit);;
  re_ret (Groups time cmd phase bank row col apre).

Inductive bank_ref := Bank (n : Z) | AllBanks.
#[global] Instance bank_ref_eq_dec : EqDecision bank_ref.
Proof. solve_decision. Defined.

Record Command := MkCommand {
  time : Z; name : text; phase : Z; bank : bank_ref;
  row : option Z; column : option Z; auto_precharge : option bool }.

(** [int(match[g]) if match[g] is not None else None] *)
Definition opt_int (g : option text) : result (option Z) :=
  match g with
  | Some w => Some <$> py_int 10 w
  | None => Ok None
  end.

(** [int(match['bank']) if match['bank'] != 'all' else 'all']: [int(None)] raises. *)
Definition parse_bank (g : option text) : result bank_ref :=
  match g with
  | None => Raise TypeError
  | Some w => if bool_decide (w = chars "all") then Ok AllBanks else Bank <$> py_int 10 w
  end.

(** [bool(w)] of a string is whether it is not empty. *)
Definition parse_apre (g : option text) : option bool :=
  (fun w : text => negb (bool_decide (w = []))) <$> g.

(** [Command.parse_line] *)
Definition parse_line (line : text) : result (option Command) :=
  match search PATTERN line with
  | None => Ok None
  | Some g =>
      t ← py_int 10 (g_time g); p ← py_int 10 (g_phase g); b ← parse_bank (g_bank g);
      r ← opt_int (g_row g); c ← opt_int (g_col g);
      Ok (Some (MkCommand t (g_cmd g) p b r c (parse_apre (g_apre g))))
  end.

(** [run]: the commands of the lines of the output. *)
Definition run (lines : list text) : result (list Command) :=
  cmds ← result_map parse_line lines; Ok (omap (M:=list) (fun c : option Command => c) cmds).

(** ** Statistics *)

(** [itertools.groupby]: maximal runs of elements with the same key. *)
Fixpoint groupby {A} (key : A → bool) (l : list A) : list (bool * list A) :=
  match l with
  | [] => []
  | x :: l' =>
      match groupby key l' with
      | (k, g) :: rest => if Bool.eqb (key x) k then (k, x :: g) :: rest else (key x, [x]) :: (k, g) :: rest
      | [] => [(key x, [x])]
      end
  end.

Definition split {A} (is_separator : A → bool) (l : list A) : list (list A) :=
  (filter (fun kg => negb kg.1) (groupby is_separator l)).*2.

Definition named (n : string) (cmd : Command) : bool := bool_decide (name cmd = chars n).

Definition act_counts_between_refs (commands : list Command) : list Z :=
  (fun g => Z.of_nat (length (filter (fun cmd => named "ACT" cmd) g))) <$> split (named "REF") commands.

(** The body of the loop over the commands of a group. *)
Definition toggle_step (st : option Z * Z) (cmd : Command) : result (option Z * Z) :=
  let '(last_row, ntoggles) := st in
  passert (negb (named "WR" cmd || named "REF" cmd));;
  if named "ACT" cmd && negb (bool_decide (row cmd = last_row))
  then Ok (row cmd, ntoggles + 1) else Ok st.

Definition row_toggle_counts_between_refs (commands : list Command) : result (list Z) :=
  result_map (fun g => snd <$> result_fold toggle_step (None, 0) g) (split (named "REF") commands).

(** [l.pop(0)] and [l.pop(-1)]. *)
Definition pop_first {A} (l : list A) : result (list A) :=
  match l with [] => Raise IndexError | _ :: l' => Ok l' end.
Definition pop_last {A} (l : list A) : result (list A) :=
  match l with [] => Raise IndexError | _ => Ok (removelast l) end.

Definition filter_counts (counts : list Z) (min_len : Z) : result (list Z) :=
  l ← pop_first (filter (fun c => min_len < c) counts); pop_last l.

Example parse_act :
  parse_line (chars "  [       12500 ps]  ACT phase= 2 bank= 1 row=  100")
  = Ok (Some (MkCommand 12500 (chars "ACT") 2 (Bank 1) (Some 100) None None)).
Proof. vm_compute. reflexivity. Qed.

(** [apre=0] reads as an auto-precharge, and a command without bank raises. *)
Example parse_apre_0 :
  parse_line (chars "[ 500 ps] RD phase=0 bank=1 col= 8 apre=0")
  = Ok (Some (MkCommand 500 (chars "RD") 0 (Bank 1) None (Some 8) (Some true))).
Proof. vm_compute. reflexivity. Qed.

Example parse_no_bank : parse_line (chars "[ 500 ps] REF phase=0") = Raise TypeError.
Proof. vm_compute. reflexivity. Qed.
