(* ===== verification/SimRunnerFacts.v ===== *)
(** * Properties of the simulation log

    The commands printed in a log are read back whatever surrounds them, and the
    two statistics of activations between refreshes are compared. *)

From S2P Require Import Prelude.
From S2P Require Import PyString.
From S2P Require Import SimRunner.
#[local] Open Scope Z_scope.

(** ** Preferred matches *)
Definition first {A} (m : re A) (l : text) (a : A) (rest : text) : Prop := ∃ tl, m l = (a, rest) :: tl.

Lemma first_ret {A} (a : A) l : first (re_ret a) l a l.
Proof. by exists []. Qed.

Lemma first_bind {A B} (m : re A) (f : A → re B) l a l' b l'' :
  first m l a l' → first (f a) l' b l'' → first (re_bind m f) l b l''.
Proof. intros [t1 E1] [t2 E2]. unfold first, re_bind. rewrite E1. cbn. rewrite E2. cbn. eauto. Qed.

Lemma first_lit w l : first (re_lit w) (w ++ l) tt l.
Proof.
  induction w as [|c w IH]; [apply first_ret|]. cbn [re_lit app]. eapply (first_bind _ _ _ c); [|exact IH].
  exists []. cbn. by rewrite bool_decide_true.
Qed.

(** A text that does not go on with the class [p]. *)
Definition stops (p : ascii → bool) (l : text) : Prop := match l with c :: _ => p c = false | [] => True end.

Lemma first_star (p : ascii → bool) w l : Forall p w → stops p l → first (re_star p) (w ++ l) w l.
Proof.
  induction 1 as [|c w Hc _ IH]; intros Hl; cbn [app].
  - destruct l as [|c l]; [by exists []|]. cbn in Hl. exists []. cbn. by rewrite Hl.
  - destruct (IH Hl) as [tl E]. unfold first. cbn. destruct (p c); [|done]. rewrite E. cbn. eauto.
Qed.

Lemma first_plus (p : ascii → bool) w l : Forall p w → w ≠ [] → stops p l → first (re_plus p) (w ++ l) w l.
Proof.
  intros [|c w' Hc Hw] Hne Hl; [done|]. eapply (first_bind _ _ _ c).
  - exists []. cbn. by destruct (p c).
  - eapply first_bind; [by apply first_star|apply first_ret].
Qed.

Lemma first_opt {A} (r : re A) l a l' : first r l a l' → first (re_opt r) l (Some a) l'.
Proof. intros [tl E]. unfold first, re_opt. rewrite E. cbn. eauto. Qed.

Lemma first_opt_none {A} (r : re A) l : r l = [] → first (re_opt r) l None l.
Proof. intros E. unfold first, re_opt. rewrite E. cbn. eauto. Qed.

Lemma first_alt_l {A} (r r' : re A) l a l' : first r l a l' → first (re_alt r r') l a l'.
Proof. intros [tl E]. unfold first, re_alt. rewrite E. cbn. eauto. Qed.

Lemma first_alt_r {A} (r r' : re A) l a l' : r l = [] → first r' l a l' → first (re_alt r r') l a l'.
Proof. intros E [tl E']. unfold first, re_alt. rewrite E, E'. cbn. eauto. Qed.

(** ** Failing matches *)
Lemma bind_nil {A B} (m : re A) (f : A → re B) l :
  (∀ a l', (a, l') ∈ m l → f a l' = []) → re_bind m f l = [].
Proof.
  unfold re_bind. generalize (m l) as rs. induction rs as [|[a l'] rs IH]; intros Hf; [done|]. cbn.
  rewrite (Hf a l') by set_solver. cbn. apply IH. set_solver.
Qed.

Lemma star_sound (p : ascii → bool) l w l' : (w, l') ∈ re_star p l → l = w ++ l' ∧ Forall p w.
Proof.
  revert w. induction l as [|c l IH]; intros w; cbn.
  - rewrite list_elem_of_singleton. intros [= -> ->]. by split.
  - rewrite elem_of_app, list_elem_of_singleton. intros [Hin|[= -> ->]]; [|by split].
    destruct (p c) eqn:Hc; [|by apply elem_of_nil in Hin].
    apply list_elem_of_fmap in Hin as ([w' l''] & [= -> ->] & [-> Hw]%IH). split; [done|]. constructor; [by rewrite Hc|done].
Qed.

Lemma plus_sound (p : ascii → bool) l w l' : (w, l') ∈ re_plus p l → l = w ++ l' ∧ Forall p w ∧ w ≠ [].
Proof.
  unfold re_plus, re_bind. destruct l as [|c l]; cbn; [intros []%elem_of_nil|].
  destruct (p c) eqn:Hc; cbn; [|intros []%elem_of_nil]. rewrite app_nil_r.
  intros ([w' l''] & Hin & Hs)%list_elem_of_bind. cbn in Hin. apply list_elem_of_singleton in Hin as [= -> ->].
  apply star_sound in Hs as [-> Hw]. split_and!; [done| |done]. constructor; [by rewrite Hc|done].
Qed.

Lemma lit_fails w l : startswith w l = false → re_lit w l = [].
Proof.
  revert l; induction w as [|c w IH]; intros [|d l]; cbn; try done. unfold re_bind. cbn. intros H.
  rewrite (bool_decide_ext (d = c) (c = d)) by naive_solver.
  destruct (bool_decide (c = d)); cbn in *; [|done]. by rewrite IH.
Qed.

(** The text after leading white space. *)
Fixpoint dropspaces (l : text) : text :=
  match l with
  | c :: l' => if re_space c then dropspaces l' else l
  | [] => []
  end.

Lemma dropspaces_app w l : Forall re_space w → dropspaces (w ++ l) = dropspaces l.
Proof. induction 1 as [|c w Hc _ IH]; [done|]. cbn. by destruct (re_space c). Qed.

(** An optional field that comes later, or not at all, is not matched. *)
Lemma field_fails {A} key (v : re A) l :
  stops re_space (chars key) → chars key ≠ [] → startswith (chars key) (dropspaces l) = false → field key v l = [].
Proof.
  intros Hk Hne Hs. apply bind_nil. intros w l' (-> & Hw & _)%plus_sound. rewrite dropspaces_app in Hs by done.
  apply bind_nil. intros u l'' Hin. rewrite lit_fails in Hin; [by apply elem_of_nil in Hin|].
  destruct l' as [|c l']; [by destruct (chars key)|]. cbn in Hs. destruct (re_space c) eqn:Hc; [|done].
  destruct (chars key) as [|k ks]; [done|]. cbn in Hk |- *. rewrite bool_decide_false; [done|congruence].
Qed.

Lemma first_field {A} key (v : re A) sp sp' l a l' :
  Forall re_space sp → sp ≠ [] → stops re_space (chars key) → chars key ≠ [] → Forall re_space sp' → stops re_space l →
  first v l a l' → first (field key v) (sp ++ chars key ++ chars "=" ++ sp' ++ l) a l'.
Proof.
  intros Hsp Hne Hk Hk' Hsp' Hl Hv. eapply first_bind; [apply first_plus; [done..|]|].
  { by destruct (chars key). }
  eapply first_bind; [apply first_lit|]. eapply first_bind; [apply first_lit|].
  eapply first_bind; [by apply first_star|done].
Qed.

(** ** Printed commands *)
Definition spaces (n : nat) : text := replicate n " "%char.

Lemma spaces_space n : Forall re_space (spaces n).
Proof. by apply Forall_replicate. Qed.

Definition decimal (n : Z) : text := chars (pretty n).

(** [key=value] with one space or more before it and any number before the value. *)
Definition print_field (key : string) (gaps : nat * nat) (value : text) : text :=
  spaces (S gaps.1) ++ chars key ++ chars "=" ++ spaces gaps.2 ++ value.
Definition print_opt (key : string) (gaps : nat * nat) (value : option text) : text :=
  default [] (print_field key gaps <$> value).
Definition print_bank (b : bank_ref) : text :=
  match b with Bank n => decimal n | AllBanks => chars "all" end.
Definition print_bit (b : bool) : text := chars (if b then "1" else "0").

(** The spaces before and after the time, before the name, and of each field. *)
Record layout := Layout {
  l_time : nat; l_ps : nat; l_name : nat; l_phase : nat * nat; l_bank : nat * nat;
  l_row : nat * nat; l_col : nat * nat; l_apre : nat * nat }.

(** What follows the name, the phase, the bank, ... in a line. *)
Definition after_col (y : layout) (c : Command) (tail : text) : text :=
  print_opt "apre" (l_apre y) (print_bit <$> auto_precharge c) ++ tail.
Definition after_row y c tail : text := print_opt "col" (l_col y) (decimal <$> column c) ++ after_col y c tail.
Definition after_bank y c tail : text := print_opt "row" (l_row y) (decimal <$> row c) ++ after_row y c tail.
Definition after_phase y c tail : text := print_field "bank" (l_bank y) (print_bank (bank c)) ++ after_bank y c tail.
Definition after_name y c tail : text := print_field "phase" (l_phase y) (decimal (phase c)) ++ after_phase y c tail.
Definition print_command (y : layout) (c : Command) (tail : text) : text :=
  chars "[" ++ spaces (l_time y) ++ decimal (time c) ++ spaces (l_ps y) ++ chars "ps]"
  ++ spaces (S (l_name y)) ++ name c ++ after_name y c tail.

Definition command_ok (c : Command) : Prop :=
  0 ≤ time c ∧ name c ≠ [] ∧ Forall is_upper (name c) ∧ 0 ≤ phase c
  ∧ match bank c with Bank n => 0 ≤ n | AllBanks => True end
  ∧ match row c with Some n => 0 ≤ n | None => True end
  ∧ match column c with Some n => 0 ≤ n | None => True end.

(** *** Classes of characters *)
Lemma digit_not_space c : is_digit c → re_space c = false.
Proof. by destruct c as [[] [] [] [] [] [] [] []]; vm_compute. Qed.
Lemma upper_not_space c : is_upper c → re_space c = false.
Proof. by destruct c as [[] [] [] [] [] [] [] []]; vm_compute. Qed.

Lemma digits_value_decimal l : ∀ acc v, digits_value 10 acc l = Some v → Forall is_digit l.
Proof.
  induction l as [|c l IH]; intros acc v; cbn; [done|].
  destruct (digit_value 10 c) as [d|] eqn:E; cbn; [|done]. intros H%IH. constructor; [|done].
  unfold is_digit. rewrite E. by apply Is_true_true, bool_decide_eq_true.
Qed.

Lemma decimal_digits n : 0 ≤ n → Forall is_digit (decimal n) ∧ decimal n ≠ [].
Proof.
  intros Hn. destruct n as [|p|p]; [|  |lia].
  - split; [by repeat constructor|done].
  - destruct (pretty_N_go_chars (Npos p) "") as (l & E & _ & _ & Hne & Hv).
    assert (decimal (Z.pos p) = l) as ->.
    { unfold decimal. change (pretty (Z.pos p)) with (pretty_N_go (Npos p) ""). rewrite E. apply app_nil_r. }
    split; [by eapply digits_value_decimal|by apply Hne].
Qed.

Lemma stops_app (p : ascii → bool) w l : w ≠ [] → Forall (fun c => p c = false) w → stops p (w ++ l).
Proof. by destruct 2. Qed.

Lemma stops_decimal n l : 0 ≤ n → stops re_space (decimal n ++ l).
Proof.
  intros [Hd Hne]%decimal_digits. apply stops_app; [done|]. eapply Forall_impl; [done|]. apply digit_not_space.
Qed.

Lemma stops_spaces p n l : p " "%char = false → stops p l → stops p (spaces n ++ l).
Proof. by destruct n. Qed.

(** What can follow a value: white space, or the end. *)
Definition ended (l : text) : Prop := match l with c :: _ => re_space c | [] => True end.

Lemma ended_opt key g v l : ended l → ended (print_opt key g v ++ l).
Proof. by destruct v. Qed.

Lemma ended_stops (p : ascii → bool) l : (∀ c, p c → re_space c = false) → ended l → stops p l.
Proof.
  intros Hp. destruct l as [|c l]; [done|]. cbn. intros Hc. destruct (p c) eqn:E; [|done].
  rewrite Hp in Hc by (by rewrite E). done.
Qed.

Lemma dropspaces_opt key g v l :
  stops re_space (chars key) → chars key ≠ [] →
  dropspaces (print_opt key g v ++ l)
  = match v with Some w => chars key ++ chars "=" ++ spaces g.2 ++ w ++ l | None => dropspaces l end.
Proof.
  intros Hk Hne. destruct v as [v|]; [|done]. change (print_opt key g (Some v)) with (print_field key g v). unfold print_field.
  rewrite <- !app_assoc, dropspaces_app by apply spaces_space.
  destruct (chars key) as [|k ks]; [done|]. cbn in Hk |- *. by rewrite Hk.
Qed.

(** *** Matching the fields *)
Definition key_ok (key : string) : Prop := stops re_space (chars key) ∧ chars key ≠ [].

Lemma first_print_field {A} key g (r : re A) w a l :
  key_ok key → stops re_space (w ++ l) → first r (w ++ l) a l →
  first (field key r) (print_field key g w ++ l) a l.
Proof.
  intros [Hk Hne] Hw Hr. unfold print_field. rewrite <- !app_assoc.
  apply first_field; try done; apply spaces_space.
Qed.

Lemma first_print_opt {A} key g (r : re A) v a l :
  key_ok key → startswith (chars key) (dropspaces l) = false →
  (∀ w, v = Some w → ∃ x, a = Some x ∧ stops re_space (w ++ l) ∧ first r (w ++ l) x l) →
  (v = None → a = None) →
  first (re_opt (field key r)) (print_opt key g v ++ l) a l.
Proof.
  intros Hk Hl Hsome Hnone. destruct v as [w|].
  - destruct (Hsome w eq_refl) as (x & -> & Hw & Hr). by apply first_opt, first_print_field.
  - rewrite Hnone by done. apply first_opt_none. by apply field_fails; [apply Hk..|].
Qed.

Lemma first_decimal n l : 0 ≤ n → ended l → first (re_plus is_digit) (decimal n ++ l) (decimal n) l.
Proof. intros [Hd Hne]%decimal_digits Hl. apply first_plus; [done..|]. apply ended_stops; [apply digit_not_space|done]. Qed.

Lemma first_opt_number key g v l :
  key_ok key → match v with Some n => 0 ≤ n | None => True end → ended l → startswith (chars key) (dropspaces l) = false →
  first (re_opt (field key (re_plus is_digit))) (print_opt key g (decimal <$> v) ++ l) (decimal <$> v) l.
Proof.
  intros Hk Hv Hl Hs. apply first_print_opt; [done..| |by intros ->].
  destruct v as [n|]; [|done]. intros w [= <-]. eexists. split; [done|]. split; [by apply stops_decimal|by apply first_decimal].
Qed.

Lemma first_bank b l :
  match b with Bank n => 0 ≤ n | AllBanks => True end → ended l →
  stops re_space (print_bank b ++ l)
  ∧ first (re_alt (re_plus is_digit) re_all) (print_bank b ++ l) (print_bank b) l.
Proof.
  destruct b as [n|]; intros Hb Hl; cbn [print_bank].
  - split; [by apply stops_decimal|]. by apply first_alt_l, first_decimal.
  - split; [done|]. apply first_alt_r; [done|]. eapply first_bind; [apply first_lit|apply first_ret].
Qed.

Lemma first_bit b l : first re_bit (print_bit b ++ l) (print_bit b) l.
Proof. destruct b; by eexists. Qed.

Section line.
Context (y : layout) (c : Command) (tail : text) (Hc : command_ok c) (Htail : Forall re_space tail).

Lemma dropspaces_tail : dropspaces tail = [].
Proof. rewrite <- (app_nil_r tail). by rewrite dropspaces_app. Qed.

Lemma ended_tail : ended tail.
Proof. by destruct Htail. Qed.

Lemma first_PATTERN :
  first PATTERN (print_command y c tail)
    (Groups (decimal (time c)) (name c) (decimal (phase c)) (Some (print_bank (bank c)))
      (decimal <$> row c) (decimal <$> column c) (print_bit <$> auto_precharge c)) tail.
Proof.
  destruct Hc as (Ht & Hne & Hup & Hp & Hb & Hr & Hcol). pose proof ended_tail as He.
  assert (ended (after_col y c tail)) by by apply ended_opt.
  assert (ended (after_row y c tail)) by by apply ended_opt.
  assert (ended (after_bank y c tail)) by by apply ended_opt.
  unfold PATTERN, print_command.
  eapply first_bind; [apply first_lit|].
  eapply first_bind; [apply first_star; [apply spaces_space|by apply stops_decimal]|].
  eapply first_bind; [apply first_plus; [by apply decimal_digits..|by apply stops_spaces]|].
  eapply first_bind; [apply first_star; [apply spaces_space|done]|].
  eapply first_bind; [apply first_lit|].
  eapply first_bind; [apply first_plus; [apply spaces_space|done|]|].
  { apply stops_app; [done|]. eapply Forall_impl; [done|]. apply upper_not_space. }
  eapply first_bind; [by apply first_plus|].
  eapply first_bind; [apply first_print_field; [done|by apply stops_decimal|by apply first_decimal]|].
  destruct (first_bank (bank c) (after_bank y c tail)) as [Hb1 Hb2]; [done..|].
  eapply first_bind; [by apply first_opt, first_print_field|].
  eapply first_bind; [apply first_opt_number; try done|].
  { unfold after_row. rewrite dropspaces_opt by done. destruct (column c); [reflexivity|]. cbn [fmap option_fmap option_map].
    unfold after_col. rewrite dropspaces_opt by done. destruct (auto_precharge c); [reflexivity|].
    cbn [fmap option_fmap option_map]. by rewrite dropspaces_tail. }
  eapply first_bind; [apply first_opt_number; try done|].
  { unfold after_col. rewrite dropspaces_opt by done. destruct (auto_precharge c); [reflexivity|].
    cbn [fmap option_fmap option_map]. by rewrite dropspaces_tail. }
  eapply first_bind; [apply first_print_opt; [done|by rewrite dropspaces_tail| |intros E; exact E]|apply first_ret].
  intros w (b & -> & ->)%fmap_Some. eexists. split; [done|]. split; [by destruct b|apply first_bit].
Qed.
End line.

Lemma PATTERN_head c l : c ≠ "["%char → PATTERN (c :: l) = [].
Proof. intros Hc. unfold PATTERN, re_bind. cbn. by rewrite bool_decide_false. Qed.

Lemma search_none l : "["%char ∉ l → search PATTERN l = None.
Proof.
  induction l as [|c l IH]; [done|]. rewrite not_elem_of_cons. intros [Hc Hl]. cbn [search].
  rewrite PATTERN_head by done. by apply IH.
Qed.

Lemma search_first pre l a rest : "["%char ∉ pre → first PATTERN l a rest → search PATTERN (pre ++ l) = Some a.
Proof.
  intros Hpre [tl E]. induction pre as [|c pre IH]; cbn [app].
  - destruct l; cbn [search]; by rewrite E.
  - apply not_elem_of_cons in Hpre as [Hc Hpre]. cbn [search]. rewrite PATTERN_head by done. by apply IH.
Qed.

(** The command as it is read: [apre] counts as set whatever its value. *)
Definition seen (c : Command) : Command :=
  MkCommand (time c) (name c) (phase c) (bank c) (row c) (column c) ((fun _ => true) <$> auto_precharge c).

Lemma decimal_not_all n : 0 ≤ n → decimal n ≠ chars "all".
Proof. intros [Hd _]%decimal_digits E. rewrite E in Hd. by apply Forall_cons in Hd as [Hd _]. Qed.

Lemma py_int_decimal n : 0 ≤ n → py_int 10 (decimal n) = Ok n.
Proof. apply py_int_pretty. Qed.

Lemma opt_int_decimal v : match v with Some n => 0 ≤ n | None => True end → opt_int (decimal <$> v) = Ok v.
Proof. destruct v as [n|]; [|done]. intros Hn. cbn. by rewrite py_int_decimal. Qed.

Lemma parse_command pre y c tail :
  "["%char ∉ pre → command_ok c → Forall re_space tail → parse_line (pre ++ print_command y c tail) = Ok (Some (seen c)).
Proof.
  intros Hpre Hc Ht. unfold parse_line. erewrite search_first by eauto using first_PATTERN.
  destruct Hc as (Htime & _ & _ & Hp & Hb & Hr & Hcol). cbn [g_time g_cmd g_phase g_bank g_row g_col g_apre].
  rewrite !py_int_decimal, !ok_bind by done.
  assert (parse_bank (Some (print_bank (bank c))) = Ok (bank c)) as ->.
  { destruct (bank c) as [n|]; cbn; [|done]. rewrite bool_decide_false by by apply decimal_not_all.
    by rewrite py_int_decimal. }
  rewrite ok_bind, !opt_int_decimal, !ok_bind by done. unfold seen. do 3 f_equal.
  by destruct (auto_precharge c) as [[]|].
Qed.

(** ** Logs: other output and command lines *)
Inductive log_line :=
  | Other (l : text)
  | Logged (pre : text) (y : layout) (c : Command) (tail : text).

Definition line_text (x : log_line) : text :=
  match x with Other l => l | Logged pre y c tail => pre ++ print_command y c tail end.
Definition line_ok (x : log_line) : Prop :=
  match x with
  | Other l => ("["%char ∉ l)
  | Logged pre _ c tail => ("["%char ∉ pre) ∧ command_ok c ∧ Forall re_space tail
  end.
Definition line_command (x : log_line) : option Command :=
  match x with Other _ => None | Logged _ _ c _ => Some (seen c) end.

Lemma parse_log_line x : line_ok x → parse_line (line_text x) = Ok (line_command x).
Proof.
  destruct x as [l|pre y c tail]; cbn; [intros H|].
  - unfold parse_line. by rewrite search_none.
  - intros (? & ? & ?). by apply parse_command.
Qed.

(** Reading a log.  From a log that mixes other output with DRAM commands, in
    any spacing and after any prefix, [run] gives exactly the commands, in order,
    with their time, name, phase, bank, row and column; an auto-precharge bit
    that is printed is read as set. *)
Theorem log_commands_read lines :
  Forall line_ok lines → run (line_text <$> lines) = Ok (omap line_command lines).
Proof.
  intros Hl. unfold run.
  assert (result_map parse_line (line_text <$> lines) = Ok (line_command <$> lines)) as ->.
  { induction Hl as [|x l Hx _ IH]; [done|]. cbn [fmap list_fmap result_map]. by rewrite parse_log_line, IH. }
  rewrite ok_bind. f_equal. clear Hl. induction lines as [|x l IH]; [done|]. cbn. by rewrite IH.
Qed.

Lemma log_commands_read_witness :
  let c := MkCommand 12500 (chars "PRE") 2 AllBanks None None (Some false) in
  let y := (Layout 3 1 1 (0, 1) (0, 0) (0, 0) (0, 0) (0, 0))%nat in
  run [chars "init done"; chars "sim: [   12500 ps]  PRE phase= 2 bank=all apre=0"]
  = Ok [MkCommand 12500 (chars "PRE") 2 AllBanks None None (Some true)].
Proof.
  intros c y. apply (log_commands_read [Other (chars "init done"); Logged (chars "sim: ") y c []]).
  repeat constructor; vm_compute; try done; try (by intros H; repeat (apply elem_of_cons in H as [H|H]; [done|]); apply elem_of_nil in H).
Defined.

(** ** Groups between separators *)
Section groups.
Context {A : Type} (sep : A → bool).

Lemma groupby_spec l :
  Forall (fun kg => kg.2 ≠ [] ∧ Forall (fun x => sep x = kg.1) kg.2) (groupby sep l)
  ∧ mjoin (groupby sep l).*2 = l.
Proof.
  induction l as [|x l [Hg Hl]]; [by split|]. cbn. destruct (groupby sep l) as [|[k g] rest]; cbn in *.
  - subst l. split; [|done]. repeat constructor; done.
  - apply Forall_cons in Hg as [[Hne Hk] Hrest]. cbn in Hne, Hk. destruct (Bool.eqb (sep x) k) eqn:E; cbn.
    + apply eqb_prop in E. split; [|by f_equal]. constructor; [|done]. by split; [|constructor].
    + split; [|by f_equal]. constructor; [|by constructor]. cbn. split; [done|by repeat constructor].
Qed.

Lemma split_groups l : Forall (fun g => g ≠ [] ∧ Forall (fun x => sep x = false) g) (split sep l).
Proof.
  apply Forall_fmap, Forall_forall. intros [k g] [Hk Hin]%list_elem_of_filter. cbn in *.
  pose proof (proj1 (groupby_spec l)) as Hg. rewrite Forall_forall in Hg. destruct (Hg _ Hin) as [Hne Hs]. cbn in Hs.
  by destruct k.
Qed.

Lemma filter_sep_none g : Forall (fun x => sep x = true) g → filter (fun x => sep x = false) g = [].
Proof. induction 1 as [|x g Hx _ IH]; [done|]. by rewrite filter_cons_False by congruence. Qed.

Lemma filter_sep_all g : Forall (fun x => sep x = false) g → filter (fun x => sep x = false) g = g.
Proof. induction 1 as [|x g Hx _ IH]; [done|]. rewrite filter_cons_True by done. by rewrite IH. Qed.

Lemma split_groups_join l : mjoin (split sep l) = filter (fun x => sep x = false) l.
Proof.
  destruct (groupby_spec l) as [Hg Hl]. rewrite <- Hl at 2. unfold split.
  induction (groupby sep l) as [|[k g] gs IH] in Hg |- *; [done|].
  apply Forall_cons in Hg as [[_ Hk] Hg]. cbn in Hk. change (mjoin (((k, g) :: gs).*2)) with (g ++ mjoin gs.*2). rewrite filter_app, <- (IH Hg).
  destruct k.
  - rewrite filter_cons_False, filter_sep_none by (done || (by intros [])). done.
  - rewrite filter_cons_True, filter_sep_all by done. done.
Qed.
End groups.

(** ** Activations and row changes *)

(** The rows of the activations of a group. *)
Definition act_rows (g : list Command) : list (option Z) := row <$> filter (fun cmd => named "ACT" cmd) g.

(** The number of elements that differ from the one before. *)
Fixpoint changes {A} `{EqDecision A} (last : A) (l : list A) : nat :=
  match l with
  | [] => 0
  | x :: l' => (if bool_decide (x = last) then 0 else 1) + changes x l'
  end%nat.

(** No element equals the one before. *)
Fixpoint alternates {A} (last : A) (l : list A) : Prop :=
  match l with
  | [] => True
  | x :: l' => x ≠ last ∧ alternates x l'
  end.

Lemma changes_le {A} `{EqDecision A} l (last : A) : (changes last l ≤ length l)%nat.
Proof. revert last; induction l as [|x l IH]; intros last; cbn; [lia|]. specialize (IH x). case_bool_decide; lia. Qed.

Lemma changes_all {A} `{EqDecision A} l (last : A) : changes last l = length l ↔ alternates last l.
Proof.
  revert last; induction l as [|x l IH]; intros last; cbn; [done|]. rewrite <- IH.
  pose proof (changes_le l x). case_bool_decide; split; [lia|by intros []|intros; split; [done|lia]|intros [_ ?]; lia].
Qed.

Lemma act_rows_cons cmd g :
  act_rows (cmd :: g) = if named "ACT" cmd then row cmd :: act_rows g else act_rows g.
Proof.
  unfold act_rows. destruct (named "ACT" cmd) eqn:E.
  - by rewrite filter_cons_True by by rewrite E.
  - rewrite filter_cons_False; [done|]. rewrite E. by intros [].
Qed.

Lemma length_act_rows g : length (act_rows g) = length (filter (fun cmd => named "ACT" cmd) g).
Proof. apply length_fmap. Qed.

Lemma toggle_fold g : ∀ last n,
  Forall (fun cmd => named "WR" cmd = false ∧ named "REF" cmd = false) g →
  snd <$> result_fold toggle_step (last, n) g = Ok (n + changes last (act_rows g)).
Proof.
  induction g as [|cmd g IH]; intros last n Hg; [cbn; f_equal; lia|].
  apply Forall_cons in Hg as [[Hw Hr] Hg]. cbn [result_fold toggle_step]. rewrite Hw, Hr, act_rows_cons.
  cbn [orb negb passert mbind result_bind]. destruct (named "ACT" cmd); cbn [andb changes]; [|by apply IH].
  case_bool_decide as Hrow; cbn [negb]; rewrite ok_bind, (IH _ _ Hg); f_equal; [by rewrite Hrow|lia].
Qed.

Lemma toggle_write g : ∀ st,
  Exists (fun cmd => named "WR" cmd = true) g → result_fold toggle_step st g = Raise AssertionError.
Proof.
  induction g as [|cmd g IH]; intros [last n] Hg; [by apply Exists_nil in Hg|].
  cbn [result_fold toggle_step]. destruct (named "WR" cmd) eqn:Hw; [done|].
  apply Exists_cons in Hg as [Hg|Hg]; [congruence|].
  destruct (named "REF" cmd); [done|]. cbn [orb negb passert mbind result_bind].
  by case_match; rewrite ok_bind; apply IH.
Qed.

Lemma toggle_counts_ok groups :
  Forall (Forall (fun cmd => named "WR" cmd = false ∧ named "REF" cmd = false)) groups →
  result_map (fun g => snd <$> result_fold toggle_step (None, 0) g) groups
  = Ok ((fun g => Z.of_nat (changes None (act_rows g))) <$> groups).
Proof. intros Hg. apply result_map_ok. eapply Forall_impl; [done|]. intros g Hw. by rewrite toggle_fold. Qed.

Lemma toggle_counts_write groups :
  Exists (Exists (fun cmd => named "WR" cmd = true)) groups →
  Forall (Forall (fun cmd => named "REF" cmd = false)) groups →
  result_map (fun g => snd <$> result_fold toggle_step (None, 0) g) groups = Raise AssertionError.
Proof.
  induction groups as [|g groups IH]; intros Hw Hr; [by apply Exists_nil in Hw|].
  apply Forall_cons in Hr as [Hr Hrs]. cbn.
  destruct (decide (Exists (fun cmd => named "WR" cmd = true) g)) as [He|He]; [by rewrite toggle_write|].
  apply Exists_cons in Hw as [Hw|Hw]; [done|]. rewrite toggle_fold, ok_bind, IH; [done..|].
  apply not_Exists_Forall in He; [|apply _]. apply Forall_and. split; [|done].
  eapply Forall_impl; [exact He|]. cbn. intros cmd. by destruct (named "WR" cmd).
Qed.

(** C13: The two statistics of a log, which the script takes to be the same.  Without
    writes, the row changes between refreshes are counted without an error; there
    are at most as many as activations, and the two statistics are equal exactly
    when between two refreshes no row is activated twice in succession (and the
    first activation has a row).  With a write, the assertion fails. *)
Theorem toggles_against_acts commands :
  (Exists (fun cmd => named "WR" cmd = true) commands →
   row_toggle_counts_between_refs commands = Raise AssertionError)
  ∧ (Forall (fun cmd => named "WR" cmd = false) commands →
     ∃ toggles, row_toggle_counts_between_refs commands = Ok toggles
     ∧ Forall2 Z.le toggles (act_counts_between_refs commands)
     ∧ (toggles = act_counts_between_refs commands
        ↔ Forall (fun g => alternates None (act_rows g)) (split (named "REF") commands))).
Proof.
  pose proof (split_groups (named "REF") commands) as Hg. apply Forall_and in Hg as [_ Hg].
  pose proof (split_groups_join (named "REF") commands) as Hj. unfold row_toggle_counts_between_refs, act_counts_between_refs.
  split.
  - intros Hw. apply toggle_counts_write; [|done]. apply Exists_exists in Hw as (cmd & Hin & Hw).
    assert (cmd ∈ mjoin (split (named "REF") commands)) as (g & Hc & Hgs)%list_elem_of_join.
    { rewrite Hj. apply list_elem_of_filter. split; [|done]. unfold named in *.
      apply bool_decide_eq_true in Hw. by rewrite Hw. }
    apply Exists_exists. exists g. split; [done|]. apply Exists_exists. by exists cmd.
  - intros Hw. eexists. split; [apply toggle_counts_ok|split].
    + apply Forall_forall. intros g Hin. apply Forall_forall. intros cmd Hc.
      rewrite Forall_forall in Hg. specialize (Hg g Hin). rewrite Forall_forall in Hg, Hw. split; [|by apply Hg].
      apply Hw. eapply (list_elem_of_filter (fun x => named "REF" x = false)). rewrite <- Hj. apply list_elem_of_join. eauto.
    + apply Forall2_fmap, Forall_Forall2_diag, Forall_true. intros g.
      pose proof (changes_le (act_rows g) None) as Hle. rewrite length_act_rows in Hle. lia.
    + induction (split (named "REF") commands) as [|g gs IH] in |- *; [done|]. cbn [fmap list_fmap].
      rewrite Forall_cons, <- IH, <- changes_all, length_act_rows.
      split; [intros [= E1 E2]; split; [lia|done]|intros [-> ->]; done].
Qed.

(** Row 5 is activated twice in succession after the refresh. *)
Lemma toggles_against_acts_witness :
  let act r := MkCommand 0 (chars "ACT") 0 (Bank 0) (Some r) None None in
  let ref := MkCommand 0 (chars "REF") 0 (Bank 0) None None None in
  let commands := [act 1; act 2; ref; act 5; act 5] in
  row_toggle_counts_between_refs commands = Ok [2; 1] ∧ act_counts_between_refs commands = [2; 2]
  ∧ Forall2 Z.le [2; 1] [2; 2].
Proof.
  intros act ref commands. destruct (toggles_against_acts commands) as [_ H].
  destruct H as (toggles & E & Hle & _); [by repeat constructor|].
  vm_compute in E. injection E as <-. split_and!; [reflexivity..|exact Hle].
Defined.

(** The filter for short periods needs two long ones. *)
Example filter_counts_cases :
  filter_counts [1; 9; 8; 2; 7] 2 = Ok [8] ∧ filter_counts [1; 9] 2 = Raise IndexError ∧ filter_counts [] 2 = Raise IndexError.
Proof. by vm_compute. Qed.
