(* ===== verification/Reports.v ===== *)
(** * Reports at the end of an experiment

    The tables, statistics and files at the end of an experiment: [summarize] of the
    payload generators [half_double_analysis.py], [hammer_tolerance.py], [idle.py] and
    [logged_row_list.py] of [src/rowhammer_tester/scripts/playbook/payload_generators/],
    and [print_stats] of [src/rowhammer_tester/scripts/sim_runner.py].  A function that
    prints gives the printed values. *)

From Stdlib Require Import QArith.
From stdpp Require Import gmap sorting pretty.
From S2P Require Import Prelude HalfDouble PyString SimRunner Config PayloadGenerators PyJson GeneratedFiles VisFiles AttackLog.
#[local] Open Scope Z_scope.

(** ** Histograms of pairs *)

(** The order of dilutions, [math.inf] being the greatest. *)
Definition dilution_le (a b : option Z) : Prop :=
  match a, b with
  | Some x, Some y => x ≤ y
  | _, None => True
  | None, Some _ => False
  end.
#[global] Instance dilution_le_dec a b : Decision (dilution_le a b).
Proof. destruct a, b; unfold dilution_le; apply _. Defined.
#[global] Instance dilution_le_total : Total dilution_le.
Proof. intros [x|] [y|]; cbn; try tauto. lia. Qed.
#[global] Instance dilution_le_trans : Transitive dilution_le.
Proof. intros [x|] [y|] [z|]; cbn; try tauto. lia. Qed.

(** [dilution // 2]; for [math.inf] Python gives [nan], here [None]. *)
Definition half (dilution : option Z) : option Z := (fun d => d / 2) <$> dilution.

Section histogram.
Context {A : Type} (missing : A).      (* the value of a [defaultdict] *)

Definition dilutions (histo : gmap histo_key A) : list (option Z) :=
  merge_sort dilution_le (base.elements (list_to_set (C := gset (option Z)) (map_to_list histo).*1.*1)).
Definition hammer_counts (histo : gmap histo_key A) : list Z :=
  merge_sort Z.le (base.elements (list_to_set (C := gset Z) (map_to_list histo).*1.*2)).

(** The header and the lines. *)
Definition print_pair_histogram (histo : gmap histo_key A) : list Z * list (option Z * list A) :=
  (hammer_counts histo,
   (fun d => (half d, (fun h => default missing (histo !! (d, h))) <$> hammer_counts histo)) <$> dilutions histo).

Lemma elem_of_dilutions histo d : d ∈ dilutions histo ↔ ∃ h v, histo !! (d, h) = Some v.
Proof.
  unfold dilutions. rewrite merge_sort_Permutation, elem_of_elements, elem_of_list_to_set. split.
  - intros ([d' h] & -> & Hk)%list_elem_of_fmap. apply list_elem_of_fmap in Hk as ([k v] & E & Hk%elem_of_map_to_list). cbn in *. subst k. by exists h, v.
  - intros (h & v & Hk). apply list_elem_of_fmap. exists (d, h). split; [done|]. apply list_elem_of_fmap. exists ((d, h), v).
    split; [done|]. by apply elem_of_map_to_list.
Qed.

Lemma elem_of_hammer_counts histo h : h ∈ hammer_counts histo ↔ ∃ d v, histo !! (d, h) = Some v.
Proof.
  unfold hammer_counts. rewrite merge_sort_Permutation, elem_of_elements, elem_of_list_to_set. split.
  - intros ([d h'] & -> & Hk)%list_elem_of_fmap. apply list_elem_of_fmap in Hk as ([k v] & E & Hk%elem_of_map_to_list). cbn in *. subst k. by exists d, v.
  - intros (d & v & Hk). apply list_elem_of_fmap. exists (d, h). split; [done|]. apply list_elem_of_fmap. exists ((d, h), v).
    split; [done|]. by apply elem_of_map_to_list.
Qed.

(** The table has one line per dilution and one column per number of hammers, in
    order, and every entry of the dictionary is in its place. *)
Lemma histogram_complete histo d h v :
  histo !! (d, h) = Some v →
  let '(header, lines) := print_pair_histogram histo in
  NoDup header ∧ Sorted Z.le header ∧ NoDup (dilutions histo) ∧ Sorted dilution_le (dilutions histo)
  ∧ ∃ i j, header !! j = Some h ∧ dilutions histo !! i = Some d
    ∧ ∃ vs, lines !! i = Some (half d, vs) ∧ length vs = length header ∧ vs !! j = Some v.
Proof.
  intros Hv. cbn. split_and!.
  - unfold hammer_counts. rewrite merge_sort_Permutation. apply NoDup_elements.
  - apply Sorted_merge_sort. apply _.
  - unfold dilutions. rewrite merge_sort_Permutation. apply NoDup_elements.
  - apply Sorted_merge_sort. apply _.
  - assert (d ∈ dilutions histo) as [i Hi]%list_elem_of_lookup by (apply elem_of_dilutions; eauto).
    assert (h ∈ hammer_counts histo) as [j Hj]%list_elem_of_lookup by (apply elem_of_hammer_counts; eauto).
    exists i, j. split_and!; [done|done|]. eexists. rewrite list_lookup_fmap, Hi. split; [done|].
    split; [by rewrite length_fmap|]. by rewrite list_lookup_fmap, Hj; cbn; rewrite Hv.
Qed.
End histogram.

(** [summarize]: flipped bits, flipped rows, victims. *)
Definition hd_summarize (s : HalfDouble.hd) :=
  (print_pair_histogram 0 (bit_count s), print_pair_histogram 0 (row_count s), print_pair_histogram [] (victim_list s)).

(** Flips found without distance-two hammering have the dilution [math.inf], whose line
    is labelled [nan]. *)
Example infinite_dilution_label :
  print_pair_histogram 0 (<[(None, 1000) := 3]> (<[(Some 4, 1000) := 2]> ∅)) = ([1000], [(Some 2, [2]); (None, [3])]).
Proof. vm_compute. reflexivity. Qed.

(** ** Hammer tolerance

    The counters of a step; nested dictionaries are listed key by key. *)
Definition key_le {V} (p q : Z * V) : Prop := p.1 ≤ q.1.
#[global] Instance key_le_dec {V} (p q : Z * V) : Decision (key_le p q).
Proof. unfold key_le. apply _. Defined.
#[global] Instance key_le_total {V} : Total (@key_le V).
Proof. intros [x ?] [y ?]. unfold key_le. cbn. lia. Qed.
Definition sorted_items {V} (m : gmap Z V) : list (Z * V) := merge_sort key_le (map_to_list m).

Lemma sorted_items_spec {V} (m : gmap Z V) :
  NoDup (sorted_items m).*1 ∧ Sorted key_le (sorted_items m)
  ∧ ∀ k v, (k, v) ∈ sorted_items m ↔ m !! k = Some v.
Proof.
  unfold sorted_items. split_and!.
  - rewrite merge_sort_Permutation. apply NoDup_fst_map_to_list.
  - apply Sorted_merge_sort. apply _.
  - intros k v. rewrite merge_sort_Permutation. apply elem_of_map_to_list.
Qed.

(** Two levels of keys. *)
Definition by_key {K V} `{Countable K} (m : gmap (K * Z) V) : gmap K (gmap Z V) := map_curry (M1 := gmap K) (M2 := gmap Z) m.

Lemma lookup_by_key {K V} `{Countable K} (m : gmap (K * Z) V) i j : (by_key m !! i ≫= fun x => x !! j) = m !! (i, j).
Proof. apply (lookup_map_curry (M1 := gmap K) (M2 := gmap Z)). Qed.

Definition nested_items {V} (m : gmap (Z * Z) V) : list (Z * list (Z * V)) := prod_map id sorted_items <$> sorted_items (by_key m).
Definition nested2_items {V} (m : gmap (Z * Z * Z) V) : list (Z * list (Z * list (Z * V))) :=
  prod_map id (fun x : gmap Z (gmap Z V) => prod_map id sorted_items <$> sorted_items x) <$> sorted_items (by_key (by_key m)).

Lemma elem_of_items {V W} (f : V → W) (m : gmap Z V) k w :
  (k, w) ∈ prod_map id f <$> sorted_items m ↔ ∃ v, m !! k = Some v ∧ w = f v.
Proof.
  rewrite list_elem_of_fmap. split.
  - intros ([k' v] & [= -> ->] & Hv). exists v. split; [|done]. by apply sorted_items_spec in Hv.
  - intros (v & Hv & ->). exists (k, v). split; [done|]. by apply sorted_items_spec.
Qed.

(** Every counter is listed, under its keys, and nothing else. *)
Lemma nested_items_spec {V} (m : gmap (Z * Z) V) s k v :
  m !! (s, k) = Some v ↔ ∃ items, (s, items) ∈ nested_items m ∧ (k, v) ∈ items.
Proof.
  unfold nested_items. rewrite <- lookup_by_key. split.
  - intros (x & Hx & Hv)%bind_Some. exists (sorted_items x). rewrite elem_of_items. split; [by exists x|]. by apply sorted_items_spec.
  - intros (items & (x & Hx & ->)%elem_of_items & Hv). rewrite Hx. cbn. by apply sorted_items_spec in Hv.
Qed.

Lemma nested2_items_spec {V} (m : gmap (Z * Z * Z) V) s c k v :
  m !! (s, c, k) = Some v ↔ ∃ chips items, (s, chips) ∈ nested2_items m ∧ (c, items) ∈ chips ∧ (k, v) ∈ items.
Proof.
  unfold nested2_items. rewrite <- lookup_by_key. split.
  - intros (x & Hx & Hv)%bind_Some. rewrite <- lookup_by_key in Hx. apply bind_Some in Hx as (y & Hy & Hx).
    exists (prod_map id sorted_items <$> sorted_items y), (sorted_items x). rewrite !elem_of_items. split_and!; [by exists y|by exists x|by apply sorted_items_spec].
  - intros (chips & items & (y & Hy & ->)%elem_of_items & (x & Hx & ->)%elem_of_items & Hv).
    rewrite <- lookup_by_key, Hy. cbn. rewrite Hx. cbn. by apply sorted_items_spec in Hv.
Qed.

Record tolerance_report := ToleranceReport {
  tr_row_errors : list (Z * Z);
  tr_bit_errors : list (Z * Z);
  tr_details : option (list (Z * list (Z * Z)) * list (Z * list (Z * list (Z * Z))) * list (Z * list (Z * list (Z * Z))) * list (Z * list (Z * Z)));
}.

(** With a baseline only rows and bits are printed. *)
Definition tolerance_summarize (s : HammerTolerance.t) : tolerance_report :=
  let x := HammerTolerance.st s in
  ToleranceReport (sorted_items (HammerTolerance.row_errors x)) (sorted_items (HammerTolerance.bit_errors x))
    (if HammerTolerance.baseline s then None
     else Some (nested_items (HammerTolerance.beat_errors x), nested2_items (HammerTolerance.chip_errors_per_read x),
                nested2_items (HammerTolerance.chip_errors_per_beat x), nested_items (HammerTolerance.chips_with_errors_per_beat x))).

(** ** Logs of row flips

    [json.dump] of the list of iterations; the order of the keys is that of the map. *)
Definition desc_json (x : row_desc) : json :=
  JObj [("physical_row", JNum (physical_row x));
        ("col", JObj ((fun c => (pretty c.1, JList (JNum <$> c.2))) <$> map_to_list (desc_col x)));
        ("bitflips", JNum (desc_bitflips x))]%string.
Definition log_json (err_summary : list (gmap Z row_desc)) : json :=
  JList ((fun d => JObj ((fun e => (pretty e.1, desc_json e.2)) <$> map_to_list d)) <$> err_summary).

Definition log_summarize (log_dir : option text) (time : text) (err_summary : list (gmap Z row_desc)) (fs : files) : files :=
  match log_dir with
  | None | Some [] => fs
  | Some dir => <[summary_file dir time := dump (log_json err_summary)]> fs
  end.

Lemma writable_keyed {V} (f : V → json) (m : gmap Z V) :
  (∀ v, writable (f v)) → writable (JObj ((fun e => (pretty e.1, f e.2)) <$> map_to_list m)).
Proof.
  intros Hf. apply writable_obj.
  - rewrite <- list_fmap_compose. change (NoDup ((pretty ∘ fst) <$> map_to_list m)). rewrite list_fmap_compose.
    apply (NoDup_fmap_2 _), NoDup_fst_map_to_list.
  - apply Forall_fmap, Forall_forall. intros e _. split; [apply printable_pretty|apply Hf].
Qed.

(** The file is read back as what was logged. *)
Lemma log_read_back dir time err_summary fs :
  dir ≠ [] →
  ∃ t, read_file (summary_file dir time) (log_summarize (Some dir) time err_summary fs) = Ok t ∧ loads t = Ok (log_json err_summary).
Proof.
  intros Hdir. exists (dump (log_json err_summary)). split.
  - unfold read_file, log_summarize. destruct dir; [done|]. by rewrite lookup_insert_eq.
  - apply loads_dump. induction err_summary as [|d l IH]; [done|]. split; [|exact IH]. apply (writable_keyed desc_json).
    intros x. apply writable_obj; [by apply (bool_decide_unpack _)|].
    repeat (apply Forall_cons; split; [split; [by apply printable_const|]|]); [done| |done|by apply Forall_nil].
    apply (writable_keyed (fun l => JList (JNum <$> l))). apply writable_nums.
Qed.

(** ** Activations between refreshes

    [statistics.mean], the square of [statistics.stdev], and [statistics.median], as exact
    rationals (the script rounds them to two digits); too few data raise a
    [StatisticsError], which is a [ValueError]. *)
Definition mean (l : list Z) : result Q :=
  if decide (length l = 0%nat) then Raise ValueError else Ok (inject_Z (zsum l) / inject_Z (length l))%Q.

Definition variance (l : list Z) : result Q :=
  let n := Z.of_nat (length l) in
  let squares := zsum ((fun x => x * x) <$> l) in
  if decide (n < 2) then Raise ValueError
  else Ok (inject_Z (n * squares - zsum l * zsum l) / inject_Z (n * (n - 1)))%Q.

(** Twice the median. *)
Definition median2 (l : list Z) : result Z :=
  let s := merge_sort Z.le l in
  let n := length l in
  if decide (n = 0%nat) then Raise ValueError
  else if Nat.even n then Ok (default 0 (s !! (n / 2 - 1)%nat) + default 0 (s !! (n / 2)%nat))
  else Ok (2 * default 0 (s !! (n / 2)%nat)).

Record stats_report := StatsReport {
  sr_periods : Z;
  sr_mean : Q;
  sr_variance : Q;
  sr_median : Q;
  sr_per_period : Q;           (* activations in 8192 refresh periods *)
  sr_frequency : Q;            (* per second *)
}.

Definition print_stats (counts : list Z) : result stats_report :=
  counts ← filter_counts counts 2;
  m ← mean counts;
  v ← variance counts;
  med2 ← median2 counts;
  let median := (inject_Z med2 / 2)%Q in
  let per_period := (median * 8192)%Q in
  Ok (StatsReport (length counts) m v median per_period (per_period / (64 # 1000))%Q).

Lemma pop_last_length {A} (l l' : list A) : pop_last l = Ok l' → length l = S (length l').
Proof.
  destruct l as [|x l _] using rev_ind; [done|].
  assert (pop_last (l ++ [x]) = Ok l) as -> by (unfold pop_last; rewrite removelast_last; by destruct l).
  intros [= <-]. rewrite length_app. cbn. lia.
Qed.

Lemma filter_counts_length counts min_len l :
  filter_counts counts min_len = Ok l →
  length (filter (fun c => min_len < c) counts) = S (S (length l)).
Proof.
  unfold filter_counts. set (f := filter _ counts). destruct f as [|x f]; [done|].
  intros H. cbn. f_equal. by apply pop_last_length.
Qed.

Lemma filter_counts_ok counts min_len :
  (2 ≤ length (filter (fun c => (min_len < c)%Z) counts))%nat → ∃ l, filter_counts counts min_len = Ok l.
Proof.
  unfold filter_counts. set (f := filter _ counts). destruct f as [|x [|y f]]; cbn; [lia|lia|eauto].
Qed.

(** A run needs four refresh periods with more than two activations: the first and the
    last are dropped, and the deviation needs two. *)
Lemma print_stats_defined counts :
  (∃ r, print_stats counts = Ok r) ↔ (4 ≤ length (filter (fun c => (2 < c)%Z) counts))%nat.
Proof.
  unfold print_stats. split.
  - intros [r H]. destruct (filter_counts counts 2) as [l|e] eqn:E; [|done].
    apply filter_counts_length in E as ->. cbn in H.
    destruct (decide (length l < 2)%nat) as [Hl|Hl]; [|lia].
    unfold mean, variance in H. repeat case_decide; cbn in *; done || lia.
  - intros H. destruct (filter_counts_ok counts 2) as [l E]; [lia|]. rewrite E. cbn.
    apply filter_counts_length in E. unfold mean, variance, median2.
    repeat (case_decide; [lia|]). cbn. destruct (Nat.even _); cbn; eauto.
Qed.

Example four_periods :
  print_stats [1; 9; 10; 13; 8] = Ok (StatsReport 2 (23 # 2) (9 # 2) (23 # 2) (188416 # 2) (188416000 # 128))
  ∧ print_stats [9; 10; 8] = Raise ValueError.
Proof. vm_compute. split; reflexivity. Qed.
